(* ===== verification/_CoqProject ===== *)
-Q . S2P
Prelude.v
Text.v
Base64.v
Crypto.v
Storage.v
Vault.v
Generator.v
Background.v
Handlers.v
Session.v
Machine.v
Refinement.v
Interleave.v
Liveness.v
Options.v
Popup.v
Content.v
Browser.v
System.v
Reference.v
Examples.v
