(* ===== verification/Prelude.v ===== *)
(** * PassVault: a verification development

    PassVault is a browser extension (Manifest V3) that keeps a credential
    vault encrypted at rest.  Its sources are under [src/extension/]:

    - [scripts/crypto.js]    PBKDF2 key derivation, AES-GCM encryption of JSON
                             payloads, base64 of byte arrays;
    - [scripts/storage.js]   a key-value layer over one IndexedDB object store;
    - [background.js]        the service worker: the key in memory, locking,
                             unlocking and resuming, the auto-lock alarm and
                             the operations on the vault, driven by messages;
    - [scripts/generator.js] the password generator;
    - [content.js]           the content script of every page: it finds the
                             login fields, fills them, offers a picker and
                             captures what the user submits;
    - [popup.js]             the popup: the form that unlocks, the list of
                             the credentials with its search, the form that
                             adds one and the dialog that edits one;
    - [options.js]           the options page: the theme and the duration of
                             the auto-lock.

    ** How the parts interact

    A page, the popup or the options page sends a message; [background.js]
    dispatches on its [type], restores the key from [chrome.storage.session]
    when the worker has lost it, reads the encrypted record through
    [storage.js], decrypts or encrypts it with [crypto.js] and answers.  The
    options page also reads and writes [chrome.storage.local] itself.  [content.js] asks for the
    credentials of the origin of its page and writes them to the fields it
    has found; the worker creates three items in the context menu when the
    extension is installed, and a click on one of them fills the page or
    writes to the focused field.  The browser may stop the worker between
    any two messages: its global variables are lost, the storage areas, the
    database, the alarm and the menu are not.

    ** Files of the development, in the order of their dependencies

    - [Prelude]    (this file) the monad [M S A := S -> outcome A * S] of state
                   and JavaScript exceptions with [try_catch], lenses ([zoom])
                   to run a component's code on its part of the state, loops
                   as folds ([foldM], [for_loop]), the weakest precondition
                   [wp] for total correctness, and three judgements that
                   follow the code of a listener through its branches:
                   [total] (it returns), [yields] (what it returns) and
                   [respects] (how the state it leaves relates to the state
                   it starts from, for a preorder); the JavaScript built-ins
                   the sources call ([||] on numbers, [Math.max],
                   [Math.round], [findIndex], [includes]), bytes as [Z], the
                   hint database [js] and the tactics [mrun], [orun] and
                   [by_cases].
    - [Text]       the built-ins on strings: [toLowerCase], [includes],
                   [trim], [split], [join], [parseInt], [String] of an
                   integer; [escapeHtml] of [content.js] and [popup.js].
    - [Base64]     [btoa] and [atob] as the HTML standard defines them and
                   [bytesToBase64], [base64ToBytes] of [crypto.js].
    - [Crypto]     the interfaces [WebCrypto], [IdealAEAD] and [JSON]: what
                   the platform's PBKDF2, AES-GCM, random source and JSON
                   promise; the key objects of [crypto.subtle] with their
                   usages; [deriveKeyPBKDF2], [encryptJSON], [decryptJSON].
    - [Storage]    [ensureDB], [withStore], [idbGet], [idbSet] of
                   [storage.js] over a database of named object stores, with
                   the cached [dbPromise] and atomic transactions.
    - [Vault]      the credential and the vault document, and the array
                   operations of the handlers: [upsert] ([SAVE_CREDENTIAL]),
                   [remove] ([DELETE_CREDENTIAL]), [credsForOrigin].
    - [Generator]  [rnd], [pick], [shuffle], [generatePassword] of
                   [generator.js].
    - [Background] the state [World] of the worker and the functions of
                   [background.js] in [M World]: [loadMeta], [saveMeta],
                   [resetAutolockTimer], [lockVault], [ensureInit],
                   [deriveKeyFromMeta], [getVaultJson], [setVaultJson],
                   [tryRestoreKeyFromSession], [handle] with one branch per
                   message type, [onMessage], [onAlarm], [onInstalled],
                   [getCredsForOrigin]; then one equation per function giving
                   its result and the state it leaves.
    - [Handlers]   the same for every message: the response of [onMessage]
                   and the state after it, on every branch.
    - [Session]    the worker as a labelled transition system [step] over
                   the events message, alarm, installation, worker restart,
                   browser restart, clock tick, lookup of the context menu
                   and write of the theme; [reachable] states; the executable
                   [react] and [replay]; [ran], the preorder of the states of
                   a page and the worker between which the worker has made a
                   run; the menu of the reachable states.
    - [Machine]    the abstract vault [astep]: a salt, a master key, a
                   document, a duration and two bits, with no cipher, no
                   database and no timer.
    - [Refinement] the relation [R] between the two and the simulation:
                   every step of the worker is a step of the abstract vault
                   with the same label; the invariants of the reachable
                   states that follow.
    - [Interleave] the handlers of the four messages on the credentials
                   split at the [await] where they hold a copy of the
                   document, and run in any order with the other events in
                   between.
    - [Liveness]   runs of the worker without end, the two fairness
                   assumptions on the browser, and the theorem that an idle
                   worker locks the vault.
    - [Options]    the options page: [load], [saveSecurity], [saveTheme] of
                   [options.js] on the pair of the worker and the page.
    - [Popup]      the popup: the document as maps from element ids, and
                   every function and listener of [popup.js]: [status],
                   [unlock], [refreshList], [saveCredential], [genPassword],
                   [openEditDialog], the listeners that [wire] adds and the
                   ones of the items of the list.
    - [Content]    the page as the list of its [input] elements and its
                   forms, and every function and listener of [content.js]:
                   [findFields], [isVisible], [setValue], [applyCred],
                   [fetchCreds], [maybeAutofill], [renderPicker],
                   [ensureSaveHook], the listeners of [input],
                   [submit], [focus], [focusin], of the mutation observer
                   and of [chrome.runtime.onMessage].
    - [Browser]    a page and the worker together: the listener of
                   [chrome.contextMenus.onClicked] of [background.js], the
                   transition system [bstep] of the events of both, and the
                   theorems that need both sides.
    - [System]     the popup, the options page, a tab and the worker
                   together: a lens for each page runs its code on the
                   whole, [sstep] is the transition system of the events of
                   all of them, and the theorems follow a credential from
                   one page through the worker to another.
    - [Reference]  executable instances of the interfaces.
    - [Examples]   every theorem that has a hypothesis, applied to a concrete
                   input on which the hypotheses hold.

    ** Modelling conventions

    - JavaScript numbers that the code uses as integers (milliseconds,
      minutes, indices, character codes) are [Z]; bytes are [Z] with
      [is_byte], and the conversion to [Uint8Array] is [wrap8].
      [Math.round(a / b)] on integers is [Math_round_div], exact below 2^53.
      [rnd] of the generator is the 32-bit unsigned integer of four bytes.
    - A thrown exception is the outcome [Throw msg]; [try / catch] is
      [try_catch].  The state at the throw is kept: JavaScript does not roll
      effects back.  [msg] is the message of the errors the sources create
      and the name of the exception for those the platform throws.
    - A page that talks to the worker runs on the pair of the state of
      the worker and its own state; [chrome.runtime.sendMessage(msg)] is
      [zoom (onMessage msg)] on the first component.  What the user does is
      an event of the page ([PopupEvent], [OptionsEvent], [PageEvent]).
    - Strings are strings of one-byte characters; [toLowerCase] and the
      white space of [trim] and [parseInt] are the ones of ASCII and
      Latin-1.  [parseInt] and [String] are on mathematical integers: the
      rounding of a run of more than fifteen digits to a double, and the
      exponent notation of [String] from 10^21 on, are not modelled.
    - The context menu of the extension is the field [menus] of the state
      of the worker: [chrome.contextMenus.create] appends an item whose id
      is not taken.
    - [Date.now()] is the field [clock] of the state, moved by the event
      [Tick]; [crypto.getRandomValues] reads the stream [random_byte] of the
      interface at the cursor [entropy] of the state.
    - The cryptographic primitives are not implemented: [WebCrypto] lists the
      equations the theorems use.  "Opening under another key fails" holds of
      AES-GCM up to a negligible probability only; it is the class
      [IdealAEAD], and the theorems that need it say so.

    ** Bounds and termination

    No definition takes fuel.  The loops of the sources are bounded by a
    value computed before the loop ([for] over the bytes of an array, over
    the characters of a string, over [0 .. length)) and are folds over that
    range; [generatePassword_returns] and the equations of [Handlers] state
    that the functions return, with their results; [popup_event_total]
    states it of every listener of the popup.  The runs of [Liveness] are
    functions of [nat], not limits of finite runs.  The only bound of the
    model is on the events a session can contain, below.

    ** What is proved

    - [Base64], [Crypto]: the round trips of base64, of a key through its
      JWK and of [encryptJSON] / [decryptJSON]; opening succeeds exactly under
      the key that sealed; the shape of the stored record; the exceptions.
    - [Storage]: what [idbSet] stores [idbGet] returns; a read-only
      transaction cannot write; a failed open is cached.
    - [Vault]: [upsert] replaces in place or appends; ids stay unique;
      [remove] undoes [upsert] of a new id; the origin filter.
    - [Generator]: [generatePassword] returns a password of the clamped
      length over the selected alphabet with a character of every selected
      class, after a known number of random bytes; [shuffle] permutes.
    - [Text]: [parseInt] reads back what [String] prints; [split] undoes
      [join]; [trim] is idempotent and adds no character; [escapeHtml]
      leaves no character of markup.
    - [Background], [Handlers]: the response to a request has the shape the
      pages read for it, in every state; the behaviour of every handler on
      every branch, errors included: [LOCK] forgets the key in both places, the
      floor of [SET_AUTOLOCK], the first [UNLOCK] creates the vault; the
      alarm is set in whole minutes, not to the configured duration.
    - [Refinement]: the simulation, and from it, in every reachable state:
      the stored record opens under the master key and no other; the key in
      memory is the key of the session; the salt never changes; the duration
      is at least a minute; a wrong password is refused; what is saved is
      listed; the vault is still unlocked after a restart of the worker.
    - [Session]: the alarm locks the worker that holds the key; the menu
      is empty or holds the items of [onInstalled], whatever the messages
      and alarms in between ([respects] for the relation [same_menu]); and
      two runs on which the worker departs from what the
      extension promises: an alarm that reaches a worker started after the
      unlock does not lock, and a resumed worker re-arms the timer with the
      default duration.
    - [Interleave]: a handler that is not interrupted is the handler of
      [Session]; under every interleaving at that [await] the stored record
      still opens under the master key; and of two handlers that have both
      read the document, the one that writes last undoes the edit of the
      other (a lost update, which the atomic handlers of [Session] cannot
      show).
    - [Liveness]: in a fair run a worker that holds the key and is left
      alone is locked by the alarm.
    - [Options]: what [saveSecurity] shows and sends for every content of
      its field, and that the worker never answers it with the error of its
      floor; the duration that is shown and saved again is the stored one
      rounded to minutes; the theme that is saved is the one shown.
    - [Popup]: every listener returns and is a run of the worker; one view
      is shown; what an unlock, a save and the dialog do, composed with the
      worker of [Refinement]; what the page keeps after a lock, and what it
      does when the worker answers that the vault is locked.
    - [Content]: which password field and which companion field
      [findFields] returns, as the least indices that pass its tests; what
      [applyCred] writes and marks; what the script never changes on a
      page.
    - [Browser]: what reaches a field of a page without a choice of the
      user is a credential of the vault for the origin of the page; a field
      the user has typed into is never filled; a locked vault changes
      nothing on the page; a fill is not repeated; what the save hook
      captures is what the next page of the origin is filled with; and the
      paste of the context menu uses the origin of the page, not of the
      frame it writes to; every item of the menu has its branch in the
      click listener; and what the user types while [maybeAutofill] awaits
      the response is overwritten ([maybeAutofill] split at its [await]).
    - [System]: the invariant of the whole (the worker is in a state of
      its own transition system, the marks of the tab are consistent, the
      popup shows one view) under every interleaving of the events of the
      pages and the steps of the worker; what is saved in the popup is what
      the tab is filled with; what is deleted in the popup is not filled
      any more; after the lock button nothing is filled.

    ** Not modelled

    - The interleaving of two listeners at every [await].  In [Session],
      [Browser] and [System] a listener runs to its end before the next
      event.  Two points of interleaving are modelled apart: the [await]
      of [getVaultJson] in the handlers of the messages on the credentials
      ([Interleave]) and the [await] of [fetchCreds] in [maybeAutofill]
      ([autofill_asks], [autofill_goes_on]).  The other [await]s (inside
      [getVaultJson] and [setVaultJson], in [UNLOCK], [SET_AUTOLOCK],
      [refreshList] and the listeners of the popup) are not points of
      interleaving of the model.  [on_start] and the mutation observer
      call [ensureSaveHook] while [maybeAutofill] is pending; the model runs
      them one after the other, which gives the same page because the hook
      and the fill write to different parts of it.  [onInstalled] does not
      await [ensureInit]; the model runs it first and drops its failure.
    - The address of a click in the context menu: a [Click] carries
      [info.pageUrl || tab.url] as one field and the result of
      [new URL(url).origin] as another, which the listener reads; that the
      second is the origin of the first is not stated.
    - Failures of the database inside a session: [open_fails] stays unset in
      [Session]; [Storage] and [Background] cover the failing open on its
      own.
    - Numbers that are not integers ([SET_AUTOLOCK] with a fractional
      duration, a fractional [options.length]).
    - Changes of the structure of a page: the elements and forms of a tab
      are the ones it was loaded with, only values and marks change; the
      listeners of the page itself; the drawing of the picker.
    - The layout of the popup and of the options page, the kind of their
      controls (a control holds the string assigned to it) and the modality
      of the edit dialog: their files of markup are not among the sources.
    - The titles the browser shows for the items of the context menu are
      kept as data only, and the contexts of an item are not used to
      decide where a click can happen: a click is on an item of the menu,
      on any element.
    - More than one tab, and frames inside a tab: [System] has one tab,
      and the tab of a [Browser] is the frame of the click.  The function
      that the paste items inject is [setValue] on that frame, with the
      listener of [input] of the content script, which runs in every
      frame.
    - What the user can reach: the event of a control is enabled whether
      the control is shown or not (the Copy button of an item while the
      vault view is hidden).
    - Logging, which does nothing while [DEBUG] is false. *)

From Stdlib Require Import ZArith Lia ZifyNat.
From stdpp Require Import base tactics option list strings gmap.

#[local] Open Scope Z_scope.

(** [lia] also decides goals with division and remainder by a constant. *)
#[local] Ltac Zify.zify_post_hook ::= Z.div_mod_to_equations.

(** ** Outcomes: a value or a thrown exception *)

Inductive outcome (A : Type) : Type :=
| Ret (a : A)
| Throw (msg : string).

Arguments Ret {A} a.
Arguments Throw {A} msg.

#[export] Instance outcome_eq_dec {A} `{EqDecision A} : EqDecision (outcome A).
Proof. solve_decision. Defined.

#[export] Instance outcome_ret : MRet outcome := fun A a => Ret a.

#[export] Instance outcome_bind : MBind outcome := fun A B f o =>
  match o with
  | Ret a => f a
  | Throw e => Throw e
  end.

#[export] Instance outcome_fmap : FMap outcome := fun A B f o =>
  match o with
  | Ret a => Ret (f a)
  | Throw e => Throw e
  end.

Definition is_Ret {A} (o : outcome A) : bool :=
  match o with Ret _ => true | Throw _ => false end.

Definition of_option {A} (msg : string) (o : option A) : outcome A :=
  match o with Some a => Ret a | None => Throw msg end.

(** ** The effect monad: state and exceptions *)

Definition M (S A : Type) : Type := S -> outcome A * S.

#[export] Instance M_ret {S} : MRet (M S) := fun A a s => (Ret a, s).

#[export] Instance M_bind {S} : MBind (M S) := fun A B f m s =>
  match m s with
  | (Ret a, s') => f a s'
  | (Throw e, s') => (Throw e, s')
  end.

#[export] Instance M_fmap {S} : FMap (M S) := fun A B f m s =>
  match m s with
  | (Ret a, s') => (Ret (f a), s')
  | (Throw e, s') => (Throw e, s')
  end.

Definition get {S} : M S S := fun s => (Ret s, s).
Definition gets {S A} (f : S -> A) : M S A := fun s => (Ret (f s), s).
Definition put {S} (s : S) : M S unit := fun _ => (Ret tt, s).
Definition modify {S} (f : S -> S) : M S unit := fun s => (Ret tt, f s).
Definition throw {S A} (msg : string) : M S A := fun s => (Throw msg, s).
Definition lift {S A} (o : outcome A) : M S A := fun s => (o, s).

(** [try { m } catch (e) { h e.message }] *)
Definition try_catch {S A} (m : M S A) (h : string -> M S A) : M S A := fun s =>
  match m s with
  | (Ret a, s') => (Ret a, s')
  | (Throw e, s') => h e s'
  end.

(** The outcome of [m] as a value: what a promise of [m] settles to. *)
Definition capture {S A} (m : M S A) : M S (outcome A) := fun s =>
  match m s with (r, s') => (Ret r, s') end.

(** [try { m } catch (_) {}] *)
Definition attempt {S A} (m : M S A) : M S unit :=
  try_catch (_ ← m; mret tt) (fun _ => mret tt).

(** [if (c) m] *)
Definition when {S} (c : bool) (m : M S unit) : M S unit :=
  if c then m else mret tt.

Definition result_of {S A} (m : M S A) (s : S) : outcome A := (m s).1.
Definition state_of {S A} (m : M S A) (s : S) : S := (m s).2.

(** [wp m s Q]: run from [s], the computation [m] returns, and its result
    and final state satisfy [Q].  A computation that throws satisfies no
    postcondition. *)
Definition wp {S A} (m : M S A) (s : S) (Q : A -> S -> Prop) : Prop :=
  match m s with
  | (Ret a, s') => Q a s'
  | (Throw _, _) => False
  end.

(** [respects Q m]: whatever [m] does, returning or throwing, the state it
    leaves is related by [Q] to the state it starts from. *)
Definition respects {S A} (Q : relation S) (m : M S A) : Prop :=
  forall s, Q s (m s).2.

(** [yields Q m]: what [m] returns, when it returns, satisfies [Q]. *)
Definition yields {S A} (Q : A -> Prop) (m : M S A) : Prop :=
  forall s a s', m s = (Ret a, s') -> Q a.

(** The relation of the states that keep the invariant [I]. *)
Definition keeping {S} (I : S -> Prop) : relation S := fun s s' => I s -> I s'.

(** [total m]: [m] returns from every state. *)
Definition total {S A} (m : M S A) : Prop := forall s, exists a, (m s).1 = Ret a.

(** ** Lenses: running a component's code on its part of the state *)

Class Lens (S T : Type) := {
  view : S -> T;
  update : T -> S -> S;
  view_update : forall t s, view (update t s) = t;
  update_view : forall s, update (view s) s = s;
  update_update : forall t t' s, update t' (update t s) = update t' s;
}.

Definition zoom {S T A} `{Lens S T} (m : M T A) : M S A := fun s =>
  match m (view s) with
  | (r, t') => (r, update t' s)
  end.

(** A page and the worker it talks to are a pair of states: the code of
    either runs on its side. *)
#[export] Instance Lens_fst {A B} : Lens (A * B) A.
Proof. by refine {| view := fst; update a s := (a, s.2) |}; [..|intros []|]. Defined.

#[export] Instance Lens_snd {A B} : Lens (A * B) B.
Proof. by refine {| view := snd; update b s := (s.1, b) |}; [..|intros []|]. Defined.

Declare Scope js_scope.
Delimit Scope js_scope with js.
Notation "m ⇓ s" := (result_of m s) (at level 70, no associativity) : js_scope.
Notation "m ⇝ s" := (state_of m s) (at level 70, no associativity) : js_scope.
#[global] Open Scope js_scope.

(** ** Bytes *)

Definition is_byte (z : Z) : Prop := 0 <= z < 256.
Definition wrap8 (z : Z) : Z := z mod 256.
Definition bytes (l : list Z) : Prop := Forall is_byte l.

#[export] Instance is_byte_dec z : Decision (is_byte z).
Proof. unfold is_byte. apply _. Defined.

#[export] Instance bytes_dec l : Decision (bytes l).
Proof. unfold bytes. apply _. Defined.

(** ** Truthiness *)

(** [truthy x] is what [if (x)] tests.  An object is always truthy. *)
Class Truthy (A : Type) := truthy : A -> bool.

#[export] Instance Z_truthy : Truthy Z := fun z => negb (z =? 0).
#[export] Instance string_truthy : Truthy string := fun s => negb (String.eqb s "").
#[export] Instance bool_truthy : Truthy bool := fun b => b.

(** [x || null], where [None] is [undefined] or [null]. *)
Definition or_null {A} `{Truthy A} (x : option A) : option A :=
  match x with
  | Some a => if truthy a then Some a else None
  | None => None
  end.

(** ** JavaScript built-ins on numbers used as integers *)

(** [a || d] on numbers: [0] is falsy. *)
Definition num_or (a d : Z) : Z := if decide (a = 0) then d else a.

Definition Math_max (a b : Z) : Z := Z.max a b.
Definition Math_min (a b : Z) : Z := Z.min a b.

(** [Math.round(a / b)] for integers [a] and [b > 0]: the nearest integer,
    a half rounded up. *)
Definition Math_round_div (a b : Z) : Z := (2 * a + b) / (2 * b).

(** ** JavaScript built-ins on arrays *)

Fixpoint findIndex_from {A} (p : A -> bool) (l : list A) (i : Z) : Z :=
  match l with
  | [] => -1
  | x :: r => if p x then i else findIndex_from p r (i + 1)
  end.

(** [l.findIndex(p)]: the first index at which [p] holds, [-1] if none. *)
Definition findIndex {A} (p : A -> bool) (l : list A) : Z := findIndex_from p l 0.

(** [l.includes(x)] *)
Definition includes {A} `{EqDecision A} (l : list A) (x : A) : bool :=
  bool_decide (x ∈ l).

(** [l.push(x)] *)
Definition push {A} (l : list A) (x : A) : list A := l ++ [x].

(** [l.filter(p)] with a boolean test *)
Definition filterb {A} (p : A -> bool) (l : list A) : list A := List.filter p l.

(** [for (let i = lo; i < hi; i++) s = body(i, s)]: the loop variable is not
    assigned in the body, so the loop runs [hi - lo] times. *)
Definition for_loop {St} (lo hi : nat) (body : nat -> St -> St) (s : St) : St :=
  fold_left (fun s i => body i s) (seq lo (hi - lo)) s.

(** A loop whose body has effects: [for (const x of l) b = await body(b, x)]. *)
Fixpoint foldM {S A B} (body : B -> A -> M S B) (l : list A) (b : B) : M S B :=
  match l with
  | [] => mret b
  | x :: r => b' ← body b x; foldM body r b'
  end.

(** * Lemmas *)

(** ** The monad *)

Section monad.
Context {S : Type}.

Lemma run_ret {A} (a : A) (s : S) : mret (M := M S) a s = (Ret a, s).
Proof. reflexivity. Qed.

Lemma run_bind {A B} (m : M S A) (f : A -> M S B) s :
  (m ≫= f) s =
  match m s with (Ret a, s') => f a s' | (Throw e, s') => (Throw e, s') end.
Proof. reflexivity. Qed.

Lemma run_bind_ret {A B} (m : M S A) (f : A -> M S B) s a s' :
  m s = (Ret a, s') -> (m ≫= f) s = f a s'.
Proof. intros E. rewrite run_bind, E. reflexivity. Qed.

Lemma run_bind_throw {A B} (m : M S A) (f : A -> M S B) s e s' :
  m s = (Throw e, s') -> (m ≫= f) s = (Throw e, s').
Proof. intros E. rewrite run_bind, E. reflexivity. Qed.

Lemma run_fmap {A B} (f : A -> B) (m : M S A) s :
  (f <$> m) s =
  match m s with (Ret a, s') => (Ret (f a), s') | (Throw e, s') => (Throw e, s') end.
Proof. reflexivity. Qed.

Lemma bind_ret_l {A B} (a : A) (f : A -> M S B) s : (mret a ≫= f) s = f a s.
Proof. reflexivity. Qed.

Lemma bind_ret_r {A} (m : M S A) s : (m ≫= mret) s = m s.
Proof. rewrite run_bind. destruct (m s) as [[a|e] s']; reflexivity. Qed.

Lemma bind_assoc {A B C} (m : M S A) (f : A -> M S B) (g : B -> M S C) s :
  ((m ≫= f) ≫= g) s = (m ≫= fun a => f a ≫= g) s.
Proof. rewrite !run_bind. destruct (m s) as [[a|e] s']; reflexivity. Qed.

Lemma bind_ext {A B} (m : M S A) (f g : A -> M S B) s :
  (forall a s', f a s' = g a s') -> (m ≫= f) s = (m ≫= g) s.
Proof. intros E. rewrite !run_bind. destruct (m s) as [[a|e] s']; [apply E|reflexivity]. Qed.

Lemma run_get (s : S) : get s = (Ret s, s).
Proof. reflexivity. Qed.

Lemma run_gets {A} (f : S -> A) (s : S) : gets f s = (Ret (f s), s).
Proof. reflexivity. Qed.

Lemma run_put (s s0 : S) : put s s0 = (Ret tt, s).
Proof. reflexivity. Qed.

Lemma run_modify (f : S -> S) (s : S) : modify f s = (Ret tt, f s).
Proof. reflexivity. Qed.

Lemma run_throw {A} e (s : S) : throw (A := A) e s = (Throw e, s).
Proof. reflexivity. Qed.

Lemma run_lift {A} (o : outcome A) (s : S) : lift o s = (o, s).
Proof. reflexivity. Qed.

Lemma run_try_catch {A} (m : M S A) h s :
  try_catch m h s =
  match m s with (Ret a, s') => (Ret a, s') | (Throw e, s') => h e s' end.
Proof. reflexivity. Qed.

Lemma run_capture {A} (m : M S A) s : capture m s = (Ret (m s).1, (m s).2).
Proof. unfold capture. by destruct (m s). Qed.

Lemma run_attempt {A} (m : M S A) s : attempt m s = (Ret tt, (m s).2).
Proof.
  unfold attempt. rewrite run_try_catch, run_bind.
  destruct (m s) as [[a|e] s']; reflexivity.
Qed.

Lemma run_when_true (m : M S unit) s : when true m s = m s.
Proof. reflexivity. Qed.

Lemma run_when_false (m : M S unit) s : when false m s = (Ret tt, s).
Proof. reflexivity. Qed.

End monad.

Section lens.
Context {S T : Type} `{Lens S T}.

Lemma run_zoom {A} (m : M T A) s :
  zoom m s = ((m (view s)).1, update (m (view s)).2 s).
Proof. unfold zoom. destruct (m (view s)); reflexivity. Qed.

Lemma zoom_ret {A} (a : A) s : zoom (mret a) s = (Ret a, s).
Proof. rewrite run_zoom, run_ret. simpl. by rewrite update_view. Qed.

(** [zoom] is a monad morphism: it commutes with sequencing. *)
Lemma zoom_bind {A B} (m : M T A) (f : A -> M T B) s :
  zoom (m ≫= f) s = (zoom m ≫= fun a => zoom (f a)) s.
Proof.
  rewrite run_bind, !run_zoom, run_bind.
  destruct (m (view s)) as [[a|e] t]; simpl; [|done].
  by rewrite run_zoom, view_update, update_update.
Qed.

(** The part of the state outside the lens is untouched, whatever [m] does. *)
Lemma zoom_frame {A} (m : M T A) s t : update t (zoom m s).2 = update t s.
Proof. rewrite run_zoom. simpl. apply update_update. Qed.

End lens.

Create HintDb js discriminated.
Create Rewrite HintDb js.
#[export] Hint Rewrite @run_ret @run_get @run_gets @run_put @run_modify
  @run_throw @run_lift @run_attempt @run_when_true @run_when_false : js.

(** [mrun] unfolds one sequencing step of the monad in the goal. *)
Ltac mrun :=
  repeat first
    [ rewrite run_bind
    | rewrite run_fmap
    | rewrite run_try_catch
    | progress autorewrite with js
    | progress cbn beta iota ].

(** [orun] computes sequencing in the pure monad [outcome]. *)
Ltac orun := cbn [mbind outcome_bind mret outcome_ret fmap outcome_fmap of_option].

(** [case_run m s] splits on the outcome of running [m] from [s]. *)
Tactic Notation "case_run" constr(t) "as" ident(a) ident(s) ident(E) :=
  destruct t as [[a|a] s] eqn:E.

(** ** Bytes *)

Lemma wrap8_is_byte z : is_byte (wrap8 z).
Proof. unfold is_byte, wrap8. apply Z.mod_pos_bound. lia. Qed.

Lemma wrap8_id z : is_byte z -> wrap8 z = z.
Proof. unfold is_byte, wrap8. intros ?. by apply Z.mod_small. Qed.

Lemma bytes_wrap8 l : bytes (wrap8 <$> l).
Proof. apply Forall_fmap, Forall_true. intros z. apply wrap8_is_byte. Qed.

Lemma bytes_wrap8_id l : bytes l -> wrap8 <$> l = l.
Proof.
  induction 1 as [|z l Hz _ IH]; [done|].
  rewrite fmap_cons, IH. by rewrite wrap8_id.
Qed.

Lemma bytes_app l1 l2 : bytes (l1 ++ l2) <-> bytes l1 /\ bytes l2.
Proof. apply Forall_app. Qed.

#[export] Hint Resolve wrap8_is_byte bytes_wrap8 : js.

(** ** Truthiness *)

Lemma or_null_truthy {A} `{Truthy A} (x : option A) :
  (forall a, truthy a = true) -> or_null x = x.
Proof. intros Ht. destruct x as [a|]; [|done]. cbn. by rewrite Ht. Qed.

(** ** Numbers *)

Lemma num_or_nonzero a d : a <> 0 -> num_or a d = a.
Proof. unfold num_or. intros ?. by case_decide. Qed.

Lemma num_or_zero d : num_or 0 d = d.
Proof. reflexivity. Qed.

(** [Math_round_div a b] is the integer nearest to [a / b]. *)
Lemma Math_round_div_spec a b :
  0 < b ->
  2 * b * Math_round_div a b - b <= 2 * a < 2 * b * Math_round_div a b + b.
Proof.
  intros Hb. unfold Math_round_div.
  pose proof (Z.div_mod (2 * a + b) (2 * b) ltac:(lia)).
  pose proof (Z.mod_pos_bound (2 * a + b) (2 * b) ltac:(lia)). lia.
Qed.

Lemma Math_round_div_mul k b : 0 < b -> Math_round_div (k * b) b = k.
Proof.
  intros Hb. unfold Math_round_div.
  symmetry. apply (Z.div_unique_pos _ _ _ b); lia.
Qed.

Lemma Math_round_div_mono a a' b :
  0 < b -> a <= a' -> Math_round_div a b <= Math_round_div a' b.
Proof. intros. unfold Math_round_div. apply Z.div_le_mono; lia. Qed.

(** A property of the integers of a range is decided by running through it. *)
Lemma range_forall (P : Z -> Prop) `{!forall z, Decision (P z)} lo n :
  bool_decide (Forall P (seqZ lo n)) = true -> forall z, lo <= z < lo + n -> P z.
Proof. intros HP%bool_decide_eq_true. by apply Forall_seqZ. Qed.

(** ** Loops *)

Lemma for_loop_empty {St} lo hi (body : nat -> St -> St) s :
  (hi <= lo)%nat -> for_loop lo hi body s = s.
Proof. intros. unfold for_loop. by replace (hi - lo)%nat with 0%nat by lia. Qed.

Lemma for_loop_last {St} lo hi (body : nat -> St -> St) s :
  (lo <= hi)%nat ->
  for_loop lo (Datatypes.S hi) body s = body hi (for_loop lo hi body s).
Proof.
  intros. unfold for_loop.
  replace (Datatypes.S hi - lo)%nat with (Datatypes.S (hi - lo)) by lia.
  rewrite seq_S, fold_left_app. simpl. f_equal. lia.
Qed.

(** Loop invariant rule: [I] holds before, the body keeps it, so it holds
    after [n] iterations. *)
Lemma for_loop_invariant {St} (I : nat -> St -> Prop) n (body : nat -> St -> St) s :
  I 0%nat s ->
  (forall i s, (i < n)%nat -> I i s -> I (Datatypes.S i) (body i s)) ->
  I n (for_loop 0 n body s).
Proof.
  intros H0 Hstep. induction n as [|n IH]; [by rewrite for_loop_empty|].
  rewrite for_loop_last by lia. apply Hstep; [lia|]. apply IH.
  intros i s' ?. apply Hstep. lia.
Qed.

Lemma foldM_nil {S A B} (body : B -> A -> M S B) b s : foldM body [] b s = (Ret b, s).
Proof. reflexivity. Qed.

Lemma foldM_cons {S A B} (body : B -> A -> M S B) x l b s :
  foldM body (x :: l) b s = (body b x ≫= foldM body l) s.
Proof. reflexivity. Qed.

Lemma foldM_app {S A B} (body : B -> A -> M S B) l1 l2 b s :
  foldM body (l1 ++ l2) b s = (foldM body l1 b ≫= foldM body l2) s.
Proof.
  revert b s. induction l1 as [|x l1 IH]; intros b s; [done|].
  cbn [app]. rewrite foldM_cons, !run_bind, foldM_cons, run_bind.
  destruct (body b x s) as [[b'|e] s']; [|done]. by rewrite IH, run_bind.
Qed.

(** Invariant rule for a loop with effects: when every run of the body from
    a state satisfying [I] returns and keeps [I], so does the loop. *)
Lemma foldM_invariant {S A B} (I : list A -> B -> S -> Prop)
    (body : B -> A -> M S B) l b s :
  I [] b s ->
  (forall done x b s, I done b s ->
     exists b' s', body b x s = (Ret b', s') /\ I (done ++ [x]) b' s') ->
  exists b' s', foldM body l b s = (Ret b', s') /\ I l b' s'.
Proof.
  intros H0 Hstep. induction l as [|x l IH] using rev_ind; [by eauto|].
  destruct IH as (b1 & s1 & E1 & H1). destruct (Hstep l x b1 s1 H1) as (b2 & s2 & E2 & H2).
  exists b2, s2. split; [|done].
  by rewrite foldM_app, run_bind, E1, foldM_cons, run_bind, E2.
Qed.

(** ** Weakest preconditions *)

Section wp.
Context {S : Type}.

Lemma wp_run {A} (m : M S A) s Q :
  wp m s Q <-> exists a s', m s = (Ret a, s') /\ Q a s'.
Proof.
  unfold wp. destruct (m s) as [[a|e] s']; split.
  - by exists a, s'.
  - by intros (? & ? & [= <- <-] & ?).
  - done.
  - by intros (? & ? & [=] & ?).
Qed.

Lemma wp_ret {A} (a : A) (s : S) Q : Q a s -> wp (mret a) s Q.
Proof. done. Qed.

Lemma wp_bind {A B} (m : M S A) (f : A -> M S B) s Q :
  wp m s (fun a s' => wp (f a) s' Q) -> wp (m ≫= f) s Q.
Proof. unfold wp. rewrite run_bind. by destruct (m s) as [[a|e] s']. Qed.

Lemma wp_mono {A} (m : M S A) s (Q Q' : A -> S -> Prop) :
  wp m s Q -> (forall a s', Q a s' -> Q' a s') -> wp m s Q'.
Proof. unfold wp. destruct (m s) as [[a|e] s']; [|done]. auto. Qed.

(** The invariant rule for a loop. *)
Lemma wp_foldM {A B} (I : list A -> B -> S -> Prop)
    (body : B -> A -> M S B) l b s Q :
  I [] b s ->
  (forall done x b s, I done b s -> wp (body b x) s (I (done ++ [x]))) ->
  (forall b' s', I l b' s' -> Q b' s') ->
  wp (foldM body l b) s Q.
Proof.
  intros H0 Hstep HQ.
  destruct (foldM_invariant I body l b s H0) as (b' & s' & E & HI).
  - intros done x b1 s1 H1. by apply wp_run, Hstep.
  - apply wp_run. exists b', s'. auto.
Qed.

End wp.

(** ** Relations between the state before and the state after *)

Section respects.
Context {S : Type} (Q : relation S) `{!PreOrder Q}.

Lemma respects_ret {A} (a : A) : respects Q (mret (M := M S) a).
Proof. intros s. reflexivity. Qed.

Lemma respects_throw {A} e : respects Q (throw (S := S) (A := A) e).
Proof. intros s. reflexivity. Qed.

Lemma respects_gets {A} (f : S -> A) : respects Q (gets f).
Proof. intros s. reflexivity. Qed.

Lemma respects_get : respects Q get.
Proof. intros s. reflexivity. Qed.

Lemma respects_lift {A} (o : outcome A) : respects Q (lift o).
Proof. intros s. reflexivity. Qed.

Lemma respects_modify f : (forall s, Q s (f s)) -> respects Q (modify f).
Proof. intros Hf s. apply Hf. Qed.

Lemma respects_zoom {T A} `{Lens S T} (m : M T A) :
  (forall t s, Q s (update t s)) -> respects Q (zoom m).
Proof. intros Hu s. rewrite run_zoom. apply Hu. Qed.

Lemma respects_bind {A B} (m : M S A) (f : A -> M S B) :
  respects Q m -> (forall a, respects Q (f a)) -> respects Q (m ≫= f).
Proof.
  intros Hm Hf s. rewrite run_bind. specialize (Hm s).
  destruct (m s) as [[a|e] s']; [|done]. by etransitivity; [|apply Hf].
Qed.

Lemma respects_try_catch {A} (m : M S A) h :
  respects Q m -> (forall e, respects Q (h e)) -> respects Q (try_catch m h).
Proof.
  intros Hm Hh s. rewrite run_try_catch. specialize (Hm s).
  destruct (m s) as [[a|e] s']; [done|]. by etransitivity; [|apply Hh].
Qed.

Lemma respects_attempt {A} (m : M S A) : respects Q m -> respects Q (attempt m).
Proof. intros Hm s. rewrite run_attempt. apply Hm. Qed.

Lemma respects_when c (m : M S unit) : respects Q m -> respects Q (when c m).
Proof.
  destruct c; intros Hm s; [rewrite run_when_true; apply Hm|].
  rewrite run_when_false. reflexivity.
Qed.

End respects.

#[export] Instance keeping_preorder {S} (I : S -> Prop) : PreOrder (keeping I).
Proof.
  split; [by intros s Hs|]. intros s1 s2 s3 H12 H23 H1. by apply H23, H12.
Qed.

Section total.
Context {S : Type}.

Lemma total_ret {A} (a : A) : total (mret (M := M S) a).
Proof. intros s. by exists a. Qed.

Lemma total_gets {A} (f : S -> A) : total (gets f).
Proof. intros s. by eexists. Qed.

Lemma total_bind {A B} (m : M S A) (f : A -> M S B) :
  total m -> (forall a, total (f a)) -> total (m ≫= f).
Proof.
  intros Hm Hf s. rewrite run_bind. destruct (Hm s) as [a Ha].
  destruct (m s) as [[a'|e] s']; [|done]. apply Hf.
Qed.

Lemma total_try_catch {A} (m : M S A) h : (forall e, total (h e)) -> total (try_catch m h).
Proof.
  intros Hh s. rewrite run_try_catch. destruct (m s) as [[a|e] s']; [by eexists|apply Hh].
Qed.

Lemma total_attempt {A} (m : M S A) : total (attempt m).
Proof. intros s. rewrite run_attempt. by eexists. Qed.

Lemma total_when c (m : M S unit) : total m -> total (when c m).
Proof.
  destruct c; intros Hm s; [rewrite run_when_true; apply Hm|].
  rewrite run_when_false. by eexists.
Qed.

End total.

Section yields.
Context {S : Type}.

Lemma yields_ret {A} (Q : A -> Prop) (a : A) : Q a -> yields Q (mret (M := M S) a).
Proof. by intros Ha s a' s' [= <- _]. Qed.

Lemma yields_throw {A} (Q : A -> Prop) e : yields Q (throw (S := S) e).
Proof. by intros s a s'. Qed.

Lemma yields_bind {A B} (Q : B -> Prop) (m : M S A) (f : A -> M S B) :
  (forall a, yields Q (f a)) -> yields Q (m ≫= f).
Proof.
  intros Hf s b s'. rewrite run_bind. destruct (m s) as [[a|e] s1]; [|done]. apply Hf.
Qed.

Lemma yields_try_catch {A} (Q : A -> Prop) (m : M S A) h :
  yields Q m -> (forall e, yields Q (h e)) -> yields Q (try_catch m h).
Proof.
  intros Hm Hh s a s'. rewrite run_try_catch. specialize (Hm s).
  destruct (m s) as [[a'|e] s1]; [apply Hm|apply Hh].
Qed.

(** A total computation has a result, and [yields] speaks of it. *)
Lemma yields_total {A} (Q : A -> Prop) (m : M S A) s :
  total m -> yields Q m -> exists a, (m s).1 = Ret a /\ Q a.
Proof.
  intros Ht Hy. destruct (Ht s) as [a Ha]. exists a. split; [done|].
  apply (Hy s a (m s).2). by rewrite <- Ha, <- surjective_pairing.
Qed.

End yields.

#[export] Hint Resolve respects_ret respects_throw respects_gets respects_get
  respects_lift respects_modify respects_zoom respects_bind
  respects_try_catch respects_attempt respects_when total_ret total_gets total_bind
  total_try_catch total_attempt total_when : js.

(** [by_cases] proves that a listener is [total], or that it [respects] a
    relation, from its parts: it follows the code through sequencing, the
    handlers of exceptions and the branches. *)
Ltac by_cases :=
  repeat first
    [ progress cbn zeta
    | progress intros
    | apply respects_bind | apply respects_try_catch | apply respects_attempt
    | apply respects_when
    | apply total_bind | apply total_try_catch | apply total_attempt | apply total_when
    | apply yields_bind | apply yields_try_catch | apply yields_throw
    | apply yields_ret; reflexivity
    | solve [apply _]
    | solve [eauto with js typeclass_instances]
    | match goal with
      | |- respects _ (if ?c then _ else _) => destruct c
      | |- respects _ (match ?x with _ => _ end) => destruct x
      | |- total (if ?c then _ else _) => destruct c
      | |- total (match ?x with _ => _ end) => destruct x
      | |- yields _ (if ?c then _ else _) => destruct c
      | |- yields _ (match ?x with _ => _ end) => destruct x
      end ].

(** ** Arrays *)

(** Induction on a list three elements at a time. *)
Lemma list_ind3 {A} (P : list A -> Prop) :
  P [] -> (forall a, P [a]) -> (forall a b, P [a; b]) ->
  (forall a b c l, P l -> P (a :: b :: c :: l)) ->
  forall l, P l.
Proof.
  intros H0 H1 H2 H3 l.
  cut (P l /\ (forall a, P (a :: l)) /\ (forall a b, P (a :: b :: l))); [tauto|].
  induction l as [|x l (IH0 & IH1 & IH2)]; [done|]. auto.
Qed.

(** Induction on a list four elements at a time. *)
Lemma list_ind4 {A} (P : list A -> Prop) :
  P [] -> (forall a, P [a]) -> (forall a b, P [a; b]) -> (forall a b c, P [a; b; c]) ->
  (forall a b c d l, P l -> P (a :: b :: c :: d :: l)) ->
  forall l, P l.
Proof.
  intros H0 H1 H2 H3 H4 l.
  cut (P l /\ (forall a, P (a :: l)) /\ (forall a b, P (a :: b :: l)) /\
       (forall a b c, P (a :: b :: c :: l))); [tauto|].
  induction l as [|x l (IH0 & IH1 & IH2 & IH3)]; [done|]. auto 6.
Qed.

Section arrays.
Context {A : Type}.
Implicit Types (p : A -> bool) (l : list A).

Lemma findIndex_from_shift p l i :
  findIndex_from p l 0 = -1 /\ findIndex_from p l i = -1 \/
  0 <= findIndex_from p l 0 /\ findIndex_from p l i = i + findIndex_from p l 0.
Proof.
  revert i. induction l as [|x l IH]; intros i; cbn [findIndex_from]; [by left|].
  destruct (p x); [right; lia|].
  destruct (IH (i + 1)) as [[E0 Ei]|[E0 Ei]], (IH (0 + 1)) as [[E0' E1]|[E0' E1]];
    rewrite Ei, E1; lia.
Qed.

Lemma findIndex_nil p : findIndex p [] = -1.
Proof. reflexivity. Qed.

Lemma findIndex_cons p x l :
  findIndex p (x :: l) =
  if p x then 0 else if decide (findIndex p l = -1) then -1 else 1 + findIndex p l.
Proof.
  unfold findIndex. cbn [findIndex_from]. destruct (p x); [done|].
  destruct (findIndex_from_shift p l (0 + 1)) as [[E0 ->]|[E0 ->]];
    case_decide; lia.
Qed.

Lemma findIndex_range p l :
  findIndex p l = -1 \/ 0 <= findIndex p l < Z.of_nat (length l).
Proof.
  induction l as [|x l IH]; [by left|].
  rewrite findIndex_cons. cbn [length]. destruct (p x); [right; lia|].
  case_decide; [by left|right; lia].
Qed.

(** [findIndex] finds nothing exactly when the test fails everywhere. *)
Lemma findIndex_none p l : findIndex p l = -1 <-> Forall (fun x => p x = false) l.
Proof.
  induction l as [|x l IH]; [by split; [constructor|]|].
  rewrite findIndex_cons, Forall_cons. destruct (p x) eqn:E.
  - split; [lia|]. by intros [? _].
  - pose proof (findIndex_range p l). case_decide; [tauto|].
    split; [lia|]. intros [_ ?]. tauto.
Qed.

(** When it finds an index, the element there passes the test and no
    earlier one does. *)
Lemma findIndex_some p l :
  0 <= findIndex p l ->
  exists x, l !! Z.to_nat (findIndex p l) = Some x /\ p x = true /\
    Forall (fun y => p y = false) (take (Z.to_nat (findIndex p l)) l).
Proof.
  induction l as [|x l IH]; [rewrite findIndex_nil; lia|].
  rewrite findIndex_cons. destruct (p x) eqn:E.
  - intros _. exists x. by repeat split.
  - case_decide; [lia|]. intros _.
    pose proof (findIndex_range p l) as [?|?]; [lia|].
    destruct IH as (y & Hy & Hp & Hbefore); [lia|].
    exists y. replace (Z.to_nat (1 + findIndex p l))
      with (Datatypes.S (Z.to_nat (findIndex p l))) by lia.
    split_and!; [done..|]. by constructor.
Qed.

Lemma includes_true `{EqDecision A} l x : includes l x = true <-> x ∈ l.
Proof. unfold includes. apply bool_decide_eq_true. Qed.

Lemma includes_false `{EqDecision A} l x : includes l x = false <-> x ∉ l.
Proof. unfold includes. apply bool_decide_eq_false. Qed.

Lemma elem_of_filterb p l x : x ∈ filterb p l <-> x ∈ l /\ p x = true.
Proof. unfold filterb. rewrite !list_elem_of_In. apply filter_In. Qed.

Lemma filterb_app p l1 l2 : filterb p (l1 ++ l2) = filterb p l1 ++ filterb p l2.
Proof. apply List.filter_app. Qed.

Lemma filterb_all p l : Forall (fun x => p x = true) l -> filterb p l = l.
Proof.
  induction 1 as [|x l Hx _ IH]; [done|]. unfold filterb in *. simpl.
  by rewrite Hx, IH.
Qed.

Lemma filterb_none p l : Forall (fun x => p x = false) l -> filterb p l = [].
Proof.
  induction 1 as [|x l Hx _ IH]; [done|]. unfold filterb in *. simpl.
  by rewrite Hx, IH.
Qed.

Lemma filterb_length p l : (length (filterb p l) <= length l)%nat.
Proof. apply List.filter_length_le. Qed.

End arrays.

#[export] Hint Rewrite @findIndex_nil : js.
