(* ===== verification/Text.v ===== *)
(** * Text: the string functions the pages call

    The built-ins of JavaScript on strings that [content.js], [popup.js],
    [options.js] and the context menu of [background.js] use, on strings of
    one-byte characters: [toLowerCase] and [includes], [trim], [split] at a
    character and [join], [parseInt] with radix 10, [String] of an integer;
    and the two helpers the sources define over them: [escapeHtml] (the same
    function in [content.js] and in [popup.js]) and the test
    [/^https?:/i].

    [parseInt] follows the standard: white space is skipped, then a sign,
    then the longest run of digits; no digit is [NaN], which is [None] here.
    The number is the mathematical one: the rounding of a run of more than
    fifteen digits to a double is not modelled.

    The theorems: what [escapeHtml] returns has no character of markup;
    [trim] is idempotent; [split] undoes [join] on parts without the
    separator; [parseInt] reads back what [String] prints. *)

From Stdlib Require Import ZArith Lia Ascii String Decimal DecimalString DecimalZ.
From stdpp Require Import base tactics option list strings.
From S2P Require Import Prelude.

#[local] Open Scope Z_scope.

(** ** Case and search *)

(** A letter of ASCII in lower case. *)
Definition lower (c : ascii) : ascii :=
  let n := nat_of_ascii c in
  if (65 <=? n)%nat && (n <=? 90)%nat then ascii_of_nat (n + 32) else c.

Fixpoint toLowerCase (s : string) : string :=
  match s with
  | EmptyString => EmptyString
  | String c s => String (lower c) (toLowerCase s)
  end.

(** [s.includes(h)] on strings *)
Fixpoint str_includes (s h : string) : bool :=
  String.prefix h s ||
  match s with
  | EmptyString => false
  | String _ s => str_includes s h
  end.

(** [a || d] on strings *)
Definition str_or (a d : string) : string := if truthy a then a else d.

(** [/^https?:/i.test(url)] *)
Definition is_http (url : string) : bool :=
  String.prefix "http:" (toLowerCase url) || String.prefix "https:" (toLowerCase url).

(** ** [escapeHtml] *)

(** The double quote. *)
Definition dquote : ascii := ascii_of_nat 34.

(** The replacement of [escapeHtml] for one character: the entity of the
    five characters its expression matches, the character itself otherwise. *)
Definition escape_char (ch : ascii) : string :=
  if Ascii.eqb ch "&" then "&amp;"
  else if Ascii.eqb ch "<" then "&lt;"
  else if Ascii.eqb ch ">" then "&gt;"
  else if Ascii.eqb ch dquote then "&quot;"
  else if Ascii.eqb ch "'" then "&#39;"
  else String ch EmptyString.

Fixpoint escapeHtml (s : string) : string :=
  match s with
  | EmptyString => EmptyString
  | String ch s => escape_char ch ++ escapeHtml s
  end.

(** The characters that start or end markup. *)
Definition markup : list ascii := ["<"; ">"; dquote; "'"]%char.

(** ** [trim], [split], [join] *)

(** White space and line terminators: tab, line feed, vertical tab, form
    feed, carriage return, space, no-break space. *)
Definition is_space (c : ascii) : bool :=
  bool_decide (nat_of_ascii c ∈ [9; 10; 11; 12; 13; 32; 160]%nat).

Fixpoint trimStart (s : string) : string :=
  match s with
  | EmptyString => EmptyString
  | String c s' => if is_space c then trimStart s' else s
  end.

Fixpoint trimEnd (s : string) : string :=
  match s with
  | EmptyString => EmptyString
  | String c s' =>
      match trimEnd s' with
      | EmptyString => if is_space c then EmptyString else String c EmptyString
      | r => String c r
      end
  end.

Definition trim (s : string) : string := trimEnd (trimStart s).

(** A string that does not start with white space. *)
Definition starts_clean (s : string) : Prop :=
  match s with
  | EmptyString => True
  | String c _ => is_space c = false
  end.

(** [s.split(sep)] for a separator of one character: the parts between the
    separators, one more than there are separators. *)
Fixpoint split (sep : ascii) (s : string) : list string :=
  match s with
  | EmptyString => [EmptyString]
  | String c s' =>
      if Ascii.eqb c sep then EmptyString :: split sep s'
      else
        match split sep s' with
        | part :: parts => String c part :: parts
        | [] => [String c EmptyString]
        end
  end.

(** [l.join(sep)] *)
Fixpoint join (sep : string) (l : list string) : string :=
  match l with
  | [] => EmptyString
  | [part] => part
  | part :: parts => part ++ sep ++ join sep parts
  end.

(** [c] occurs in [s]. *)
Definition has_char (c : ascii) (s : string) : bool :=
  bool_decide (c ∈ list_ascii_of_string s).

(** ** Numbers *)

(** The value of a decimal digit. *)
Definition digit (c : ascii) : option Z :=
  let n := nat_of_ascii c in
  if (48 <=? n)%nat && (n <=? 57)%nat then Some (Z.of_nat n - 48) else None.

(** The digits a string starts with. *)
Fixpoint leading_digits (s : string) : list Z :=
  match s with
  | EmptyString => []
  | String c s' =>
      match digit c with
      | Some d => d :: leading_digits s'
      | None => []
      end
  end.

(** The number of a run of digits, after [acc]. *)
Definition number (ds : list Z) (acc : Z) : Z :=
  fold_left (fun a d => 10 * a + d) ds acc.

(** The number a string starts with, [NaN] being [None]. *)
Definition unsigned (s : string) : option Z :=
  match leading_digits s with
  | [] => None
  | ds => Some (number ds 0)
  end.

(** [parseInt(s, 10)] *)
Definition parseInt (s : string) : option Z :=
  match trimStart s with
  | String "-" s' => Z.opp <$> unsigned s'
  | String "+" s' => unsigned s'
  | s' => unsigned s'
  end.

(** [String(n)] for an integer [n]. *)
Definition String_of (n : Z) : string := NilZero.string_of_int (Z.to_int n).

(** * Theorems *)

(** ** [escapeHtml] *)

Lemma list_ascii_of_string_app s1 s2 :
  list_ascii_of_string (s1 ++ s2) = list_ascii_of_string s1 ++ list_ascii_of_string s2.
Proof. induction s1 as [|c s1 IH]; [done|]. cbn. by rewrite <- IH. Qed.

Lemma escape_char_safe ch :
  Forall (fun c => c ∉ markup) (list_ascii_of_string (escape_char ch)).
Proof.
  unfold escape_char.
  repeat match goal with
    | |- context [Ascii.eqb ch ?c] =>
        destruct (Ascii.eqb_spec ch c) as [->|?];
          [apply (bool_decide_unpack _); by vm_compute|]
    end.
  cbn. repeat constructor. unfold markup. rewrite !elem_of_cons, elem_of_nil. tauto.
Qed.

(** No character of the result starts or ends markup. *)
Lemma escapeHtml_safe s :
  Forall (fun c => c ∉ markup) (list_ascii_of_string (escapeHtml s)).
Proof.
  induction s as [|ch s IH]; [constructor|]. cbn [escapeHtml].
  rewrite list_ascii_of_string_app. apply Forall_app. split; [apply escape_char_safe|done].
Qed.

Lemma truthy_string (s : string) : truthy s = true <-> s <> "".
Proof.
  unfold truthy, string_truthy. rewrite negb_true_iff.
  by destruct (String.eqb_spec s "").
Qed.

(** ** [trim] *)

Lemma trimStart_clean s : starts_clean (trimStart s).
Proof. induction s as [|c s IH]; [done|]. cbn. by destruct (is_space c) eqn:E. Qed.

Lemma trimStart_id s : starts_clean s -> trimStart s = s.
Proof. destruct s as [|c s]; [done|]. cbn. by intros ->. Qed.

Lemma trimEnd_idemp s : trimEnd (trimEnd s) = trimEnd s.
Proof.
  induction s as [|c s IH]; [done|]. cbn.
  destruct (trimEnd s) as [|c' r] eqn:E.
  - destruct (is_space c) eqn:Ec; cbn; by rewrite ?Ec.
  - cbn [trimEnd] in *. by rewrite IH.
Qed.

Lemma trimEnd_clean s : starts_clean s -> starts_clean (trimEnd s).
Proof.
  destruct s as [|c s]; [done|]. cbn. intros Hc.
  destruct (trimEnd s); cbn; by rewrite ?Hc.
Qed.

(** [trim] leaves nothing to trim. *)
Lemma trim_idemp s : trim (trim s) = trim s.
Proof.
  unfold trim. rewrite (trimStart_id (trimEnd _)), trimEnd_idemp; [done|].
  apply trimEnd_clean, trimStart_clean.
Qed.

Lemma trim_spaces pad s :
  Forall (fun c => is_space c = true) (list_ascii_of_string pad) ->
  trim (pad ++ s) = trim s.
Proof.
  unfold trim. induction pad as [|c pad IH]; [done|].
  change (String c pad +:+ s) with (String c (pad +:+ s)). cbn -[is_space].
  intros [-> Hpad]%Forall_cons. by apply IH.
Qed.

(** ** [split] and [join] *)

Lemma has_char_cons sep c s :
  has_char sep (String c s) = false <-> c <> sep /\ has_char sep s = false.
Proof.
  unfold has_char. cbn. rewrite !bool_decide_eq_false, not_elem_of_cons.
  intuition congruence.
Qed.

Lemma split_not_nil sep s : split sep s <> [].
Proof.
  destruct s as [|c s]; [done|]. cbn.
  destruct (Ascii.eqb c sep); [done|]. by destruct (split sep s).
Qed.

(** A part without the separator, followed by the separator, is the first
    part. *)
Lemma split_app sep part rest :
  has_char sep part = false ->
  split sep (part ++ String sep rest) = part :: split sep rest.
Proof.
  induction part as [|c part IH].
  - intros _. change ("" +:+ ?s) with s. cbn [split]. by rewrite Ascii.eqb_refl.
  - change (String c part +:+ ?s) with (String c (part +:+ s)). cbn [split].
    intros [Hc Hp]%has_char_cons. rewrite (proj2 (Ascii.eqb_neq c sep) Hc).
    by rewrite IH.
Qed.

Lemma split_one sep part : has_char sep part = false -> split sep part = [part].
Proof.
  induction part as [|c part IH]; [done|]. cbn [split].
  intros [Hc Hp]%has_char_cons. rewrite (proj2 (Ascii.eqb_neq c sep) Hc).
  by rewrite IH.
Qed.

(** Characters before the first separator belong to the first part. *)
Lemma split_prefix sep pad s part parts :
  has_char sep pad = false -> split sep s = part :: parts ->
  split sep (pad +:+ s) = (pad +:+ part) :: parts.
Proof.
  intros Hpad Hs. induction pad as [|c pad IH]; [done|].
  apply has_char_cons in Hpad as [Hc Hpad].
  change (String c pad +:+ ?s) with (String c (pad +:+ s)). cbn [split].
  by rewrite (proj2 (Ascii.eqb_neq c sep) Hc), IH.
Qed.

(** [split] gives back the parts that [join] has put together, each part
    but the first after the padding that follows the separator. *)
Lemma split_join sep pad part parts :
  Forall (fun s => has_char sep s = false) (pad :: part :: parts) ->
  split sep (join (String sep pad) (part :: parts)) = part :: (append pad <$> parts).
Proof.
  intros [Hpad Hl]%Forall_cons. revert part Hl.
  induction parts as [|part' parts IH]; intros part [Hp Hl]%Forall_cons.
  - by apply split_one.
  - change (join ?s (part :: part' :: parts))
      with (part +:+ String sep (pad +:+ join s (part' :: parts))).
    rewrite split_app by done. f_equal. by apply split_prefix, IH.
Qed.

(** ** [parseInt] and [String] *)

Lemma number_cons d ds acc : number (d :: ds) acc = number ds (10 * acc + d).
Proof. reflexivity. Qed.

(** A string that starts with a digit has no white space and no sign to
    skip. *)
Lemma parseInt_digit c s d : digit c = Some d -> parseInt (String c s) = unsigned (String c s).
Proof. by destruct c as [[] [] [] [] [] [] [] []]. Qed.

Lemma parseInt_minus s : parseInt (String "-" s) = Z.opp <$> unsigned s.
Proof. reflexivity. Qed.

(** The digits of a numeral are read back, after a number and after
    nothing. *)
Lemma number_uint_acc u p :
  leading_digits (NilEmpty.string_of_uint u) = [] /\ u = Nil \/
  leading_digits (NilEmpty.string_of_uint u) <> [] /\
  number (leading_digits (NilEmpty.string_of_uint u)) (Z.pos p) = Z.pos (Pos.of_uint_acc u p).
Proof.
  revert p. induction u as [|u IH|u IH|u IH|u IH|u IH|u IH|u IH|u IH|u IH|u IH];
    intros p; [by left|right; split; [done|]..];
    cbn [NilEmpty.string_of_uint Pos.of_uint_acc];
    change (leading_digits (String ?c ?s)) with (default 0 (digit c) :: leading_digits s);
    rewrite number_cons;
    match goal with
    | |- number _ ?a = Z.pos (Pos.of_uint_acc _ ?q) =>
        replace a with (Z.pos q) by (vm_compute (default _ _); lia)
    end;
    match goal with
    | |- _ = Z.pos (Pos.of_uint_acc _ ?q) => by destruct (IH q) as [[-> ->]|[_ ->]]
    end.
Qed.

Lemma number_uint u :
  u <> Nil ->
  exists d ds, leading_digits (NilEmpty.string_of_uint u) = d :: ds /\
    number (d :: ds) 0 = Z.of_N (Pos.of_uint u).
Proof.
  induction u as [|u IH|u IH|u IH|u IH|u IH|u IH|u IH|u IH|u IH|u IH];
    intros Hu; [done|..];
    cbn [NilEmpty.string_of_uint Pos.of_uint];
    change (leading_digits (String ?c ?s)) with (default 0 (digit c) :: leading_digits s);
    eexists _, _; (split; [done|]); rewrite number_cons;
    vm_compute (10 * 0 + _).
  1: destruct u; [done|destruct IH as (d & ds & -> & <-); done..].
  all: match goal with
       | |- number _ (Z.pos ?q) = _ =>
           by destruct (number_uint_acc u q) as [[-> ->]|[_ ->]]
       end.
Qed.

(** A numeral that is printed starts with a digit. *)
Lemma string_of_uint_digit u :
  u <> Nil -> exists c s d, NilEmpty.string_of_uint u = String c s /\ digit c = Some d.
Proof. destruct u; [done|intros _; by eexists _, _, _..]. Qed.

Lemma unsigned_string_of_uint u :
  u <> Nil -> unsigned (NilZero.string_of_uint u) = Some (Z.of_uint u).
Proof.
  intros Hu. destruct (number_uint u Hu) as (d & ds & Hd & Hn).
  replace (NilZero.string_of_uint u) with (NilEmpty.string_of_uint u) by by destruct u.
  unfold unsigned. by rewrite Hd, Hn.
Qed.

Lemma to_uint_not_Nil p : Pos.to_uint p <> Nil.
Proof.
  intros E. pose proof (DecimalZ.of_to (Z.pos p)) as Hp. cbn in Hp.
  by rewrite E in Hp.
Qed.

(** [parseInt] reads back the number that [String] has printed. *)
Lemma parseInt_String_of n : parseInt (String_of n) = Some n.
Proof.
  unfold String_of. destruct n as [|p|p]; [done|..]; cbn [Z.to_int NilZero.string_of_int].
  - pose proof (to_uint_not_Nil p) as Hu.
    destruct (string_of_uint_digit _ Hu) as (c & s & d & Es & Hd).
    replace (NilZero.string_of_uint (Pos.to_uint p)) with (String c s) at 1
      by by destruct (Pos.to_uint p).
    rewrite (parseInt_digit c s d Hd), <- Es.
    replace (NilEmpty.string_of_uint (Pos.to_uint p))
      with (NilZero.string_of_uint (Pos.to_uint p)) by by destruct (Pos.to_uint p).
    rewrite unsigned_string_of_uint by done.
    f_equal. apply (DecimalZ.of_to (Z.pos p)).
  - rewrite parseInt_minus, unsigned_string_of_uint by apply to_uint_not_Nil.
    cbn. f_equal. apply (DecimalZ.of_to (Z.neg p)).
Qed.

(** ** What [trim] and [split] leave of a string *)

Lemma trimStart_chars c s :
  c ∈ list_ascii_of_string (trimStart s) -> c ∈ list_ascii_of_string s.
Proof.
  induction s as [|c' s IH]; [done|]. cbn -[is_space].
  destruct (is_space c'); [|done]. rewrite elem_of_cons. auto.
Qed.

Lemma trimEnd_chars c s :
  c ∈ list_ascii_of_string (trimEnd s) -> c ∈ list_ascii_of_string s.
Proof.
  induction s as [|c' s IH]; [done|]. cbn -[is_space].
  destruct (trimEnd s) as [|c'' r].
  - destruct (is_space c'); cbn; rewrite ?elem_of_cons, ?elem_of_nil; tauto.
  - cbn in *. rewrite !elem_of_cons in *. tauto.
Qed.

(** [trim] adds no character. *)
Lemma trim_has_char c s : has_char c s = false -> has_char c (trim s) = false.
Proof.
  unfold has_char, trim. rewrite !bool_decide_eq_false.
  intros Hc Ht. by apply Hc, trimStart_chars, trimEnd_chars.
Qed.

(** No part of [split] holds the separator. *)
Lemma split_has_char sep s : Forall (fun part => has_char sep part = false) (split sep s).
Proof.
  induction s as [|c s IH]; [by repeat constructor|]. cbn [split].
  destruct (Ascii.eqb_spec c sep) as [->|Hc]; [by constructor|].
  destruct (split sep s) as [|part parts]; [repeat constructor; by apply has_char_cons|].
  apply Forall_cons in IH as [Hp Hps]. constructor; [by apply has_char_cons|done].
Qed.
