(* ===== verification/Base64.v ===== *)
(** * Base64: [bytesToBase64] and [base64ToBytes] of [scripts/crypto.js]

    The two helpers convert between byte arrays and the base64 text stored in
    the encrypted record.  They call the platform's [btoa] and [atob], which
    are modelled here as the HTML standard defines them: [btoa] encodes a
    string of code units below 256 as RFC 4648 base64 with padding and throws
    on any other code unit; [atob] is the "forgiving base64 decode": it drops
    ASCII whitespace, drops one or two trailing [=] when the length is a
    multiple of four, fails on a length of 1 modulo 4 and on any character
    outside the alphabet, and discards the bits left over.

    The theorems: the encoder's output shape (length, alphabet), the two
    loops of the helpers against their closed forms, the round trip
    [base64ToBytes (bytesToBase64 bs) = bs], and the inputs [atob] rejects. *)

From Stdlib Require Import ZArith Lia ZifyNat Ascii String.
From stdpp Require Import base tactics option list strings.
From S2P Require Import Prelude.

#[local] Open Scope Z_scope.

(** [lia] also decides goals with division and remainder by a constant. *)
#[local] Ltac Zify.zify_post_hook ::= Z.div_mod_to_equations.

(** ** Characters as code units *)

Definition Z_of_ascii (c : ascii) : Z := Z.of_N (N_of_ascii c).
Definition ascii_of_Z (z : Z) : ascii := ascii_of_N (Z.to_N z).

(** [String.fromCharCode(n)]: the code unit [n] modulo 2^16. *)
Definition fromCharCode (n : Z) : Z := n mod 65536.

(** [s.charCodeAt(i)] for [i] within the string; [0] stands for [NaN], which
    a typed array stores as [0]. *)
Definition charCodeAt (s : list Z) (i : nat) : Z := default 0 (s !! i).

(** ** The base64 alphabet (RFC 4648, table 1) *)

Definition char_of_sextet (n : Z) : ascii :=
  ascii_of_Z
    (if n <? 26 then 65 + n
     else if n <? 52 then 71 + n
     else if n <? 62 then n - 4
     else if n =? 62 then 43
     else 47).

Definition sextet_of_char (c : ascii) : option Z :=
  let z := Z_of_ascii c in
  if (65 <=? z) && (z <=? 90) then Some (z - 65)
  else if (97 <=? z) && (z <=? 122) then Some (z - 71)
  else if (48 <=? z) && (z <=? 57) then Some (z + 4)
  else if z =? 43 then Some 62
  else if z =? 47 then Some 63
  else None.

Definition pad_char : ascii := ascii_of_Z 61.

Definition is_sextet (n : Z) : Prop := 0 <= n < 64.

(** ** Encoding *)

(** The sextets of a byte sequence: each group of three bytes gives four,
    a last group of one byte two and of two bytes three, the missing bits
    being zero. *)
Fixpoint to_sextets (bs : list Z) : list Z :=
  match bs with
  | [] => []
  | [a] => [a / 4; (a mod 4) * 16]
  | [a; b] => [a / 4; (a mod 4) * 16 + b / 16; (b mod 16) * 4]
  | a :: b :: c :: rest =>
      a / 4 :: (a mod 4) * 16 + b / 16 :: (b mod 16) * 4 + c / 64 :: c mod 64
        :: to_sextets rest
  end.

Definition padding (n : nat) : list ascii :=
  replicate ((3 - n mod 3) mod 3) pad_char.

Definition b64_encode (bs : list Z) : list ascii :=
  (char_of_sextet <$> to_sextets bs) ++ padding (length bs).

(** [btoa(bin)]: throws [InvalidCharacterError] when a code unit exceeds 255. *)
Definition btoa (bin : list Z) : option string :=
  if decide (bytes bin) then Some (string_of_list_ascii (b64_encode bin)) else None.

(** ** Decoding *)

Definition is_ascii_whitespace (c : ascii) : bool :=
  bool_decide (Z_of_ascii c ∈ [9; 10; 12; 13; 32]).

(** Step 2 of the forgiving decode: when the length is a multiple of four,
    one or two trailing [=] are removed. *)
Definition strip_padding (cs : list ascii) : list ascii :=
  if (length cs mod 4 =? 0)%nat then
    match rev cs with
    | c1 :: c2 :: r =>
        if decide (c1 = pad_char) then
          if decide (c2 = pad_char) then rev r else rev (c2 :: r)
        else cs
    | _ => cs
    end
  else cs.

(** The bytes of a sextet sequence, the bits left over being discarded. *)
Fixpoint of_sextets (sx : list Z) : list Z :=
  match sx with
  | a :: b :: c :: d :: rest =>
      a * 4 + b / 16 :: (b mod 16) * 16 + c / 4 :: (c mod 4) * 64 + d
        :: of_sextets rest
  | [a; b; c] => [a * 4 + b / 16; (b mod 16) * 16 + c / 4]
  | [a; b] => [a * 4 + b / 16]
  | _ => []
  end.

Definition b64_decode (cs : list ascii) : option (list Z) :=
  let cs := strip_padding (List.filter (fun c => negb (is_ascii_whitespace c)) cs) in
  if (length cs mod 4 =? 1)%nat then None
  else of_sextets <$> mapM sextet_of_char cs.

(** [atob(b64)]: throws [InvalidCharacterError] when the decode fails. *)
Definition atob (b64 : string) : option (list Z) :=
  b64_decode (list_ascii_of_string b64).

(** ** The helpers of [crypto.js] *)

Definition bytesToBase64 (bytes : list Z) : outcome string :=
  let bytes := wrap8 <$> bytes in
  let bin :=
    for_loop 0 (length bytes)
      (fun i bin => bin ++ [fromCharCode (default 0 (bytes !! i))]) [] in
  of_option "InvalidCharacterError" (btoa bin).

Definition base64ToBytes (b64 : string) : outcome (list Z) :=
  bin ← of_option "InvalidCharacterError" (atob b64);
  let out := replicate (length bin) 0 in
  mret (for_loop 0 (length bin)
          (fun i out => <[i := wrap8 (charCodeAt bin i)]> out) out).

(** The text [bytesToBase64] returns, as a total function. *)
Definition b64_text (bs : list Z) : string :=
  string_of_list_ascii (b64_encode (wrap8 <$> bs)).

Arguments b64_text : simpl never.
Arguments bytesToBase64 : simpl never.
Arguments base64ToBytes : simpl never.

(** * Theorems *)

(** ** Code units *)

Lemma Z_of_ascii_of_Z z : is_byte z -> Z_of_ascii (ascii_of_Z z) = z.
Proof.
  unfold is_byte, Z_of_ascii, ascii_of_Z. intros ?.
  rewrite N_ascii_embedding by lia. lia.
Qed.

Lemma Z_of_ascii_byte c : is_byte (Z_of_ascii c).
Proof.
  unfold is_byte, Z_of_ascii. pose proof (N_ascii_bounded c). lia.
Qed.

Lemma fromCharCode_byte z : is_byte z -> fromCharCode z = z.
Proof. unfold is_byte, fromCharCode. intros ?. apply Z.mod_small. lia. Qed.

(** ** The alphabet *)

Lemma sextet_of_char_of_sextet n :
  is_sextet n -> sextet_of_char (char_of_sextet n) = Some n.
Proof.
  intros Hn. revert n Hn. apply (range_forall _ 0 64). by vm_compute.
Qed.

Lemma char_of_sextet_not_pad n : is_sextet n -> char_of_sextet n <> pad_char.
Proof.
  intros Hn. revert n Hn. apply (range_forall _ 0 64). by vm_compute.
Qed.

Lemma char_of_sextet_not_whitespace n :
  is_sextet n -> is_ascii_whitespace (char_of_sextet n) = false.
Proof.
  intros Hn. revert n Hn. apply (range_forall _ 0 64). by vm_compute.
Qed.

Lemma pad_not_whitespace : is_ascii_whitespace pad_char = false.
Proof. reflexivity. Qed.

Lemma sextet_of_pad : sextet_of_char pad_char = None.
Proof. reflexivity. Qed.

Lemma sextet_of_char_range c n : sextet_of_char c = Some n -> is_sextet n.
Proof.
  unfold sextet_of_char, is_sextet. pose proof (Z_of_ascii_byte c) as Hc.
  repeat case_match; intros [= <-]; lia.
Qed.

(** ** Sextets of bytes *)

Lemma to_sextets_range bs : bytes bs -> Forall is_sextet (to_sextets bs).
Proof.
  unfold bytes, is_byte, is_sextet.
  induction bs as [|a|a b|a b c l IH] using list_ind3; intros Hbs;
    repeat match goal with
    | H : Forall _ (_ :: _) |- _ => apply Forall_cons in H as [? H]
    end; cbn [to_sextets]; repeat constructor; auto;
    Z.div_mod_to_equations; lia.
Qed.

Lemma to_sextets_length bs :
  length (to_sextets bs) = ((4 * length bs + 2) / 3)%nat.
Proof.
  induction bs as [|a|a b|a b c l IH] using list_ind3; try reflexivity.
  cbn [to_sextets length]. rewrite IH. lia.
Qed.

(** The decoder's arithmetic undoes the encoder's, group by group. *)
Lemma of_to_sextets bs : bytes bs -> of_sextets (to_sextets bs) = bs.
Proof.
  unfold bytes, is_byte.
  induction bs as [|a|a b|a b c l IH] using list_ind3; intros Hbs;
    repeat match goal with
    | H : Forall _ (_ :: _) |- _ => apply Forall_cons in H as [? H]
    end; cbn [to_sextets of_sextets]; [done|..]; try rewrite IH by done;
    repeat f_equal; Z.div_mod_to_equations; lia.
Qed.

Lemma of_sextets_bytes sx : Forall is_sextet sx -> bytes (of_sextets sx).
Proof.
  unfold bytes, is_byte, is_sextet.
  induction sx as [|a|a b|a b c|a b c d l IH] using list_ind4; intros Hsx;
    repeat match goal with
    | H : Forall _ (_ :: _) |- _ => apply Forall_cons in H as [? H]
    end; cbn [of_sextets]; repeat constructor; auto;
    Z.div_mod_to_equations; lia.
Qed.

(** ** Shape of the encoder's output *)

Lemma padding_cases n :
  (n mod 3 = 0 /\ padding n = [])%nat \/
  (n mod 3 = 1 /\ padding n = [pad_char; pad_char])%nat \/
  (n mod 3 = 2 /\ padding n = [pad_char])%nat.
Proof.
  unfold padding. pose proof (Nat.mod_upper_bound n 3 ltac:(lia)).
  destruct (n mod 3)%nat as [|[|[|?]]] eqn:E; [auto..|lia].
Qed.

(** base64 text is four characters for every three bytes, rounded up. *)
Lemma b64_encode_length bs :
  length (b64_encode bs) = (4 * ((length bs + 2) / 3))%nat.
Proof.
  unfold b64_encode. rewrite length_app, length_fmap, to_sextets_length.
  destruct (padding_cases (length bs)) as [[E ->]|[[E ->]|[E ->]]];
    cbn [length]; lia.
Qed.

Lemma b64_encode_length_mod4 bs : (length (b64_encode bs) mod 4 = 0)%nat.
Proof.
  rewrite b64_encode_length. lia.
Qed.

Lemma b64_encode_no_whitespace bs :
  bytes bs ->
  List.filter (fun c => negb (is_ascii_whitespace c)) (b64_encode bs) = b64_encode bs.
Proof.
  intros Hbs. apply (filterb_all (fun c => negb (is_ascii_whitespace c))).
  unfold b64_encode. apply Forall_app. split.
  - apply Forall_fmap. eapply Forall_impl; [by apply to_sextets_range|].
    intros n Hn. cbn. by rewrite char_of_sextet_not_whitespace.
  - unfold padding. by apply Forall_replicate.
Qed.

(** ** Stripping the padding gives back the characters of the sextets *)

Lemma strip_padding_encode bs :
  bytes bs -> strip_padding (b64_encode bs) = char_of_sextet <$> to_sextets bs.
Proof.
  intros Hbs. unfold strip_padding.
  rewrite b64_encode_length_mod4. cbn [Nat.eqb].
  pose proof (to_sextets_range bs Hbs) as Hsx.
  pose proof (to_sextets_length bs) as Hlen.
  unfold b64_encode.
  destruct (padding_cases (length bs)) as [[E ->]|[[E ->]|[E ->]]].
  - rewrite app_nil_r.
    destruct (rev (char_of_sextet <$> to_sextets bs)) as [|c1 [|c2 r]] eqn:Er;
      [done..|].
    case_decide as Hc1; [|done]. exfalso.
    apply (f_equal (@rev ascii)) in Er. rewrite rev_involutive in Er. cbn in Er.
    assert (c1 ∈ char_of_sextet <$> to_sextets bs) as Hin
      by (rewrite Er, elem_of_app; right; left).
    apply list_elem_of_fmap in Hin as (n & -> & Hn).
    eapply char_of_sextet_not_pad; [|done]. by eapply Forall_forall in Hsx.
  - rewrite rev_app_distr. cbn [rev app].
    rewrite !decide_True by done. by rewrite rev_involutive.
  - rewrite rev_app_distr. cbn [rev app].
    destruct (to_sextets bs) as [|n sx _] eqn:Es using rev_ind.
    { cbn [length] in Hlen. lia. }
    rewrite fmap_app, rev_app_distr. cbn [fmap list_fmap rev app].
    rewrite decide_True by done.
    apply Forall_app in Hsx as [_ [Hn _]%Forall_cons].
    rewrite decide_False by (by apply char_of_sextet_not_pad).
    cbn [rev]. by rewrite rev_involutive.
Qed.

Lemma to_sextets_length_mod4 bs : (length (to_sextets bs) mod 4 <> 1)%nat.
Proof.
  induction bs as [|a|a b|a b c l IH] using list_ind3; cbn [to_sextets length];
    [done..|].
  lia.
Qed.

(** ** The round trip of the platform functions *)

Lemma b64_decode_encode bs : bytes bs -> b64_decode (b64_encode bs) = Some bs.
Proof.
  intros Hbs. unfold b64_decode.
  rewrite b64_encode_no_whitespace, strip_padding_encode by done.
  rewrite length_fmap.
  destruct (Nat.eqb_spec (length (to_sextets bs) mod 4) 1) as [E|_];
    [by apply to_sextets_length_mod4 in E|].
  rewrite mapM_fmap_Forall_Some.
  - cbn. by rewrite of_to_sextets.
  - eapply Forall_impl; [by apply to_sextets_range|].
    apply sextet_of_char_of_sextet.
Qed.

Lemma atob_btoa bin s : btoa bin = Some s -> atob s = Some bin.
Proof.
  unfold btoa, atob. case_decide as Hbin; [|done]. intros [= <-].
  rewrite list_ascii_of_string_of_list_ascii. by apply b64_decode_encode.
Qed.

(** Whatever [atob] returns is a sequence of bytes. *)
Lemma atob_bytes s bin : atob s = Some bin -> bytes bin.
Proof.
  unfold atob, b64_decode. destruct (Nat.eqb _ 1); [done|].
  destruct (mapM _ _) as [sx|] eqn:E; [|done]. intros [= <-].
  apply of_sextets_bytes. apply mapM_Some_1 in E.
  eapply Forall2_Forall_r; [exact E|]. apply Forall_true.
  intros c n. apply sextet_of_char_range.
Qed.

(** ** The loops of the helpers *)

(** The loop of [bytesToBase64] copies the array into a string. *)
Lemma bytesToBase64_loop bs :
  bytes bs ->
  for_loop 0 (length bs)
    (fun i bin => bin ++ [fromCharCode (default 0 (bs !! i))]) [] = bs.
Proof.
  intros Hbs. transitivity (take (length bs) bs); [|apply firstn_all].
  apply (for_loop_invariant (fun i bin => bin = take i bs)); [done|].
  intros i ? Hi ->.
  destruct (lookup_lt_is_Some_2 bs i Hi) as [b Hb].
  rewrite (take_S_r _ _ b), Hb by done. cbn. do 2 f_equal.
  apply fromCharCode_byte. by eapply Forall_lookup_1 in Hbs.
Qed.

(** The loop of [base64ToBytes] copies the string into the array. *)
Lemma base64ToBytes_loop bin :
  bytes bin ->
  for_loop 0 (length bin)
    (fun i out => <[i := wrap8 (charCodeAt bin i)]> out)
    (replicate (length bin) 0) = bin.
Proof.
  intros Hbin.
  transitivity (take (length bin) bin ++ replicate (length bin - length bin) 0);
    [|by rewrite firstn_all, Nat.sub_diag, app_nil_r].
  apply (for_loop_invariant
           (fun i out => out = take i bin ++ replicate (length bin - i) 0)).
  { cbn. by rewrite Nat.sub_0_r. }
  intros i ? Hi ->.
  destruct (lookup_lt_is_Some_2 bin i Hi) as [b Hb].
  replace (length bin - i)%nat with (Datatypes.S (length bin - Datatypes.S i)) by lia.
  cbn [replicate].
  rewrite insert_app_r_alt by (rewrite length_take; lia).
  rewrite length_take, Nat.min_l, Nat.sub_diag by lia. cbn.
  rewrite (take_S_r _ _ b), <- app_assoc by done. cbn.
  unfold charCodeAt. rewrite Hb. cbn.
  rewrite wrap8_id; [done|]. by eapply Forall_lookup_1 in Hbin.
Qed.

(** ** The helpers, in closed form *)

(** [bytesToBase64] never throws: the typed array holds bytes only. *)
Theorem bytesToBase64_returns bs : bytesToBase64 bs = Ret (b64_text bs).
Proof.
  unfold bytesToBase64, b64_text.
  rewrite bytesToBase64_loop by apply bytes_wrap8.
  unfold btoa. by rewrite decide_True by apply bytes_wrap8.
Qed.

(** [base64ToBytes] returns what [atob] decodes and throws when it fails. *)
Theorem base64ToBytes_atob s :
  base64ToBytes s = of_option "InvalidCharacterError" (atob s).
Proof.
  unfold base64ToBytes. destruct (atob s) as [bin|] eqn:E; [|done]. cbn.
  unfold mret, outcome_ret. f_equal.
  apply base64ToBytes_loop. by eapply atob_bytes.
Qed.

Lemma base64ToBytes_b64_text bs : base64ToBytes (b64_text bs) = Ret (wrap8 <$> bs).
Proof.
  rewrite base64ToBytes_atob. unfold atob, b64_text.
  rewrite list_ascii_of_string_of_list_ascii.
  by rewrite b64_decode_encode by apply bytes_wrap8.
Qed.

(** Decoding the encoding of a byte array gives the array back. *)
Theorem base64_roundtrip bs s :
  bytes bs -> bytesToBase64 bs = Ret s -> base64ToBytes s = Ret bs.
Proof.
  intros Hbs. rewrite bytesToBase64_returns, base64ToBytes_atob.
  intros [= <-]. unfold atob, b64_text.
  rewrite list_ascii_of_string_of_list_ascii, bytes_wrap8_id by done.
  by rewrite b64_decode_encode.
Qed.

(** Values outside the byte range are reduced modulo 256 by the typed array
    before they are encoded. *)
Theorem base64_roundtrip_wrap bs s :
  bytesToBase64 bs = Ret s -> base64ToBytes s = Ret (wrap8 <$> bs).
Proof.
  intros E. rewrite bytesToBase64_returns in E. injection E as <-.
  apply base64ToBytes_b64_text.
Qed.

(** The text has four characters for every three bytes, rounded up. *)
Theorem bytesToBase64_length bs s :
  bytesToBase64 bs = Ret s ->
  String.length s = (4 * ((length bs + 2) / 3))%nat.
Proof.
  rewrite bytesToBase64_returns. intros [= <-]. unfold b64_text.
  rewrite <- (length_fmap wrap8 bs), <- b64_encode_length.
  generalize (b64_encode (wrap8 <$> bs)). intros cs.
  induction cs as [|c cs IH]; cbn; [done|]. by rewrite IH.
Qed.

(** [base64ToBytes] throws on a text whose length, whitespace and padding
    apart, is 1 modulo 4. *)
Theorem base64ToBytes_bad_length s :
  (length (strip_padding
     (List.filter (fun c => negb (is_ascii_whitespace c))
        (list_ascii_of_string s))) mod 4 = 1)%nat ->
  base64ToBytes s = Throw "InvalidCharacterError".
Proof.
  intros E. rewrite base64ToBytes_atob. unfold atob, b64_decode.
  by rewrite E.
Qed.

(** [base64ToBytes] throws on a text with a character outside the alphabet
    that is neither whitespace nor trailing padding. *)
Theorem base64ToBytes_bad_char s :
  Exists (fun c => sextet_of_char c = None)
    (strip_padding
       (List.filter (fun c => negb (is_ascii_whitespace c))
          (list_ascii_of_string s))) ->
  base64ToBytes s = Throw "InvalidCharacterError".
Proof.
  intros E. rewrite base64ToBytes_atob. unfold atob, b64_decode.
  case_match; [done|]. by rewrite (mapM_None_2 _ _ E).
Qed.

(** The bytes [base64ToBytes] returns are bytes. *)
Theorem base64ToBytes_bytes s bs : base64ToBytes s = Ret bs -> bytes bs.
Proof.
  rewrite base64ToBytes_atob. destruct (atob s) as [bin|] eqn:E; [|done].
  intros [= <-]. by eapply atob_bytes.
Qed.
