(* ===== verification/Crypto.v ===== *)
(** * Crypto: key derivation and authenticated encryption of [scripts/crypto.js]

    [deriveKeyPBKDF2], [encryptJSON] and [decryptJSON] are translated from the
    source.  The functions of [crypto.subtle] they call are modelled from the
    Web Cryptography API: a key is a record of its algorithm, its bytes, its
    [extractable] flag and its usages, and every operation checks them the way
    the API does.  The primitives themselves (PBKDF2-HMAC-SHA-256, AES-GCM,
    the random source) and [JSON.stringify] / [JSON.parse] are the fields of
    two interfaces, [WebCrypto] and [JSON], with the equations the API
    guarantees.  [IdealAEAD] adds the equation that holds of AES-GCM only up
    to a negligible probability: opening under another key fails.

    A string stands for the UTF-8 bytes of the JavaScript string, so that
    [TextEncoder.encode] and [TextDecoder.decode] are conversions between
    [string] and [list Z].

    The state of this component is the cursor into the random stream: the
    functions that draw random bytes are in the monad [M nat].

    The message of an exception thrown by the platform is browser specific;
    the model uses the exception's name ("OperationError", "TypeError", ...).
    The messages the source itself creates ("No payload") are exact. *)

From Stdlib Require Import ZArith Lia ZifyNat Ascii String.
From stdpp Require Import base tactics option list strings sets.
From S2P Require Import Prelude Base64.

#[local] Open Scope Z_scope.

(** ** Keys *)

Inductive KeyUsage := UEncrypt | UDecrypt | UDeriveKey.

#[export] Instance KeyUsage_eq_dec : EqDecision KeyUsage.
Proof. solve_decision. Defined.

(** A [CryptoKey] object. *)
Record CryptoKey := {
  algorithm : string;
  key_bytes : list Z;
  extractable : bool;
  usages : list KeyUsage;
}.

#[export] Instance CryptoKey_eq_dec : EqDecision CryptoKey.
Proof. solve_decision. Defined.

(** A key in JSON Web Key format, as [exportKey('jwk', _)] returns it. *)
Record Jwk := {
  kty : string;
  k : list Z;
  jwk_alg : string;
  ext : bool;
  key_ops : list KeyUsage;
}.

#[export] Instance Jwk_eq_dec : EqDecision Jwk.
Proof. solve_decision. Defined.

(** The encrypted record [{ v, alg, iv, ct }] of [encryptJSON]. *)
Record EncPayload := {
  v : Z;
  alg : string;
  iv : string;
  ct : string;
}.

#[export] Instance EncPayload_eq_dec : EqDecision EncPayload.
Proof. solve_decision. Defined.

(** ** What the platform promises *)

Class WebCrypto := {
  (** PBKDF2 with HMAC-SHA-256, 256 bits of output: password, salt, count. *)
  pbkdf2_sha256 : list Z -> list Z -> Z -> list Z;
  pbkdf2_length p s c : length (pbkdf2_sha256 p s c) = 32%nat;
  pbkdf2_bytes p s c : bytes (pbkdf2_sha256 p s c);
  (** AES-GCM: key, nonce, plaintext to ciphertext and tag, and back. *)
  aes_gcm_seal : list Z -> list Z -> list Z -> list Z;
  aes_gcm_open : list Z -> list Z -> list Z -> option (list Z);
  aes_gcm_seal_bytes key nonce pt : bytes (aes_gcm_seal key nonce pt);
  aes_gcm_open_seal key nonce pt :
    bytes pt -> aes_gcm_open key nonce (aes_gcm_seal key nonce pt) = Some pt;
  (** The stream [crypto.getRandomValues] reads. *)
  random_byte : nat -> Z;
  random_byte_is_byte n : is_byte (random_byte n);
}.

Class IdealAEAD `{WebCrypto} := {
  aes_gcm_open_wrong_key key key' nonce pt :
    bytes key -> bytes key' -> length key = length key' -> key <> key' ->
    aes_gcm_open key' nonce (aes_gcm_seal key nonce pt) = None;
}.

Class JSON (T : Type) := {
  JSON_stringify : T -> string;
  JSON_parse : string -> option T;
  JSON_parse_stringify x : JSON_parse (JSON_stringify x) = Some x;
}.

(** ** Text encoding *)

Definition TextEncoder_encode (s : string) : list Z :=
  Z_of_ascii <$> list_ascii_of_string s.

Definition TextDecoder_decode (bs : list Z) : string :=
  string_of_list_ascii (ascii_of_Z <$> bs).

Section crypto.
Context `{WebCrypto}.

(** ** [crypto.getRandomValues(new Uint8Array(n))] *)

Definition getRandomValues (n : nat) : M nat (list Z) := fun e =>
  (Ret (random_byte <$> seq e n), (e + n)%nat).

(** ** [crypto.subtle] *)

Definition has_usage (u : KeyUsage) (key : CryptoKey) : bool :=
  bool_decide (u ∈ usages key).

Definition is_aes_length (n : nat) : bool :=
  bool_decide (n ∈ [16; 24; 32]%nat).

(** [importKey('raw', data, { name: 'PBKDF2' }, false, ['deriveKey'])] *)
Definition subtle_importKey_raw_PBKDF2 (data : list Z) : CryptoKey :=
  {| algorithm := "PBKDF2"; key_bytes := data; extractable := false;
     usages := [UDeriveKey] |}.

(** [deriveKey({ name: 'PBKDF2', salt, iterations, hash: 'SHA-256' }, baseKey,
    { name: 'AES-GCM', length: 256 }, extractable, usages)] *)
Definition subtle_deriveKey (salt : list Z) (iterations : Z) (baseKey : CryptoKey)
    (extractable : bool) (usages : list KeyUsage) : outcome CryptoKey :=
  if negb (String.eqb (algorithm baseKey) "PBKDF2" && has_usage UDeriveKey baseKey)
  then Throw "InvalidAccessError"
  else if negb ((0 <=? iterations) && (iterations <? 2 ^ 32)) then Throw "TypeError"
  else if iterations =? 0 then Throw "OperationError"
  else if bool_decide (usages = []) then Throw "SyntaxError"
  else Ret {| algorithm := "AES-GCM";
              key_bytes := pbkdf2_sha256 (key_bytes baseKey) salt iterations;
              extractable := extractable; usages := usages |}.

(** [generateKey({ name: 'AES-GCM', length: 256 }, extractable, usages)] *)
Definition subtle_generateKey (extractable : bool) (usages : list KeyUsage)
    : M nat CryptoKey :=
  if bool_decide (usages = []) then throw "SyntaxError"
  else
    bs ← getRandomValues 32;
    mret {| algorithm := "AES-GCM"; key_bytes := bs;
            extractable := extractable; usages := usages |}.

(** [encrypt({ name: 'AES-GCM', iv }, key, data)] *)
Definition subtle_encrypt (iv : list Z) (key : option CryptoKey) (data : list Z)
    : outcome (list Z) :=
  match key with
  | None => Throw "TypeError"
  | Some key =>
      if negb (String.eqb (algorithm key) "AES-GCM" && has_usage UEncrypt key)
      then Throw "InvalidAccessError"
      else Ret (aes_gcm_seal (key_bytes key) iv data)
  end.

(** [decrypt({ name: 'AES-GCM', iv }, key, data)] *)
Definition subtle_decrypt (iv : list Z) (key : option CryptoKey) (data : list Z)
    : outcome (list Z) :=
  match key with
  | None => Throw "TypeError"
  | Some key =>
      if negb (String.eqb (algorithm key) "AES-GCM" && has_usage UDecrypt key)
      then Throw "InvalidAccessError"
      else of_option "OperationError" (aes_gcm_open (key_bytes key) iv data)
  end.

(** [exportKey('jwk', key)] *)
Definition subtle_exportKey_jwk (key : CryptoKey) : outcome Jwk :=
  if negb (extractable key) then Throw "InvalidAccessError"
  else Ret {| kty := "oct"; k := key_bytes key;
              jwk_alg := if bool_decide (length (key_bytes key) = 32%nat)
                         then "A256GCM"
                         else if bool_decide (length (key_bytes key) = 24%nat)
                         then "A192GCM" else "A128GCM";
              ext := true; key_ops := usages key |}.

(** [importKey('jwk', jwk, { name: 'AES-GCM', length: 256 }, extractable, usages)] *)
Definition subtle_importKey_jwk (jwk : Jwk) (extractable : bool)
    (usages : list KeyUsage) : outcome CryptoKey :=
  if negb (String.eqb (kty jwk) "oct") then Throw "DataError"
  else if negb (is_aes_length (length (k jwk))) then Throw "DataError"
  else if negb (bool_decide (Forall (fun u => u ∈ key_ops jwk) usages))
  then Throw "DataError"
  else if negb (ext jwk) && extractable then Throw "DataError"
  else if bool_decide (usages = []) then Throw "SyntaxError"
  else Ret {| algorithm := "AES-GCM"; key_bytes := k jwk;
              extractable := extractable; usages := usages |}.

(** ** [crypto.js] *)

Definition deriveKeyPBKDF2 (password : string) (salt : list Z)
    (iterations : option Z) : outcome CryptoKey :=
  let iterations := default 310000 iterations in
  let baseKey := subtle_importKey_raw_PBKDF2 (TextEncoder_encode password) in
  subtle_deriveKey salt iterations baseKey true [UEncrypt; UDecrypt].

Definition encryptJSON {T} `{JSON T} (obj : T) (key : option CryptoKey)
    (randomIfNoKey : bool) : M nat EncPayload :=
  key ← (if negb (bool_decide (is_Some key)) && randomIfNoKey
         then Some <$> subtle_generateKey true [UEncrypt]
         else mret key);
  iv ← getRandomValues 12;
  let data := TextEncoder_encode (JSON_stringify obj) in
  ct ← lift (subtle_encrypt iv key data);
  iv64 ← lift (bytesToBase64 iv);
  ct64 ← lift (bytesToBase64 ct);
  mret {| v := 1; alg := "AES-256-GCM"; iv := iv64; ct := ct64 |}.

Definition decryptJSON {T} `{JSON T} (payload : option EncPayload)
    (key : option CryptoKey) : outcome T :=
  match payload with
  | None => Throw "No payload"
  | Some payload =>
      iv ← base64ToBytes (iv payload);
      ct ← base64ToBytes (ct payload);
      pt ← subtle_decrypt iv key ct;
      of_option "SyntaxError" (JSON_parse (TextDecoder_decode pt))
  end.

(** The key [deriveKeyPBKDF2] returns, when it returns. *)
Definition derived_key (password : string) (salt : list Z) (iterations : Z)
    : CryptoKey :=
  {| algorithm := "AES-GCM";
     key_bytes := pbkdf2_sha256 (TextEncoder_encode password) salt iterations;
     extractable := true; usages := [UEncrypt; UDecrypt] |}.

(** The record [encryptJSON] builds under [key] at cursor [e]. *)
Definition sealed {T} `{JSON T} (obj : T) (key : CryptoKey) (e : nat) : EncPayload :=
  let nonce := random_byte <$> seq e 12 in
  {| v := 1; alg := "AES-256-GCM"; iv := b64_text nonce;
     ct := b64_text (aes_gcm_seal (key_bytes key) nonce
                       (TextEncoder_encode (JSON_stringify obj))) |}.

(** A key that [encryptJSON] and [decryptJSON] can both use. *)
Definition usable (key : CryptoKey) : Prop :=
  algorithm key = "AES-GCM" /\ UEncrypt ∈ usages key /\ UDecrypt ∈ usages key.

#[export] Instance usable_dec key : Decision (usable key).
Proof. unfold usable. apply _. Defined.

End crypto.

Arguments getRandomValues : simpl never.
Arguments sealed : simpl never.

Lemma getRandomValues_run `{WebCrypto} n e :
  getRandomValues n e = (Ret (random_byte <$> seq e n), (e + n)%nat).
Proof. reflexivity. Qed.

(** * Theorems *)

(** [crun] runs the monadic code of this file step by step. *)
Ltac crun := repeat first [ progress mrun | rewrite getRandomValues_run ].

(** ** Text encoding *)

Lemma ascii_of_Z_of_ascii c : ascii_of_Z (Z_of_ascii c) = c.
Proof.
  unfold ascii_of_Z, Z_of_ascii. rewrite N2Z.id. apply ascii_N_embedding.
Qed.

Lemma TextDecoder_decode_encode s : TextDecoder_decode (TextEncoder_encode s) = s.
Proof.
  unfold TextDecoder_decode, TextEncoder_encode.
  rewrite <- list_fmap_compose, (list_fmap_ext _ id).
  - by rewrite list_fmap_id, string_of_list_ascii_of_string.
  - intros ? c _. apply ascii_of_Z_of_ascii.
Qed.

Lemma TextEncoder_encode_bytes s : bytes (TextEncoder_encode s).
Proof.
  unfold TextEncoder_encode. apply Forall_fmap, Forall_true.
  intros c. apply Z_of_ascii_byte.
Qed.

Section crypto_facts.
Context `{WebCrypto}.

(** ** The random source *)

Lemma random_bytes e n : bytes (random_byte <$> seq e n).
Proof. apply Forall_fmap, Forall_true. intros i. apply random_byte_is_byte. Qed.

Lemma random_length e n : length (random_byte <$> seq e n) = n.
Proof. by rewrite length_fmap, length_seq. Qed.

(** ** [crypto.subtle] *)

Lemma has_usage_true u key : has_usage u key = true <-> u ∈ usages key.
Proof. apply bool_decide_eq_true. Qed.

Lemma subtle_encrypt_usable nonce key data :
  algorithm key = "AES-GCM" -> UEncrypt ∈ usages key ->
  subtle_encrypt nonce (Some key) data = Ret (aes_gcm_seal (key_bytes key) nonce data).
Proof.
  intros Ha Hu. unfold subtle_encrypt.
  by rewrite Ha, (proj2 (has_usage_true _ _) Hu).
Qed.

Lemma subtle_decrypt_usable nonce key data :
  algorithm key = "AES-GCM" -> UDecrypt ∈ usages key ->
  subtle_decrypt nonce (Some key) data =
  of_option "OperationError" (aes_gcm_open (key_bytes key) nonce data).
Proof.
  intros Ha Hu. unfold subtle_decrypt.
  by rewrite Ha, (proj2 (has_usage_true _ _) Hu).
Qed.

(** A key without the [decrypt] usage opens nothing. *)
Lemma subtle_decrypt_no_usage nonce key data :
  UDecrypt ∉ usages key ->
  subtle_decrypt nonce (Some key) data = Throw "InvalidAccessError".
Proof.
  intros Hu. unfold subtle_decrypt, has_usage.
  rewrite bool_decide_eq_false_2 by done. by rewrite andb_false_r.
Qed.

(** ** [deriveKeyPBKDF2] *)

(** With an iteration count in range, [deriveKeyPBKDF2] returns the
    AES-GCM key whose bytes are the PBKDF2 output for the password. *)
Theorem deriveKeyPBKDF2_returns password salt iterations :
  0 < iterations < 2 ^ 32 ->
  deriveKeyPBKDF2 password salt (Some iterations) =
  Ret (derived_key password salt iterations).
Proof.
  intros Hi. unfold deriveKeyPBKDF2, subtle_deriveKey, derived_key. cbn.
  rewrite (proj2 (Z.leb_le _ _)), (proj2 (Z.ltb_lt _ _)) by lia.
  by rewrite (proj2 (Z.eqb_neq _ _)) by lia.
Qed.

(** The default count is 310000. *)
Theorem deriveKeyPBKDF2_default password salt :
  deriveKeyPBKDF2 password salt None = Ret (derived_key password salt 310000).
Proof. apply (deriveKeyPBKDF2_returns password salt 310000). lia. Qed.

(** A count of zero, a negative one or one of 2^32 or more is refused. *)
Theorem deriveKeyPBKDF2_throws password salt iterations :
  ~ 0 < iterations < 2 ^ 32 ->
  is_Ret (deriveKeyPBKDF2 password salt (Some iterations)) = false.
Proof.
  intros Hi. unfold deriveKeyPBKDF2, subtle_deriveKey. cbn.
  destruct (Z.leb_spec 0 iterations), (Z.ltb_spec iterations (2 ^ 32)); cbn; try done.
  destruct (Z.eqb_spec iterations 0); [done|lia].
Qed.

Lemma derived_key_usable password salt iterations :
  usable (derived_key password salt iterations).
Proof. unfold usable. cbn. split_and!; [done|set_solver..]. Qed.

Lemma derived_key_length password salt iterations :
  length (key_bytes (derived_key password salt iterations)) = 32%nat.
Proof. apply pbkdf2_length. Qed.

(** ** Export and import *)

(** A key exported as JWK and imported again, as the session resume does,
    has the same bytes; it is no longer extractable. *)
Theorem import_export_jwk key jwk :
  usable key -> is_aes_length (length (key_bytes key)) = true ->
  subtle_exportKey_jwk key = Ret jwk ->
  subtle_importKey_jwk jwk false [UEncrypt; UDecrypt] =
  Ret {| algorithm := "AES-GCM"; key_bytes := key_bytes key;
         extractable := false; usages := [UEncrypt; UDecrypt] |}.
Proof.
  intros (Ha & He & Hd) Hlen. unfold subtle_exportKey_jwk.
  destruct (extractable key); [|done]. intros [= <-].
  unfold subtle_importKey_jwk. cbn. rewrite Hlen. cbn.
  rewrite bool_decide_eq_true_2; [done|]. by repeat constructor.
Qed.

(** A key that is not extractable cannot be exported. *)
Theorem export_not_extractable key :
  extractable key = false -> subtle_exportKey_jwk key = Throw "InvalidAccessError".
Proof. intros E. unfold subtle_exportKey_jwk. by rewrite E. Qed.

Section json.
Context {T : Type} `{JSON T}.

(** ** [encryptJSON] *)

(** With a key that may encrypt, [encryptJSON] returns the record
    [sealed] and has drawn twelve random bytes. *)
Theorem encryptJSON_returns obj key b e :
  algorithm key = "AES-GCM" -> UEncrypt ∈ usages key ->
  encryptJSON obj (Some key) b e = (Ret (sealed obj key e), (e + 12)%nat).
Proof.
  intros Ha Hu. unfold encryptJSON, sealed.
  rewrite bool_decide_eq_true_2 by done. cbn [negb andb].
  crun. rewrite subtle_encrypt_usable by done. crun.
  rewrite !bytesToBase64_returns. by crun.
Qed.

(** Without a key and without [randomIfNoKey], [encryptJSON] throws, after
    it has drawn the nonce. *)
Theorem encryptJSON_no_key obj e :
  encryptJSON obj None false e = (Throw "TypeError", (e + 12)%nat).
Proof.
  unfold encryptJSON.
  rewrite (bool_decide_eq_false_2 (is_Some None)) by (by intros [??]).
  cbn [negb andb]. by crun.
Qed.

(** With [randomIfNoKey] and no key, the record is sealed under 32 fresh
    random bytes that the function does not return. *)
Theorem encryptJSON_random_key obj e :
  encryptJSON obj None true e =
  (Ret (sealed obj {| algorithm := "AES-GCM"; key_bytes := random_byte <$> seq e 32;
                      extractable := true; usages := [UEncrypt] |} (e + 32)),
   (e + 32 + 12)%nat).
Proof.
  unfold encryptJSON, sealed, subtle_generateKey.
  rewrite (bool_decide_eq_false_2 (is_Some None)) by (by intros [??]).
  rewrite (bool_decide_eq_false_2 (_ = [])) by done. cbn [negb andb].
  crun. rewrite subtle_encrypt_usable by (done || set_solver). crun.
  rewrite !bytesToBase64_returns. by crun.
Qed.

Lemma sealed_nonce obj key e :
  base64ToBytes (iv (sealed obj key e)) = Ret (random_byte <$> seq e 12).
Proof.
  unfold sealed. cbn [iv]. rewrite base64ToBytes_b64_text.
  by rewrite bytes_wrap8_id by apply random_bytes.
Qed.

(** The record [encryptJSON] returns has version 1, names its cipher, and
    its nonce is the twelve bytes the random source gave at this call: two
    calls use the same nonce only if the source repeats itself. *)
Theorem encryptJSON_payload obj key b e p e' :
  encryptJSON obj (Some key) b e = (Ret p, e') ->
  v p = 1 /\ alg p = "AES-256-GCM" /\ e' = (e + 12)%nat /\
  base64ToBytes (iv p) = Ret (random_byte <$> seq e 12).
Proof.
  unfold encryptJSON. rewrite bool_decide_eq_true_2 by done. cbn [negb andb].
  crun. destruct (subtle_encrypt _ _ _) as [c|]; [|done]. crun.
  rewrite !bytesToBase64_returns. crun. intros [= <- <-].
  split_and!; [done..|]. apply (sealed_nonce obj key e).
Qed.

(** ** [decryptJSON] *)

Theorem decryptJSON_no_payload key : decryptJSON (T := T) None key = Throw "No payload".
Proof. reflexivity. Qed.

(** Decrypting under the key that sealed a record gives the object back. *)
Theorem decrypt_sealed obj key e :
  usable key -> decryptJSON (Some (sealed obj key e)) (Some key) = Ret obj.
Proof.
  intros (Ha & He & Hd). unfold decryptJSON, sealed. cbn [iv ct].
  rewrite !base64ToBytes_b64_text. orun.
  rewrite !bytes_wrap8_id by (apply random_bytes || apply aes_gcm_seal_bytes).
  rewrite subtle_decrypt_usable by done.
  rewrite aes_gcm_open_seal by apply TextEncoder_encode_bytes. orun.
  by rewrite TextDecoder_decode_encode, JSON_parse_stringify.
Qed.

(** The round trip of [encryptJSON] and [decryptJSON]. *)
Theorem encrypt_decrypt_roundtrip obj key b e payload e' :
  usable key ->
  encryptJSON obj (Some key) b e = (Ret payload, e') ->
  decryptJSON (Some payload) (Some key) = Ret obj.
Proof.
  intros Hk. rewrite encryptJSON_returns by apply Hk. intros [= <- _].
  by apply decrypt_sealed.
Qed.

(** A record sealed under a key made by [randomIfNoKey] cannot be opened
    with that key: it lacks the [decrypt] usage. *)
Theorem decrypt_random_key obj e p e' :
  encryptJSON obj None true e = (Ret p, e') ->
  decryptJSON (T := T) (Some p)
    (Some {| algorithm := "AES-GCM"; key_bytes := random_byte <$> seq e 32;
             extractable := true; usages := [UEncrypt] |})
  = Throw "InvalidAccessError".
Proof.
  rewrite encryptJSON_random_key. intros [= <- _].
  unfold decryptJSON, sealed. cbn [iv ct].
  rewrite !base64ToBytes_b64_text. orun.
  rewrite subtle_decrypt_no_usage; [done|]. cbn [usages].
  by rewrite list_elem_of_singleton.
Qed.

(** [decryptJSON] without a key throws. *)
Theorem decryptJSON_no_key obj key e :
  decryptJSON (T := T) (Some (sealed obj key e)) None = Throw "TypeError".
Proof.
  unfold decryptJSON, sealed. cbn [iv ct].
  by rewrite !base64ToBytes_b64_text.
Qed.

(** Under the ideal AEAD, decrypting with a key of other bytes throws
    [OperationError]. *)
Lemma decrypt_wrong_key `{!IdealAEAD} obj key key' e :
  usable key' ->
  bytes (key_bytes key) -> bytes (key_bytes key') ->
  length (key_bytes key) = length (key_bytes key') ->
  key_bytes key <> key_bytes key' ->
  decryptJSON (T := T) (Some (sealed obj key e)) (Some key') = Throw "OperationError".
Proof.
  intros (Ha & _ & Hd) Hb Hb' Hlen Hne. unfold decryptJSON, sealed. cbn [iv ct].
  rewrite !base64ToBytes_b64_text. orun.
  rewrite !bytes_wrap8_id by (apply random_bytes || apply aes_gcm_seal_bytes).
  rewrite subtle_decrypt_usable by done.
  by rewrite aes_gcm_open_wrong_key.
Qed.

Lemma sealed_same_bytes obj key key' e :
  key_bytes key = key_bytes key' -> sealed obj key e = sealed obj key' e.
Proof. unfold sealed. by intros ->. Qed.

(** C38: under the ideal AEAD, [decryptJSON] returns exactly when the bytes of
    the key are the bytes of the key that sealed the record, and then it
    returns the object that was sealed: this is the only check of the master
    password. *)
Theorem decrypt_iff_same_key `{!IdealAEAD} obj key key' e :
  usable key' ->
  bytes (key_bytes key) -> bytes (key_bytes key') ->
  length (key_bytes key) = length (key_bytes key') ->
  decryptJSON (T := T) (Some (sealed obj key e)) (Some key') =
  if decide (key_bytes key' = key_bytes key) then Ret obj else Throw "OperationError".
Proof.
  intros Hu Hb Hb' Hlen. case_decide as E.
  - rewrite (sealed_same_bytes obj key key') by done. by apply decrypt_sealed.
  - by apply decrypt_wrong_key.
Qed.

(** A record whose text is not base64 is refused before any decryption. *)
Theorem decryptJSON_bad_base64 p key :
  atob (iv p) = None ->
  decryptJSON (T := T) (Some p) key = Throw "InvalidCharacterError".
Proof.
  intros E. unfold decryptJSON. by rewrite (base64ToBytes_atob (iv p)), E.
Qed.

End json.
End crypto_facts.
