(* ===== verification/Storage.v ===== *)
(** * Storage: the IndexedDB key-value helpers of [scripts/storage.js]

    The database [passvault] is a finite map from object-store names to
    object stores, and an object store a finite map from keys to values.
    [None] is the database that has not been created yet: the first
    [indexedDB.open] creates it and runs [onupgradeneeded], which creates the
    store [vault].

    The module variable [dbPromise] caches the promise of the first open
    request: [None] is [null], [Some (Ret tt)] a promise resolved with the
    connection and [Some (Throw msg)] a rejected one.  It is part of the
    worker's memory; the database is not.

    A transaction is atomic: the function run inside [withStore] works on a
    copy of the store, which replaces the store only when the function
    returns; when it throws, the transaction aborts and the database is as
    before.  The field [open_fails] is the environment's input: while it is
    set, open requests fail.

    The theorems: [ensureDB] creates the store once and never loses data;
    what [idbSet] stores [idbGet] returns; a failing operation leaves the
    database untouched; a failed open is cached for the life of the worker. *)

From Stdlib Require Import ZArith Lia.
From stdpp Require Import base tactics option list strings gmap.
From S2P Require Import Prelude.

#[local] Open Scope Z_scope.

Definition DB_NAME : string := "passvault".
Definition DB_VERSION : Z := 1.
Definition STORE_VAULT : string := "vault".

(** The mode of a transaction. *)
Inductive TxMode := readonly | readwrite.

#[export] Instance TxMode_eq_dec : EqDecision TxMode.
Proof. solve_decision. Defined.

Section storage.
Context {V : Type} `{Truthy V}.

(** The state [storage.js] works on. *)
Record IDB := {
  dbPromise : option (outcome unit);
  database : option (gmap string (gmap string V));
  open_fails : bool;
}.

Definition set_dbPromise (p : option (outcome unit)) (s : IDB) : IDB :=
  {| dbPromise := p; database := database s; open_fails := open_fails s |}.

Definition set_database (d : option (gmap string (gmap string V))) (s : IDB) : IDB :=
  {| dbPromise := dbPromise s; database := d; open_fails := open_fails s |}.

Definition set_open_fails (b : bool) (s : IDB) : IDB :=
  {| dbPromise := dbPromise s; database := database s; open_fails := b |}.

(** ** The platform *)

(** [req.onupgradeneeded] of [ensureDB], run on the stores of the database. *)
Definition onupgradeneeded (stores : gmap string (gmap string V))
    : gmap string (gmap string V) :=
  if bool_decide (is_Some (stores !! STORE_VAULT)) then stores
  else <[STORE_VAULT := ∅]> stores.

(** [indexedDB.open(DB_NAME, DB_VERSION)] with the handlers of [ensureDB]:
    a database that does not exist is created at version [DB_VERSION] and
    upgraded; one that exists is opened as it is. *)
Definition indexedDB_open : M IDB unit :=
  s ← get;
  if open_fails s then throw "UnknownError"
  else
    match database s with
    | Some _ => mret tt
    | None => modify (set_database (Some (onupgradeneeded ∅)))
    end.

(** [store.get(key)] with [req.onsuccess = () => resolve(req.result || null)] *)
Definition store_get (key : string) : M (gmap string V) (option V) :=
  gets (fun store => or_null (store !! key)).

(** [store.put(value, key)] with [req.onsuccess = () => resolve(true)] *)
Definition store_put (mode : TxMode) (value : V) (key : string)
    : M (gmap string V) bool :=
  if decide (mode = readonly) then throw "ReadOnlyError"
  else _ ← modify <[key := value]>; mret true.

(** ** [storage.js] *)

Definition ensureDB : M IDB unit :=
  p ← gets dbPromise;
  match p with
  | Some r => lift r
  | None =>
      r ← capture indexedDB_open;
      _ ← modify (set_dbPromise (Some r));
      lift r
  end.

(** [withStore(storeName, mode, fn)]: [fn] is given the object store, which
    knows the mode of its transaction, and runs inside that transaction. *)
Definition withStore {A} (storeName : string) (mode : TxMode)
    (fn : TxMode -> M (gmap string V) A) : M IDB A :=
  _ ← ensureDB;
  s ← get;
  match database s ≫= (fun stores => stores !! storeName) with
  | None => throw "NotFoundError"
  | Some store =>
      match fn mode store with
      | (Ret a, store') =>
          _ ← modify (set_database ((<[storeName := store']>) <$> database s));
          mret a
      | (Throw e, _) => throw e
      end
  end.

Definition idbGet (storeName key : string) : M IDB (option V) :=
  withStore storeName readonly (fun _ => store_get key).

Definition idbSet (storeName key : string) (value : V) : M IDB bool :=
  withStore storeName readwrite (fun mode => store_put mode value key).

(** ** Reading the state *)

(** The value under [key] of the store [storeName], if both exist. *)
Definition stored (storeName key : string) (s : IDB) : option V :=
  stores ← database s; store ← stores !! storeName; store !! key.

(** The connection is open, or can be opened: no failure is cached or
    pending. *)
Definition healthy (s : IDB) : Prop :=
  dbPromise s = Some (Ret tt) \/ dbPromise s = None /\ open_fails s = false.

(** The store [vault] exists once the database does, and a resolved
    [dbPromise] means that the database has been created. *)
Definition idb_wf (s : IDB) : Prop :=
  (forall stores, database s = Some stores -> is_Some (stores !! STORE_VAULT)) /\
  (dbPromise s = Some (Ret tt) -> is_Some (database s)).

(** The object stores, those of a new database if there is none yet. *)
Definition stores_of (s : IDB) : gmap string (gmap string V) :=
  default (onupgradeneeded ∅) (database s).

(** The state after a successful [ensureDB]. *)
Definition opened (s : IDB) : IDB :=
  set_dbPromise (Some (Ret tt)) (set_database (Some (stores_of s)) s).

(** The state after a transaction has replaced the store [storeName]. *)
Definition committed (storeName : string) (store : gmap string V) (s : IDB) : IDB :=
  set_database (Some (<[storeName := store]> (stores_of s))) (opened s).

(** The contents of the store [vault]. *)
Definition vault_store (s : IDB) : gmap string V :=
  default ∅ (stores_of s !! STORE_VAULT).

End storage.

Arguments IDB V : clear implicits.

(** * Theorems *)

Section storage_facts.
Context {V : Type} `{Truthy V}.
Implicit Types (s : IDB V) (store : gmap string V) (key sn : string).

Lemma IDB_eta s :
  {| dbPromise := dbPromise s; database := database s; open_fails := open_fails s |} = s.
Proof. by destruct s. Qed.

(** ** [ensureDB] *)

(** A settled [dbPromise] is returned as it is: nothing is opened again. *)
Lemma ensureDB_cached s r : dbPromise s = Some r -> ensureDB s = (r, s).
Proof. intros E. unfold ensureDB. mrun. by rewrite E. Qed.

(** The first call opens the database, creating it with its store. *)
Lemma ensureDB_first s :
  dbPromise s = None -> open_fails s = false -> ensureDB s = (Ret tt, opened s).
Proof.
  intros Ep Ef. unfold ensureDB, indexedDB_open. mrun. rewrite Ep. mrun.
  rewrite run_capture. mrun. rewrite Ef.
  unfold opened, stores_of, set_dbPromise, set_database.
  destruct s as [p [d|] f]; cbn in *; by mrun.
Qed.

(** The first call fails when the open request does, and caches the failure. *)
Lemma ensureDB_first_fails s :
  dbPromise s = None -> open_fails s = true ->
  ensureDB s = (Throw "UnknownError", set_dbPromise (Some (Throw "UnknownError")) s).
Proof.
  intros Ep Ef. unfold ensureDB, indexedDB_open. mrun. rewrite Ep. mrun.
  rewrite run_capture. mrun. rewrite Ef. by mrun.
Qed.

Lemma opened_id s : dbPromise s = Some (Ret tt) -> idb_wf s -> opened s = s.
Proof.
  intros Ep [_ Hd]. destruct (Hd Ep) as [d Ed].
  unfold opened, stores_of, set_dbPromise, set_database. cbn.
  rewrite Ed. cbn. rewrite <- Ep, <- Ed. apply IDB_eta.
Qed.

(** On a healthy state [ensureDB] returns and leaves the state [opened]. *)
Lemma ensureDB_healthy s : healthy s -> idb_wf s -> ensureDB s = (Ret tt, opened s).
Proof.
  intros [Ep|[Ep Ef]] Hwf.
  - by rewrite (ensureDB_cached s (Ret tt)), opened_id.
  - by apply ensureDB_first.
Qed.

Lemma stored_opened sn key s : idb_wf s -> stored sn key (opened s) = stored sn key s.
Proof.
  intros [Hv _]. unfold stored, opened, stores_of. cbn.
  destruct (database s) as [d|] eqn:Ed; [done|]. cbn.
  unfold onupgradeneeded. rewrite lookup_empty.
  rewrite bool_decide_eq_false_2 by (by intros [??]).
  destruct (decide (sn = STORE_VAULT)) as [->|Hne].
  - by rewrite lookup_insert_eq.
  - by rewrite lookup_insert_ne, lookup_empty.
Qed.

(** [ensureDB] never changes a stored value, whether it succeeds or not. *)
Theorem ensureDB_stored sn key s :
  idb_wf s -> stored sn key (ensureDB s).2 = stored sn key s.
Proof.
  intros Hwf. destruct (dbPromise s) as [r|] eqn:Ep.
  - by rewrite (ensureDB_cached s r).
  - destruct (open_fails s) eqn:Ef.
    + by rewrite ensureDB_first_fails.
    + rewrite ensureDB_first by done. by apply stored_opened.
Qed.

Lemma opened_wf s : idb_wf s -> idb_wf (opened s).
Proof.
  intros [Hv _]. split; [|by eexists].
  unfold opened, stores_of. cbn. intros d [= <-].
  destruct (database s) as [d|] eqn:Ed; cbn; [by apply Hv|].
  unfold onupgradeneeded. rewrite lookup_empty.
  rewrite bool_decide_eq_false_2 by (by intros [??]).
  rewrite lookup_insert_eq. by eexists.
Qed.

Lemma opened_healthy s : healthy (opened s).
Proof. by left. Qed.

(** [ensureDB] keeps the state well formed. *)
Theorem ensureDB_wf s : idb_wf s -> idb_wf (ensureDB s).2.
Proof.
  intros Hwf. destruct (dbPromise s) as [r|] eqn:Ep.
  - by rewrite (ensureDB_cached s r).
  - destruct (open_fails s) eqn:Ef.
    + rewrite ensureDB_first_fails by done. destruct Hwf as [Hv _].
      split; [done|]. by intros [=].
    + rewrite ensureDB_first by done. by apply opened_wf.
Qed.

(** C39: a failed open is cached: once [ensureDB] has failed, it fails until
    the worker restarts, even when the database can be opened again. *)
Theorem ensureDB_failure_is_cached s :
  dbPromise s = None -> open_fails s = true ->
  let s1 := set_open_fails false (ensureDB s).2 in
  open_fails s1 = false /\ ensureDB s1 = (Throw "UnknownError", s1).
Proof.
  intros Ep Ef. rewrite ensureDB_first_fails by done. cbn [fst snd].
  split; [done|]. by apply ensureDB_cached.
Qed.

(** ** [withStore] *)

Lemma stores_of_vault s : idb_wf s -> stores_of s !! STORE_VAULT = Some (vault_store s).
Proof.
  intros Hwf. unfold vault_store.
  destruct (opened_wf s Hwf) as [Hv _].
  destruct (Hv (stores_of s) eq_refl) as [st ->]. done.
Qed.

(** [withStore] on the store [vault] of a healthy database: the function runs
    on the store, and its changes are committed only if it returns. *)
Lemma withStore_vault {A} mode (fn : TxMode -> M (gmap string V) A) s :
  healthy s -> idb_wf s ->
  withStore STORE_VAULT mode fn s =
  match fn mode (vault_store s) with
  | (Ret a, store') => (Ret a, committed STORE_VAULT store' s)
  | (Throw e, _) => (Throw e, opened s)
  end.
Proof.
  intros Hh Hwf. unfold withStore. mrun. rewrite ensureDB_healthy by done. mrun.
  cbn [database opened set_dbPromise set_database mbind option_bind].
  rewrite stores_of_vault by done.
  destruct (fn mode (vault_store s)) as [[a|e] store']; by mrun.
Qed.

(** A store that does not exist cannot be opened. *)
Lemma withStore_not_found {A} sn mode (fn : TxMode -> M (gmap string V) A) s :
  healthy s -> idb_wf s -> stores_of s !! sn = None ->
  withStore sn mode fn s = (Throw "NotFoundError", opened s).
Proof.
  intros Hh Hwf En. unfold withStore. mrun. rewrite ensureDB_healthy by done. mrun.
  cbn [database opened set_dbPromise set_database mbind option_bind].
  rewrite En. by mrun.
Qed.

(** When the database cannot be opened, nothing else happens. *)
Lemma withStore_unhealthy {A} sn mode (fn : TxMode -> M (gmap string V) A) s e :
  (ensureDB s).1 = Throw e -> withStore sn mode fn s = (Throw e, (ensureDB s).2).
Proof.
  intros E. unfold withStore. mrun.
  destruct (ensureDB s) as [[[]|e'] s']; cbn in E; [done|]. by injection E as ->.
Qed.

(** ** [idbGet] and [idbSet] *)

Lemma stored_vault_store key s :
  idb_wf s -> stored STORE_VAULT key s = vault_store s !! key.
Proof.
  intros Hwf. rewrite <- stored_opened by done.
  unfold stored, opened. cbn. by rewrite stores_of_vault.
Qed.

(** [idbGet] returns the stored value, [null] for none or a falsy one, and
    changes no stored value. *)
Theorem idbGet_vault key s :
  healthy s -> idb_wf s ->
  idbGet STORE_VAULT key s = (Ret (or_null (stored STORE_VAULT key s)), opened s).
Proof.
  intros Hh Hwf. unfold idbGet. rewrite withStore_vault by done.
  unfold store_get. mrun. rewrite stored_vault_store by done.
  unfold committed. f_equal.
  rewrite insert_id by (by apply stores_of_vault).
  unfold opened, set_database, set_dbPromise. done.
Qed.

(** [idbSet] returns [true] and the state is the one with the value
    stored under the key. *)
Theorem idbSet_vault key value s :
  healthy s -> idb_wf s ->
  idbSet STORE_VAULT key value s =
  (Ret true, committed STORE_VAULT (<[key := value]> (vault_store s)) s).
Proof.
  intros Hh Hwf. unfold idbSet. rewrite withStore_vault by done.
  unfold store_put. rewrite decide_False by done. by mrun.
Qed.

Lemma stored_committed key key' store s :
  stored STORE_VAULT key' (committed STORE_VAULT store s) = store !! key'.
Proof. unfold stored, committed. cbn. by rewrite lookup_insert_eq. Qed.

Lemma committed_healthy sn store s : healthy (committed sn store s).
Proof. by left. Qed.

Lemma committed_wf sn store s : idb_wf s -> idb_wf (committed sn store s).
Proof.
  intros Hwf. split; [|by eexists]. unfold committed. cbn. intros d [= <-].
  destruct (decide (sn = STORE_VAULT)) as [->|Hne].
  - rewrite lookup_insert_eq. by eexists.
  - rewrite lookup_insert_ne by done. rewrite stores_of_vault by done. by eexists.
Qed.

(** What [idbSet] has stored under a key, [idbGet] of that key returns,
    and the values under the other keys are as before. *)
Theorem idbSet_idbGet key value s :
  healthy s -> idb_wf s ->
  let s' := (idbSet STORE_VAULT key value s).2 in
  stored STORE_VAULT key s' = Some value /\
  (forall key', key' <> key -> stored STORE_VAULT key' s' = stored STORE_VAULT key' s) /\
  (idbGet STORE_VAULT key s').1 = Ret (or_null (Some value)).
Proof.
  intros Hh Hwf. rewrite idbSet_vault by done. cbn [fst snd]. split_and!.
  - by rewrite stored_committed, lookup_insert_eq.
  - intros key' Hne.
    by rewrite stored_committed, lookup_insert_ne, stored_vault_store.
  - rewrite idbGet_vault by (apply committed_healthy || by apply committed_wf).
    cbn [fst snd]. by rewrite stored_committed, lookup_insert_eq.
Qed.

(** A write in a read-only transaction throws and stores nothing. *)
Theorem put_readonly key value sn key' s :
  healthy s -> idb_wf s ->
  let r := withStore STORE_VAULT readonly (fun mode => store_put mode value key) s in
  r.1 = Throw "ReadOnlyError" /\ stored sn key' r.2 = stored sn key' s.
Proof.
  intros Hh Hwf. rewrite withStore_vault by done.
  unfold store_put. rewrite decide_True by done. mrun. cbn [fst snd].
  split; [done|]. by apply stored_opened.
Qed.

End storage_facts.
