(* ===== verification/Vault.v ===== *)
(** * Vault: the credential list and the operations of the handlers on it

    The vault document is the object [{ creds: [...] }] that [background.js]
    encrypts as a whole.  Its handlers change it with three array
    operations, which are defined here on their own so that their properties
    can be stated without the state of the worker:

    - [credsForOrigin]: the filter of [GET_CREDENTIALS_FOR_ORIGIN] and of
      [getCredsForOrigin];
    - [upsert]: the [findIndex] and replace-or-push of [SAVE_CREDENTIAL];
    - [remove]: the filter of [DELETE_CREDENTIAL].

    A credential is a record of the fields the sources read or write.  The
    field [id] of the source is [cred_id] here, [id] being the identity
    function.  [origins] is optional because the code guards its absence
    ([c.origins?.includes], [c.origins || []]); [origin] is the extra field
    that [content.js] adds to the credentials it captures.

    The abstract view of a vault is the finite map from ids to credentials,
    [as_map].  The theorems: [upsert] refines the insertion in that map and
    [remove] the deletion; [upsert] appends a new id and replaces an existing
    one in place, leaving every other entry and the order untouched; ids stay
    unique; the origin filter returns exactly the credentials that list the
    origin. *)

From Stdlib Require Import ZArith Lia.
From stdpp Require Import base tactics option list strings gmap.
From S2P Require Import Prelude.

#[local] Open Scope Z_scope.

Record Credential := {
  cred_id : string;
  origins : option (list string);
  origin : option string;
  username : string;
  password : string;
  notes : string;
}.

#[export] Instance Credential_eq_dec : EqDecision Credential.
Proof. solve_decision. Defined.

(** An object is truthy. *)
#[export] Instance Credential_truthy : Truthy Credential := fun _ => true.

Record VaultDoc := { creds : list Credential }.

#[export] Instance VaultDoc_eq_dec : EqDecision VaultDoc.
Proof. solve_decision. Defined.

(** [{ creds: [] }] *)
Definition empty_vault : VaultDoc := {| creds := [] |}.

(** [c.origins?.includes(origin)], and [(c.origins || []).includes(origin)] *)
Definition matches_origin (o : string) (c : Credential) : bool :=
  match origins c with
  | Some os => includes os o
  | None => false
  end.

(** [vault.creds.filter((c) => c.origins?.includes(origin))] *)
Definition credsForOrigin (o : string) (vault : VaultDoc) : list Credential :=
  filterb (matches_origin o) (creds vault).

(** [(c) => c.id === credential.id] *)
Definition same_id (credential c : Credential) : bool :=
  bool_decide (cred_id c = cred_id credential).

(** [const idx = vault.creds.findIndex((c) => c.id === credential.id);
    if (idx >= 0) vault.creds[idx] = credential; else vault.creds.push(credential);] *)
Definition upsert (credential : Credential) (vault : VaultDoc) : VaultDoc :=
  let idx := findIndex (same_id credential) (creds vault) in
  {| creds := if 0 <=? idx then <[Z.to_nat idx := credential]> (creds vault)
              else push (creds vault) credential |}.

(** [{ creds: vault.creds.filter((c) => c.id !== id) }] *)
Definition remove (id : string) (vault : VaultDoc) : VaultDoc :=
  {| creds := filterb (fun c => negb (bool_decide (cred_id c = id))) (creds vault) |}.

(** ** The abstract view *)

Definition ids (vault : VaultDoc) : list string := cred_id <$> creds vault.

(** The credential a lookup by id finds: the first with that id. *)
Definition as_map (vault : VaultDoc) : gmap string Credential :=
  list_to_map ((fun c => (cred_id c, c)) <$> creds vault).

(** Ids are unique. *)
Definition unique_ids (vault : VaultDoc) : Prop := NoDup (ids vault).

#[export] Instance unique_ids_dec vault : Decision (unique_ids vault).
Proof. unfold unique_ids. apply _. Defined.

(** * Theorems *)

Implicit Types (c credential : Credential) (vault : VaultDoc) (l : list Credential).

(** ** [findIndex] by id *)

Lemma same_id_true credential c : same_id credential c = true <-> cred_id c = cred_id credential.
Proof. apply bool_decide_eq_true. Qed.

Lemma same_id_false credential c : same_id credential c = false <-> cred_id c <> cred_id credential.
Proof. apply bool_decide_eq_false. Qed.

Lemma findIndex_absent credential l :
  findIndex (same_id credential) l = -1 <-> cred_id credential ∉ cred_id <$> l.
Proof.
  rewrite findIndex_none, Forall_forall, list_elem_of_fmap. split.
  - intros Hall (c & E & Hc). apply Hall, same_id_false in Hc. congruence.
  - intros Hnot c Hc. apply same_id_false. intros E. apply Hnot. eauto.
Qed.

(** The list splits at the index [findIndex] returns. *)
Lemma findIndex_split credential l :
  0 <= findIndex (same_id credential) l ->
  exists l1 c l2,
    l = l1 ++ c :: l2 /\ length l1 = Z.to_nat (findIndex (same_id credential) l) /\
    cred_id c = cred_id credential /\ (cred_id credential ∉ cred_id <$> l1).
Proof.
  intros Hidx. destruct (findIndex_some _ _ Hidx) as (c & Hc & Hp & Hbefore).
  pose proof (lookup_lt_Some _ _ _ Hc) as Hlt.
  exists (take (Z.to_nat (findIndex (same_id credential) l)) l), c,
         (drop (Datatypes.S (Z.to_nat (findIndex (same_id credential) l))) l).
  split_and!.
  - by rewrite take_drop_middle.
  - rewrite length_take. lia.
  - by apply same_id_true.
  - rewrite list_elem_of_fmap. intros (c' & E & Hc').
    eapply Forall_forall in Hbefore; [|done].
    apply same_id_false in Hbefore. congruence.
Qed.

(** ** [upsert] *)

(** Saving a credential whose id is new appends it. *)
Lemma upsert_new credential vault :
  cred_id credential ∉ ids vault ->
  creds (upsert credential vault) = creds vault ++ [credential].
Proof.
  intros Hnew. unfold upsert. cbn.
  by rewrite (proj2 (findIndex_absent _ _) Hnew).
Qed.

(** Saving a credential whose id exists replaces the first entry with
    that id, in place: the entries before and after it are untouched. *)
Lemma upsert_existing credential vault :
  cred_id credential ∈ ids vault ->
  exists l1 c l2,
    creds vault = l1 ++ c :: l2 /\
    cred_id c = cred_id credential /\ (cred_id credential ∉ cred_id <$> l1) /\
    creds (upsert credential vault) = l1 ++ credential :: l2.
Proof.
  intros Hin. unfold upsert. cbn.
  pose proof (findIndex_range (same_id credential) (creds vault)) as [E|Hr].
  { by apply findIndex_absent in E. }
  destruct (findIndex_split credential (creds vault)) as (l1 & c & l2 & El & Hlen & Hc & Hl1);
    [lia|].
  exists l1, c, l2. split_and!; [done..|].
  rewrite (proj2 (Z.leb_le _ _)) by lia. rewrite <- Hlen, El.
  rewrite insert_app_r_alt, Nat.sub_diag by lia. done.
Qed.

Lemma upsert_length credential vault :
  length (creds (upsert credential vault)) =
  if bool_decide (cred_id credential ∈ ids vault) then length (creds vault)
  else Datatypes.S (length (creds vault)).
Proof.
  case_bool_decide as Hin.
  - destruct (upsert_existing _ _ Hin) as (l1 & c & l2 & -> & _ & _ & ->).
    by rewrite !length_app.
  - rewrite upsert_new by done. rewrite length_app. cbn. lia.
Qed.

(** [upsert] is the insertion in the map from ids to credentials. *)
Theorem upsert_as_map credential vault :
  as_map (upsert credential vault) = <[cred_id credential := credential]> (as_map vault).
Proof.
  unfold as_map. destruct (decide (cred_id credential ∈ ids vault)) as [Hin|Hnew].
  - destruct (upsert_existing _ _ Hin) as (l1 & c & l2 & -> & Hc & Hl1 & ->).
    clear Hin. induction l1 as [|c1 l1 IH]; cbn.
    + by rewrite Hc, insert_insert_eq.
    + apply not_elem_of_cons in Hl1 as [Hne Hl1].
      rewrite IH by done. by rewrite insert_insert_ne.
  - rewrite upsert_new by done. apply map_eq. intros i.
    rewrite fmap_app, list_to_map_app. cbn.
    destruct (decide (i = cred_id credential)) as [->|Hne].
    + rewrite lookup_insert_eq, lookup_union_r; [by rewrite lookup_insert_eq|].
      apply not_elem_of_list_to_map. by rewrite <- list_fmap_compose.
    + rewrite lookup_insert_ne by done.
      destruct (list_to_map _ !! i) eqn:E.
      * by apply lookup_union_Some_l.
      * apply lookup_union_None_2; [done|]. by rewrite lookup_insert_ne.
Qed.

(** [upsert] appends a credential whose id is new, and replaces in place
    the first entry with the id of one that exists, leaving the entries
    before and after it as they are. *)
Theorem upsert_semantics credential vault :
  if decide (cred_id credential ∈ ids vault)
  then exists l1 c l2,
         creds vault = l1 ++ c :: l2 /\ cred_id c = cred_id credential /\
         (cred_id credential ∉ cred_id <$> l1) /\
         creds (upsert credential vault) = l1 ++ credential :: l2
  else creds (upsert credential vault) = creds vault ++ [credential].
Proof. case_decide; [by apply upsert_existing|by apply upsert_new]. Qed.

(** Saving keeps ids unique. *)
Theorem upsert_unique_ids credential vault :
  unique_ids vault -> unique_ids (upsert credential vault).
Proof.
  unfold unique_ids, ids. intros Hnd.
  destruct (decide (cred_id credential ∈ ids vault)) as [Hin|Hnew].
  - destruct (upsert_existing _ _ Hin) as (l1 & c & l2 & E & Hc & _ & ->).
    rewrite E in Hnd. by rewrite fmap_app, fmap_cons, <- Hc, <- fmap_cons, <- fmap_app.
  - rewrite upsert_new by done. rewrite fmap_app. cbn.
    apply NoDup_app. split_and!; [done| |apply NoDup_singleton].
    intros i Hi ->%list_elem_of_singleton. done.
Qed.

(** After a save, the lookup of the id finds the saved credential. *)
Theorem upsert_lookup credential vault :
  as_map (upsert credential vault) !! cred_id credential = Some credential.
Proof. by rewrite upsert_as_map, lookup_insert_eq. Qed.

(** A save does not change what the lookup of another id finds. *)
Theorem upsert_lookup_other credential vault i :
  i <> cred_id credential -> as_map (upsert credential vault) !! i = as_map vault !! i.
Proof. intros Hne. by rewrite upsert_as_map, lookup_insert_ne. Qed.

Lemma VaultDoc_eq vault vault' : creds vault = creds vault' -> vault = vault'.
Proof. destruct vault, vault'. cbn. by intros ->. Qed.

(** The lookup of an id finds the first credential with that id. *)
Lemma as_map_first vault l1 c l2 :
  creds vault = l1 ++ c :: l2 -> cred_id c ∉ cred_id <$> l1 ->
  as_map vault !! cred_id c = Some c.
Proof.
  unfold as_map. intros -> Hl1. rewrite fmap_app, list_to_map_app.
  rewrite lookup_union_r; [by cbn; rewrite lookup_insert_eq|].
  apply not_elem_of_list_to_map. by rewrite <- list_fmap_compose.
Qed.

Lemma upsert_in credential vault : cred_id credential ∈ ids (upsert credential vault).
Proof.
  pose proof (upsert_lookup credential vault) as Hd.
  apply (elem_of_dom_2 (D := gset string)) in Hd. unfold as_map in Hd. rewrite dom_list_to_map_L in Hd.
  apply elem_of_list_to_set in Hd. by rewrite <- list_fmap_compose in Hd.
Qed.

(** Saving the same credential twice is saving it once. *)
Theorem upsert_idempotent credential vault :
  upsert credential (upsert credential vault) = upsert credential vault.
Proof.
  destruct (upsert_existing _ _ (upsert_in credential vault))
    as (l1 & c & l2 & E & Hc & Hl1 & E').
  apply VaultDoc_eq. rewrite E', E. do 2 f_equal.
  rewrite <- Hc in Hl1. pose proof (as_map_first _ _ _ _ E Hl1) as Hfirst.
  rewrite Hc, upsert_lookup in Hfirst. congruence.
Qed.

(** ** [remove] *)

(** Deleting removes every credential with the id and no other. *)
Theorem remove_spec id vault c :
  c ∈ creds (remove id vault) <-> c ∈ creds vault /\ cred_id c <> id.
Proof.
  unfold remove. cbn. rewrite elem_of_filterb, negb_true_iff.
  by rewrite bool_decide_eq_false.
Qed.

(** Deleting an id that is not in the vault changes nothing. *)
Theorem remove_absent id vault : id ∉ ids vault -> remove id vault = vault.
Proof.
  intros Hnot. destruct vault as [l]. unfold remove. cbn. f_equal.
  apply filterb_all, Forall_forall. intros c Hc.
  rewrite negb_true_iff, bool_decide_eq_false. intros <-.
  apply Hnot. unfold ids. cbn. by apply list_elem_of_fmap_2.
Qed.

(** [remove] is the deletion in the map from ids to credentials. *)
Theorem remove_as_map id vault : as_map (remove id vault) = delete id (as_map vault).
Proof.
  destruct vault as [l]. unfold as_map, remove, filterb. cbn.
  induction l as [|c l IH]; cbn; [by rewrite delete_empty|].
  case_bool_decide as E; cbn.
  - subst. by rewrite delete_insert_eq.
  - by rewrite IH, delete_insert_ne.
Qed.

(** Deleting keeps ids unique. *)
Theorem remove_unique_ids id vault : unique_ids vault -> unique_ids (remove id vault).
Proof.
  destruct vault as [l]. unfold unique_ids, ids, remove, filterb. cbn.
  induction l as [|c l IH]; cbn; [done|]. intros [Hc Hl]%NoDup_cons.
  destruct (negb _); cbn; [|by apply IH].
  apply NoDup_cons. split; [|by apply IH].
  rewrite list_elem_of_fmap. intros (c' & E & Hc').
  apply list_elem_of_In, filter_In in Hc' as [Hc' _].
  apply Hc. rewrite E. apply list_elem_of_fmap_2. by apply list_elem_of_In.
Qed.

Theorem remove_not_in id vault : id ∉ ids (remove id vault).
Proof.
  unfold ids. rewrite list_elem_of_fmap. intros (c & -> & Hc).
  by apply remove_spec in Hc as [_ ?].
Qed.

(** Deleting what was just saved gives the vault without that id. *)
Theorem remove_upsert credential vault :
  as_map (remove (cred_id credential) (upsert credential vault)) =
  delete (cred_id credential) (as_map vault).
Proof. by rewrite remove_as_map, upsert_as_map, delete_insert_eq. Qed.

(** ** [credsForOrigin] *)

Lemma matches_origin_true o c :
  matches_origin o c = true <-> exists os, origins c = Some os /\ o ∈ os.
Proof.
  unfold matches_origin. destruct (origins c) as [os|].
  - rewrite includes_true. split; [eauto|]. by intros (? & [= <-] & ?).
  - split; [done|]. by intros (? & ? & ?).
Qed.

(** The origin filter returns exactly the credentials whose [origins]
    contain the origin, in the order of the vault. *)
Theorem credsForOrigin_spec o vault c :
  c ∈ credsForOrigin o vault <->
  c ∈ creds vault /\ exists os, origins c = Some os /\ o ∈ os.
Proof. unfold credsForOrigin. by rewrite elem_of_filterb, matches_origin_true. Qed.

(** A credential for another origin is not returned, whatever its user name. *)
Theorem credsForOrigin_other o o' vault c :
  origins c = Some [o'] -> o <> o' -> c ∉ credsForOrigin o vault.
Proof.
  intros Eo Hne (_ & os & E & Hin)%credsForOrigin_spec.
  rewrite Eo in E. injection E as <-. by apply list_elem_of_singleton in Hin.
Qed.

(** The first credential saved for an origin is then the one of that
    origin, whether its id is new or replaces the one of another origin. *)
Lemma credsForOrigin_first o c vault :
  credsForOrigin o vault = [] -> matches_origin o c = true ->
  credsForOrigin o (upsert c vault) = [c].
Proof.
  unfold credsForOrigin. intros Hnone Hc.
  destruct (decide (cred_id c ∈ ids vault)) as [Hin|Hnew].
  - destruct (upsert_existing c vault Hin) as (l1 & c' & l2 & E & _ & _ & ->).
    rewrite E, filterb_app in Hnone. apply app_eq_nil in Hnone as [H1 H2].
    rewrite filterb_app, H1. unfold filterb in *. cbn in *. rewrite Hc.
    destruct (matches_origin o c'); [done|]. by rewrite H2.
  - rewrite upsert_new, filterb_app, Hnone by done. unfold filterb. cbn. by rewrite Hc.
Qed.

(** A credential without [origins] matches no origin. *)
Theorem credsForOrigin_no_origins o vault c :
  origins c = None -> c ∉ credsForOrigin o vault.
Proof. intros Eo (_ & os & E & _)%credsForOrigin_spec. congruence. Qed.

Theorem credsForOrigin_sublist o vault : sublist (credsForOrigin o vault) (creds vault).
Proof.
  unfold credsForOrigin, filterb. induction (creds vault) as [|c l IH]; cbn; [done|].
  destruct (matches_origin o c); by constructor.
Qed.

(** The vault that first use creates is empty and has unique ids. *)
Lemma empty_vault_unique : unique_ids empty_vault.
Proof. constructor. Qed.
