(* ===== verification/Generator.v ===== *)
(** * Generator: the password generator of [scripts/generator.js]

    [pick], [shuffle] and [generatePassword] are translated from the source.
    A string is the list of its characters.  [rnd] reads four bytes of the
    random stream as an unsigned 32-bit integer, so the state of this
    component is the cursor into the stream, as in [Crypto].

    [chars[i]] for an index outside the string is [undefined] in JavaScript
    and would append the text "undefined"; the model appends nothing there,
    and the theorems show that no index of this file is outside its string.

    [options.length] is an integer or absent: fractional lengths are not
    modelled.

    The theorems: the alphabet built by the loop; every index is in range;
    [shuffle] permutes its argument; the password has the clamped length,
    draws its characters from the pool and holds a character of every
    selected class, so that the patching step at the end never runs. *)

From Stdlib Require Import ZArith Lia ZifyNat Ascii String.
From stdpp Require Import base tactics option list strings sets.
From S2P Require Import Prelude Base64 Crypto.

#[local] Open Scope Z_scope.

(** [options] of [generatePassword]: a field is [None] when it is absent. *)
Record Options := {
  opt_length : option Z;
  opt_lower : option bool;
  opt_upper : option bool;
  opt_digits : option bool;
  opt_symbols : option bool;
}.

(** [{}] *)
Definition no_options : Options :=
  {| opt_length := None; opt_lower := None; opt_upper := None;
     opt_digits := None; opt_symbols := None |}.

(** [x !== false] *)
Definition not_false (x : option bool) : bool :=
  match x with Some false => false | _ => true end.

Definition chars_of (s : string) : list ascii := list_ascii_of_string s.

Definition lowers : list ascii := chars_of "abcdefghijklmnopqrstuvwxyz".
Definition uppers : list ascii := chars_of "ABCDEFGHIJKLMNOPQRSTUVWXYZ".
Definition digits : list ascii := chars_of "0123456789".

Definition in_range (lo hi : Z) (c : ascii) : bool :=
  (lo <=? Z_of_ascii c) && (Z_of_ascii c <=? hi).

(** [/[a-z]/], [/[A-Z]/], [/\d/] and [/[^0-9A-Za-z]/] on one character *)
Definition is_lower (c : ascii) : bool := in_range 97 122 c.
Definition is_upper (c : ascii) : bool := in_range 65 90 c.
Definition is_digit (c : ascii) : bool := in_range 48 57 c.
Definition is_alnum (c : ascii) : bool := is_digit c || is_upper c || is_lower c.
Definition is_symbol (c : ascii) : bool := negb (is_alnum c).

(** [re.test(pwd)] for a character class *)
Definition test (class : ascii -> bool) (pwd : list ascii) : bool := existsb class pwd.

(** The loop that builds [symbols]: the printable ASCII characters from 33
    to 126 that are not alphanumeric. *)
Definition symbols : list ascii :=
  for_loop 33 127
    (fun code symbols =>
       let ch := ascii_of_Z (fromCharCode (Z.of_nat code)) in
       if is_alnum ch then symbols else symbols ++ [ch])
    [].

(** [chars[i]] as the string that [+=] appends *)
Definition char_at (chars : list ascii) (i : Z) : list ascii :=
  if i <? 0 then [] else option_list (chars !! Z.to_nat i).

(** [if (use) s += part] *)
Definition add_if (use : bool) (part s : list ascii) : list ascii :=
  if use then s ++ part else s.

(** The variable [pool] of [generatePassword]. *)
Definition pool_of (options : Options) : list ascii :=
  let pool :=
    add_if (not_false (opt_symbols options)) symbols
      (add_if (not_false (opt_digits options)) digits
        (add_if (not_false (opt_upper options)) uppers
          (add_if (not_false (opt_lower options)) lowers []))) in
  if bool_decide (pool = []) then lowers ++ uppers ++ digits ++ symbols else pool.

(** [Math.max(8, Math.min(128, options.length || 16))] *)
Definition clamp_length (options : Options) : Z :=
  Math_max 8 (Math_min 128 (num_or (default 0 (opt_length options)) 16)).

(** What the generator promises of a password: its length, its alphabet,
    and a character of every selected class. *)
Definition password_ok (options : Options) (pwd : list ascii) : Prop :=
  length pwd = Z.to_nat (clamp_length options) /\
  Forall (fun c => c ∈ pool_of options) pwd /\
  (not_false (opt_lower options) = true -> test is_lower pwd = true) /\
  (not_false (opt_upper options) = true -> test is_upper pwd = true) /\
  (not_false (opt_digits options) = true -> test is_digit pwd = true) /\
  (not_false (opt_symbols options) = true -> test is_symbol pwd = true).

#[export] Instance password_ok_dec options pwd : Decision (password_ok options pwd).
Proof. unfold password_ok. apply _. Defined.

Section generator.
Context `{WebCrypto}.

(** [const buf = new Uint32Array(1); crypto.getRandomValues(buf); return buf[0]] *)
Definition rnd : M nat Z :=
  bs ← getRandomValues 4;
  mret (little_endian_to_Z 8 bs).

Definition pick (chars : list ascii) (n : Z) : M nat (list ascii) :=
  if bool_decide (chars = []) || (n <=? 0) then mret []
  else
    foldM (fun out _ => r ← rnd; mret (out ++ char_at chars (r mod Z.of_nat (length chars))))
      (seq 0 (Z.to_nat n)) [].

(** [[arr[i], arr[j]] = [arr[j], arr[i]]] *)
Definition swap {A} (arr : list A) (i j : nat) : list A :=
  match arr !! i, arr !! j with
  | Some x, Some y => <[j := x]> (<[i := y]> arr)
  | _, _ => arr
  end.

Definition shuffle (str : list ascii) : M nat (list ascii) :=
  foldM (fun arr i => r ← rnd; mret (swap arr i (Z.to_nat (r mod (Z.of_nat i + 1)))))
    (rev (seq 1 (length str - 1))) str.

(** [replaceWith(set)] of [generatePassword], on the variable [pwd] *)
Definition replaceWith (set : list ascii) (pwd : list ascii) : M nat (list ascii) :=
  r ← rnd;
  let pos := Z.to_nat (r mod Z.of_nat (length pwd)) in
  r' ← rnd;
  let ch := char_at set (r' mod Z.of_nat (length set)) in
  mret (take pos pwd ++ ch ++ drop (Datatypes.S pos) pwd).

(** [if (use) base += pick(set, 1, rnd)] *)
Definition add_pick (use : bool) (set base : list ascii) : M nat (list ascii) :=
  if use then c ← pick set 1; mret (base ++ c) else mret base.

(** [if (missing) replaceWith(set)] *)
Definition patch (missing : bool) (set pwd : list ascii) : M nat (list ascii) :=
  if missing then replaceWith set pwd else mret pwd.

Definition generatePassword (options : Options) : M nat (list ascii) :=
  let length_ := clamp_length options in
  let useLower := not_false (opt_lower options) in
  let useUpper := not_false (opt_upper options) in
  let useDigits := not_false (opt_digits options) in
  let useSymbols := not_false (opt_symbols options) in
  let pool := pool_of options in
  base ← add_pick useLower lowers [];
  base ← add_pick useUpper uppers base;
  base ← add_pick useDigits digits base;
  base ← add_pick useSymbols symbols base;
  rest ← foldM (fun rest _ => r ← rnd;
                  mret (rest ++ char_at pool (r mod Z.of_nat (length pool))))
            (seq (length base) (Z.to_nat length_ - length base)) [];
  pwd ← shuffle (base ++ rest);
  let hasLower := test is_lower pwd in
  let hasUpper := test is_upper pwd in
  let hasDigit := test is_digit pwd in
  let hasSymbol := test is_symbol pwd in
  pwd ← patch (useLower && negb hasLower) lowers pwd;
  pwd ← patch (useUpper && negb hasUpper) uppers pwd;
  pwd ← patch (useDigits && negb hasDigit) digits pwd;
  pwd ← patch (useSymbols && negb hasSymbol) symbols pwd;
  mret pwd.

End generator.

(** * Theorems *)

(** ** The alphabets *)

(** The loop builds the 32 ASCII symbols, in the order of their codes. *)
Theorem symbols_eq :
  symbols = ascii_of_Z <$> seqZ 33 15 ++ seqZ 58 7 ++ seqZ 91 6 ++ seqZ 123 4.
Proof. by vm_compute. Qed.

Lemma lowers_class : Forall (fun c => is_lower c = true) lowers.
Proof. apply (bool_decide_unpack _). by vm_compute. Qed.

Lemma uppers_class : Forall (fun c => is_upper c = true) uppers.
Proof. apply (bool_decide_unpack _). by vm_compute. Qed.

Lemma digits_class : Forall (fun c => is_digit c = true) digits.
Proof. apply (bool_decide_unpack _). by vm_compute. Qed.

Lemma symbols_class : Forall (fun c => is_symbol c = true) symbols.
Proof. apply (bool_decide_unpack _). by vm_compute. Qed.

Lemma elem_of_add_if use part s c :
  c ∈ add_if use part s <-> c ∈ s \/ use = true /\ c ∈ part.
Proof. destruct use; cbn; rewrite ?elem_of_app; intuition discriminate. Qed.

Lemma add_if_nil use part s : add_if use part s = [] -> use = false \/ part = [].
Proof. destruct use; cbn; [|by left]. intros [_ ?]%app_eq_nil. by right. Qed.

(** The alphabet of a selected class is part of the pool. *)
Lemma pool_of_selected options c :
  not_false (opt_lower options) = true /\ c ∈ lowers \/
  not_false (opt_upper options) = true /\ c ∈ uppers \/
  not_false (opt_digits options) = true /\ c ∈ digits \/
  not_false (opt_symbols options) = true /\ c ∈ symbols ->
  c ∈ pool_of options.
Proof.
  intros Hc. unfold pool_of.
  assert (c ∈ add_if (not_false (opt_symbols options)) symbols
            (add_if (not_false (opt_digits options)) digits
              (add_if (not_false (opt_upper options)) uppers
                (add_if (not_false (opt_lower options)) lowers [])))) as Hp.
  { rewrite !elem_of_add_if. tauto. }
  case_bool_decide as E; [|done]. rewrite E in Hp. by apply elem_of_nil in Hp.
Qed.

Lemma symbols_nonempty : symbols <> [].
Proof. intros E. by vm_compute in E. Qed.

Lemma clamp_length_range options : 8 <= clamp_length options <= 128.
Proof. unfold clamp_length, Math_max, Math_min. lia. Qed.

Lemma pool_of_nonempty options : pool_of options <> [].
Proof. unfold pool_of. by case_bool_decide. Qed.

(** ** Tests of a character class *)

Lemma test_elem class pwd c : c ∈ pwd -> class c = true -> test class pwd = true.
Proof.
  intros Hc%list_elem_of_In Hcl. apply existsb_exists. by exists c.
Qed.

(** A character drawn from the alphabet of a selected class makes the test
    of that class succeed, so the patch for it is skipped. *)
Lemma class_present (use : bool) set class cs pwd :
  Forall (fun c => class c = true) set ->
  length cs = (if use then 1 else 0)%nat -> Forall (fun c => c ∈ set) cs ->
  cs ⊆ pwd -> use = true -> test class pwd = true.
Proof.
  intros Hset Hlen Hcs Hsub ->. destruct cs as [|c cs]; [done|].
  apply Forall_cons in Hcs as [Hc _].
  apply (test_elem class pwd c); [apply Hsub; by left|].
  by eapply Forall_forall in Hset.
Qed.

(** What holds of the alphabet of a selected class holds of the pick. *)
Lemma pick_selected (use : bool) (set cs : list ascii) (P : ascii -> Prop) :
  length cs = (if use then 1 else 0)%nat -> Forall (fun c => c ∈ set) cs ->
  (use = true -> forall c, c ∈ set -> P c) -> Forall P cs.
Proof.
  intros Hlen Hcs HP. destruct use.
  - eapply Forall_impl; [done|]. by apply HP.
  - by apply nil_length_inv in Hlen as ->.
Qed.

(** ** Swapping *)

Lemma insert_head_perm {A} (l : list A) j x y :
  l !! j = Some y -> y :: <[j := x]> l ≡ₚ x :: l.
Proof.
  revert j. induction l as [|b l IH]; intros [|j] E; try done; cbn in *.
  - injection E as ->. apply perm_swap.
  - rewrite perm_swap, (IH j E). apply perm_swap.
Qed.

(** The destructuring swap of [shuffle] permutes the array. *)
Lemma swap_perm {A} (arr : list A) i j : swap arr i j ≡ₚ arr.
Proof.
  unfold swap. destruct (arr !! i) as [x|] eqn:Ei; [|done].
  destruct (arr !! j) as [y|] eqn:Ej; [|done].
  revert i j Ei Ej. induction arr as [|a arr IH]; intros [|i] [|j] Ei Ej;
    try done; cbn in *.
  - by injection Ei as ->.
  - injection Ei as ->. by apply insert_head_perm.
  - injection Ej as ->. by apply insert_head_perm.
  - by rewrite IH.
Qed.

Section generator_facts.
Context `{WebCrypto}.
Implicit Types (e : nat) (chars pwd out : list ascii).

(** ** The random source *)

(** [rnd] reads four bytes and returns a number below 2^32. *)
Lemma wp_rnd e (Q : Z -> nat -> Prop) :
  (forall r, 0 <= r < 2 ^ 32 -> Q r (e + 4)%nat) -> wp rnd e Q.
Proof.
  intros HQ. unfold rnd. apply wp_bind. unfold wp. rewrite getRandomValues_run.
  apply HQ. pose proof (little_endian_to_Z_bound 8 (random_byte <$> seq e 4)) as Hb.
  rewrite random_length in Hb. apply Hb; [lia|]. apply random_bytes.
Qed.

(** An index reduced modulo the length is inside the string. *)
Lemma char_at_mod chars r :
  chars <> [] -> 0 <= r ->
  exists c, char_at chars (r mod Z.of_nat (length chars)) = [c] /\ c ∈ chars.
Proof.
  intros Hne Hr. unfold char_at.
  assert (0 < Z.of_nat (length chars)) as Hlen by (destruct chars; [done|cbn; lia]).
  pose proof (Z.mod_pos_bound r _ Hlen) as Hm.
  rewrite (proj2 (Z.ltb_ge _ _)) by lia.
  destruct (lookup_lt_is_Some_2 chars (Z.to_nat (r mod Z.of_nat (length chars))))
    as [c Ec]; [lia|].
  exists c. rewrite Ec. split; [done|]. by eapply list_elem_of_lookup_2.
Qed.

(** One step of the loops of [pick] and [generatePassword]. *)
Lemma wp_draw chars out e (Q : list ascii -> nat -> Prop) :
  chars <> [] -> (forall c, c ∈ chars -> Q (out ++ [c]) (e + 4)%nat) ->
  wp (r ← rnd; mret (out ++ char_at chars (r mod Z.of_nat (length chars)))) e Q.
Proof.
  intros Hne HQ. apply wp_bind, wp_rnd. intros r Hr. apply wp_ret.
  destruct (char_at_mod chars r) as (c & -> & Hc); [done|lia|]. by apply HQ.
Qed.

(** The loops: one character of the alphabet for every round, four bytes
    of the random source each. *)
Lemma wp_draws {A} chars (l : list A) out e (Q : list ascii -> nat -> Prop) :
  chars <> [] ->
  (forall cs, length cs = length l -> Forall (fun c => c ∈ chars) cs ->
     Q (out ++ cs) (e + 4 * length l)%nat) ->
  wp (foldM (fun out _ =>
        r ← rnd; mret (out ++ char_at chars (r mod Z.of_nat (length chars)))) l out) e Q.
Proof.
  intros Hne HQ.
  apply (wp_foldM (fun done b s => exists cs, b = out ++ cs /\ length cs = length done /\
            Forall (fun c => c ∈ chars) cs /\ s = (e + 4 * length done)%nat)).
  - exists []. by rewrite app_nil_r, Nat.add_0_r.
  - intros done x b s (cs & -> & Hlen & Hcs & ->). apply wp_draw; [done|].
    intros c Hc. exists (cs ++ [c]). rewrite !length_app, app_assoc, Forall_app.
    cbn. split_and!; [done|lia|done|by apply Forall_singleton|lia].
  - intros b s (cs & -> & Hlen & Hcs & ->). by apply HQ.
Qed.

(** ** [pick] *)

Lemma pick_nothing chars n e : chars = [] \/ n <= 0 -> pick chars n e = (Ret [], e).
Proof.
  intros Hc. unfold pick. destruct Hc as [->|Hn]; [done|].
  by rewrite (proj2 (Z.leb_le _ _) Hn), orb_true_r.
Qed.

Lemma wp_pick chars n e (Q : list ascii -> nat -> Prop) :
  chars <> [] -> 0 < n ->
  (forall cs, length cs = Z.to_nat n -> Forall (fun c => c ∈ chars) cs ->
     Q cs (e + 4 * Z.to_nat n)%nat) ->
  wp (pick chars n) e Q.
Proof.
  intros Hne Hn HQ. unfold pick.
  rewrite bool_decide_eq_false_2, (proj2 (Z.leb_gt _ _) Hn) by done. cbn [orb].
  apply wp_draws; [done|]. intros cs. rewrite length_seq. apply HQ.
Qed.

Lemma wp_add_pick (use : bool) set base e (Q : list ascii -> nat -> Prop) :
  set <> [] ->
  (forall cs, length cs = (if use then 1 else 0)%nat -> Forall (fun c => c ∈ set) cs ->
     Q (base ++ cs) (e + 4 * length cs)%nat) ->
  wp (add_pick use set base) e Q.
Proof.
  intros Hne HQ. unfold add_pick. destruct use.
  - apply wp_bind, wp_pick; [done..|]. intros cs Hlen Hcs. apply wp_ret.
    rewrite <- Hlen. by apply HQ.
  - apply wp_ret. rewrite <- (app_nil_r base) at 1.
    rewrite <- (Nat.add_0_r e) at 1. by apply (HQ []).
Qed.

(** ** [shuffle] *)

(** [shuffle] returns a permutation of its argument and reads four bytes
    for every position but the first. *)
Lemma wp_shuffle str e (Q : list ascii -> nat -> Prop) :
  (forall arr, arr ≡ₚ str -> Q arr (e + 4 * (length str - 1))%nat) ->
  wp (shuffle str) e Q.
Proof.
  intros HQ. unfold shuffle.
  apply (wp_foldM (fun done arr s =>
           arr ≡ₚ str /\ s = (e + 4 * length done)%nat)).
  - by rewrite Nat.add_0_r.
  - intros done i arr s [Hp ->]. apply wp_bind, wp_rnd. intros r _. apply wp_ret.
    rewrite swap_perm, length_app. cbn. split; [done|lia].
  - intros arr s [Hp ->]. rewrite length_rev, length_seq. by apply HQ.
Qed.

(** [shuffle] returns, for every string and all random bytes, a
    permutation of the string. *)
Theorem shuffle_permutes str e :
  exists arr, shuffle str e = (Ret arr, (e + 4 * (length str - 1))%nat) /\ arr ≡ₚ str.
Proof.
  pose proof (wp_shuffle str e
    (fun arr e' => e' = (e + 4 * (length str - 1))%nat /\ arr ≡ₚ str)) as Hwp.
  apply wp_run in Hwp as (arr & e' & E & -> & Hp); [|done]. by exists arr.
Qed.

(** ** [generatePassword] *)

(** The shuffled string of the picks and the rest is a password as promised:
    the tests before the patches all succeed. *)
Lemma shuffled_ok options c1 c2 c3 c4 rest pwd :
  length c1 = (if not_false (opt_lower options) then 1 else 0)%nat ->
  length c2 = (if not_false (opt_upper options) then 1 else 0)%nat ->
  length c3 = (if not_false (opt_digits options) then 1 else 0)%nat ->
  length c4 = (if not_false (opt_symbols options) then 1 else 0)%nat ->
  Forall (fun c => c ∈ lowers) c1 -> Forall (fun c => c ∈ uppers) c2 ->
  Forall (fun c => c ∈ digits) c3 -> Forall (fun c => c ∈ symbols) c4 ->
  Forall (fun c => c ∈ pool_of options) rest ->
  length (c1 ++ c2 ++ c3 ++ c4 ++ rest) = Z.to_nat (clamp_length options) ->
  pwd ≡ₚ c1 ++ c2 ++ c3 ++ c4 ++ rest ->
  password_ok options pwd.
Proof.
  intros L1 L2 L3 L4 F1 F2 F3 F4 Fr Hlen Hp. unfold password_ok.
  rewrite Hp at 1 2. split; [done|]. split.
  - rewrite !Forall_app. split_and!; [..|done];
      (eapply pick_selected; [eassumption..|]); intros Hu c Hc;
      apply pool_of_selected; tauto.
  - split_and!;
      [apply (class_present _ lowers is_lower c1)
      |apply (class_present _ uppers is_upper c2)
      |apply (class_present _ digits is_digit c3)
      |apply (class_present _ symbols is_symbol c4)];
      auto using lowers_class, uppers_class, digits_class, symbols_class;
      rewrite Hp; set_solver.
Qed.

(** The patches after the tests are skipped on such a password. *)
Lemma patches_skipped options pwd e :
  password_ok options pwd ->
  (pwd1 ← patch (not_false (opt_lower options) && negb (test is_lower pwd)) lowers pwd;
   pwd2 ← patch (not_false (opt_upper options) && negb (test is_upper pwd)) uppers pwd1;
   pwd3 ← patch (not_false (opt_digits options) && negb (test is_digit pwd)) digits pwd2;
   pwd4 ← patch (not_false (opt_symbols options) && negb (test is_symbol pwd)) symbols pwd3;
   mret pwd4) e = (Ret pwd, e).
Proof.
  intros (_ & _ & Hl & Hu & Hd & Hs).
  destruct (not_false (opt_lower options)); rewrite ?Hl by done;
    destruct (not_false (opt_upper options)); rewrite ?Hu by done;
    destruct (not_false (opt_digits options)); rewrite ?Hd by done;
    destruct (not_false (opt_symbols options)); rewrite ?Hs by done; done.
Qed.

Lemma wp_generatePassword options e (Q : list ascii -> nat -> Prop) :
  (forall pwd, password_ok options pwd ->
     Q pwd (e + 4 * (2 * Z.to_nat (clamp_length options) - 1))%nat) ->
  wp (generatePassword options) e Q.
Proof.
  intros HQ. pose proof (clamp_length_range options) as Hr. unfold generatePassword.
  apply wp_bind, wp_add_pick; [done|]. intros c1 L1 F1.
  apply wp_bind, wp_add_pick; [done|]. intros c2 L2 F2.
  apply wp_bind, wp_add_pick; [done|]. intros c3 L3 F3.
  apply wp_bind, wp_add_pick; [apply symbols_nonempty|]. intros c4 L4 F4.
  apply wp_bind, wp_draws; [apply pool_of_nonempty|]. intros rest Lr Fr.
  rewrite length_seq in Lr. cbn [app] in *. rewrite !length_app in *.
  assert (length c1 <= 1 /\ length c2 <= 1 /\ length c3 <= 1 /\ length c4 <= 1)%nat
    as Hk by (repeat case_match; lia).
  apply wp_bind, wp_shuffle. intros pwd Hp. rewrite <- !app_assoc in Hp.
  assert (password_ok options pwd) as Hok.
  { apply (shuffled_ok options c1 c2 c3 c4 rest); try done.
    rewrite !length_app. lia. }
  unfold wp. rewrite patches_skipped by done.
  rewrite length_seq, !length_app.
  replace (_ + _)%nat with (e + 4 * (2 * Z.to_nat (clamp_length options) - 1))%nat
    by lia.
  by apply HQ.
Qed.

(** C40: [generatePassword] returns, for all options and all random bytes, a
    password as promised, and reads four bytes for every character it draws
    and every swap. *)
Theorem generatePassword_returns options e :
  exists pwd,
    generatePassword options e =
    (Ret pwd, (e + 4 * (2 * Z.to_nat (clamp_length options) - 1))%nat) /\
    password_ok options pwd.
Proof.
  pose proof (wp_generatePassword options e
    (fun pwd e' => e' = (e + 4 * (2 * Z.to_nat (clamp_length options) - 1))%nat /\
                   password_ok options pwd)) as Hwp.
  apply wp_run in Hwp as (pwd & e' & E & -> & Hok); [|done]. by exists pwd.
Qed.

End generator_facts.
