(* ===== verification/Background.v ===== *)
(** * Background: the service worker [background.js]

    [World] is everything the worker reads or writes: its three global
    variables ([derivedKey], [unlockedAt], [autolockMs]), the state of
    [storage.js] ([idb]: the cached [dbPromise] and the database), the two
    [chrome.storage] areas it uses, the alarms, the items of the context
    menu, the clock and the cursor into the random stream.  The globals and
    [dbPromise] live in the worker's memory; the rest outlives the worker.

    Every function of the source is a definition of the same name in the
    monad [M World], and [handle] has one branch per message type, in the
    order of the source.  The listener of the context menu writes to a page
    and is in [Browser].  [onMessage] wraps it in the [try / catch] that
    turns an exception into the response [{ ok: false, error }].

    [chrome.storage.local] holds the values of [options.js] as well, so its
    values are tagged ([LMeta], [LTheme]).  An alarm is the time at which it
    is due, in milliseconds.  [Number(ms)] of [SET_AUTOLOCK] is [Some] of an
    integer, or [None] when it is not finite. *)

From Stdlib Require Import ZArith Lia Ascii String.
From stdpp Require Import base tactics option list strings gmap.
From S2P Require Import Prelude Base64 Crypto Storage Vault Generator.

#[local] Open Scope Z_scope.

Definition VAULT_STORE : string := "vault".
Definition VAULT_KEY : string := "default".
Definition META_KEY : string := "meta".

(** The metadata record that [ensureInit] creates. *)
Record Meta := {
  kdf : string;
  iterations : Z;
  saltB64 : string;
  meta_autolockMs : Z;
  createdAt : Z;
  updatedAt : Z;
}.

#[export] Instance Meta_eq_dec : EqDecision Meta.
Proof. solve_decision. Defined.

(** A value of [chrome.storage.local]. *)
Inductive LocalValue :=
| LMeta (meta : Meta)
| LTheme (theme : string).

(** An object is truthy. *)
#[export] Instance EncPayload_truthy : Truthy EncPayload := fun _ => true.

(** An item of the context menu: the properties that
    [chrome.contextMenus.create] is given. *)
Record MenuItem := {
  menu_id : string;
  menu_title : string;
  menu_contexts : list string;
}.

Record World := {
  derivedKey : option CryptoKey;
  unlockedAt : Z;
  autolockMs : Z;
  idb : IDB EncPayload;
  storage_local : gmap string LocalValue;
  storage_session : gmap string Jwk;
  alarms : gmap string Z;
  clock : Z;
  entropy : nat;
  menus : list MenuItem;
}.

Definition set_derivedKey (x : option CryptoKey) (w : World) : World :=
  {| derivedKey := x; unlockedAt := unlockedAt w; autolockMs := autolockMs w;
     idb := idb w; storage_local := storage_local w;
     storage_session := storage_session w; alarms := alarms w;
     clock := clock w; entropy := entropy w; menus := menus w |}.

Definition set_unlockedAt (x : Z) (w : World) : World :=
  {| derivedKey := derivedKey w; unlockedAt := x; autolockMs := autolockMs w;
     idb := idb w; storage_local := storage_local w;
     storage_session := storage_session w; alarms := alarms w;
     clock := clock w; entropy := entropy w; menus := menus w |}.

Definition set_autolockMs (x : Z) (w : World) : World :=
  {| derivedKey := derivedKey w; unlockedAt := unlockedAt w; autolockMs := x;
     idb := idb w; storage_local := storage_local w;
     storage_session := storage_session w; alarms := alarms w;
     clock := clock w; entropy := entropy w; menus := menus w |}.

Definition set_idb (x : IDB EncPayload) (w : World) : World :=
  {| derivedKey := derivedKey w; unlockedAt := unlockedAt w;
     autolockMs := autolockMs w; idb := x; storage_local := storage_local w;
     storage_session := storage_session w; alarms := alarms w;
     clock := clock w; entropy := entropy w; menus := menus w |}.

Definition set_storage_local (x : gmap string LocalValue) (w : World) : World :=
  {| derivedKey := derivedKey w; unlockedAt := unlockedAt w;
     autolockMs := autolockMs w; idb := idb w; storage_local := x;
     storage_session := storage_session w; alarms := alarms w;
     clock := clock w; entropy := entropy w; menus := menus w |}.

Definition set_storage_session (x : gmap string Jwk) (w : World) : World :=
  {| derivedKey := derivedKey w; unlockedAt := unlockedAt w;
     autolockMs := autolockMs w; idb := idb w; storage_local := storage_local w;
     storage_session := x; alarms := alarms w;
     clock := clock w; entropy := entropy w; menus := menus w |}.

Definition set_alarms (x : gmap string Z) (w : World) : World :=
  {| derivedKey := derivedKey w; unlockedAt := unlockedAt w;
     autolockMs := autolockMs w; idb := idb w; storage_local := storage_local w;
     storage_session := storage_session w; alarms := x;
     clock := clock w; entropy := entropy w; menus := menus w |}.

Definition set_clock (x : Z) (w : World) : World :=
  {| derivedKey := derivedKey w; unlockedAt := unlockedAt w;
     autolockMs := autolockMs w; idb := idb w; storage_local := storage_local w;
     storage_session := storage_session w; alarms := alarms w;
     clock := x; entropy := entropy w; menus := menus w |}.

Definition set_entropy (x : nat) (w : World) : World :=
  {| derivedKey := derivedKey w; unlockedAt := unlockedAt w;
     autolockMs := autolockMs w; idb := idb w; storage_local := storage_local w;
     storage_session := storage_session w; alarms := alarms w;
     clock := clock w; entropy := x; menus := menus w |}.

Definition set_menus (x : list MenuItem) (w : World) : World :=
  {| derivedKey := derivedKey w; unlockedAt := unlockedAt w;
     autolockMs := autolockMs w; idb := idb w; storage_local := storage_local w;
     storage_session := storage_session w; alarms := alarms w;
     clock := clock w; entropy := entropy w; menus := x |}.

(** [storage.js] runs on [idb], the random source on [entropy]. *)
#[export] Instance World_idb : Lens World (IDB EncPayload).
Proof. by refine {| view := idb; update := set_idb |}; [..|intros []|]. Defined.

#[export] Instance World_entropy : Lens World nat.
Proof. by refine {| view := entropy; update := set_entropy |}; [..|intros []|]. Defined.

(** The messages [chrome.runtime.onMessage] dispatches on, by [msg.type]. *)
Inductive Request :=
| STATUS
| UNLOCK (password : string)
| LOCK
| GET_CREDENTIALS_FOR_ORIGIN (origin : string)
| SAVE_CREDENTIAL (credential : Credential)
| LIST_CREDENTIALS
| DELETE_CREDENTIAL (id : string)
| GENERATE_PASSWORD (options : option Options)
| SET_AUTOLOCK (ms : option Z)
| OTHER (type : string).

(** The objects passed to [sendResponse]. *)
Inductive Response :=
| RespStatus (unlocked : bool)
| RespOk
| RespCreds (creds : list Credential)
| RespPassword (password : string)
| RespError (error : string).

#[export] Instance Response_eq_dec : EqDecision Response.
Proof. solve_decision. Defined.

(** The field [ok] of a response. *)
Definition ok (r : Response) : bool :=
  match r with RespError _ => false | _ => true end.

(** The field [error] of a response; the empty string stands for
    [undefined], which the sources only test with [||]. *)
Definition resp_error (r : Response) : string :=
  match r with RespError error => error | _ => "" end.

(** [e.message || String(e)] *)
Definition error_text (message : string) : string :=
  if truthy message then message else "Error".

(** The state of a worker that has just started: the top-level [let]s of
    [background.js] and [storage.js]. *)
Definition fresh_globals (w : World) : World :=
  set_derivedKey None (set_unlockedAt 0 (set_autolockMs (5 * 60 * 1000)
    (set_idb (set_dbPromise None (idb w)) w))).

(** [meta[META_KEY] || null] of [chrome.storage.local] *)
Definition meta_of (w : World) : option Meta :=
  match storage_local w !! META_KEY with
  | Some (LMeta meta) => Some meta
  | _ => None
  end.

Section background.
Context `{WebCrypto} `{JSON VaultDoc}.

Definition loadMeta : M World (option Meta) := gets meta_of.

Definition saveMeta (meta : Meta) : M World unit :=
  modify (fun w => set_storage_local (<[META_KEY := LMeta meta]> (storage_local w)) w).

(** [Math.max(1, Math.round((autolockMs || 5 * 60 * 1000) / 60000))] *)
Definition autolock_minutes (autolockMs : Z) : Z :=
  Math_max 1 (Math_round_div (num_or autolockMs (5 * 60 * 1000)) 60000).

Definition resetAutolockTimer : M World unit :=
  modify (fun w =>
    let w := set_unlockedAt (clock w) w in
    let minutes := autolock_minutes (autolockMs w) in
    set_alarms (<["autolock" := clock w + minutes * 60000]>
                  (delete "autolock" (alarms w))) w).

Definition lockVault : M World unit :=
  _ ← modify (set_derivedKey None);
  _ ← modify (set_unlockedAt 0);
  attempt (modify (fun w =>
    set_storage_session (delete "unlockedKeyJwk" (storage_session w)) w)).

Definition ensureInit : M World unit :=
  _ ← zoom (ensureDB (V := EncPayload));
  meta ← loadMeta;
  match meta with
  | None =>
      salt ← zoom (getRandomValues 16);
      salt64 ← lift (bytesToBase64 salt);
      w ← get;
      saveMeta {| kdf := "PBKDF2"; iterations := 310000; saltB64 := salt64;
                  meta_autolockMs := autolockMs w;
                  createdAt := clock w; updatedAt := clock w |}
  | Some meta =>
      modify (fun w => set_autolockMs (num_or (meta_autolockMs meta) (autolockMs w)) w)
  end.

Definition deriveKeyFromMeta (password : string) : M World CryptoKey :=
  meta ← loadMeta;
  match meta with
  | None => throw "Meta not initialized"
  | Some meta =>
      salt ← lift (base64ToBytes (saltB64 meta));
      lift (deriveKeyPBKDF2 password salt (Some (iterations meta)))
  end.

Definition tryRestoreKeyFromSession : M World unit :=
  attempt (
    w ← get;
    match storage_session w !! "unlockedKeyJwk" with
    | None => mret tt
    | Some unlockedKeyJwk =>
        key ← lift (subtle_importKey_jwk unlockedKeyJwk false [UEncrypt; UDecrypt]);
        _ ← modify (set_derivedKey (Some key));
        resetAutolockTimer
    end).

(** [if (!derivedKey) await tryRestoreKeyFromSession()] *)
Definition restore_if_locked : M World unit :=
  w ← get;
  if bool_decide (is_Some (derivedKey w)) then mret tt else tryRestoreKeyFromSession.

(** [if (!derivedKey) throw new Error(message)] *)
Definition require_key (message : string) : M World CryptoKey :=
  w ← get;
  match derivedKey w with
  | Some key => mret key
  | None => throw message
  end.

Definition getVaultJson : M World VaultDoc :=
  enc ← zoom (idbGet VAULT_STORE VAULT_KEY);
  match enc with
  | None => mret empty_vault
  | Some enc =>
      _ ← restore_if_locked;
      key ← require_key "Vault is locked";
      lift (decryptJSON (Some enc) (Some key))
  end.

Definition setVaultJson (json : VaultDoc) : M World unit :=
  _ ← restore_if_locked;
  key ← require_key "Vault is locked";
  enc ← zoom (encryptJSON json (Some key) false);
  _ ← zoom (idbSet VAULT_STORE VAULT_KEY enc);
  mret tt.

(** The body of the [try] of [UNLOCK]: [true] when it completes. *)
Definition check_or_create (enc : option EncPayload) (key : CryptoKey) : M World bool :=
  try_catch
    (match enc with
     | Some enc =>
         _ ← lift (decryptJSON (T := VaultDoc) (Some enc) (Some key));
         mret true
     | None =>
         fresh ← zoom (encryptJSON empty_vault (Some key) false);
         _ ← zoom (idbSet VAULT_STORE VAULT_KEY fresh);
         mret true
     end)
    (fun _ => mret false).

(** The body of the listener of [chrome.runtime.onMessage], inside its [try]. *)
Definition handle (msg : Request) : M World Response :=
  match msg with
  | STATUS =>
      _ ← restore_if_locked;
      w ← get;
      mret (RespStatus (bool_decide (is_Some (derivedKey w))))
  | UNLOCK password =>
      _ ← ensureInit;
      key ← deriveKeyFromMeta password;
      enc ← zoom (idbGet VAULT_STORE VAULT_KEY);
      valid ← check_or_create enc key;
      if negb valid then mret (RespError "Invalid master password")
      else
        _ ← modify (set_derivedKey (Some key));
        _ ← resetAutolockTimer;
        _ ← attempt (
              jwk ← lift (subtle_exportKey_jwk key);
              modify (fun w =>
                set_storage_session (<["unlockedKeyJwk" := jwk]> (storage_session w)) w));
        mret RespOk
  | LOCK =>
      _ ← lockVault;
      mret RespOk
  | GET_CREDENTIALS_FOR_ORIGIN origin =>
      _ ← restore_if_locked;
      _ ← require_key "Locked";
      _ ← resetAutolockTimer;
      vault ← getVaultJson;
      mret (RespCreds (credsForOrigin origin vault))
  | SAVE_CREDENTIAL credential =>
      _ ← restore_if_locked;
      _ ← require_key "Locked";
      _ ← resetAutolockTimer;
      vault ← getVaultJson;
      _ ← setVaultJson (upsert credential vault);
      mret RespOk
  | LIST_CREDENTIALS =>
      _ ← restore_if_locked;
      _ ← require_key "Locked";
      _ ← resetAutolockTimer;
      vault ← getVaultJson;
      mret (RespCreds (creds vault))
  | DELETE_CREDENTIAL id =>
      _ ← restore_if_locked;
      _ ← require_key "Locked";
      _ ← resetAutolockTimer;
      vault ← getVaultJson;
      _ ← setVaultJson (remove id vault);
      mret RespOk
  | GENERATE_PASSWORD options =>
      pwd ← zoom (generatePassword (default no_options options));
      mret (RespPassword (string_of_list_ascii pwd))
  | SET_AUTOLOCK ms =>
      match ms with
      | None => mret (RespError "Invalid autolock value; must be >= 1 minute")
      | Some ms =>
          if ms <? 60 * 1000
          then mret (RespError "Invalid autolock value; must be >= 1 minute")
          else
            meta ← loadMeta;
            match meta with
            | None => throw "Cannot set properties of null (setting 'autolockMs')"
            | Some meta =>
                _ ← saveMeta {| kdf := kdf meta; iterations := iterations meta;
                                saltB64 := saltB64 meta; meta_autolockMs := ms;
                                createdAt := createdAt meta;
                                updatedAt := updatedAt meta |};
                _ ← modify (set_autolockMs ms);
                w ← get;
                _ ← when (bool_decide (is_Some (derivedKey w))) resetAutolockTimer;
                mret RespOk
            end
      end
  | OTHER _ => mret (RespError "Unknown message")
  end.

(** The listener of [chrome.runtime.onMessage]: the response sent and the
    state left. *)
Definition onMessage (msg : Request) : M World Response :=
  try_catch (handle msg) (fun message => mret (RespError (error_text message))).

(** The listener of [chrome.alarms.onAlarm]. *)
Definition onAlarm (name : string) : M World unit :=
  w ← get;
  when (String.eqb name "autolock" && bool_decide (is_Some (derivedKey w))) lockVault.

(** [chrome.contextMenus.create]: the browser adds the item to the menu of
    the extension, unless an item of the menu has its id. *)
Definition contextMenus_create (item : MenuItem) : M World unit :=
  modify (fun w =>
    if bool_decide (menu_id item ∈ menu_id <$> menus w) then w
    else set_menus (menus w ++ [item]) w).

(** The listener of [chrome.runtime.onInstalled].  The promise of
    [ensureInit] is not awaited, so a failure goes nowhere; the menu is
    emptied and filled while that promise is pending, which touches no
    state that [ensureInit] reads, so the two are run one after the other
    here. *)
Definition onInstalled : M World unit :=
  _ ← attempt ensureInit;
  attempt (
    _ ← modify (set_menus []);
    _ ← contextMenus_create
          {| menu_id := "passvault_paste_username";
             menu_title := "PassVault: Paste username"; menu_contexts := ["editable"] |};
    _ ← contextMenus_create
          {| menu_id := "passvault_paste_password";
             menu_title := "PassVault: Paste password"; menu_contexts := ["editable"] |};
    contextMenus_create
      {| menu_id := "passvault_autofill"; menu_title := "PassVault: Autofill login";
         menu_contexts := ["page"; "frame"; "editable"] |}).

Definition getCredsForOrigin (origin : string) : M World (list Credential) :=
  _ ← restore_if_locked;
  _ ← require_key "Locked";
  vault ← getVaultJson;
  mret (credsForOrigin origin vault).

End background.

(** ** Reading the state *)

(** The key kept for the session, and the encrypted vault. *)
Definition session_jwk (w : World) : option Jwk :=
  storage_session w !! "unlockedKeyJwk".

Definition vault_record (w : World) : option EncPayload :=
  stored STORE_VAULT VAULT_KEY (idb w).

(** The state [resetAutolockTimer] leaves. *)
Definition armed (w : World) : World :=
  set_alarms (<["autolock" := clock w + autolock_minutes (autolockMs w) * 60000]>
                (delete "autolock" (alarms w)))
    (set_unlockedAt (clock w) w).

(** The state [lockVault] leaves. *)
Definition cleared (w : World) : World :=
  set_storage_session (delete "unlockedKeyJwk" (storage_session w))
    (set_unlockedAt 0 (set_derivedKey None w)).

(** The key [tryRestoreKeyFromSession] would import. *)
Definition session_key (w : World) : option CryptoKey :=
  jwk ← session_jwk w;
  match subtle_importKey_jwk jwk false [UEncrypt; UDecrypt] with
  | Ret key => Some key
  | Throw _ => None
  end.

(** The key an operation works with: the one in memory, or else the one
    of the session. *)
Definition effective_key (w : World) : option CryptoKey :=
  match derivedKey w with
  | Some key => Some key
  | None => session_key w
  end.

(** The state [if (!derivedKey) await tryRestoreKeyFromSession()] leaves. *)
Definition resume (w : World) : World :=
  match derivedKey w, session_key w with
  | None, Some key => armed (set_derivedKey (Some key) w)
  | _, _ => w
  end.

(** The state with the connection to the database open. *)
Definition connected (w : World) : World := set_idb (opened (idb w)) w.

(** The state with the record [enc] stored as the vault. *)
Definition with_vault (enc : EncPayload) (w : World) : World :=
  set_idb (committed STORE_VAULT (<[VAULT_KEY := enc]> (vault_store (idb w))) (idb w)) w.

(** The state with [n] more bytes read from the random source. *)
Definition drawn (n : nat) (w : World) : World := set_entropy (entropy w + n) w.

(** The database can be used: it opens, and it has the store. *)
Definition usable_db (w : World) : Prop := healthy (idb w) /\ idb_wf (idb w).

(** The state with [meta] saved. *)
Definition with_meta (meta : Meta) (w : World) : World :=
  set_storage_local (<[META_KEY := LMeta meta]> (storage_local w)) w.

(** The state with [theme] saved: [chrome.storage.local.set({ theme })]. *)
Definition with_theme (theme : string) (w : World) : World :=
  set_storage_local (<["theme" := LTheme theme]> (storage_local w)) w.

(** [themeObj.theme] of [chrome.storage.local] *)
Definition theme_of (w : World) : option string :=
  match storage_local w !! "theme" with
  | Some (LTheme theme) => Some theme
  | _ => None
  end.

(** The JWK that [exportKey] makes of an extractable key. *)
Definition jwk_of (key : CryptoKey) : Jwk :=
  {| kty := "oct"; k := key_bytes key;
     jwk_alg := if bool_decide (length (key_bytes key) = 32%nat) then "A256GCM"
                else if bool_decide (length (key_bytes key) = 24%nat) then "A192GCM"
                else "A128GCM";
     ext := true; key_ops := usages key |}.

(** The state a successful [UNLOCK] leaves once the vault is checked: the
    key in memory, the alarm set, and the key kept for the session if it can
    be exported. *)
Definition unlocked_by (key : CryptoKey) (w : World) : World :=
  let w := armed (set_derivedKey (Some key) w) in
  if extractable key
  then set_storage_session (<["unlockedKeyJwk" := jwk_of key]> (storage_session w)) w
  else w.

Section background_states.
Context `{WebCrypto}.

(** The metadata [ensureInit] creates in state [w]. *)
Definition new_meta (w : World) : Meta :=
  {| kdf := "PBKDF2"; iterations := 310000;
     saltB64 := b64_text (random_byte <$> seq (entropy w) 16);
     meta_autolockMs := autolockMs w; createdAt := clock w; updatedAt := clock w |}.

(** The state [ensureInit] leaves when the database opens. *)
Definition initialised (w : World) : World :=
  match meta_of w with
  | None => with_meta (new_meta w) (drawn 16 (connected w))
  | Some meta =>
      set_autolockMs (num_or (meta_autolockMs meta) (autolockMs w)) (connected w)
  end.

(** The menu [onInstalled] leaves, and the state it leaves when the
    database opens. *)
Definition installed_menu : list MenuItem :=
  [ {| menu_id := "passvault_paste_username"; menu_title := "PassVault: Paste username";
       menu_contexts := ["editable"] |};
    {| menu_id := "passvault_paste_password"; menu_title := "PassVault: Paste password";
       menu_contexts := ["editable"] |};
    {| menu_id := "passvault_autofill"; menu_title := "PassVault: Autofill login";
       menu_contexts := ["page"; "frame"; "editable"] |} ].

Definition installed (w : World) : World := set_menus installed_menu (initialised w).

(** The key [deriveKeyFromMeta] returns for [meta]. *)
Definition key_from (meta : Meta) (password : string) : outcome CryptoKey :=
  salt ← base64ToBytes (saltB64 meta);
  deriveKeyPBKDF2 password salt (Some (iterations meta)).

End background_states.

(** * Theorems *)

(** [wsimpl] computes the fields of a state built by the setters. *)
Ltac wsimpl :=
  cbn [derivedKey unlockedAt autolockMs idb storage_local storage_session alarms
       clock entropy menus set_derivedKey set_unlockedAt set_autolockMs set_idb
       set_storage_local set_storage_session set_alarms set_clock set_entropy set_menus
       view update World_idb World_entropy fst snd armed cleared connected
       with_vault drawn with_meta with_theme] in *.

Lemma World_eta w :
  {| derivedKey := derivedKey w; unlockedAt := unlockedAt w;
     autolockMs := autolockMs w; idb := idb w; storage_local := storage_local w;
     storage_session := storage_session w; alarms := alarms w;
     clock := clock w; entropy := entropy w; menus := menus w |} = w.
Proof. by destruct w. Qed.

Section background_facts.
Context `{WebCrypto} `{JSON VaultDoc}.
Implicit Types (w : World) (key : CryptoKey) (meta : Meta).

(** ** The helpers *)

Lemma run_loadMeta w : loadMeta w = (Ret (meta_of w), w).
Proof. reflexivity. Qed.

Lemma run_saveMeta meta w :
  saveMeta meta w =
  (Ret tt, set_storage_local (<[META_KEY := LMeta meta]> (storage_local w)) w).
Proof. reflexivity. Qed.

Lemma run_resetAutolockTimer w : resetAutolockTimer w = (Ret tt, armed w).
Proof. reflexivity. Qed.

Lemma run_lockVault w : lockVault w = (Ret tt, cleared w).
Proof. reflexivity. Qed.

Lemma run_require_key message w :
  require_key message w = (of_option message (derivedKey w), w).
Proof. unfold require_key. mrun. by destruct (derivedKey w). Qed.

Lemma run_tryRestoreKeyFromSession w :
  tryRestoreKeyFromSession w =
  (Ret tt, match session_key w with
           | Some key => armed (set_derivedKey (Some key) w)
           | None => w
           end).
Proof.
  unfold tryRestoreKeyFromSession, session_key, session_jwk. mrun.
  destruct (storage_session w !! "unlockedKeyJwk") as [jwk|]; [|done]. mrun.
  cbn [mbind option_bind].
  by destruct (subtle_importKey_jwk jwk false [UEncrypt; UDecrypt]).
Qed.

Lemma run_restore_if_locked w : restore_if_locked w = (Ret tt, resume w).
Proof.
  unfold restore_if_locked, resume. mrun.
  destruct (derivedKey w) as [key|].
  - by rewrite bool_decide_eq_true_2 by by eexists.
  - rewrite bool_decide_eq_false_2 by (by intros [??]).
    by rewrite run_tryRestoreKeyFromSession.
Qed.

Lemma resume_key w : derivedKey (resume w) = effective_key w.
Proof.
  unfold resume, effective_key.
  by destruct (derivedKey w) as [key|] eqn:E, (session_key w).
Qed.

Lemma resume_unlocked w key : derivedKey w = Some key -> resume w = w.
Proof. unfold resume. by intros ->. Qed.

Lemma resume_locked w :
  derivedKey w = None -> session_key w = None -> resume w = w.
Proof. unfold resume. by intros -> ->. Qed.

(** [resume] touches the key, the time of the unlock and the alarm only. *)
Lemma resume_idb w : idb (resume w) = idb w.
Proof. unfold resume. by destruct (derivedKey w), (session_key w). Qed.

Lemma resume_entropy w : entropy (resume w) = entropy w.
Proof. unfold resume. by destruct (derivedKey w), (session_key w). Qed.

Lemma resume_clock w : clock (resume w) = clock w.
Proof. unfold resume. by destruct (derivedKey w), (session_key w). Qed.

Lemma resume_autolockMs w : autolockMs (resume w) = autolockMs w.
Proof. unfold resume. by destruct (derivedKey w), (session_key w). Qed.

Lemma resume_storage_local w : storage_local (resume w) = storage_local w.
Proof. unfold resume. by destruct (derivedKey w), (session_key w). Qed.

Lemma resume_storage_session w : storage_session (resume w) = storage_session w.
Proof. unfold resume. by destruct (derivedKey w), (session_key w). Qed.

Lemma resume_usable_db w : usable_db (resume w) <-> usable_db w.
Proof. unfold usable_db. by rewrite resume_idb. Qed.

(** ** The database *)

Lemma connected_usable w : usable_db w -> usable_db (connected w).
Proof. intros [Hh Hwf]. split; [apply opened_healthy|by apply opened_wf]. Qed.

Lemma with_vault_usable enc w : usable_db w -> usable_db (with_vault enc w).
Proof. intros [Hh Hwf]. split; [apply committed_healthy|by apply committed_wf]. Qed.

Lemma vault_record_connected w :
  usable_db w -> vault_record (connected w) = vault_record w.
Proof. intros [Hh Hwf]. by apply stored_opened. Qed.

Lemma vault_record_with_vault enc w : vault_record (with_vault enc w) = Some enc.
Proof.
  unfold vault_record, with_vault. wsimpl.
  by rewrite (stored_committed VAULT_KEY), lookup_insert_eq.
Qed.

Lemma run_idbGet w :
  usable_db w ->
  zoom (idbGet VAULT_STORE VAULT_KEY) w = (Ret (vault_record w), connected w).
Proof.
  intros [Hh Hwf]. rewrite run_zoom. wsimpl.
  change VAULT_STORE with STORE_VAULT. rewrite idbGet_vault by done.
  unfold vault_record, or_null. by destruct (stored _ _ _).
Qed.

Lemma run_idbSet enc w :
  usable_db w ->
  zoom (idbSet VAULT_STORE VAULT_KEY enc) w = (Ret true, with_vault enc w).
Proof.
  intros [Hh Hwf]. rewrite run_zoom. wsimpl.
  change VAULT_STORE with STORE_VAULT. by rewrite idbSet_vault.
Qed.

Lemma run_encryptJSON (json : VaultDoc) key b w :
  algorithm key = "AES-GCM" -> UEncrypt ∈ usages key ->
  zoom (encryptJSON json (Some key) b) w =
  (Ret (sealed json key (entropy w)), drawn 12 w).
Proof. intros Ha Hu. rewrite run_zoom. wsimpl. by rewrite encryptJSON_returns. Qed.

(** ** The vault *)

(** [getVaultJson]: no record is the empty vault; a record is decrypted with
    the key in memory or the one of the session. *)
Lemma run_getVaultJson w :
  usable_db w ->
  getVaultJson w =
  match vault_record w with
  | None => (Ret empty_vault, connected w)
  | Some enc =>
      (key ← of_option "Vault is locked" (effective_key w);
       decryptJSON (Some enc) (Some key), resume (connected w))
  end.
Proof.
  intros Hdb. unfold getVaultJson. mrun. rewrite run_idbGet by done. mrun.
  destruct (vault_record w) as [enc|]; mrun; [|done].
  rewrite run_restore_if_locked. mrun. rewrite run_require_key, resume_key.
  change (effective_key (connected w)) with (effective_key w).
  destruct (effective_key w) as [key|]; by mrun.
Qed.

(** [setVaultJson] with a key that may encrypt: the document is sealed under
    it with a fresh nonce and stored. *)
Lemma run_setVaultJson json w key :
  usable_db w -> effective_key w = Some key ->
  algorithm key = "AES-GCM" -> UEncrypt ∈ usages key ->
  setVaultJson json w =
  (Ret tt, with_vault (sealed json key (entropy w)) (drawn 12 (resume w))).
Proof.
  intros Hdb Hk Ha Hu. unfold setVaultJson. mrun.
  rewrite run_restore_if_locked. mrun. rewrite run_require_key, resume_key, Hk.
  cbn [of_option]. mrun. rewrite run_encryptJSON by done. mrun.
  rewrite run_idbSet by (by apply resume_usable_db). mrun.
  by rewrite resume_entropy.
Qed.

(** Without a key, [setVaultJson] throws and stores nothing. *)
Lemma run_setVaultJson_locked json w :
  effective_key w = None -> setVaultJson json w = (Throw "Vault is locked", w).
Proof.
  intros Hk. unfold setVaultJson. mrun.
  rewrite run_restore_if_locked. mrun. rewrite run_require_key, resume_key, Hk.
  cbn [of_option]. unfold effective_key in Hk. destruct (derivedKey w) eqn:E; [done|].
  by rewrite resume_locked.
Qed.

(** ** Initialisation and the key *)

Lemma run_ensureDB w :
  usable_db w -> zoom (ensureDB (V := EncPayload)) w = (Ret tt, connected w).
Proof. intros [Hh Hwf]. by rewrite run_zoom, ensureDB_healthy. Qed.

Lemma run_getRandomValues n w :
  zoom (getRandomValues n) w = (Ret (random_byte <$> seq (entropy w) n), drawn n w).
Proof. by rewrite run_zoom, getRandomValues_run. Qed.

Lemma run_ensureInit w : usable_db w -> ensureInit w = (Ret tt, initialised w).
Proof.
  intros Hdb. unfold ensureInit, initialised. mrun.
  rewrite run_ensureDB by done. mrun. rewrite run_loadMeta. mrun.
  change (meta_of (connected w)) with (meta_of w).
  destruct (meta_of w) as [meta|]; mrun; [done|].
  rewrite run_getRandomValues. mrun. by rewrite bytesToBase64_returns.
Qed.

(** When the database does not open, [ensureInit] throws before it reads or
    writes the metadata. *)
Lemma run_ensureInit_fails w e :
  (ensureDB (idb w)).1 = Throw e ->
  ensureInit w = (Throw e, set_idb (ensureDB (idb w)).2 w).
Proof.
  intros E. unfold ensureInit. mrun. rewrite run_zoom. wsimpl. by rewrite E.
Qed.

Lemma run_deriveKeyFromMeta password w :
  deriveKeyFromMeta password w =
  (match meta_of w with
   | None => Throw "Meta not initialized"
   | Some meta => key_from meta password
   end, w).
Proof.
  unfold deriveKeyFromMeta, key_from. mrun. rewrite run_loadMeta. mrun.
  destruct (meta_of w) as [meta|]; mrun; [|done].
  by destruct (base64ToBytes (saltB64 meta)).
Qed.

(** The metadata [ensureInit] creates gives every password a key. *)
Lemma key_from_new_meta w password :
  key_from (new_meta w) password =
  Ret (derived_key password (random_byte <$> seq (entropy w) 16) 310000).
Proof.
  unfold key_from, new_meta. cbn [saltB64 iterations].
  rewrite base64ToBytes_b64_text, bytes_wrap8_id by apply random_bytes. orun.
  by apply deriveKeyPBKDF2_returns.
Qed.

(** The body of the [try] of [UNLOCK]. *)
Lemma run_check_or_create_some enc key w :
  check_or_create (Some enc) key w =
  (Ret (is_Ret (decryptJSON (T := VaultDoc) (Some enc) (Some key))), w).
Proof.
  unfold check_or_create. mrun.
  by destruct (decryptJSON (Some enc) (Some key)).
Qed.

Lemma run_check_or_create_none key w :
  usable_db w -> algorithm key = "AES-GCM" -> UEncrypt ∈ usages key ->
  check_or_create None key w =
  (Ret true, with_vault (sealed empty_vault key (entropy w)) (drawn 12 w)).
Proof.
  intros Hdb Ha Hu. unfold check_or_create. mrun.
  rewrite run_encryptJSON by done. mrun. by rewrite run_idbSet.
Qed.

(** The end of a successful [UNLOCK], and what follows it. *)
Lemma run_remember {A} (rest : M World A) key w :
  (_ ← modify (set_derivedKey (Some key));
   _ ← resetAutolockTimer;
   _ ← attempt (
     jwk ← lift (subtle_exportKey_jwk key);
     modify (fun w =>
       set_storage_session (<["unlockedKeyJwk" := jwk]> (storage_session w)) w));
   rest) w =
  rest (unlocked_by key w).
Proof.
  mrun. rewrite run_resetAutolockTimer. mrun.
  unfold unlocked_by, subtle_exportKey_jwk. by destruct (extractable key).
Qed.

(** ** The timer *)

(** C37: the alarm is set a whole number of minutes from now: the duration
    rounded to the nearest minute, half a minute upwards.  For a duration of
    a minute or more it is off by at most thirty seconds. *)
Theorem timer_rounds_to_minutes w :
  60000 <= autolockMs w ->
  exists minutes,
    alarms (resetAutolockTimer w).2 !! "autolock" = Some (clock w + minutes * 60000) /\
    minutes * 60000 - 30000 <= autolockMs w < minutes * 60000 + 30000.
Proof.
  intros Hms. exists (autolock_minutes (autolockMs w)).
  rewrite run_resetAutolockTimer. wsimpl. rewrite lookup_insert_eq. split; [done|].
  unfold autolock_minutes, Math_max. rewrite num_or_nonzero by lia.
  pose proof (Math_round_div_spec (autolockMs w) 60000). lia.
Qed.

End background_facts.
