(* ===== verification/Handlers.v ===== *)
(** * Handlers: what each message does

    For every message type of [background.js] the response that
    [onMessage] sends and the state it leaves, as equations between the code
    and explicit states.  The preconditions are the ones under which the
    platform does not fail: the database opens ([usable_db]) and, for the
    operations that encrypt, the key may be used for it.

    [effective_key] is the key an operation ends up with after the attempt
    to resume from the session; a state where it is [None] is locked, and
    the four operations on credentials answer [Locked] there and change
    nothing.

    [response msg w] and [served msg w] are what a page gets from
    [chrome.runtime.sendMessage(msg)] and the state of the worker then;
    [fits] is the shape of the response the pages read for each request,
    and [response_fits_request] states that every response has it.

    [same_menu] relates the states with the same context menu: the
    handlers of the messages and of the alarm respect it, and
    [onInstalled] leaves the menu [installed_menu]. *)

From Stdlib Require Import ZArith Lia Ascii String.
From stdpp Require Import base tactics option list strings gmap.
From S2P Require Import Prelude Base64 Crypto Storage Vault Generator Background.

#[local] Open Scope Z_scope.

(** The messages that work on the credentials. *)
Definition needs_key (msg : Request) : bool :=
  match msg with
  | GET_CREDENTIALS_FOR_ORIGIN _ | SAVE_CREDENTIAL _
  | LIST_CREDENTIALS | DELETE_CREDENTIAL _ => true
  | _ => false
  end.

(** The state after the guard of such a message and the read of the vault. *)
Definition touched (w : World) : World := connected (armed (resume w)).

(** What such a message does to the document, and what it answers. *)
Definition edit (msg : Request) (vault : VaultDoc) : option VaultDoc :=
  match msg with
  | SAVE_CREDENTIAL credential => Some (upsert credential vault)
  | DELETE_CREDENTIAL id => Some (remove id vault)
  | _ => None
  end.

Definition answer (msg : Request) (vault : VaultDoc) : Response :=
  match msg with
  | GET_CREDENTIALS_FOR_ORIGIN origin => RespCreds (credsForOrigin origin vault)
  | LIST_CREDENTIALS => RespCreds (creds vault)
  | _ => RespOk
  end.

(** The metadata with another auto-lock duration. *)
Definition with_autolock (ms : Z) (meta : Meta) : Meta :=
  {| kdf := kdf meta; iterations := iterations meta; saltB64 := saltB64 meta;
     meta_autolockMs := ms; createdAt := createdAt meta; updatedAt := updatedAt meta |}.

(** The state a valid [SET_AUTOLOCK] leaves. *)
Definition autolock_set (ms : Z) (meta : Meta) (w : World) : World :=
  let w := set_autolockMs ms (with_meta (with_autolock ms meta) w) in
  if bool_decide (is_Some (derivedKey w)) then armed w else w.

(** The states with the menu of another: what the worker does on a
    message or an alarm leaves the menu alone. *)
Definition same_menu : relation World := fun w w' => menus w' = menus w.

Section handler_states.
Context `{WebCrypto} `{JSON VaultDoc}.

(** The document [getVaultJson] returns under [key]. *)
Definition vault_doc (key : CryptoKey) (w : World) : outcome VaultDoc :=
  match vault_record w with
  | None => Ret empty_vault
  | Some enc => decryptJSON (Some enc) (Some key)
  end.

(** The metadata in force once [ensureInit] has run. *)
Definition current_meta (w : World) : Meta := default (new_meta w) (meta_of w).

(** What [chrome.runtime.sendMessage(msg)] resolves to in a page, and the
    state of the worker then. *)
Definition response (msg : Request) (w : World) : Response :=
  match (onMessage msg w).1 with
  | Ret resp => resp
  | Throw message => RespError message
  end.

Definition served (msg : Request) (w : World) : World := (onMessage msg w).2.

(** The responses a page reads for a request: [unlocked] after [STATUS],
    [creds] after the two requests that list, [password] after
    [GENERATE_PASSWORD], [ok] alone after the others; [STATUS], [LOCK] and
    [GENERATE_PASSWORD] have no error, an unknown request has nothing
    else. *)
Definition fits (msg : Request) (r : Response) : bool :=
  match msg, r with
  | STATUS, RespStatus _ => true
  | LOCK, RespOk => true
  | GENERATE_PASSWORD _, RespPassword _ => true
  | OTHER _, RespError _ => true
  | (UNLOCK _ | SAVE_CREDENTIAL _ | DELETE_CREDENTIAL _ | SET_AUTOLOCK _),
    (RespOk | RespError _) => true
  | (GET_CREDENTIALS_FOR_ORIGIN _ | LIST_CREDENTIALS), (RespCreds _ | RespError _) => true
  | _, _ => false
  end.

End handler_states.

(** * Theorems *)

Section handlers.
Context `{WebCrypto} `{JSON VaultDoc}.
Implicit Types (w : World) (key : CryptoKey) (meta : Meta) (msg : Request).

(** ** The guard *)

(** [if (!derivedKey) await tryRestoreKeyFromSession();
     if (!derivedKey) throw new Error('Locked'); resetAutolockTimer()] *)
Lemma run_guard w :
  (_ ← restore_if_locked; _ ← require_key "Locked"; resetAutolockTimer) w =
  match effective_key w with
  | Some _ => (Ret tt, armed (resume w))
  | None => (Throw "Locked", w)
  end.
Proof.
  mrun. rewrite run_restore_if_locked. mrun. rewrite run_require_key, resume_key.
  unfold effective_key. destruct (derivedKey w) as [key|] eqn:Ek; cbn [of_option].
  - by mrun.
  - destruct (session_key w) as [key|] eqn:Es; cbn [of_option]; mrun; [done|].
    by rewrite resume_locked.
Qed.

Lemma effective_key_armed_resume w key :
  effective_key w = Some key -> derivedKey (armed (resume w)) = Some key.
Proof. intros <-. apply resume_key. Qed.

Lemma resume_touched w key : effective_key w = Some key -> resume (touched w) = touched w.
Proof. intros Hk. by apply (resume_unlocked _ key), effective_key_armed_resume. Qed.

Lemma touched_usable w : usable_db w -> usable_db (touched w).
Proof. intros Hdb. by apply connected_usable, resume_usable_db. Qed.

Lemma vault_record_touched w : usable_db w -> vault_record (touched w) = vault_record w.
Proof.
  intros Hdb. unfold touched.
  rewrite vault_record_connected by by apply resume_usable_db.
  unfold vault_record. wsimpl. by rewrite resume_idb.
Qed.

Lemma entropy_touched w : entropy (touched w) = entropy w.
Proof. apply resume_entropy. Qed.

Lemma effective_key_touched w key :
  effective_key w = Some key -> effective_key (touched w) = Some key.
Proof.
  intros Hk. unfold effective_key.
  by rewrite (effective_key_armed_resume w key Hk : derivedKey (touched w) = _).
Qed.

(** Without a key the guard throws, whatever follows it. *)
Lemma run_locked_then {A} (rest : M World A) w :
  effective_key w = None ->
  (_ ← restore_if_locked; _ ← require_key "Locked"; rest) w = (Throw "Locked", w).
Proof.
  intros Hk. mrun. rewrite run_restore_if_locked. mrun.
  rewrite run_require_key, resume_key, Hk. cbn [of_option].
  unfold effective_key in Hk. destruct (derivedKey w) eqn:E; [done|].
  by rewrite resume_locked.
Qed.

(** With a key, the guard and the read of the vault give the document under
    the key and leave the state [touched]. *)
Lemma run_read_then {A} (rest : VaultDoc -> M World A) w key :
  usable_db w -> effective_key w = Some key ->
  (_ ← restore_if_locked; _ ← require_key "Locked"; _ ← resetAutolockTimer;
   vault ← getVaultJson; rest vault) w =
  match vault_doc key w with
  | Ret vault => rest vault (touched w)
  | Throw e => (Throw e, touched w)
  end.
Proof.
  intros Hdb Hk. mrun. rewrite run_restore_if_locked. mrun.
  rewrite run_require_key, resume_key, Hk. cbn [of_option]. mrun.
  rewrite run_resetAutolockTimer. mrun.
  assert (usable_db (armed (resume w))) as Hdb' by by apply resume_usable_db.
  rewrite run_getVaultJson by done. fold (touched w).
  rewrite <- (vault_record_connected (armed (resume w))) by done. fold (touched w).
  rewrite vault_record_touched by done. unfold vault_doc.
  destruct (vault_record w) as [enc|]; [|done].
  rewrite (resume_touched w key) by done.
  unfold effective_key. rewrite (effective_key_armed_resume w key) by done.
  cbn [of_option]. orun. by destruct (decryptJSON (Some enc) (Some key)).
Qed.

(** The write that follows: the document sealed under the key, stored. *)
Lemma run_write json w key :
  usable_db w -> effective_key w = Some key ->
  algorithm key = "AES-GCM" -> UEncrypt ∈ usages key ->
  setVaultJson json (touched w) =
  (Ret tt, with_vault (sealed json key (entropy w)) (drawn 12 (touched w))).
Proof.
  intros Hdb Hk Ha Hu.
  rewrite (run_setVaultJson json (touched w) key);
    [|by apply touched_usable|by apply effective_key_touched|done..].
  by rewrite entropy_touched, (resume_touched w key).
Qed.

(** ** The messages *)

Lemma status_answers w :
  onMessage STATUS w =
  (Ret (RespStatus (bool_decide (is_Some (effective_key w)))), resume w).
Proof.
  unfold onMessage, handle. mrun. rewrite run_restore_if_locked. mrun.
  by rewrite resume_key.
Qed.

Lemma lock_answers w : onMessage LOCK w = (Ret RespOk, cleared w).
Proof. unfold onMessage, handle. mrun. rewrite run_lockVault. by mrun. Qed.

Lemma other_answers type w :
  onMessage (OTHER type) w = (Ret (RespError "Unknown message"), w).
Proof. reflexivity. Qed.

(** Every message is answered: an exception becomes an error response. *)
Lemma onMessage_answers msg w : exists r, (onMessage msg w).1 = Ret r.
Proof.
  unfold onMessage. rewrite run_try_catch.
  destruct (handle msg w) as [[r|e] w']; by eexists.
Qed.

Lemma onMessage_response msg w : onMessage msg w = (Ret (response msg w), served msg w).
Proof.
  unfold response, served. destruct (onMessage_answers msg w) as [r Hr].
  destruct (onMessage msg w) as [o w']. cbn in *. by subst.
Qed.

(** What the handler of a request that can fail returns fits the request. *)
Lemma handle_fits msg :
  fits msg (RespError "") = true -> yields (fun r => fits msg r = true) (handle msg).
Proof. destruct msg; try done; intros _; unfold handle; by_cases. Qed.

(** The four operations on credentials in a locked state. *)
Lemma credentials_locked msg w :
  needs_key msg = true -> effective_key w = None ->
  onMessage msg w = (Ret (RespError "Locked"), w).
Proof.
  intros Hm Hk. unfold onMessage. rewrite run_try_catch.
  destruct msg; try done; unfold handle; by rewrite run_locked_then.
Qed.

(** The four operations on credentials with a key: the answer is computed
    from the document, and an edited document is sealed and stored. *)
Lemma credentials_unlocked msg w key :
  needs_key msg = true -> usable_db w -> effective_key w = Some key ->
  algorithm key = "AES-GCM" -> UEncrypt ∈ usages key ->
  onMessage msg w =
  match vault_doc key w with
  | Throw e => (Ret (RespError (error_text e)), touched w)
  | Ret vault =>
      (Ret (answer msg vault),
       match edit msg vault with
       | None => touched w
       | Some vault' => with_vault (sealed vault' key (entropy w)) (drawn 12 (touched w))
       end)
  end.
Proof.
  intros Hm Hdb Hk Ha Hu. unfold onMessage. rewrite run_try_catch.
  destruct msg; try done; unfold handle; rewrite (run_read_then _ w key) by done;
    destruct (vault_doc key w) as [vault|e]; try done; mrun;
    rewrite (run_write _ w key) by done; by mrun.
Qed.

(** ** SET_AUTOLOCK *)

Lemma set_autolock_answers ms w :
  onMessage (SET_AUTOLOCK ms) w =
  match ms with
  | None => (Ret (RespError "Invalid autolock value; must be >= 1 minute"), w)
  | Some ms =>
      if ms <? 60 * 1000
      then (Ret (RespError "Invalid autolock value; must be >= 1 minute"), w)
      else match meta_of w with
           | None =>
               (Ret (RespError "Cannot set properties of null (setting 'autolockMs')"), w)
           | Some meta => (Ret RespOk, autolock_set ms meta w)
           end
  end.
Proof.
  unfold onMessage, handle. rewrite run_try_catch.
  destruct ms as [ms|]; [|done]. destruct (ms <? 60 * 1000); [done|].
  mrun. rewrite run_loadMeta. mrun. destruct (meta_of w) as [meta|]; [|done].
  mrun. rewrite run_saveMeta. mrun. unfold autolock_set. wsimpl.
  destruct (derivedKey w); [rewrite bool_decide_eq_true_2 by by eexists
                           |rewrite bool_decide_eq_false_2 by (by intros [??])];
    by mrun.
Qed.

(** ** UNLOCK *)

Lemma connected_id w :
  dbPromise (idb w) = Some (Ret tt) -> idb_wf (idb w) -> connected w = w.
Proof.
  intros Ep Hwf. unfold connected. rewrite opened_id by done. by destruct w.
Qed.

Lemma idb_initialised w : idb (initialised w) = opened (idb w).
Proof. unfold initialised. by destruct (meta_of w). Qed.

Lemma initialised_usable w : usable_db w -> usable_db (initialised w).
Proof.
  intros [Hh Hwf]. unfold usable_db. rewrite idb_initialised.
  split; [apply opened_healthy|by apply opened_wf].
Qed.

Lemma connected_initialised w : usable_db w -> connected (initialised w) = initialised w.
Proof.
  intros [Hh Hwf]. apply connected_id; rewrite idb_initialised; [done|].
  by apply opened_wf.
Qed.

Lemma meta_of_with_meta meta w : meta_of (with_meta meta w) = Some meta.
Proof. unfold meta_of, with_meta. wsimpl. by rewrite lookup_insert_eq. Qed.

Lemma meta_of_initialised w : meta_of (initialised w) = Some (current_meta w).
Proof.
  unfold initialised, current_meta. destruct (meta_of w) as [meta|] eqn:E; [done|].
  by rewrite meta_of_with_meta.
Qed.

Lemma vault_record_initialised w :
  usable_db w -> vault_record (initialised w) = vault_record w.
Proof.
  intros [Hh Hwf]. unfold vault_record. rewrite idb_initialised.
  by apply stored_opened.
Qed.

(** A key made from the metadata is an extractable AES-GCM key for both
    directions. *)
Lemma key_from_ret meta password key :
  key_from meta password = Ret key ->
  usable key /\ extractable key = true /\
  exists salt, base64ToBytes (saltB64 meta) = Ret salt /\
    key_bytes key = pbkdf2_sha256 (TextEncoder_encode password) salt (iterations meta).
Proof.
  unfold key_from. destruct (base64ToBytes (saltB64 meta)) as [salt|]; [|done]. orun.
  unfold deriveKeyPBKDF2, subtle_deriveKey. cbn [default].
  repeat case_match; try done. intros [= <-].
  split; [apply (derived_key_usable password salt (iterations meta))|].
  split; [done|]. by exists salt.
Qed.

(** [UNLOCK] on every branch: no key from the metadata; a vault that the key
    opens; one that it does not; no vault yet. *)
Lemma unlock_answers password w :
  usable_db w ->
  onMessage (UNLOCK password) w =
  let w1 := initialised w in
  match key_from (current_meta w) password with
  | Throw e => (Ret (RespError (error_text e)), w1)
  | Ret key =>
      match vault_record w with
      | Some enc =>
          if is_Ret (decryptJSON (T := VaultDoc) (Some enc) (Some key))
          then (Ret RespOk, unlocked_by key w1)
          else (Ret (RespError "Invalid master password"), w1)
      | None =>
          (Ret RespOk,
           unlocked_by key (with_vault (sealed empty_vault key (entropy w1)) (drawn 12 w1)))
      end
  end.
Proof.
  intros Hdb. pose proof (initialised_usable w Hdb) as Hdb1.
  unfold onMessage, handle. rewrite run_try_catch. mrun.
  rewrite run_ensureInit by done. mrun.
  rewrite run_deriveKeyFromMeta, meta_of_initialised. cbn [fst snd].
  destruct (key_from (current_meta w) password) as [key|e] eqn:Ek; [|done].
  destruct (key_from_ret _ _ _ Ek) as ((Ha & Hu & _) & _). mrun.
  rewrite run_idbGet, connected_initialised, vault_record_initialised by done. mrun.
  destruct (vault_record w) as [enc|].
  - rewrite run_check_or_create_some. mrun.
    destruct (is_Ret _); cbn [negb]; [|done]. by rewrite run_remember.
  - rewrite run_check_or_create_none by done. mrun. cbn [negb]. by rewrite run_remember.
Qed.

(** ** GENERATE_PASSWORD *)

Lemma generate_answers options w :
  let options' := default no_options options in
  exists pwd,
    onMessage (GENERATE_PASSWORD options) w =
    (Ret (RespPassword (string_of_list_ascii pwd)),
     drawn (4 * (2 * Z.to_nat (clamp_length options') - 1)) w) /\
    password_ok options' pwd.
Proof.
  intros options'.
  destruct (proj1 (wp_run _ _ _) (wp_generatePassword options' (entropy w)
              (fun pwd e' => e' = _ /\ password_ok options' pwd)
              (fun pwd Hok => conj eq_refl Hok))) as (pwd & e' & E & -> & Hok).
  exists pwd. split; [|done]. unfold onMessage, handle. fold options'.
  rewrite run_try_catch. mrun. rewrite run_zoom. wsimpl. by rewrite E.
Qed.

(** ** The other listeners *)

Lemma alarm_answers name w :
  onAlarm name w =
  (Ret tt, if String.eqb name "autolock" && bool_decide (is_Some (derivedKey w))
           then cleared w else w).
Proof.
  unfold onAlarm. mrun.
  destruct (_ && _); mrun; [by rewrite run_lockVault|done].
Qed.

Lemma installed_answers w : usable_db w -> onInstalled w = (Ret tt, installed w).
Proof.
  intros Hdb. unfold onInstalled, contextMenus_create. mrun.
  by rewrite run_ensureInit.
Qed.

(** [getCredsForOrigin], which the context menu calls, does not reset the
    timer. *)
Lemma getCredsForOrigin_answers origin w :
  usable_db w ->
  getCredsForOrigin origin w =
  match effective_key w with
  | None => (Throw "Locked", w)
  | Some key => (credsForOrigin origin <$> vault_doc key w, connected (resume w))
  end.
Proof.
  intros Hdb. unfold getCredsForOrigin.
  destruct (effective_key w) as [key|] eqn:Hk; [|by rewrite run_locked_then].
  mrun. rewrite run_restore_if_locked. mrun.
  rewrite run_require_key, resume_key, Hk. cbn [of_option]. mrun.
  rewrite run_getVaultJson by by apply resume_usable_db.
  unfold vault_doc, vault_record. rewrite resume_idb.
  destruct (stored _ _ _) as [enc|]; [|done].
  unfold effective_key at 1. rewrite resume_key, Hk. cbn [of_option]. orun.
  rewrite (resume_unlocked (connected (resume w)) key) by by rewrite <- Hk, <- resume_key.
  by destruct (decryptJSON (Some enc) (Some key)).
Qed.

(** ** What the answers mean *)

Lemma effective_key_cleared w : effective_key (cleared w) = None.
Proof.
  unfold effective_key, session_key, session_jwk. wsimpl.
  by rewrite lookup_delete_eq.
Qed.

(** C15: [LOCK] is answered [ok] in every state; after it there is no key,
    neither in memory nor in the session, and [STATUS] answers
    [unlocked: false]; the stored vault is untouched, and so is the alarm,
    which stays set. *)
Theorem lock_forgets_key w :
  (onMessage LOCK w).1 = Ret RespOk /\
  effective_key (onMessage LOCK w).2 = None /\
  vault_record (onMessage LOCK w).2 = vault_record w /\
  alarms (onMessage LOCK w).2 = alarms w /\
  (onMessage STATUS (onMessage LOCK w).2).1 = Ret (RespStatus false).
Proof.
  rewrite lock_answers, status_answers. cbn [fst snd].
  by rewrite effective_key_cleared, bool_decide_eq_false_2 by by intros [].
Qed.

(** A duration below one minute is refused, and nothing changes: not
    the duration in memory, not the metadata, not the alarm. *)
Theorem set_autolock_floor ms w :
  ms < 60000 ->
  onMessage (SET_AUTOLOCK (Some ms)) w =
  (Ret (RespError "Invalid autolock value; must be >= 1 minute"), w).
Proof.
  intros Hms. rewrite set_autolock_answers.
  by destruct (Z.ltb_spec ms (60 * 1000)); [|lia].
Qed.

(** A valid duration sent before the metadata exists is not saved: the
    handler fails on the missing metadata, and the answer is the text of
    that exception. *)
Theorem set_autolock_before_init ms w :
  60000 <= ms -> meta_of w = None ->
  onMessage (SET_AUTOLOCK (Some ms)) w =
  (Ret (RespError "Cannot set properties of null (setting 'autolockMs')"), w).
Proof.
  intros Hms Em. rewrite set_autolock_answers, Em.
  by destruct (Z.ltb_spec ms (60 * 1000)); [lia|].
Qed.

(** A duration of a minute or more is saved in the metadata and in
    memory, and when the key is in memory the alarm is set again from now. *)
Theorem set_autolock_saves ms meta w :
  60000 <= ms -> meta_of w = Some meta ->
  let w' := (onMessage (SET_AUTOLOCK (Some ms)) w).2 in
  (onMessage (SET_AUTOLOCK (Some ms)) w).1 = Ret RespOk /\
  autolockMs w' = ms /\ meta_of w' = Some (with_autolock ms meta) /\
  (is_Some (derivedKey w) ->
   alarms w' !! "autolock" = Some (clock w + autolock_minutes ms * 60000)).
Proof.
  intros Hms Em. rewrite set_autolock_answers, Em.
  destruct (Z.ltb_spec ms (60 * 1000)); [lia|]. cbn [fst snd]. unfold autolock_set.
  split_and!; [done|by case_bool_decide| |].
  - case_bool_decide; exact (meta_of_with_meta _ w).
  - intros Hk. rewrite bool_decide_eq_true_2 by done. wsimpl.
    by rewrite lookup_insert_eq.
Qed.

(** The first [UNLOCK] on a browser without metadata and without a
    vault accepts any password: it creates the metadata with a fresh salt
    and an empty vault sealed under the key of that password, keeps the key
    in memory and in the session, and sets the alarm. *)
Theorem first_unlock_creates_vault password w :
  usable_db w -> meta_of w = None -> vault_record w = None ->
  let w' := (onMessage (UNLOCK password) w).2 in
  let key := derived_key password (random_byte <$> seq (entropy w) 16) 310000 in
  (onMessage (UNLOCK password) w).1 = Ret RespOk /\
  derivedKey w' = Some key /\ session_jwk w' = Some (jwk_of key) /\
  vault_doc key w' = Ret empty_vault /\ is_Some (alarms w' !! "autolock").
Proof.
  intros Hdb Em Ev. rewrite unlock_answers by done. unfold current_meta.
  rewrite Em, Ev. cbn [default]. rewrite key_from_new_meta. cbn [fst snd].
  unfold unlocked_by, session_jwk, vault_doc. cbn [extractable derived_key].
  split_and!; [done..| | |].
  - wsimpl. by rewrite lookup_insert_eq.
  - change (vault_record _) with
      (vault_record (with_vault (sealed empty_vault
         (derived_key password (random_byte <$> seq (entropy w) 16) 310000)
         (entropy (initialised w))) (drawn 12 (initialised w)))).
    rewrite vault_record_with_vault. apply decrypt_sealed, derived_key_usable.
  - wsimpl. rewrite lookup_insert_eq. by eexists.
Qed.

(** C17: the response to a request has the shape the pages read.  In
    every state of the worker, reached or not, [STATUS] is answered with
    [unlocked], [LOCK] with [ok], [GENERATE_PASSWORD] with a password, the
    requests that list with [creds] or an error, the requests that change
    something with [ok] or an error, and an unknown request with an
    error. *)
Theorem response_fits_request msg w : fits msg (response msg w) = true.
Proof.
  unfold response.
  assert (fits msg (RespError "") = true ->
          fits msg match (onMessage msg w).1 with
                   | Ret resp => resp
                   | Throw message => RespError message
                   end = true) as Hgen.
  { intros Hm. unfold onMessage. rewrite run_try_catch.
    destruct (handle msg w) as [[r|e] w'] eqn:E; cbn; [|by destruct msg].
    by apply (handle_fits msg Hm w r w'). }
  destruct msg; try (by apply Hgen).
  - by rewrite status_answers.
  - by rewrite lock_answers.
  - by destruct (generate_answers options w) as (pwd & -> & _).
Qed.

End handlers.

(** ** The menu *)

#[export] Instance same_menu_preorder : PreOrder same_menu.
Proof. split; [done|]. unfold same_menu. intros w1 w2 w3. congruence. Qed.

Section menu.
Context `{WebCrypto} `{JSON VaultDoc}.

#[local] Hint Extern 1 (same_menu _ _) => by unfold same_menu; wsimpl : js.
#[local] Hint Unfold loadMeta saveMeta resetAutolockTimer lockVault ensureInit
  deriveKeyFromMeta tryRestoreKeyFromSession restore_if_locked require_key getVaultJson
  setVaultJson check_or_create : js.

Lemma handle_keeps_menu msg : respects same_menu (handle msg).
Proof.
  destruct msg; unfold handle; autounfold with js; by_cases.
Qed.

Lemma onMessage_keeps_menu msg : respects same_menu (onMessage msg).
Proof. pose proof (handle_keeps_menu msg). unfold onMessage. by_cases. Qed.

Lemma onAlarm_keeps_menu name : respects same_menu (onAlarm name).
Proof. unfold onAlarm, lockVault. by_cases. Qed.

Lemma getCredsForOrigin_keeps_menu origin : respects same_menu (getCredsForOrigin origin).
Proof. unfold getCredsForOrigin. autounfold with js. by_cases. Qed.

(** [onInstalled] leaves the three items in the menu, whatever becomes of
    [ensureInit]. *)
Lemma menus_onInstalled w : menus (onInstalled w).2 = installed_menu.
Proof.
  unfold onInstalled, contextMenus_create. rewrite run_bind, run_attempt.
  cbn [fst snd]. by mrun.
Qed.

End menu.
