(* ===== verification/Session.v ===== *)
(** * Session: the worker as a transition system

    The service worker reacts to events, one at a time: a message, the
    auto-lock alarm, the installation, and what the browser does to it.  A
    [Label] is an event with what can be observed of the reaction: the
    response to a message.

    - [Msg msg r]: [onMessage] handles [msg] and answers [r].
    - [Alarm]: the alarm [autolock] is due; the browser removes it and
      calls [onAlarm].
    - [Installed]: the browser calls [onInstalled], which initialises the
      metadata and fills the context menu.
    - [Restart]: the browser stops the idle worker; the next event starts a
      new one, whose global variables have their initial values.
    - [Quit]: the browser is closed and opened again; the session storage
      is lost as well.
    - [Tick ms]: [ms] milliseconds pass.
    - [Lookup origin r]: the listener of the context menu calls
      [getCredsForOrigin(origin)], which returns or throws [r].
    - [Themed theme]: the options page stores the theme in
      [chrome.storage.local], beside the metadata of the worker.

    Every handler runs to completion before the next event: the interleaving
    of two handlers at their [await]s is not part of this model.  The
    database opens in every state of a session ([open_fails] stays unset);
    failures of the database are the subject of [Storage].

    [menu_ready] is the invariant of the menu: it is empty, or it holds the
    items of [onInstalled]. *)

From Stdlib Require Import ZArith Lia Ascii String.
From stdpp Require Import base tactics option list strings gmap.
From S2P Require Import Prelude Base64 Crypto Storage Vault Generator Background Handlers.

#[local] Open Scope Z_scope.

Inductive Label :=
| Msg (msg : Request) (r : Response)
| Alarm
| Installed
| Restart
| Quit
| Tick (ms : Z)
| Lookup (origin : string) (r : outcome (list Credential))
| Themed (theme : string).

(** The state the browser hands to [onAlarm]: a one-shot alarm is removed
    when it fires. *)
Definition fired (w : World) : World :=
  set_alarms (delete "autolock" (alarms w)) w.

(** The alarm [autolock] is due. *)
Definition due (w : World) : Prop :=
  exists t, alarms w !! "autolock" = Some t /\ t <= clock w.

#[export] Instance due_dec w : Decision (due w).
Proof.
  unfold due. destruct (alarms w !! "autolock") as [t|].
  - destruct (decide (t <= clock w)); [left; by exists t|right].
    by intros (t' & [= <-] & ?).
  - right. by intros (t & [=] & _).
Defined.

(** A browser that has never run the extension: nothing is stored but,
    possibly, the theme of the options page, and the menu has no item. *)
Definition initial (w : World) : Prop :=
  derivedKey w = None /\ unlockedAt w = 0 /\ autolockMs w = 5 * 60 * 1000 /\
  idb w = {| dbPromise := None; database := None; open_fails := false |} /\
  storage_local w !! META_KEY = None /\ storage_session w = ∅ /\ alarms w = ∅ /\
  menus w = [].

(** The menu of the extension in the browser: empty before the browser
    has called [onInstalled], the three items of [onInstalled] after. *)
Definition menu_ready (w : World) : Prop := menus w = [] \/ menus w = installed_menu.

Section session.
Context `{WebCrypto} `{JSON VaultDoc}.

Inductive step : World -> Label -> World -> Prop :=
| step_message msg w r w' :
    onMessage msg w = (Ret r, w') -> step w (Msg msg r) w'
| step_alarm w :
    due w -> step w Alarm (onAlarm "autolock" (fired w)).2
| step_installed w :
    step w Installed (onInstalled w).2
| step_restart w :
    step w Restart (fresh_globals w)
| step_quit w :
    step w Quit (set_storage_session ∅ (fresh_globals w))
| step_tick w ms :
    0 <= ms -> step w (Tick ms) (set_clock (clock w + ms) w)
| step_lookup origin w r w' :
    getCredsForOrigin origin w = (r, w') -> step w (Lookup origin r) w'
| step_themed w theme :
    step w (Themed theme) (with_theme theme w).

(** A run: the labels of a sequence of steps. *)
Inductive steps : World -> list Label -> World -> Prop :=
| steps_nil w : steps w [] w
| steps_cons w l w1 ls w2 : step w l w1 -> steps w1 ls w2 -> steps w (l :: ls) w2.

Definition reachable (w : World) : Prop :=
  exists w0 ls, initial w0 /\ steps w0 ls w.

(** A page beside the worker: between two states of the pair, the worker
    has made a run. *)
Definition ran {P} : relation (World * P) := fun s s' => exists ls, steps s.1 ls s'.1.

(** The reaction to a label as a function: [None] when the label is not
    enabled in the state. *)
Definition react (l : Label) (w : World) : option World :=
  match l with
  | Msg msg r =>
      if decide ((onMessage msg w).1 = Ret r) then Some (onMessage msg w).2 else None
  | Alarm => if decide (due w) then Some (onAlarm "autolock" (fired w)).2 else None
  | Installed => Some (onInstalled w).2
  | Restart => Some (fresh_globals w)
  | Quit => Some (set_storage_session ∅ (fresh_globals w))
  | Tick ms => if decide (0 <= ms) then Some (set_clock (clock w + ms) w) else None
  | Lookup origin r =>
      if decide ((getCredsForOrigin origin w).1 = r)
      then Some (getCredsForOrigin origin w).2 else None
  | Themed theme => Some (with_theme theme w)
  end.

Definition replay (ls : list Label) (w : World) : option World :=
  foldl (fun o l => o ≫= react l) (Some w) ls.

End session.

(** * Theorems *)

Section session_facts.
Context `{WebCrypto} `{JSON VaultDoc}.

(** [react] is the step relation as a function. *)
Lemma react_step l w w' : react l w = Some w' <-> step w l w'.
Proof.
  split.
  - destruct l; cbn; repeat case_decide; intros [= <-]; try by constructor.
    + constructor. by destruct (onMessage msg w) as [o w']; cbn in *; subst.
    + constructor. by destruct (getCredsForOrigin origin w) as [o w']; cbn in *; subst.
  - intros [msg w0 r w1 E|w0 Hd|w0|w0|w0|w0 ms Hms|origin w0 r w1 E|w0 theme]; cbn;
      rewrite ?E; by rewrite ?decide_True.
Qed.

Lemma replay_cons l ls w : replay (l :: ls) w = react l w ≫= replay ls.
Proof.
  unfold replay. cbn. destruct (react l w) as [w1|]; [done|]. cbn.
  by induction ls.
Qed.

Lemma replay_steps ls w w' : replay ls w = Some w' <-> steps w ls w'.
Proof.
  revert w. induction ls as [|l ls IH]; intros w.
  - split; [intros [= <-]; constructor|by inversion 1].
  - rewrite replay_cons. split.
    + destruct (react l w) as [w1|] eqn:E; [|done]. cbn. intros Hr.
      econstructor; [by apply react_step|by apply IH].
    + inversion 1 as [|? ? w1 ? ? Hs Hss]; subst.
      apply react_step in Hs. rewrite Hs. cbn. by apply IH.
Qed.

Lemma steps_app w ls1 w1 ls2 w2 :
  steps w ls1 w1 -> steps w1 ls2 w2 -> steps w (ls1 ++ ls2) w2.
Proof. induction 1; [done|]. intros. econstructor; eauto. Qed.

#[export] Instance ran_preorder {P} : PreOrder (ran (P := P)).
Proof.
  split; [intros s; exists []; constructor|].
  intros s1 s2 s3 [ls1 H1] [ls2 H2]. exists (ls1 ++ ls2). by eapply steps_app.
Qed.

Lemma reachable_steps w ls w' : reachable w -> steps w ls w' -> reachable w'.
Proof.
  intros (w0 & ls0 & Hi & Hs) Hss. exists w0, (ls0 ++ ls). split; [done|].
  by eapply steps_app.
Qed.

Lemma reachable_ran {P} (s s' : World * P) : reachable s.1 -> ran s s' -> reachable s'.1.
Proof. intros Hr [ls Hs]. by eapply reachable_steps. Qed.

(** A message of a page is a step of the worker. *)
Lemma ran_message {P} msg (s : World * P) : ran s (zoom (onMessage msg) s).2.
Proof.
  exists [Msg msg (response msg s.1)]. econstructor; [|constructor]. constructor.
  rewrite run_zoom. cbn. apply onMessage_response.
Qed.

Lemma reachable_step w l w' : reachable w -> step w l w' -> reachable w'.
Proof.
  intros (w0 & ls & Hi & Hs) Hstep. exists w0, (ls ++ [l]). split; [done|].
  eapply steps_app; [done|]. econstructor; [done|constructor].
Qed.

(** The worker that has answered a message is in a reachable state. *)
Lemma reachable_served msg w : reachable w -> reachable (served msg w).
Proof.
  intros Hr. apply (reachable_step w (Msg msg (response msg w))); [done|].
  constructor. apply onMessage_response.
Qed.

Lemma reachable_replay w0 ls w : initial w0 -> replay ls w0 = Some w -> reachable w.
Proof. intros Hi Hr. exists w0, ls. split; [done|]. by apply replay_steps. Qed.

(** Rule induction on the reachable states. *)
Lemma reachable_ind' (P : World -> Prop) :
  (forall w, initial w -> P w) ->
  (forall w l w', reachable w -> P w -> step w l w' -> P w') ->
  forall w, reachable w -> P w.
Proof.
  intros Hi Hs w (w0 & ls & Hw0 & Hr).
  assert (reachable w0) as Hr0 by (exists w0, []; split; [done|constructor]).
  pose proof (Hi w0 Hw0) as HP. clear Hw0.
  induction Hr as [|w l w1 ls w2 Hstep Hss IH]; [done|].
  apply IH; [by eapply reachable_step|by eapply Hs].
Qed.

(** ** The alarm *)

(** The alarm in a worker that holds the key. *)
Lemma alarm_clears w :
  is_Some (derivedKey w) -> (onAlarm "autolock" (fired w)).2 = cleared (fired w).
Proof.
  intros Hk. rewrite alarm_answers, String.eqb_refl.
  by rewrite (bool_decide_eq_true_2 (is_Some (derivedKey (fired w)))).
Qed.

(** ** The menu *)

Lemma step_menu w l w' : step w l w' -> menus w' = menus w \/ menus w' = installed_menu.
Proof.
  destruct 1 as [msg w r w' E|w Hd|w|w|w|w ms Hms|origin w r w' E|w theme]; auto.
  - left. pose proof (onMessage_keeps_menu msg w) as Hm. by rewrite E in Hm.
  - left. apply (onAlarm_keeps_menu "autolock" (fired w)).
  - right. apply menus_onInstalled.
  - left. pose proof (getCredsForOrigin_keeps_menu origin w) as Hm. by rewrite E in Hm.
Qed.

Lemma steps_menu w ls w' : steps w ls w' -> menu_ready w -> menu_ready w'.
Proof.
  induction 1 as [|w l w1 ls w2 Hs _ IH]; [done|]. intros Hw. apply IH.
  unfold menu_ready. destruct (step_menu _ _ _ Hs) as [->| ->]; [done|by right].
Qed.

Lemma reachable_menu w : reachable w -> menu_ready w.
Proof.
  intros (w0 & ls & Hi & Hs). apply (steps_menu w0 ls w Hs). left. apply Hi.
Qed.

(** C14: when the alarm fires in a worker that has the key in memory, the
    vault is locked: no key is left in memory or in the session, and the
    stored vault is untouched. *)
Theorem alarm_locks_running_worker w w' key :
  derivedKey w = Some key -> step w Alarm w' ->
  effective_key w' = None /\ vault_record w' = vault_record w.
Proof.
  intros Ek Hs. inversion Hs as [|w0 Hd| | | | | |]; subst.
  rewrite alarm_clears by by eexists. split; [apply effective_key_cleared|done].
Qed.

(** C8: when the alarm fires in a worker that was restarted since the
    vault was unlocked, nothing is locked: the key of the session is still
    there, and the next [STATUS] finds the vault unlocked. *)
Theorem alarm_missed_after_restart w w' key :
  session_key w = Some key -> step (fresh_globals w) Alarm w' ->
  effective_key w' = Some key /\ (onMessage STATUS w').1 = Ret (RespStatus true).
Proof.
  intros Ek Hs. inversion Hs as [|w0 Hd| | | | | |]; subst.
  rewrite alarm_answers, String.eqb_refl.
  rewrite (bool_decide_eq_false_2 (is_Some (derivedKey (fired (fresh_globals w)))))
    by by intros [].
  cbn [andb snd]. rewrite status_answers. cbn [fst].
  change (effective_key (fired (fresh_globals w))) with (session_key w).
  rewrite Ek. split; [done|]. by rewrite bool_decide_eq_true_2 by by eexists.
Qed.

(** C36: a worker that was restarted resumes with the default duration:
    the alarm that [STATUS] sets when it restores the key of the session is
    due five minutes from now, whatever duration the metadata holds. *)
Theorem resume_uses_default_duration w key :
  session_key w = Some key ->
  alarms (onMessage STATUS (fresh_globals w)).2 !! "autolock" =
  Some (clock w + 5 * 60000).
Proof.
  intros Ek. rewrite status_answers. cbn [snd]. unfold resume.
  change (session_key (fresh_globals w)) with (session_key w). rewrite Ek.
  cbn [derivedKey fresh_globals set_derivedKey]. wsimpl.
  by rewrite lookup_insert_eq.
Qed.

End session_facts.
