(* ===== verification/Machine.v ===== *)
(** * Machine: what the vault promises

    An abstract vault has no cipher, no database and no timer.  It has a
    salt once it is initialised, a master key once the first password has
    been given, a document, and two bits: [a_unlocked], the vault can be
    used, and [a_live], the worker that unlocked or last used it is still
    running.  [astep] says how it reacts to every [Label] and what it
    answers; [Refinement] shows that the worker of [background.js] is such a
    vault.

    The bit [a_live] is there because of the alarm: the listener of
    [chrome.alarms.onAlarm] locks the vault only when the key is in the
    memory of the worker that receives the alarm. *)

From Stdlib Require Import ZArith Lia Ascii String.
From stdpp Require Import base tactics option list strings gmap.
From S2P Require Import Prelude Base64 Crypto Storage Vault Generator Background Handlers Session.

#[local] Open Scope Z_scope.

Record Abs := {
  a_salt : option (list Z);
  a_master : option (list Z);
  a_doc : VaultDoc;
  a_unlocked : bool;
  a_live : bool;
  a_autolock : Z;
}.

Definition set_a_salt (x : option (list Z)) (a : Abs) : Abs :=
  {| a_salt := x; a_master := a_master a; a_doc := a_doc a;
     a_unlocked := a_unlocked a; a_live := a_live a; a_autolock := a_autolock a |}.

Definition set_a_doc (x : VaultDoc) (a : Abs) : Abs :=
  {| a_salt := a_salt a; a_master := a_master a; a_doc := x;
     a_unlocked := a_unlocked a; a_live := a_live a; a_autolock := a_autolock a |}.

Definition set_a_live (x : bool) (a : Abs) : Abs :=
  {| a_salt := a_salt a; a_master := a_master a; a_doc := a_doc a;
     a_unlocked := a_unlocked a; a_live := x; a_autolock := a_autolock a |}.

Definition set_a_autolock (x : Z) (a : Abs) : Abs :=
  {| a_salt := a_salt a; a_master := a_master a; a_doc := a_doc a;
     a_unlocked := a_unlocked a; a_live := a_live a; a_autolock := x |}.

(** The vault opened, and closed. *)
Definition a_open (a : Abs) : Abs :=
  {| a_salt := a_salt a; a_master := a_master a; a_doc := a_doc a;
     a_unlocked := true; a_live := true; a_autolock := a_autolock a |}.

Definition a_close (a : Abs) : Abs :=
  {| a_salt := a_salt a; a_master := a_master a; a_doc := a_doc a;
     a_unlocked := false; a_live := false; a_autolock := a_autolock a |}.

(** The vault before the extension has run. *)
Definition a_init : Abs :=
  {| a_salt := None; a_master := None; a_doc := empty_vault;
     a_unlocked := false; a_live := false; a_autolock := 5 * 60 * 1000 |}.

(** The salt is chosen once. *)
Definition salted (salt : list Z) (a : Abs) : Prop :=
  a_salt a = None \/ a_salt a = Some salt.

(** The states that make sense. *)
Record a_wf (a : Abs) : Prop := {
  a_wf_live : a_live a = true -> a_unlocked a = true;
  a_wf_unlocked : a_unlocked a = true -> is_Some (a_master a);
  a_wf_master : is_Some (a_master a) -> is_Some (a_salt a);
  a_wf_doc : a_master a = None -> a_doc a = empty_vault;
  a_wf_autolock : 60000 <= a_autolock a;
}.

Section machine.
Context `{WebCrypto}.

(** The key of a password. *)
Definition kdf_bytes (password : string) (salt : list Z) : list Z :=
  pbkdf2_sha256 (TextEncoder_encode password) salt 310000.

Inductive astep : Abs -> Label -> Abs -> Prop :=
| a_status a :
    astep a (Msg STATUS (RespStatus (a_unlocked a))) (set_a_live (a_unlocked a) a)
| a_unlock_first a password salt :
    a_master a = None -> salted salt a ->
    astep a (Msg (UNLOCK password) RespOk)
      {| a_salt := Some salt; a_master := Some (kdf_bytes password salt);
         a_doc := empty_vault; a_unlocked := true; a_live := true;
         a_autolock := a_autolock a |}
| a_unlock_right a password salt :
    a_salt a = Some salt -> a_master a = Some (kdf_bytes password salt) ->
    astep a (Msg (UNLOCK password) RespOk) (a_open a)
| a_unlock_wrong a password salt kb :
    a_salt a = Some salt -> a_master a = Some kb -> kb <> kdf_bytes password salt ->
    astep a (Msg (UNLOCK password) (RespError "Invalid master password")) a
| a_lock a :
    astep a (Msg LOCK RespOk) (a_close a)
| a_locked a msg :
    needs_key msg = true -> a_unlocked a = false ->
    astep a (Msg msg (RespError "Locked")) a
| a_credentials a msg :
    needs_key msg = true -> a_unlocked a = true ->
    astep a (Msg msg (answer msg (a_doc a)))
      (set_a_live true (set_a_doc (default (a_doc a) (edit msg (a_doc a))) a))
| a_generate a options pwd :
    password_ok (default no_options options) pwd ->
    astep a (Msg (GENERATE_PASSWORD options) (RespPassword (string_of_list_ascii pwd))) a
| a_autolock_invalid a ms :
    (forall n, ms = Some n -> n < 60000) ->
    astep a (Msg (SET_AUTOLOCK ms)
               (RespError "Invalid autolock value; must be >= 1 minute")) a
| a_autolock_early a ms :
    60000 <= ms -> a_salt a = None ->
    astep a (Msg (SET_AUTOLOCK (Some ms))
               (RespError "Cannot set properties of null (setting 'autolockMs')")) a
| a_autolock_set a ms :
    60000 <= ms -> is_Some (a_salt a) ->
    astep a (Msg (SET_AUTOLOCK (Some ms)) RespOk) (set_a_autolock ms a)
| a_other a type :
    astep a (Msg (OTHER type) (RespError "Unknown message")) a
| a_alarm a :
    astep a Alarm (if a_live a then a_close a else a)
| a_installed a salt :
    salted salt a -> astep a Installed (set_a_salt (Some salt) a)
| a_restart a :
    astep a Restart (set_a_live false a)
| a_quit a :
    astep a Quit (a_close a)
| a_tick a ms :
    astep a (Tick ms) a
| a_lookup_locked a origin :
    a_unlocked a = false -> astep a (Lookup origin (Throw "Locked")) a
| a_lookup a origin :
    a_unlocked a = true ->
    astep a (Lookup origin (Ret (credsForOrigin origin (a_doc a)))) (set_a_live true a)
| a_themed a theme :
    astep a (Themed theme) a.

Inductive asteps : Abs -> list Label -> Abs -> Prop :=
| asteps_nil a : asteps a [] a
| asteps_cons a l a1 ls a2 : astep a l a1 -> asteps a1 ls a2 -> asteps a (l :: ls) a2.

End machine.

(** * Theorems *)

Section machine_facts.
Context `{WebCrypto}.

Lemma a_init_wf : a_wf a_init.
Proof. split; cbn; try done; try lia; by intros [??]. Qed.

(** Every step keeps the state well formed. *)
Lemma astep_wf a l a' : a_wf a -> astep a l a' -> a_wf a'.
Proof.
  intros [Hl Hu Hm Hd Ha]. destruct 1; try destruct (a_live a) eqn:El;
    split; cbn; intros; try done; try (by eexists); auto; try lia;
    try congruence.
  all: destruct Hu as [kb Ekb]; [done|congruence].
Qed.

(** The master key and the salt are chosen once: no step changes them. *)
Lemma astep_master a l a' kb :
  astep a l a' -> a_master a = Some kb -> a_master a' = Some kb.
Proof. destruct 1; try destruct (a_live a); cbn; congruence. Qed.

Lemma astep_salt a l a' salt :
  astep a l a' -> a_salt a = Some salt -> a_salt a' = Some salt.
Proof.
  destruct 1 as [| ? ? ? ? [|]| | | | | | | | | | | | ? ? [|]| | | | | |];
    try destruct (a_live a); cbn; congruence.
Qed.

Lemma asteps_salt a ls a' salt :
  asteps a ls a' -> a_salt a = Some salt -> a_salt a' = Some salt.
Proof. induction 1; [done|]. eauto using astep_salt. Qed.

(** The document changes only by an edit of an unlocked vault, or when the
    vault is created. *)
Lemma astep_doc a l a' :
  astep a l a' -> a_doc a' <> a_doc a ->
  (exists msg r, l = Msg msg r /\ a_unlocked a = true /\
     edit msg (a_doc a) = Some (a_doc a')) \/
  (a_master a = None /\ a_doc a' = empty_vault).
Proof.
  destruct 1; cbn; try done; try (by destruct (a_live a)).
  - intros _. by right.
  - intros Hne. left. eexists _, _. split_and!; [done..|].
    by destruct (edit msg (a_doc a)).
Qed.

(** A locked vault stays locked until a password is accepted. *)
Lemma astep_locked a l a' :
  astep a l a' -> a_unlocked a = false -> a_unlocked a' = true ->
  exists password, l = Msg (UNLOCK password) RespOk.
Proof.
  destruct 1; try destruct (a_live a); cbn; try congruence; by eexists.
Qed.

End machine_facts.
