(* ===== verification/Refinement.v ===== *)
(** * Refinement: the worker is a vault

    [R a w] relates a state [w] of the worker to a state [a] of the
    abstract vault of [Machine]: the salt and the duration are the ones of
    the metadata, the stored record is the document sealed under the master
    key, the key of the session and the key in memory are the master key.

    [refines]: from related states, every step of the worker is a step of
    the vault with the same label, to related states.  It needs the cipher
    to be ideal ([IdealAEAD]): a vault that opened under another key than
    the one that sealed it would accept a wrong password.

    What holds of the vault then holds of the worker in every state it can
    reach. *)

From Stdlib Require Import ZArith Lia Ascii String.
From stdpp Require Import base tactics option list strings gmap.
From S2P Require Import Prelude Base64 Crypto Storage Vault Generator Background Handlers Session Machine.

#[local] Open Scope Z_scope.

(** The key [deriveKeyPBKDF2] makes of the bytes [kb], and the key
    [tryRestoreKeyFromSession] imports. *)
Definition master_key (kb : list Z) : CryptoKey :=
  {| algorithm := "AES-GCM"; key_bytes := kb; extractable := true;
     usages := [UEncrypt; UDecrypt] |}.

Definition resumed_key (kb : list Z) : CryptoKey :=
  {| algorithm := "AES-GCM"; key_bytes := kb; extractable := false;
     usages := [UEncrypt; UDecrypt] |}.

Section relation.
Context `{WebCrypto} `{JSON VaultDoc}.

Definition meta_rel (a : Abs) (w : World) : Prop :=
  match meta_of w with
  | None => a_salt a = None /\ autolockMs w = 300000 /\ a_autolock a = 300000
  | Some meta =>
      iterations meta = 310000 /\ meta_autolockMs meta = a_autolock a /\
      exists salt, base64ToBytes (saltB64 meta) = Ret salt /\ a_salt a = Some salt
  end.

Definition vault_rel (a : Abs) (w : World) : Prop :=
  match vault_record w with
  | None => a_master a = None /\ a_doc a = empty_vault
  | Some enc =>
      exists kb e, a_master a = Some kb /\ enc = sealed (a_doc a) (master_key kb) e /\
        bytes kb /\ length kb = 32%nat
  end.

Definition memory_rel (a : Abs) (w : World) : Prop :=
  match derivedKey w with
  | None => a_live a = false
  | Some key =>
      a_live a = true /\ usable key /\ a_master a = Some (key_bytes key) /\
      is_Some (alarms w !! "autolock")
  end.

Definition session_rel (a : Abs) (w : World) : Prop :=
  match session_jwk w with
  | None => a_unlocked a = false
  | Some jwk =>
      a_unlocked a = true /\ exists kb, a_master a = Some kb /\ jwk = jwk_of (master_key kb)
  end.

Record R (a : Abs) (w : World) : Prop := {
  R_wf : a_wf a;
  R_db : usable_db w;
  R_open : open_fails (idb w) = false;
  R_autolock : 60000 <= autolockMs w;
  R_meta : meta_rel a w;
  R_vault : vault_rel a w;
  R_memory : memory_rel a w;
  R_session : session_rel a w;
}.

End relation.

(** * Theorems *)

(** [asimpl] computes the fields of an abstract state built by the setters. *)
Ltac asimpl :=
  cbn [a_salt a_master a_doc a_unlocked a_live a_autolock set_a_salt set_a_doc
       set_a_live set_a_autolock a_open a_close a_init] in *.

Lemma Abs_eta a :
  {| a_salt := a_salt a; a_master := a_master a; a_doc := a_doc a;
     a_unlocked := a_unlocked a; a_live := a_live a; a_autolock := a_autolock a |} = a.
Proof. by destruct a. Qed.

Section refinement.
Context `{WebCrypto} `{JSON VaultDoc}.
Implicit Types (a : Abs) (w : World) (key : CryptoKey) (kb : list Z).

(** ** The initial state *)

Lemma R_initial w : initial w -> R a_init w.
Proof.
  intros (Ek & _ & Ea & Ei & Em & Es & El). split.
  - apply a_init_wf.
  - unfold usable_db. rewrite Ei. split; [by right|]. by split.
  - by rewrite Ei.
  - rewrite Ea. lia.
  - unfold meta_rel, meta_of. by rewrite Em, Ea.
  - unfold vault_rel, vault_record. by rewrite Ei.
  - unfold memory_rel. by rewrite Ek.
  - unfold session_rel, session_jwk. by rewrite Es.
Qed.

(** ** What the relation gives *)

(** The key of the session of a related state imports, as the master key. *)
Lemma R_session_key a w :
  R a w ->
  match session_jwk w with
  | None => session_key w = None
  | Some _ => exists kb, a_master a = Some kb /\ session_key w = Some (resumed_key kb)
  end.
Proof.
  intros HR. pose proof (R_session a w HR) as Hs. pose proof (R_vault a w HR) as Hv.
  unfold session_rel in Hs. unfold session_key. unfold vault_rel in Hv.
  destruct (session_jwk w) as [jwk|]; [|done].
  destruct Hs as (_ & kb & Ekb & ->). exists kb. split; [done|].
  destruct (vault_record w) as [enc|]; [|destruct Hv; congruence].
  destruct Hv as (kb' & e & Ekb' & _ & _ & Hlen).
  assert (kb' = kb) as -> by congruence.
  cbn. unfold subtle_importKey_jwk, is_aes_length. cbn. rewrite Hlen. cbn.
  rewrite bool_decide_eq_true_2 by (by repeat constructor). done.
Qed.

(** The key an operation works with is the master key. *)
Lemma R_effective a w :
  R a w ->
  match effective_key w with
  | None => a_unlocked a = false
  | Some key => a_unlocked a = true /\ usable key /\ a_master a = Some (key_bytes key)
  end.
Proof.
  intros HR. pose proof (R_session_key a w HR) as Hk.
  pose proof (R_memory a w HR) as Hm. pose proof (R_session a w HR) as Hs.
  unfold effective_key, memory_rel, session_rel in *.
  destruct (derivedKey w) as [key|].
  - destruct Hm as (Hl & Hu & Hmk & _). split; [|done].
    by apply (a_wf_live a (R_wf a w HR)).
  - destruct (session_jwk w) as [jwk|]; [|by rewrite Hk].
    destruct Hk as (kb & Ekb & ->), Hs as (Hu & _). split; [done|]. split; [|done].
    split_and!; cbn; [done|set_solver..].
Qed.

(** The master key opens the stored record, and the document is the one of
    the abstract state. *)
Lemma R_vault_doc a w key :
  R a w -> usable key -> a_master a = Some (key_bytes key) ->
  vault_doc key w = Ret (a_doc a).
Proof.
  intros HR Hu Hk. pose proof (R_vault a w HR) as Hv.
  unfold vault_rel, vault_doc in *. destruct (vault_record w) as [enc|].
  - destruct Hv as (kb & e & Ekb & -> & _). assert (kb = key_bytes key) as -> by congruence.
    rewrite (sealed_same_bytes _ _ key) by done. by apply decrypt_sealed.
  - destruct Hv. congruence.
Qed.

(** ** States that differ in what the relation does not read *)

Lemma R_frame a w w' :
  R a w -> usable_db w' -> open_fails (idb w') = false ->
  autolockMs w' = autolockMs w -> meta_of w' = meta_of w ->
  vault_record w' = vault_record w -> derivedKey w' = derivedKey w ->
  session_jwk w' = session_jwk w ->
  (is_Some (derivedKey w) -> is_Some (alarms w !! "autolock") ->
   is_Some (alarms w' !! "autolock")) ->
  R a w'.
Proof.
  intros [] Hdb Ho Ea Em Ev Ek Es Hal. split; try done.
  - by rewrite Ea.
  - unfold meta_rel. by rewrite Em, Ea.
  - unfold vault_rel. by rewrite Ev.
  - unfold memory_rel in *. rewrite Ek. destruct (derivedKey w); [|done].
    destruct R_memory0 as (? & ? & ? & ?). split_and!; [done..|].
    by apply Hal.
  - unfold session_rel. by rewrite Es.
Qed.

(** The same, with the key forgotten. *)
Lemma R_close a w w' :
  R a w -> usable_db w' -> open_fails (idb w') = false ->
  autolockMs w' = autolockMs w \/ autolockMs w' = 300000 ->
  meta_of w' = meta_of w -> vault_record w' = vault_record w ->
  derivedKey w' = None -> session_jwk w' = None ->
  R (a_close a) w'.
Proof.
  intros [[]] Hdb Ho Ea Em Ev Ek Es. split; try done.
  - destruct Ea as [->| ->]; [done|lia].
  - unfold meta_rel in *. rewrite Em. destruct (meta_of w); [done|].
    destruct Ea as [->| ->]; [done|]. by destruct R_meta0 as (? & _ & ?).
  - unfold vault_rel. by rewrite Ev.
  - unfold memory_rel. by rewrite Ek.
  - unfold session_rel. by rewrite Es.
Qed.

Lemma R_connected a w : R a w -> R a (connected w).
Proof.
  intros HR. pose proof (R_db a w HR) as Hdb.
  apply (R_frame a w); try done;
    [by apply connected_usable|apply (R_open a w HR)|by apply vault_record_connected].
Qed.

Lemma R_drawn a w n : R a w -> R a (drawn n w).
Proof. intros HR. apply (R_frame a w); try done; by destruct HR. Qed.

Lemma R_tick a w ms : R a w -> R a (set_clock (clock w + ms) w).
Proof. intros HR. apply (R_frame a w); try done; by destruct HR. Qed.

Lemma R_menus a w items : R a w -> R a (set_menus items w).
Proof. intros HR. apply (R_frame a w); try done; by destruct HR. Qed.

Lemma R_themed a w theme : R a w -> R a (with_theme theme w).
Proof.
  intros HR. apply (R_frame a w); try done; try by destruct HR.
  unfold meta_of, with_theme. wsimpl. by rewrite lookup_insert_ne.
Qed.

Lemma R_armed a w : R a w -> R a (armed w).
Proof.
  intros HR. apply (R_frame a w); try done; try by destruct HR.
  intros _ _. wsimpl. rewrite lookup_insert_eq. by eexists.
Qed.

(** ** Resuming, and locking *)

Lemma set_a_live_id a : set_a_live (a_live a) a = a.
Proof. by destruct a. Qed.

Lemma R_live a w : R a w -> a_live a = bool_decide (is_Some (derivedKey w)).
Proof.
  intros HR. pose proof (R_memory a w HR) as Hm. unfold memory_rel in Hm.
  destruct (derivedKey w).
  - destruct Hm as [-> _]. by rewrite bool_decide_eq_true_2 by by eexists.
  - rewrite Hm. by rewrite bool_decide_eq_false_2 by by intros [].
Qed.

Lemma R_unlocked a w : R a w -> a_unlocked a = bool_decide (is_Some (effective_key w)).
Proof.
  intros HR. pose proof (R_effective a w HR) as He. destruct (effective_key w).
  - destruct He as [-> _]. by rewrite bool_decide_eq_true_2 by by eexists.
  - rewrite He. by rewrite bool_decide_eq_false_2 by by intros [].
Qed.

(** The state with a key in memory that is the master key. *)
Lemma R_remembered a w key :
  R a w -> a_unlocked a = true -> usable key -> a_master a = Some (key_bytes key) ->
  R (set_a_live true a) (armed (set_derivedKey (Some key) w)).
Proof.
  intros [[]] Hu Hk Hm. split; try done.
  unfold memory_rel. wsimpl. asimpl. split_and!; try done.
  rewrite lookup_insert_eq. by eexists.
Qed.

Lemma R_resume a w : R a w -> R (set_a_live (a_unlocked a) a) (resume w).
Proof.
  intros HR. pose proof (R_effective a w HR) as He.
  pose proof (R_live a w HR) as Hl. unfold resume, effective_key in *.
  destruct (derivedKey w) as [key|] eqn:Ek.
  - destruct He as (-> & _). rewrite bool_decide_eq_true_2 in Hl by by eexists.
    by rewrite <- Hl, set_a_live_id.
  - rewrite bool_decide_eq_false_2 in Hl by by intros [].
    destruct (session_key w) as [key|].
    + destruct He as (Hu & Hk & Hm). rewrite Hu. by apply R_remembered.
    + by rewrite He, <- Hl, set_a_live_id.
Qed.

Lemma R_touched a w :
  R a w -> a_unlocked a = true -> R (set_a_live true a) (touched w).
Proof.
  intros HR Hu. apply R_connected, R_armed. rewrite <- Hu. by apply R_resume.
Qed.

Lemma R_cleared a w : R a w -> R (a_close a) (cleared w).
Proof.
  intros HR. apply (R_close a w); try done; try (by destruct HR); [by left|].
  unfold session_jwk. wsimpl. by rewrite lookup_delete_eq.
Qed.

(** ** The alarm, and the browser *)

Lemma R_alarm a w :
  R a w -> R (if a_live a then a_close a else a) (onAlarm "autolock" (fired w)).2.
Proof.
  intros HR. rewrite alarm_answers, (R_live a w HR), String.eqb_refl. cbn [snd andb].
  change (derivedKey (fired w)) with (derivedKey w).
  destruct (derivedKey w) as [key|] eqn:Ek.
  - rewrite bool_decide_eq_true_2 by by eexists.
    apply (R_close a w); try done; try (by destruct HR); [by left|].
    unfold session_jwk, fired. wsimpl. by rewrite lookup_delete_eq.
  - rewrite bool_decide_eq_false_2 by by intros [].
    apply (R_frame a w); try done; try (by destruct HR).
    rewrite Ek. by intros [].
Qed.

Lemma fresh_globals_usable w :
  usable_db w -> open_fails (idb w) = false -> usable_db (fresh_globals w).
Proof.
  intros [_ [Hv _]] Ho. split; [by right|]. split; [done|]. by intros [=].
Qed.

Lemma R_restart a w : R a w -> R (set_a_live false a) (fresh_globals w).
Proof.
  intros HR. pose proof (fresh_globals_usable w (R_db a w HR) (R_open a w HR)).
  destruct HR as [[]]. split; try done.
  unfold meta_rel in *. change (meta_of (fresh_globals w)) with (meta_of w).
  destruct (meta_of w); [done|]. by destruct R_meta0 as (? & _ & ?).
Qed.

Lemma R_quit a w : R a w -> R (a_close a) (set_storage_session ∅ (fresh_globals w)).
Proof.
  intros HR. pose proof (fresh_globals_usable w (R_db a w HR) (R_open a w HR)).
  apply (R_close a w); try done; try (by destruct HR). by right.
Qed.

(** ** Storing a document *)

Lemma R_store a w key doc e :
  R a w -> a_master a = Some (key_bytes key) ->
  R (set_a_doc doc a) (with_vault (sealed doc key e) w).
Proof.
  intros HR Hm. pose proof (R_vault a w HR) as Hv. destruct HR as [[]].
  split; try done.
  - split; asimpl; try done. by rewrite Hm.
  - by apply with_vault_usable.
  - unfold vault_rel in *. rewrite vault_record_with_vault. asimpl.
    destruct (vault_record w) as [enc|]; [|destruct Hv; congruence].
    destruct Hv as (kb & e' & Ekb & _ & Hb & Hlen). exists kb, e.
    split_and!; try done. apply sealed_same_bytes. cbn. congruence.
Qed.

(** ** Initialisation *)

Lemma set_a_salt_id a salt : a_salt a = Some salt -> set_a_salt (Some salt) a = a.
Proof. destruct a. cbn. by intros ->. Qed.

(** [ensureInit] on a related state: the salt is the one of the metadata,
    old or new, and every password has a key. *)
Lemma R_initialised a w :
  R a w ->
  exists salt, salted salt a /\ R (set_a_salt (Some salt) a) (initialised w) /\
    forall password,
      key_from (current_meta w) password = Ret (master_key (kdf_bytes password salt)).
Proof.
  intros HR. pose proof (R_meta a w HR) as Hm. pose proof (R_wf a w HR) as Hwf.
  unfold meta_rel, initialised, current_meta in *.
  destruct (meta_of w) as [meta|] eqn:Em.
  - destruct Hm as (Hi & Ha & salt & Es & Ea). exists salt.
    rewrite set_a_salt_id by done. split_and!; [by right| |].
    + rewrite num_or_nonzero by (pose proof (a_wf_autolock a Hwf); lia).
      pose proof (R_connected a w HR) as [].
      split; try done.
      * wsimpl. rewrite Ha. by apply a_wf_autolock.
      * unfold meta_rel. change (meta_of _) with (meta_of w). rewrite Em. eauto.
    + intros password. unfold key_from. change (default _ (Some meta)) with meta.
      rewrite Es, Hi. orun.
      by apply deriveKeyPBKDF2_returns.
  - destruct Hm as (Ea & Ems & Eal). exists (random_byte <$> seq (entropy w) 16).
    split_and!; [by left| |intros; apply key_from_new_meta].
    pose proof (R_drawn a _ 16 (R_connected a w HR)) as []. destruct Hwf.
    split; try done.
    unfold meta_rel. rewrite meta_of_with_meta. cbn [new_meta iterations
      meta_autolockMs saltB64]. asimpl. split_and!; [done|congruence|].
    eexists. split; [|done]. rewrite base64ToBytes_b64_text.
    by rewrite bytes_wrap8_id by apply random_bytes.
Qed.

(** ** Unlocking *)

Lemma master_key_usable kb : usable (master_key kb).
Proof. split_and!; cbn; [done|set_solver..]. Qed.

Lemma unlocked_by_master_key kb w :
  unlocked_by (master_key kb) w =
  set_storage_session
    (<["unlockedKeyJwk" := jwk_of (master_key kb)]> (storage_session w))
    (armed (set_derivedKey (Some (master_key kb)) w)).
Proof. reflexivity. Qed.

(** The state a successful [UNLOCK] leaves. *)
Lemma R_unlocked_by a w kb :
  R a w -> a_master a = Some kb -> R (a_open a) (unlocked_by (master_key kb) w).
Proof.
  intros [[]] Hm. rewrite unlocked_by_master_key. split; try done.
  - unfold memory_rel. wsimpl. asimpl.
    split_and!; [done|apply master_key_usable|done|].
    rewrite lookup_insert_eq. by eexists.
  - unfold session_rel, session_jwk. wsimpl. asimpl.
    rewrite lookup_insert_eq. eauto.
Qed.

(** The vault created by the first [UNLOCK]. *)
Lemma R_created a w password salt e :
  R a w -> a_master a = None -> a_salt a = Some salt ->
  let kb := kdf_bytes password salt in
  R {| a_salt := Some salt; a_master := Some kb; a_doc := empty_vault;
       a_unlocked := a_unlocked a; a_live := a_live a; a_autolock := a_autolock a |}
    (with_vault (sealed empty_vault (master_key kb) e) w).
Proof.
  intros HR Hm Hs kb. destruct HR as [[]].
  assert (a_unlocked a = false) as Hu.
  { destruct (a_unlocked a); [|done]. destruct a_wf_unlocked; congruence. }
  split; try done.
  - by apply with_vault_usable.
  - unfold meta_rel in *. change (meta_of (with_vault _ w)) with (meta_of w).
    destruct (meta_of w); asimpl; [by rewrite <- Hs|]. destruct R_meta0. congruence.
  - unfold vault_rel. rewrite vault_record_with_vault. asimpl. exists kb, e.
    split_and!; [done..|apply pbkdf2_bytes|apply pbkdf2_length].
  - unfold memory_rel in *. change (derivedKey (with_vault _ w)) with (derivedKey w).
    destruct (derivedKey w); [|done]. destruct R_memory0 as (_ & _ & ? & _). congruence.
  - unfold session_rel in *. change (session_jwk (with_vault _ w)) with (session_jwk w).
    destruct (session_jwk w); [|done]. destruct R_session0. congruence.
Qed.

(** ** The duration *)

Lemma R_autolock_set a w ms meta :
  R a w -> meta_of w = Some meta -> 60000 <= ms ->
  R (set_a_autolock ms a) (autolock_set ms meta w).
Proof.
  intros HR Em Hms.
  assert (R (set_a_autolock ms a) (set_autolockMs ms (with_meta (with_autolock ms meta) w)))
    as HR'.
  { pose proof (R_meta a w HR) as Hm. destruct HR as [[]]. split; try done.
    unfold meta_rel in *. rewrite (meta_of_with_meta _ w : meta_of (set_autolockMs _ _) = _).
    rewrite Em in Hm. asimpl. by destruct Hm as (? & _ & ?). }
  unfold autolock_set. case_bool_decide; [by apply R_armed|done].
Qed.

End refinement.

(** ** The simulation *)

Section simulation.
Context `{WebCrypto} `{JSON VaultDoc} `{!IdealAEAD}.
Implicit Types (a : Abs) (w : World) (msg : Request) (r : Response).

(** The vault opens under the key of a password exactly when that key is
    the master key. *)
Lemma opens_iff_master (doc : VaultDoc) kb kb' e :
  bytes kb -> bytes kb' -> length kb = length kb' ->
  is_Ret (decryptJSON (T := VaultDoc) (Some (sealed doc (master_key kb) e))
            (Some (master_key kb'))) = bool_decide (kb' = kb).
Proof.
  intros Hb Hb' Hlen. case_bool_decide as E.
  - subst. by rewrite decrypt_sealed by apply master_key_usable.
  - rewrite decrypt_wrong_key; try done. apply master_key_usable.
Qed.

Lemma refines_credentials a w msg r w' :
  R a w -> needs_key msg = true -> onMessage msg w = (Ret r, w') ->
  exists a', astep a (Msg msg r) a' /\ R a' w'.
Proof.
  intros HR Hm. pose proof (R_effective a w HR) as He.
  destruct (effective_key w) as [key|] eqn:Ek.
  - destruct He as (Hu & Hk & Hmk).
    rewrite (credentials_unlocked msg w key), (R_vault_doc a w key);
      try done; [|apply (R_db a w HR)|apply Hk..].
    intros [= <- <-]. eexists. split; [by apply a_credentials|].
    destruct (edit msg (a_doc a)) as [doc|]; cbn [default].
    + apply (R_store (set_a_live true a)); [by apply R_drawn, R_touched|done].
    + by apply (R_touched a).
  - rewrite credentials_locked by done. intros [= <- <-].
    exists a. split; [by apply a_locked|done].
Qed.

(** [UNLOCK] when the vault exists: the password is accepted exactly when
    its key is the master key. *)
Lemma unlock_existing a w password kb :
  R a w -> a_master a = Some kb ->
  exists salt, a_salt a = Some salt /\ R a (initialised w) /\
    onMessage (UNLOCK password) w =
    if bool_decide (kdf_bytes password salt = kb)
    then (Ret RespOk, unlocked_by (master_key kb) (initialised w))
    else (Ret (RespError "Invalid master password"), initialised w).
Proof.
  intros HR Hm. rewrite unlock_answers by apply (R_db a w HR).
  destruct (R_initialised a w HR) as (salt & Hsalt & HR1 & Hkey).
  assert (a_salt a = Some salt) as Hs.
  { destruct (a_wf_master a (R_wf a w HR)) as [s Es]; [done|].
    destruct Hsalt; congruence. }
  rewrite set_a_salt_id in HR1 by done. exists salt. split_and!; [done..|].
  rewrite Hkey. cbn zeta. pose proof (R_vault a w HR) as Hv. unfold vault_rel in Hv.
  destruct (vault_record w) as [enc|]; [|destruct Hv; congruence].
  destruct Hv as (kb' & e & Ekb & -> & Hb & Hlen). assert (kb' = kb) as -> by congruence.
  rewrite opens_iff_master
    by (done || apply pbkdf2_bytes || by rewrite Hlen; unfold kdf_bytes; rewrite pbkdf2_length).
  by case_bool_decide as E; [rewrite E|].
Qed.

Lemma refines_unlock a w password r w' :
  R a w -> onMessage (UNLOCK password) w = (Ret r, w') ->
  exists a', astep a (Msg (UNLOCK password) r) a' /\ R a' w'.
Proof.
  intros HR. destruct (a_master a) as [kb|] eqn:Hm.
  - destruct (unlock_existing a w password kb HR Hm) as (salt & Hs & HR1 & ->).
    case_bool_decide as E; intros [= <- <-].
    + exists (a_open a). split; [by apply (a_unlock_right a password salt); congruence|].
      by apply R_unlocked_by.
    + exists a. split; [by apply (a_unlock_wrong a password salt kb)|done].
  - rewrite unlock_answers by apply (R_db a w HR).
    destruct (R_initialised a w HR) as (salt & Hsalt & HR1 & Hkey).
    rewrite Hkey. cbn zeta. pose proof (R_vault a w HR) as Hv. unfold vault_rel in Hv.
    destruct (vault_record w) as [enc|]; [destruct Hv as (? & ? & ? & _); congruence|].
    intros [= <- <-]. eexists. split; [by apply (a_unlock_first a password salt)|].
    pose proof (R_created (set_a_salt (Some salt) a) _ password salt
                  (entropy (initialised w)) (R_drawn _ _ 12 HR1) Hm eq_refl) as HR2.
    by apply (R_unlocked_by _ _ (kdf_bytes password salt)) in HR2.
Qed.

Lemma refines_set_autolock a w ms r w' :
  R a w -> onMessage (SET_AUTOLOCK ms) w = (Ret r, w') ->
  exists a', astep a (Msg (SET_AUTOLOCK ms) r) a' /\ R a' w'.
Proof.
  intros HR. rewrite set_autolock_answers.
  destruct ms as [ms|]; [destruct (Z.ltb_spec ms (60 * 1000))|].
  - intros [= <- <-]. exists a. split; [|done].
    apply a_autolock_invalid. intros n [= <-]. lia.
  - pose proof (R_meta a w HR) as Hm. unfold meta_rel in Hm.
    destruct (meta_of w) as [meta|] eqn:Em; intros [= <- <-].
    + exists (set_a_autolock ms a). destruct Hm as (_ & _ & salt & _ & Es).
      split; [apply a_autolock_set; [lia|by eexists]|apply R_autolock_set; [done..|lia]].
    + exists a. destruct Hm as (Es & _). split; [apply a_autolock_early; [lia|done]|done].
  - intros [= <- <-]. exists a. split; [by apply a_autolock_invalid|done].
Qed.

Lemma refines_message a w msg r w' :
  R a w -> onMessage msg w = (Ret r, w') ->
  exists a', astep a (Msg msg r) a' /\ R a' w'.
Proof.
  intros HR. destruct msg; try (by apply refines_credentials).
  - rewrite status_answers, <- (R_unlocked a w HR). intros [= <- <-].
    eexists. split; [apply a_status|by apply R_resume].
  - by apply refines_unlock.
  - rewrite lock_answers. intros [= <- <-].
    eexists. split; [apply a_lock|by apply R_cleared].
  - destruct (generate_answers options w) as (pwd & -> & Hok). intros [= <- <-].
    exists a. split; [by apply a_generate|by apply R_drawn].
  - by apply refines_set_autolock.
  - rewrite other_answers. intros [= <- <-]. exists a. split; [apply a_other|done].
Qed.

(** The lookup of the context menu. *)
Lemma refines_lookup a w origin (r : outcome (list Credential)) w' :
  R a w -> getCredsForOrigin origin w = (r, w') ->
  exists a', astep a (Lookup origin r) a' /\ R a' w'.
Proof.
  intros HR. rewrite getCredsForOrigin_answers by apply (R_db a w HR).
  pose proof (R_effective a w HR) as He. destruct (effective_key w) as [key|].
  - destruct He as (Hu & Hk & Hm). rewrite (R_vault_doc a w key) by done.
    intros [= <- <-]. eexists. split; [by apply a_lookup|].
    apply R_connected. rewrite <- Hu. by apply R_resume.
  - intros [= <- <-]. exists a. split; [by apply a_lookup_locked|done].
Qed.

(** Every step of the worker from a state related to a vault is a step
    of the vault with the same label, and the states it leads to are
    related. *)
Lemma refines a w l w' :
  R a w -> step w l w' -> exists a', astep a l a' /\ R a' w'.
Proof.
  intros HR Hstep.
  destruct Hstep as [msg w r w' E|w Hd|w|w|w|w ms Hms|origin w r w' E|w theme].
  - by apply (refines_message a w).
  - eexists. split; [apply a_alarm|by apply R_alarm].
  - destruct (R_initialised a w HR) as (salt & Hs & HR' & _).
    rewrite installed_answers by apply (R_db a w HR).
    eexists. split; [by apply (a_installed a salt)|by apply R_menus].
  - eexists. split; [apply a_restart|by apply R_restart].
  - eexists. split; [apply a_quit|by apply R_quit].
  - eexists. split; [apply a_tick|by apply R_tick].
  - by apply (refines_lookup a w origin).
  - exists a. split; [apply a_themed|by apply R_themed].
Qed.

(** A run of the worker is a run of the vault. *)
Lemma refines_steps a w ls w' :
  R a w -> steps w ls w' -> exists a', asteps a ls a' /\ R a' w'.
Proof.
  intros HR Hs. revert a HR. induction Hs as [w|w l w1 ls w2 Hstep Hss IH]; intros a HR.
  - exists a. split; [constructor|done].
  - destruct (refines a w l w1 HR Hstep) as (a1 & Ha & HR1).
    destruct (IH a1 HR1) as (a2 & Has & HR2).
    exists a2. split; [by econstructor|done].
Qed.

(** Every state the worker reaches is related to a state of the vault. *)
Lemma reachable_R w : reachable w -> exists a, R a w.
Proof.
  intros (w0 & ls & Hi & Hs).
  destruct (refines_steps a_init w0 ls w (R_initial w0 Hi) Hs) as (a & _ & HR).
  by exists a.
Qed.

(** The state after an edit of the document. *)
Lemma R_edited a w key doc :
  R a w -> effective_key w = Some key ->
  let w' := with_vault (sealed doc key (entropy w)) (drawn 12 (touched w)) in
  R (set_a_doc doc (set_a_live true a)) w' /\ effective_key w' = Some key.
Proof.
  intros HR Hk. pose proof (R_effective a w HR) as He. rewrite Hk in He.
  destruct He as (Hu & _ & Hm). split; [|by apply effective_key_touched].
  apply R_store; [by apply R_drawn, R_touched|done].
Qed.

(** The operations on credentials in a state the worker reaches: without
    a key they answer [Locked]; with one, the stored document opens, the
    answer is computed from it, and the document stored afterwards is the
    edited one, under the same key. *)
Lemma reachable_credentials msg w :
  reachable w -> needs_key msg = true ->
  match effective_key w with
  | None => onMessage msg w = (Ret (RespError "Locked"), w)
  | Some key =>
      exists doc, vault_doc key w = Ret doc /\
        (onMessage msg w).1 = Ret (answer msg doc) /\
        (edit msg doc = None -> (onMessage msg w).2 = touched w) /\
        effective_key (onMessage msg w).2 = Some key /\
        vault_doc key (onMessage msg w).2 = Ret (default doc (edit msg doc))
  end.
Proof.
  intros (a & HR)%reachable_R Hn. pose proof (R_effective a w HR) as He.
  destruct (effective_key w) as [key|] eqn:Hk; [|by apply credentials_locked].
  destruct He as (Hu & Hus & Hm). exists (a_doc a).
  pose proof (R_vault_doc a w key HR Hus Hm) as Hd.
  rewrite (credentials_unlocked msg w key), Hd; try done; [|apply (R_db a w HR)|apply Hus..].
  cbn [fst snd]. split_and!; [done|done|by intros ->| |].
  - destruct (edit msg (a_doc a)) as [doc'|]; [by apply (R_edited a)|].
    by apply effective_key_touched.
  - destruct (edit msg (a_doc a)) as [doc'|]; cbn [default].
    + destruct (R_edited a w key doc' HR Hk) as [HR' _]. by apply (R_vault_doc _ _ key HR').
    + by apply (R_vault_doc _ _ key (R_touched a w HR Hu)).
Qed.

(** A password that is accepted leaves the vault unlocked. *)
Lemma reachable_unlocked password w :
  reachable w -> ok (response (UNLOCK password) w) = true ->
  is_Some (effective_key (served (UNLOCK password) w)).
Proof.
  intros (a & HR)%reachable_R Hok.
  destruct (refines_message a w (UNLOCK password) _ _ HR (onMessage_response _ w))
    as (a' & Ha & HR').
  apply (proj1 (bool_decide_eq_true _)). rewrite <- (R_unlocked a' _ HR').
  inversion Ha; subst; asimpl; try done;
    match goal with E : _ = response _ _ |- _ => by rewrite <- E in Hok end.
Qed.

(** * The claims on the worker *)

(** C1: the worker refines the vault.  Every run of the worker from a
    browser that has never run the extension is a run of the abstract vault
    with the same labels, so with the same answers to the same messages, and
    the states the two reach are related by [R]. *)
Theorem worker_refines_vault w0 ls w :
  initial w0 -> steps w0 ls w ->
  exists a, asteps a_init ls a /\ R a w.
Proof. intros Hi Hs. by apply (refines_steps a_init w0); [apply R_initial|]. Qed.

(** C2: in every state the worker reaches, the key an operation works with
    (the one in memory, or the one of the session) may encrypt and decrypt,
    the vault record exists, and the key opens it. *)
Theorem unlocked_vault_opens w key :
  reachable w -> effective_key w = Some key ->
  usable key /\
  exists enc doc, vault_record w = Some enc /\
    decryptJSON (Some enc) (Some key) = Ret doc.
Proof.
  intros (a & HR)%reachable_R Hk. pose proof (R_effective a w HR) as He.
  rewrite Hk in He. destruct He as (_ & Hu & Hm). split; [done|].
  pose proof (R_vault_doc a w key HR Hu Hm) as Hd.
  pose proof (R_vault a w HR) as Hv. unfold vault_doc, vault_rel in *.
  destruct (vault_record w) as [enc|]; [by eauto|]. destruct Hv. congruence.
Qed.

(** C3: in every state the worker reaches, the four operations on
    credentials answer [Locked] exactly when there is no key, neither in
    memory nor in the session, and then they change nothing at all. *)
Theorem locked_iff_no_key msg w :
  reachable w -> needs_key msg = true ->
  ((onMessage msg w).1 = Ret (RespError "Locked") <-> effective_key w = None) /\
  (effective_key w = None -> (onMessage msg w).2 = w).
Proof.
  intros (a & HR)%reachable_R Hm. pose proof (R_effective a w HR) as He.
  destruct (effective_key w) as [key|] eqn:Ek.
  - destruct He as (_ & Hu & Hmk). split; [|done]. split; [|done].
    rewrite (credentials_unlocked msg w key), (R_vault_doc a w key);
      try done; [|apply (R_db a w HR)|apply Hu..].
    by destruct msg.
  - by rewrite credentials_locked.
Qed.

(** C4: once the vault exists, one salt and one master key decide every
    [UNLOCK]: a password is accepted exactly when PBKDF2 of it under that
    salt is the master key; every other password is answered
    [Invalid master password]. *)
Theorem password_check w :
  reachable w -> is_Some (vault_record w) ->
  exists salt kb, forall password,
    (onMessage (UNLOCK password) w).1 =
    Ret (if bool_decide (kdf_bytes password salt = kb) then RespOk
         else RespError "Invalid master password").
Proof.
  intros (a & HR)%reachable_R [enc Ev]. pose proof (R_vault a w HR) as Hv.
  unfold vault_rel in Hv. rewrite Ev in Hv. destruct Hv as (kb & _ & Hm & _).
  destruct (unlock_existing a w "" kb HR Hm) as (salt & Hs & _ & _).
  exists salt, kb. intros password.
  destruct (unlock_existing a w password kb HR Hm) as (salt' & Hs' & _ & ->).
  assert (salt' = salt) as -> by congruence. by case_bool_decide.
Qed.

(** C6: what [SAVE_CREDENTIAL] or [DELETE_CREDENTIAL] does to the document
    is what the next [LIST_CREDENTIALS] returns: the edit is answered [ok],
    and the list is the one of the edited document. *)
Theorem edit_then_list msg w key :
  reachable w -> effective_key w = Some key ->
  exists vault, vault_doc key w = Ret vault /\
    forall vault', edit msg vault = Some vault' ->
      (onMessage msg w).1 = Ret RespOk /\
      (onMessage LIST_CREDENTIALS (onMessage msg w).2).1 = Ret (RespCreds (creds vault')).
Proof.
  intros (a & HR)%reachable_R Hk. pose proof (R_effective a w HR) as He.
  rewrite Hk in He. destruct He as (_ & Hu & Hm). exists (a_doc a).
  pose proof (R_vault_doc a w key HR Hu Hm) as Hd. split; [done|]. intros vault' He.
  assert (needs_key msg = true) as Hn by by destruct msg.
  rewrite (credentials_unlocked msg w key), Hd, He;
    try done; [|apply (R_db a w HR)|apply Hu..].
  cbn [fst snd]. split; [by destruct msg|].
  destruct (R_edited a w key vault' HR Hk) as [HR' Hk'].
  rewrite (credentials_unlocked LIST_CREDENTIALS _ key), (R_vault_doc _ _ key HR');
    try done; [apply (R_db _ _ HR')|apply Hu..].
Qed.

(** C30: in every state the worker reaches, the auto-lock duration in memory
    and the one in the metadata are at least a minute, the iteration count
    is 310000 and the salt is valid base64. *)
Theorem settings_in_range w :
  reachable w ->
  60000 <= autolockMs w /\
  forall meta, meta_of w = Some meta ->
    60000 <= meta_autolockMs meta /\ iterations meta = 310000 /\
    is_Ret (base64ToBytes (saltB64 meta)) = true.
Proof.
  intros (a & HR)%reachable_R. split; [apply (R_autolock a w HR)|].
  intros meta Em. pose proof (R_meta a w HR) as Hm. unfold meta_rel in Hm.
  rewrite Em in Hm. destruct Hm as (Hi & Ha & salt & -> & _).
  rewrite Ha. split_and!; [|done..]. apply a_wf_autolock, (R_wf a w HR).
Qed.

(** In every state the worker reaches, a key in the memory of the
    worker has its alarm set and its copy in the session storage, with the
    same bytes. *)
Theorem key_in_memory_is_backed w key :
  reachable w -> derivedKey w = Some key ->
  is_Some (alarms w !! "autolock") /\
  exists jwk, session_jwk w = Some jwk /\ k jwk = key_bytes key.
Proof.
  intros (a & HR)%reachable_R Ek.
  pose proof (R_memory a w HR) as Hm. pose proof (R_session a w HR) as Hs.
  unfold memory_rel, session_rel in *. rewrite Ek in Hm.
  destruct Hm as (Hl & _ & Hmk & Hal). split; [done|].
  apply (a_wf_live a (R_wf a w HR)) in Hl.
  destruct (session_jwk w) as [jwk|]; [|congruence].
  destruct Hs as (_ & kb & Ekb & ->). exists (jwk_of (master_key kb)).
  split; [done|]. cbn. congruence.
Qed.

(** C29: the salt and the iteration count are chosen once: whatever the
    worker does after the metadata exists, they stay what they are. *)
Theorem salt_never_changes w ls w' meta :
  reachable w -> steps w ls w' -> meta_of w = Some meta ->
  exists meta', meta_of w' = Some meta' /\
    base64ToBytes (saltB64 meta') = base64ToBytes (saltB64 meta) /\
    iterations meta' = iterations meta.
Proof.
  intros (a & HR)%reachable_R Hs Em.
  destruct (refines_steps a w ls w' HR Hs) as (a' & Has & HR').
  pose proof (R_meta a w HR) as Hm. pose proof (R_meta a' w' HR') as Hm'.
  unfold meta_rel in *. rewrite Em in Hm. destruct Hm as (Hi & _ & salt & Es & Ea).
  pose proof (asteps_salt a ls a' salt Has Ea) as Ea'.
  destruct (meta_of w') as [meta'|]; [|destruct Hm'; congruence].
  destruct Hm' as (Hi' & _ & salt' & Es' & Ea''). exists meta'.
  split_and!; [done|congruence..].
Qed.

(** C7: after a restart of the worker an operation on credentials succeeds
    without a password: the key of the session is restored, the list is the
    one of the stored document, and the alarm is set again. *)
Theorem resume_after_restart w key :
  reachable w -> effective_key w = Some key ->
  exists doc, vault_doc key w = Ret doc /\
    (onMessage LIST_CREDENTIALS (fresh_globals w)).1 = Ret (RespCreds (creds doc)) /\
    is_Some (derivedKey (onMessage LIST_CREDENTIALS (fresh_globals w)).2) /\
    is_Some (alarms (onMessage LIST_CREDENTIALS (fresh_globals w)).2 !! "autolock").
Proof.
  intros (a & HR)%reachable_R Hk. pose proof (R_effective a w HR) as He.
  rewrite Hk in He. destruct He as (Hu & Hus & Hm). exists (a_doc a).
  split; [by apply (R_vault_doc a)|]. pose proof (R_restart a w HR) as HR'.
  pose proof (R_effective _ _ HR') as He'.
  destruct (effective_key (fresh_globals w)) as [key'|] eqn:Ek'; [|asimpl; congruence].
  destruct He' as (_ & Hus' & Hm').
  rewrite (credentials_unlocked LIST_CREDENTIALS _ key'), (R_vault_doc _ _ key' HR');
    try done; [|apply (R_db _ _ HR')|apply Hus'..].
  cbn [fst snd edit]. split_and!; [done| |].
  - rewrite (effective_key_armed_resume _ key' Ek' : derivedKey (touched _) = _).
    by eexists.
  - unfold touched. wsimpl. rewrite lookup_insert_eq. by eexists.
Qed.

(** C28: in every state the worker reaches, the stored vault is a document
    sealed under a key of 32 bytes, and the key an operation works with has
    those bytes: nothing else is ever stored as the vault. *)
Theorem stored_vault_is_sealed w enc :
  reachable w -> vault_record w = Some enc ->
  exists doc kb e, enc = sealed doc (master_key kb) e /\
    bytes kb /\ length kb = 32%nat /\
    forall key, effective_key w = Some key -> key_bytes key = kb.
Proof.
  intros (a & HR)%reachable_R Ev. pose proof (R_vault a w HR) as Hv.
  unfold vault_rel in Hv. rewrite Ev in Hv. destruct Hv as (kb & e & Hm & -> & Hb & Hl).
  exists (a_doc a), kb, e. split_and!; [done..|]. intros key Hk.
  pose proof (R_effective a w HR) as He. rewrite Hk in He.
  destruct He as (_ & _ & Hm'). congruence.
Qed.

End simulation.
