(* ===== verification/Interleave.v ===== *)
(** * Interleave: two handlers between their awaits

    The files before this one run every handler of [background.js] to its
    end before the next event.  The handlers are [async] functions: at an
    [await] of a request to the database the worker takes the next
    message, and the handler goes on later, with the local variables it
    had.  This file splits the four handlers that work on the credentials
    at the one [await] where they hold a copy of the document:

    - [begin msg] is the handler up to [const vault = await getVaultJson()];
    - [finish msg vault] is the rest, with the document it has read.

    A state is the state of the worker with the handlers that wait
    ([Waiting]: the message and the document read).  [await_vault] starts a
    handler and [continue] ends the [k]-th that waits; the other events of
    [Session.step] happen in between, and a restart of the worker drops the
    handlers that wait.

    The theorems: a handler that is not interrupted is [onMessage]; under
    every interleaving the worker stays in the relation of [Refinement] with
    an abstract vault, so that the stored record is a document sealed under
    the master key; and of two handlers that have both read, the one that
    writes last undoes the edit of the other. *)

From Stdlib Require Import ZArith Lia Ascii String.
From stdpp Require Import base tactics option list strings gmap.
From S2P Require Import Prelude Base64 Crypto Storage Vault Generator Background Handlers Session Machine Refinement.

#[local] Open Scope Z_scope.

(** A handler that waits: the message it handles and the document
    [getVaultJson] has returned to it. *)
Record Waiting := {
  waiting_msg : Request;
  waiting_vault : VaultDoc;
}.

(** The labels that stop the worker: the handlers that wait are lost. *)
Definition stops (l : Label) : bool :=
  match l with Restart | Quit => true | _ => false end.

Section interleave.
Context `{WebCrypto} `{JSON VaultDoc}.

(** The handler of a message on the credentials, up to
    [const vault = await getVaultJson()]. *)
Definition begin : M World VaultDoc :=
  _ ← restore_if_locked;
  _ ← require_key "Locked";
  _ ← resetAutolockTimer;
  getVaultJson.

(** The rest of the handler, with the document it has read. *)
Definition finish (msg : Request) (vault : VaultDoc) : M World Response :=
  match msg with
  | GET_CREDENTIALS_FOR_ORIGIN origin => mret (RespCreds (credsForOrigin origin vault))
  | SAVE_CREDENTIAL credential =>
      _ ← setVaultJson (upsert credential vault);
      mret RespOk
  | LIST_CREDENTIALS => mret (RespCreds (creds vault))
  | DELETE_CREDENTIAL id =>
      _ ← setVaultJson (remove id vault);
      mret RespOk
  | _ => handle msg
  end.

(** The worker takes a message on the credentials and runs its handler
    up to the [await]: the handler waits, or it has thrown and the
    response is sent. *)
Definition await_vault (msg : Request) : M (World * list Waiting) (option Response) :=
  r ← zoom (try_catch (vault ← begin; mret (inr vault))
              (fun message => mret (inl (RespError (error_text message)))));
  match r with
  | inl resp => mret (Some resp)
  | inr vault =>
      _ ← modify (fun s : World * list Waiting =>
             (s.1, s.2 ++ [{| waiting_msg := msg; waiting_vault := vault |}]));
      mret None
  end.

(** The response and the state of the worker when the rest of a handler
    has run inside the [try] of the listener. *)
Definition answered (m : M World Response) (w : World) : Response * World :=
  match m w with
  | (Ret r, w') => (r, w')
  | (Throw message, w') => (RespError (error_text message), w')
  end.

(** The [k]-th handler that waits goes on to its end. *)
Definition continue (k : nat) : M (World * list Waiting) (option Response) :=
  s ← get;
  match s.2 !! k with
  | None => mret None
  | Some h =>
      _ ← modify (fun s : World * list Waiting => (s.1, delete k s.2));
      r ← zoom (try_catch (finish (waiting_msg h) (waiting_vault h))
                  (fun message => mret (RespError (error_text message))));
      mret (Some r)
  end.

(** What happens to the worker and the handlers that wait. *)
Inductive ILabel :=
| Begin (msg : Request)
| Continue (k : nat)
| Whole (l : Label).

Inductive istep : World * list Waiting -> ILabel -> World * list Waiting -> Prop :=
| istep_begin msg s :
    needs_key msg = true -> istep s (Begin msg) (await_vault msg s).2
| istep_continue k s :
    istep s (Continue k) (continue k s).2
| istep_whole l s w' :
    step s.1 l w' -> istep s (Whole l) (w', if stops l then [] else s.2).

Inductive isteps : World * list Waiting -> list ILabel -> World * list Waiting -> Prop :=
| isteps_nil s : isteps s [] s
| isteps_cons s l s1 ls s2 : istep s l s1 -> isteps s1 ls s2 -> isteps s (l :: ls) s2.

(** The states the worker reaches when its handlers interleave. *)
Definition ireachable (s : World * list Waiting) : Prop :=
  exists w0 ls, initial w0 /\ isteps (w0, []) ls s.

(** The state a handler leaves when it writes [doc] under [key]. *)
Definition written (doc : VaultDoc) (key : CryptoKey) (w : World) : World :=
  with_vault (sealed doc key (entropy w)) (drawn 12 (resume w)).

End interleave.

(** * Theorems *)

Section interleave_facts.
Context `{WebCrypto} `{JSON VaultDoc} `{!IdealAEAD}.

(** ** The two halves *)

Lemma run_begin w key :
  usable_db w -> effective_key w = Some key ->
  begin w = match vault_doc key w with
            | Ret vault => (Ret vault, touched w)
            | Throw e => (Throw e, touched w)
            end.
Proof.
  intros Hdb Hk.
  pose proof (run_read_then (fun vault => mret vault) w key Hdb Hk) as Hr.
  etransitivity; [|etransitivity; [exact Hr|by destruct (vault_doc key w)]].
  unfold begin. repeat (apply bind_ext; intros). symmetry. apply bind_ret_r.
Qed.

Lemma run_begin_locked w : effective_key w = None -> begin w = (Throw "Locked", w).
Proof. intros Hk. by apply run_locked_then. Qed.

(** The four handlers are their two halves. *)
Lemma handle_split msg w :
  needs_key msg = true -> handle msg w = (vault ← begin; finish msg vault) w.
Proof.
  intros Hm. unfold begin.
  destruct msg; try done; cbn [handle finish];
    repeat (rewrite bind_assoc; apply bind_ext; intros); reflexivity.
Qed.

Lemma effective_key_resume w : effective_key (resume w) = effective_key w.
Proof.
  unfold effective_key at 1. rewrite resume_key.
  destruct (effective_key w) as [key|] eqn:Hk; [done|].
  unfold effective_key in Hk. destruct (derivedKey w) eqn:E; [done|].
  by rewrite resume_locked.
Qed.

Lemma effective_key_written doc key w : effective_key (written doc key w) = effective_key w.
Proof. by rewrite <- (effective_key_resume w). Qed.

(** With a key the second half answers from the document it was given and
    writes the edited one; without a key an edit throws and a read
    answers. *)
Lemma run_finish msg vault w key :
  needs_key msg = true -> usable_db w -> effective_key w = Some key -> usable key ->
  finish msg vault w =
  (Ret (answer msg vault),
   match edit msg vault with Some doc => written doc key w | None => w end).
Proof.
  intros Hm Hdb Hk (Ha & Hu & _).
  destruct msg; try done; cbn [finish answer edit]; mrun;
    by rewrite (run_setVaultJson _ w key).
Qed.

Lemma run_finish_locked msg vault w :
  needs_key msg = true -> effective_key w = None ->
  finish msg vault w =
  match edit msg vault with
  | Some _ => (Throw "Vault is locked", w)
  | None => (Ret (answer msg vault), w)
  end.
Proof.
  intros Hm Hk.
  destruct msg; try done; cbn [finish answer edit]; mrun;
    by rewrite run_setVaultJson_locked.
Qed.

(** ** The scheduler *)

Lemma run_await_vault msg s :
  await_vault msg s =
  match begin s.1 with
  | (Ret vault, w') =>
      (Ret None, (w', s.2 ++ [{| waiting_msg := msg; waiting_vault := vault |}]))
  | (Throw e, w') => (Ret (Some (RespError (error_text e))), (w', s.2))
  end.
Proof.
  unfold await_vault. rewrite run_bind, run_zoom, run_try_catch, run_bind. cbn [view update Lens_fst].
  by destruct (begin s.1) as [[vault|e] w'].
Qed.

Lemma run_continue k s :
  continue k s =
  match s.2 !! k with
  | None => (Ret None, s)
  | Some h =>
      let r := answered (finish (waiting_msg h) (waiting_vault h)) s.1 in
      (Ret (Some r.1), (r.2, delete k s.2))
  end.
Proof.
  unfold continue, answered. mrun. destruct (s.2 !! k) as [h|]; [|done]. mrun.
  rewrite run_zoom, run_try_catch. cbn [view update Lens_fst fst snd].
  by destruct (finish _ _ s.1) as [[r|e] w'].
Qed.

(** A handler that waits when the vault is locked: what it has read it
    still answers with, and what it would write is refused. *)
Lemma continue_locked k w ws h :
  ws !! k = Some h -> needs_key (waiting_msg h) = true -> effective_key w = None ->
  continue k (w, ws) =
  (Ret (Some (match edit (waiting_msg h) (waiting_vault h) with
              | Some _ => RespError "Vault is locked"
              | None => answer (waiting_msg h) (waiting_vault h)
              end)), (w, delete k ws)).
Proof.
  intros Hh Hm Hk. rewrite run_continue. cbn [fst snd]. rewrite Hh. cbn zeta.
  unfold answered. rewrite run_finish_locked by done. by destruct (edit _ _).
Qed.

(** ** The relation with the abstract vault *)

Lemma begin_R a w : R a w -> exists a', R a' (begin w).2.
Proof.
  intros HR. pose proof (R_effective a w HR) as He.
  destruct (effective_key w) as [key|] eqn:Hk.
  - destruct He as (Hu & Hus & Hm).
    rewrite (run_begin w key) by (done || apply (R_db a w HR)).
    exists (set_a_live true a). destruct (vault_doc key w); by apply R_touched.
  - rewrite run_begin_locked by done. by exists a.
Qed.

Lemma written_R a w key doc :
  R a w -> effective_key w = Some key ->
  R (set_a_doc doc (set_a_live (a_unlocked a) a)) (written doc key w).
Proof.
  intros HR Hk. pose proof (R_effective a w HR) as He. rewrite Hk in He.
  destruct He as (_ & _ & Hm). apply R_store; [by apply R_drawn, R_resume|done].
Qed.

Lemma finish_R a w msg vault :
  R a w -> exists a', R a' (answered (finish msg vault) w).2.
Proof.
  intros HR. unfold answered. destruct (needs_key msg) eqn:Hm.
  - pose proof (R_effective a w HR) as He.
    destruct (effective_key w) as [key|] eqn:Hk.
    + rewrite (run_finish msg vault w key) by (done || apply (R_db a w HR) || apply He).
      cbn [snd]. destruct (edit msg vault) as [doc|]; [|by exists a].
      eexists. by apply written_R.
    + rewrite run_finish_locked by done. destruct (edit _ _); by exists a.
  - assert (finish msg vault = handle msg) as -> by by destruct msg.
    pose proof (onMessage_response msg w) as Hr. unfold onMessage in Hr.
    rewrite run_try_catch in Hr.
    destruct (refines_message a w msg (response msg w) (served msg w) HR) as (a' & _ & HR');
      [by apply onMessage_response|].
    exists a'. destruct (handle msg w) as [[r|e] w']; cbn in *; by injection Hr as _ ->.
Qed.

Lemma istep_R a s l s' : R a s.1 -> istep s l s' -> exists a', R a' s'.1.
Proof.
  intros HR Hs. destruct Hs as [msg s _|k s|l s w' Hs].
  - rewrite run_await_vault. destruct (begin_R a s.1 HR) as [a' HR'].
    exists a'. by destruct (begin s.1) as [[vault|e] w'].
  - rewrite run_continue. destruct (s.2 !! k) as [h|]; [|by exists a].
    apply (finish_R a s.1 _ _ HR).
  - destruct (refines a s.1 l w' HR Hs) as (a' & _ & HR'). by exists a'.
Qed.

Lemma ireachable_R s : ireachable s -> exists a, R a s.1.
Proof.
  intros (w0 & ls & Hi & Hs). pose proof (R_initial w0 Hi) as HR.
  change w0 with (w0, @nil Waiting).1 in HR. revert HR. generalize a_init.
  induction Hs as [s|s l s1 ls s2 Hstep _ IH]; intros a HR; [by exists a|].
  destruct (istep_R a s l s1 HR Hstep) as [a1 HR1]. by apply (IH a1).
Qed.

(** A run of [Session] is a run in which no handler waits. *)
Lemma steps_isteps w ls w' : steps w ls w' -> isteps (w, []) (Whole <$> ls) (w', []).
Proof.
  induction 1 as [w|w l w1 ls w2 Hs _ IH]; [constructor|]. cbn [fmap list_fmap].
  econstructor; [|exact IH].
  replace (w1, @nil Waiting) with (w1, if stops l then [] else (w, @nil Waiting).2)
    by by destruct (stops l).
  by constructor.
Qed.

Lemma reachable_ireachable w : reachable w -> ireachable (w, []).
Proof. intros (w0 & ls & Hi & Hs). exists w0, (Whole <$> ls). by split; [|apply steps_isteps]. Qed.

Lemma isteps_app s ls s1 ls' s2 : isteps s ls s1 -> isteps s1 ls' s2 -> isteps s (ls ++ ls') s2.
Proof. induction 1; [done|]. intros Hs. cbn. econstructor; eauto. Qed.

Lemma ireachable_step s l s' : ireachable s -> istep s l s' -> ireachable s'.
Proof.
  intros (w0 & ls & Hi & Hs) Hstep. exists w0, (ls ++ [l]). split; [done|].
  eapply isteps_app; [done|]. econstructor; [done|constructor].
Qed.

(** The state of the worker after the first half, and after the second. *)
Lemma unlocked_R a w key :
  R a w -> effective_key w = Some key -> vault_doc key w = Ret (a_doc a).
Proof.
  intros HR Hk. pose proof (R_effective a w HR) as He. rewrite Hk in He.
  apply (R_vault_doc a w key HR); apply He.
Qed.

Lemma begin_unlocked a w key :
  R a w -> effective_key w = Some key ->
  begin w = (Ret (a_doc a), touched w) /\ R (set_a_live true a) (touched w) /\
  effective_key (touched w) = Some key.
Proof.
  intros HR Hk. pose proof (R_effective a w HR) as He. rewrite Hk in He.
  rewrite (run_begin w key), (unlocked_R a w key) by (done || apply (R_db a w HR)).
  split_and!; [done|apply R_touched; [done|apply He]|by apply effective_key_touched].
Qed.

Lemma finish_unlocked a w key msg vault doc :
  R a w -> effective_key w = Some key -> edit msg vault = Some doc ->
  answered (finish msg vault) w = (RespOk, written doc key w) /\
  R (set_a_doc doc (set_a_live (a_unlocked a) a)) (written doc key w) /\
  effective_key (written doc key w) = Some key.
Proof.
  intros HR Hk Hd. pose proof (R_effective a w HR) as He. rewrite Hk in He.
  assert (needs_key msg = true) as Hm by by destruct msg.
  unfold answered. rewrite (run_finish msg vault w key), Hd
    by (done || apply (R_db a w HR) || apply He).
  split_and!; [by destruct msg|by apply written_R|by rewrite effective_key_written].
Qed.

(** A handler that is not interrupted is the handler of [Session].
    For a message on the credentials, [await_vault] followed at once by
    [continue] of the handler it has made wait sends the response of
    [onMessage] and leaves the worker in the state of [onMessage], and the
    handlers that were waiting still wait; when the first half throws, the
    response and the state are the ones of [onMessage] already. *)
Theorem uninterrupted_handler msg w ws :
  needs_key msg = true ->
  let s1 := await_vault msg (w, ws) in
  match s1.1 with
  | Ret (Some r) => r = response msg w /\ s1.2 = (served msg w, ws)
  | Ret None =>
      continue (length ws) s1.2 = (Ret (Some (response msg w)), (served msg w, ws))
  | Throw _ => False
  end.
Proof.
  intros Hm. cbn zeta. rewrite run_await_vault. cbn [fst snd].
  pose proof (onMessage_response msg w) as Hr. unfold onMessage in Hr.
  rewrite run_try_catch, (handle_split msg w Hm), run_bind in Hr.
  destruct (begin w) as [[vault|e] w']; cbn [fst snd] in *; [|by injection Hr as <- <-].
  rewrite run_continue. cbn [fst snd].
  rewrite lookup_app_r, Nat.sub_diag by done. cbn [lookup list_lookup].
  rewrite delete_middle, app_nil_r. unfold answered. cbn [waiting_msg waiting_vault].
  by destruct (finish msg vault w') as [[r|e] w'']; injection Hr as <- <-.
Qed.

(** The vault under interleaving.  In every state the worker reaches
    when the handlers of the messages on the credentials interleave at
    their [await], in any order and with any other event in between, the
    key an operation works with opens the stored record, and the duration
    of the auto-lock is a minute or more. *)
Theorem interleaved_vault_opens s key :
  ireachable s -> effective_key s.1 = Some key ->
  usable key /\ is_Ret (vault_doc key s.1) = true /\ 60000 <= autolockMs s.1.
Proof.
  intros (a & HR)%ireachable_R Hk. pose proof (R_effective a s.1 HR) as He.
  rewrite Hk in He. rewrite (unlocked_R a s.1 key HR Hk).
  split_and!; [apply He|done|apply (R_autolock a s.1 HR)].
Qed.

(** C34: of two handlers that have both read, the one that writes last
    wins.  With the vault unlocked, two messages that edit the document
    ([SAVE_CREDENTIAL] or [DELETE_CREDENTIAL]) whose handlers both reach
    their [await] before either goes on are both answered [{ ok: true }],
    and the document stored in the end is the edit of the second alone on
    the document both have read: the edit of the first is lost.  The same
    two handlers one after the other store the second edit of the first
    edit. *)
Theorem last_writer_wins msg1 msg2 w key doc doc1 doc2 :
  reachable w -> effective_key w = Some key -> vault_doc key w = Ret doc ->
  edit msg1 doc = Some doc1 -> edit msg2 doc = Some doc2 ->
  let s2 := (await_vault msg2 (await_vault msg1 (w, [])).2).2 in
  let r1 := continue 0 s2 in
  let r2 := continue 0 r1.2 in
  r1.1 = Ret (Some RespOk) /\ r2.1 = Ret (Some RespOk) /\ r2.2.2 = [] /\
  vault_doc key r2.2.1 = Ret doc2 /\
  vault_doc key (served msg2 (served msg1 w)) = Ret (default doc1 (edit msg2 doc1)).
Proof.
  intros Hr Hk Hd He1 He2. destruct (reachable_R w Hr) as [a HR].
  assert (a_doc a = doc) as Ha by (pose proof (unlocked_R a w key HR Hk); congruence).
  destruct (begin_unlocked a w key HR Hk) as (Hb1 & HR1 & Hk1).
  destruct (begin_unlocked _ (touched w) key HR1 Hk1) as (Hb2 & HR2 & Hk2).
  destruct (finish_unlocked _ _ key msg1 doc doc1 HR2 Hk2 He1) as (Hf1 & HR3 & Hk3).
  destruct (finish_unlocked _ _ key msg2 doc doc2 HR3 Hk3 He2) as (Hf2 & HR4 & Hk4).
  cbn zeta. rewrite !run_await_vault. cbn [fst snd]. rewrite Hb1. cbn [fst snd].
  rewrite Hb2. asimpl. rewrite Ha. cbn [app]. rewrite run_continue.
  cbn [fst snd lookup list_lookup waiting_msg waiting_vault delete list_delete].
  rewrite Hf1. cbn [fst snd]. rewrite run_continue.
  cbn [fst snd lookup list_lookup waiting_msg waiting_vault delete list_delete].
  rewrite Hf2. cbn [fst snd]. split_and!; [done..|by apply (unlocked_R _ _ key HR4)|].
  assert (needs_key msg1 = true /\ needs_key msg2 = true) as [Hm1 Hm2]
    by by destruct msg1, msg2.
  pose proof (reachable_credentials msg1 w Hr Hm1) as Hs1. rewrite Hk in Hs1.
  destruct Hs1 as (doc' & Hd' & _ & _ & Hk' & Hd1).
  assert (doc' = doc) as -> by congruence. rewrite He1 in Hd1.
  change (default doc (Some doc1)) with doc1 in Hd1.
  pose proof (reachable_credentials msg2 _ (reachable_served msg1 w Hr) Hm2) as Hs2.
  unfold served in *. rewrite Hk' in Hs2. destruct Hs2 as (doc'' & Hd'' & _ & _ & _ & Hd2).
  by assert (doc'' = doc1) as -> by congruence.
Qed.

End interleave_facts.
