(* ===== verification/Liveness.v ===== *)
(** * Liveness: a worker that is left alone locks the vault

    A [Run] is a run of the worker without end: a state and a label for
    every instant, each state the reaction of the one before to its label.
    Two assumptions on the browser make a run fair: time passes
    ([time_passes]: the clock exceeds every bound), and an alarm that is due
    is not held back for ever ([alarm_fair]: at any instant there is a later
    one at which the alarm fires or is not due).

    [idle_worker_locks]: in a fair run, from any instant at which the worker
    holds the key, a later instant comes at which the alarm fires and locks
    the vault, unless something else happens first: a message, a lookup, or
    a restart of the worker or of the browser.  The restart is not there
    for convenience: a worker that was restarted holds no key in memory, and
    the alarm that reaches it locks nothing ([alarm_missed_after_restart] in
    [Session]). *)

From Stdlib Require Import ZArith Lia Ascii String.
From stdpp Require Import base tactics option list strings gmap.
From S2P Require Import Prelude Base64 Crypto Storage Vault Generator Background Handlers Session Machine Refinement.

#[local] Open Scope Z_scope.

Record Run := {
  state_at : nat -> World;
  label_at : nat -> Label;
}.

(** The labels that leave the key and the alarm alone: the clock, the
    theme of the options page, the installation. *)
Definition quiet (l : Label) : bool :=
  match l with
  | Tick _ | Themed _ | Installed => true
  | _ => false
  end.

(** The labels that are something else happening. *)
Definition busy (l : Label) : bool :=
  match l with
  | Msg _ _ | Lookup _ _ | Restart | Quit => true
  | _ => false
  end.

(** The worker holds the key, and the alarm is set for the time [t]. *)
Definition armed_for (t : Z) (w : World) : Prop :=
  is_Some (derivedKey w) /\ alarms w !! "autolock" = Some t.

Section liveness.
Context `{WebCrypto} `{JSON VaultDoc}.

Definition is_run (rho : Run) : Prop :=
  forall n, step (state_at rho n) (label_at rho n) (state_at rho (S n)).

Definition time_passes (rho : Run) : Prop :=
  forall T n, exists m, (n <= m)%nat /\ T <= clock (state_at rho m).

Definition alarm_fair (rho : Run) : Prop :=
  forall n, exists m, (n <= m)%nat /\
    (label_at rho m = Alarm \/ ~ due (state_at rho m)).

(** The labels from [n] on, [k] of them, are quiet. *)
Definition quiet_for (rho : Run) (n k : nat) : Prop :=
  forall j, (n <= j < n + k)%nat -> quiet (label_at rho j) = true.

End liveness.

(** * Theorems *)

Section liveness_facts.
Context `{WebCrypto} `{JSON VaultDoc} `{!IdealAEAD}.
Implicit Types (rho : Run) (w : World) (l : Label).

Lemma run_reachable rho n : is_run rho -> reachable (state_at rho 0) -> reachable (state_at rho n).
Proof. intros Hrun Hr0. induction n as [|n IH]; [done|]. by eapply reachable_step. Qed.

(** A label that is not quiet is the alarm or something else happening. *)
Lemma loud_label l : quiet l = false -> l = Alarm \/ busy l = true.
Proof. destruct l; cbn; auto. Qed.

(** A quiet step keeps the key and the alarm, and the clock does not go
    back. *)
Lemma quiet_step w l w' t :
  reachable w -> step w l w' -> quiet l = true -> armed_for t w ->
  armed_for t w' /\ clock w <= clock w'.
Proof.
  intros Hr Hs Hq [Hk Ha]. destruct Hs; try done.
  - destruct (reachable_R w Hr) as [a HR]. rewrite installed_answers by apply (R_db a w HR).
    cbn [snd]. unfold installed, initialised. destruct (meta_of w); wsimpl; by repeat split.
  - wsimpl. repeat split; [done..|lia].
Qed.

(** The same over a stretch of quiet labels. *)
Lemma quiet_stretch rho n k t :
  is_run rho -> reachable (state_at rho 0) -> quiet_for rho n k -> armed_for t (state_at rho n) ->
  armed_for t (state_at rho (n + k)) /\ clock (state_at rho n) <= clock (state_at rho (n + k)).
Proof.
  intros Hrun Hr0 Hq Ha. induction k as [|k IH].
  - rewrite Nat.add_0_r. split; [done|lia].
  - destruct IH as [Ha' Hc]; [intros j Hj; apply Hq; lia|].
    rewrite Nat.add_succ_r.
    destruct (quiet_step _ _ _ t (run_reachable rho (n + k)%nat Hrun Hr0) (Hrun (n + k)%nat))
      as [Ha'' Hc']; [apply Hq; lia|done|]. split; [done|lia].
Qed.

(** A stretch of labels is quiet, or it has a first label that is not. *)
Lemma first_loud rho n k :
  quiet_for rho n k \/
  exists j, (j < k)%nat /\ quiet_for rho n j /\ quiet (label_at rho (n + j)) = false.
Proof.
  induction k as [|k [IH|(j & Hj & Hq & Hl)]].
  - left. intros j Hj. lia.
  - destruct (quiet (label_at rho (n + k)%nat)) eqn:Ek.
    + left. intros j Hj. destruct (decide (j = n + k)%nat) as [->|]; [done|].
      apply IH. lia.
    + right. exists k. split_and!; [lia|done..].
  - right. exists j. split_and!; [lia|done..].
Qed.

(** The alarm that fires in a worker that holds the key locks the vault. *)
Lemma alarm_step_locks w w' t :
  armed_for t w -> step w Alarm w' -> effective_key w' = None.
Proof.
  intros [Hk _] Hs. inversion Hs; subst.
  rewrite alarm_clears by done. apply effective_key_cleared.
Qed.

(** In a reachable state the worker that holds the key has set the
    alarm. *)
Lemma key_is_armed w : reachable w -> is_Some (derivedKey w) -> exists t, armed_for t w.
Proof.
  intros [a HR]%reachable_R Hk. pose proof (R_memory a w HR) as Hm.
  unfold memory_rel in Hm. destruct (derivedKey w) as [key|] eqn:Ek; [|by destruct Hk].
  destruct Hm as (_ & _ & _ & [t Ht]). exists t. split; [by rewrite Ek|done].
Qed.

(** What the first label that is not quiet does to a worker that holds the
    key. *)
Lemma loud_step rho n j t :
  is_run rho -> reachable (state_at rho 0) -> armed_for t (state_at rho n) ->
  quiet_for rho n j -> quiet (label_at rho (n + j)) = false ->
  busy (label_at rho (n + j)) = true \/
  label_at rho (n + j) = Alarm /\ effective_key (state_at rho (S (n + j))) = None.
Proof.
  intros Hrun Hr0 Ha Hq Hl. destruct (quiet_stretch rho n j t Hrun Hr0 Hq Ha) as [Ha' _].
  destruct (loud_label _ Hl) as [El|Hb]; [right|by left]. split; [done|].
  apply (alarm_step_locks (state_at rho (n + j)%nat) _ t Ha'). rewrite <- El. apply Hrun.
Qed.

(** * The claim *)

(** C9: a worker that is left alone locks the vault.  In a run in which
    time passes and a due alarm is not held back for ever, from any instant
    at which the worker holds the key there is a later instant at which the
    alarm fires and leaves the vault locked, or at which something else
    happens: a message, a lookup of the context menu, a restart. *)
Theorem idle_worker_locks rho n :
  is_run rho -> reachable (state_at rho 0) -> time_passes rho -> alarm_fair rho ->
  is_Some (derivedKey (state_at rho n)) ->
  exists m, (n <= m)%nat /\
    (busy (label_at rho m) = true \/
     label_at rho m = Alarm /\ effective_key (state_at rho (S m)) = None).
Proof.
  intros Hrun Hr0 Htime Hfair Hk.
  destruct (key_is_armed _ (run_reachable rho n Hrun Hr0) Hk) as [t Ha].
  destruct (Htime t n) as (m1 & Hm1 & Ht). destruct (Hfair m1) as (m2 & Hm2 & Hf).
  destruct (first_loud rho n (m2 - n)%nat) as [Hq|(j & Hj & Hq & Hl)].
  - exists m2. split; [lia|]. right.
    destruct (quiet_stretch rho n (m1 - n)%nat t Hrun Hr0) as [Ha1 _];
      [intros j Hj; apply Hq; lia|done|].
    replace (n + (m1 - n)%nat)%nat with m1 in Ha1 by lia.
    destruct (quiet_stretch rho m1 (m2 - m1)%nat t Hrun Hr0) as [Ha2 Hc];
      [intros j Hj; apply Hq; lia|done|].
    replace (m1 + (m2 - m1)%nat)%nat with m2 in * by lia.
    destruct Hf as [El|Hnd]; [|destruct Hnd; exists t; split; [apply Ha2|lia]].
    split; [done|]. apply (alarm_step_locks (state_at rho m2) _ t Ha2).
    rewrite <- El. apply Hrun.
  - exists (n + j)%nat. split; [lia|]. by apply (loud_step rho n j t).
Qed.

End liveness_facts.
