(* ===== verification/Options.v ===== *)
(** * Options: the options page [options.js]

    The page has two controls, the select [theme] and the input [minutes],
    and two buttons.  An [OptionsPage] is the values of the two controls and
    the texts the page has shown with [alert], the last one last.  The page
    runs beside the worker: the state of its functions is the pair of the
    [World] of the worker and the page.  It reads the theme and the metadata
    from [chrome.storage.local] directly, writes the theme there directly,
    and changes the duration of the auto-lock through the message
    [SET_AUTOLOCK].

    A control holds the string that was assigned to it; what the controls
    accept from the keyboard is not restricted.

    The theorems: every event of the page is a run of the worker, so the
    invariants of [Refinement] hold whatever the page does; what
    [saveSecurity] shows and sends for every content of the field, and that
    the worker never answers it with the error of its floor; the theme
    that is saved is the theme that is shown; and the duration that is saved
    again, as it is shown, is the stored one rounded to minutes. *)

From Stdlib Require Import ZArith Lia Ascii String.
From stdpp Require Import base tactics option list strings gmap.
From S2P Require Import Prelude Text Crypto Storage Vault Background Handlers Session.

#[local] Open Scope Z_scope.

Record OptionsPage := {
  theme_value : string;
  minutes_value : string;
  alerts : list string;
}.

Definition set_theme_value (x : string) (p : OptionsPage) : OptionsPage :=
  {| theme_value := x; minutes_value := minutes_value p; alerts := alerts p |}.

Definition set_minutes_value (x : string) (p : OptionsPage) : OptionsPage :=
  {| theme_value := theme_value p; minutes_value := x; alerts := alerts p |}.

(** [alert(text)] *)
Definition alert (text : string) (p : OptionsPage) : OptionsPage :=
  {| theme_value := theme_value p; minutes_value := minutes_value p;
     alerts := alerts p ++ [text] |}.

(** [Math.max(1, Math.round((metaObj?.meta?.autolockMs || 5*60*1000) / 60000))] *)
Definition shown_minutes (w : World) : Z :=
  Math_max 1 (Math_round_div
    (num_or (default 0 (meta_autolockMs <$> meta_of w)) (5 * 60 * 1000)) 60000).

(** What the events of the page carry: the user changes a control or
    clicks a button. *)
Inductive OptionsEvent :=
| OptionsLoaded
| SelectTheme (theme : string)
| EnterMinutes (text : string)
| ClickSaveSecurity
| ClickSaveTheme.

Section options.
Context `{WebCrypto} `{JSON VaultDoc}.

Definition load : M (World * OptionsPage) unit :=
  attempt (
    w ← gets fst;
    let theme := str_or (default "" (theme_of w)) "system" in
    _ ← zoom (modify (set_theme_value theme));
    let minutes := shown_minutes w in
    zoom (modify (set_minutes_value (String_of minutes)))).

Definition saveSecurity : M (World * OptionsPage) unit :=
  p ← gets snd;
  match parseInt (str_or (minutes_value p) "5") with
  | None => zoom (modify (alert "Please enter a valid number of minutes (>= 1)."))
  | Some minutes =>
      if minutes <? 1
      then zoom (modify (alert "Please enter a valid number of minutes (>= 1)."))
      else
        let ms := Math_max 1 minutes * 60 * 1000 in
        resp ← zoom (onMessage (SET_AUTOLOCK (Some ms)));
        if ok resp then zoom (modify (alert "Security settings saved"))
        else zoom (modify (alert
               ("Failed to save: " ++ str_or (resp_error resp) "Unknown error")))
  end.

Definition saveTheme : M (World * OptionsPage) unit :=
  p ← gets snd;
  _ ← zoom (modify (with_theme (theme_value p)));
  zoom (modify (alert "Theme saved")).

(** The listeners: [DOMContentLoaded] runs [load], the buttons run the two
    functions, and the browser changes a control the user edits. *)
Definition options_event (e : OptionsEvent) : M (World * OptionsPage) unit :=
  match e with
  | OptionsLoaded => load
  | SelectTheme theme => zoom (modify (set_theme_value theme))
  | EnterMinutes text => zoom (modify (set_minutes_value text))
  | ClickSaveSecurity => saveSecurity
  | ClickSaveTheme => saveTheme
  end.

(** ** The states the functions leave *)

Definition after_load (s : World * OptionsPage) : World * OptionsPage :=
  (s.1, set_minutes_value (String_of (shown_minutes s.1))
          (set_theme_value (str_or (default "" (theme_of s.1)) "system") s.2)).

(** The duration [saveSecurity] sends, when it sends one. *)
Definition entered_ms (p : OptionsPage) : option Z :=
  minutes ← parseInt (str_or (minutes_value p) "5");
  if minutes <? 1 then None else Some (Math_max 1 minutes * 60 * 1000).

(** The text [saveSecurity] shows for a response. *)
Definition security_text (resp : Response) : string :=
  if ok resp then "Security settings saved"
  else "Failed to save: " ++ str_or (resp_error resp) "Unknown error".

Definition after_saveSecurity (s : World * OptionsPage) : World * OptionsPage :=
  match entered_ms s.2 with
  | None => (s.1, alert "Please enter a valid number of minutes (>= 1)." s.2)
  | Some ms =>
      (served (SET_AUTOLOCK (Some ms)) s.1,
       alert (security_text (response (SET_AUTOLOCK (Some ms)) s.1)) s.2)
  end.

Definition after_saveTheme (s : World * OptionsPage) : World * OptionsPage :=
  (with_theme (theme_value s.2) s.1, alert "Theme saved" s.2).

Definition after_options (e : OptionsEvent) (s : World * OptionsPage) :
    World * OptionsPage :=
  match e with
  | OptionsLoaded => after_load s
  | SelectTheme theme => (s.1, set_theme_value theme s.2)
  | EnterMinutes text => (s.1, set_minutes_value text s.2)
  | ClickSaveSecurity => after_saveSecurity s
  | ClickSaveTheme => after_saveTheme s
  end.

(** The steps of the worker in an event of the page. *)
Definition options_labels (e : OptionsEvent) (s : World * OptionsPage) : list Label :=
  match e with
  | ClickSaveSecurity =>
      match entered_ms s.2 with
      | None => []
      | Some ms => [Msg (SET_AUTOLOCK (Some ms)) (response (SET_AUTOLOCK (Some ms)) s.1)]
      end
  | ClickSaveTheme => [Themed (theme_value s.2)]
  | _ => []
  end.

End options.

(** * Theorems *)

Section options_facts.
Context `{WebCrypto} `{JSON VaultDoc}.
Implicit Types (s : World * OptionsPage) (p : OptionsPage) (w : World).

(** ** What the functions do *)

Lemma run_load s : load s = (Ret tt, after_load s).
Proof. unfold load. rewrite run_attempt. by destruct s. Qed.

Lemma run_saveSecurity s : saveSecurity s = (Ret tt, after_saveSecurity s).
Proof.
  unfold saveSecurity, after_saveSecurity, entered_ms. destruct s as [w p]. mrun.
  destruct (parseInt _) as [minutes|]; [|done]. cbn.
  destruct (minutes <? 1); [done|]. mrun. rewrite run_zoom, onMessage_response.
  cbn. unfold security_text. by destruct (ok _).
Qed.

Lemma run_saveTheme s : saveTheme s = (Ret tt, after_saveTheme s).
Proof. by destruct s. Qed.

Lemma run_options_event e s : options_event e s = (Ret tt, after_options e s).
Proof.
  destruct e; cbn [options_event after_options];
    [apply run_load|by destruct s..|apply run_saveSecurity|apply run_saveTheme].
Qed.

(** Every event of the page is a run of the worker. *)
Lemma options_steps e s : steps s.1 (options_labels e s) (after_options e s).1.
Proof.
  destruct e; cbn [options_labels after_options]; try by constructor.
  - unfold after_saveSecurity. destruct (entered_ms s.2) as [ms|]; [|constructor].
    econstructor; [|constructor]. constructor. apply onMessage_response.
  - econstructor; [|constructor]. constructor.
Qed.

Lemma options_reachable e s : reachable s.1 -> reachable (after_options e s).1.
Proof.
  intros (w0 & ls & Hi & Hs). exists w0, (ls ++ options_labels e s).
  split; [done|]. eapply steps_app; [done|apply options_steps].
Qed.

(** ** The duration *)

(** What the page sends is at least a minute, in whole minutes. *)
Lemma entered_ms_minutes p ms :
  entered_ms p = Some ms <->
  exists minutes, parseInt (str_or (minutes_value p) "5") = Some minutes /\
    1 <= minutes /\ ms = minutes * 60000.
Proof.
  unfold entered_ms, Math_max. destruct (parseInt _) as [minutes|]; cbn;
    [|by split; [|intros (? & ? & _)]].
  destruct (Z.ltb_spec minutes 1); split.
  - done.
  - intros (? & [= <-] & ? & _). lia.
  - intros [= <-]. exists minutes. split_and!; [done|done|lia].
  - intros (? & [= <-] & ? & ->). f_equal. lia.
Qed.

Lemma String_of_not_empty n : String_of n <> "".
Proof. intros E. pose proof (parseInt_String_of n) as Hn. by rewrite E in Hn. Qed.

(** The duration the page sends when the minutes it has shown are saved
    as they are. *)
Lemma entered_ms_after_load s :
  entered_ms (after_load s).2 = Some (shown_minutes s.1 * 60000).
Proof.
  apply entered_ms_minutes. exists (shown_minutes s.1). cbn.
  unfold str_or. rewrite (proj2 (truthy_string _)) by apply String_of_not_empty.
  split_and!; [apply parseInt_String_of|unfold shown_minutes, Math_max; lia|done].
Qed.

(** The minutes shown for a stored duration. *)
Lemma shown_minutes_meta w meta :
  meta_of w = Some meta -> 60000 <= meta_autolockMs meta ->
  shown_minutes w = Math_round_div (meta_autolockMs meta) 60000 /\
  1 <= Math_round_div (meta_autolockMs meta) 60000.
Proof.
  intros Em Hms. unfold shown_minutes, Math_max. rewrite Em. cbn.
  rewrite num_or_nonzero by lia.
  pose proof (Math_round_div_mono 60000 (meta_autolockMs meta) 60000 eq_refl Hms) as Hr.
  change (Math_round_div 60000 60000) with 1 in Hr. lia.
Qed.

Lemma theme_of_with_theme theme w : theme_of (with_theme theme w) = Some theme.
Proof. unfold theme_of, with_theme. wsimpl. by rewrite lookup_insert_eq. Qed.

Lemma meta_of_with_theme theme w : meta_of (with_theme theme w) = meta_of w.
Proof. unfold meta_of, with_theme. wsimpl. by rewrite lookup_insert_ne. Qed.

(** * The claims on the options page *)

(** C26: the page and the floor of the worker.  Whatever the field of
    the minutes holds and whatever the state of the worker, [saveSecurity]
    returns after one alert.  When the text of the field, or [5] for an
    empty field, starts with an integer of at least one, the page sends
    [SET_AUTOLOCK] with that number of minutes in milliseconds, the worker
    is left as that message leaves it, the alert is the notice of success
    or the error of the response, and the response is never the error of
    the floor of the worker.  In every other case the page shows its own
    notice and the worker is not asked. *)
Theorem saveSecurity_floor s :
  let field := parseInt (str_or (minutes_value s.2) "5") in
  (forall minutes, field = Some minutes -> 1 <= minutes ->
     let msg := SET_AUTOLOCK (Some (minutes * 60000)) in
     saveSecurity s =
       (Ret tt, (served msg s.1, alert (security_text (response msg s.1)) s.2)) /\
     response msg s.1 <> RespError "Invalid autolock value; must be >= 1 minute") /\
  ((forall minutes, field = Some minutes -> minutes < 1) ->
     saveSecurity s =
       (Ret tt, (s.1, alert "Please enter a valid number of minutes (>= 1)." s.2))).
Proof.
  cbn zeta. rewrite run_saveSecurity. unfold after_saveSecurity. split.
  - intros minutes Ef Hm.
    rewrite (proj2 (entered_ms_minutes s.2 (minutes * 60000))) by by exists minutes.
    split; [done|]. unfold response. rewrite set_autolock_answers.
    destruct (Z.ltb_spec (minutes * 60000) (60 * 1000)); [lia|].
    by destruct (meta_of s.1).
  - intros Hf. destruct (entered_ms s.2) as [ms|] eqn:E; [|done].
    apply entered_ms_minutes in E as (minutes & Ef & Hm & _).
    specialize (Hf minutes Ef). lia.
Qed.

(** C27: the duration is shown in minutes and saved in minutes.  When the
    page is opened and the button is pressed on what it shows, the stored
    duration becomes the stored one rounded to whole minutes, in the
    metadata and in the memory of the worker; it is unchanged exactly when
    it was a whole number of minutes. *)
Theorem shown_duration_is_rounded s meta :
  meta_of s.1 = Some meta -> 60000 <= meta_autolockMs meta ->
  let ms := Math_round_div (meta_autolockMs meta) 60000 * 60000 in
  let s' := (saveSecurity (load s).2).2 in
  meta_of s'.1 = Some (with_autolock ms meta) /\ autolockMs s'.1 = ms /\
  last (alerts s'.2) = Some "Security settings saved" /\
  (ms = meta_autolockMs meta <-> (60000 | meta_autolockMs meta)).
Proof.
  intros Em Hms. rewrite run_load, run_saveSecurity. cbn [snd].
  unfold after_saveSecurity. rewrite entered_ms_after_load. cbn [fst snd after_load].
  destruct (shown_minutes_meta s.1 meta Em Hms) as [-> Hr].
  unfold served, response. rewrite set_autolock_answers, Em.
  destruct (Z.ltb_spec (Math_round_div (meta_autolockMs meta) 60000 * 60000) (60 * 1000));
    [lia|].
  cbn [fst snd]. unfold autolock_set. split_and!.
  - case_bool_decide; exact (meta_of_with_meta _ s.1).
  - by case_bool_decide.
  - cbn. by rewrite last_snoc.
  - split.
    + intros <-. by apply Z.divide_factor_r.
    + intros [k ->]. by rewrite Math_round_div_mul.
Qed.

(** The theme that is saved is the theme the page shows when it is
    opened again, [system] standing for none; saving it changes nothing of
    what the worker reads: the metadata, the keys and the vault. *)
Theorem theme_is_shown_again s :
  let s' := (load (saveTheme s).2).2 in
  theme_value s'.2 = str_or (theme_value s.2) "system" /\
  meta_of s'.1 = meta_of s.1 /\ effective_key s'.1 = effective_key s.1 /\
  vault_record s'.1 = vault_record s.1.
Proof.
  rewrite run_saveTheme, run_load. cbn [after_load after_saveTheme fst snd theme_value
    set_minutes_value set_theme_value].
  by rewrite theme_of_with_theme, meta_of_with_theme.
Qed.

End options_facts.
