(* ===== verification/Popup.v ===== *)
(** * Popup: the popup [popup.js]

    The popup shows one of two views, the form that unlocks the vault or
    the list of its credentials with the form that adds one, and a dialog
    that edits one.  It reads and writes its document through
    [document.getElementById]: a [PopupPage] holds, by the id of the
    element, the [value] of the inputs, the elements that carry the class
    [hidden] and the elements that are [open] (the panel and the dialog);
    then the text of the error, the state of the button, the items of the
    list, the texts shown with [alert] and what the page has written to the
    clipboard.  An item of the list is its markup and the credential that
    the listeners of its three buttons hold.

    The page runs beside the worker, on a pair of states as [Options]: it
    talks to the worker through [chrome.runtime.sendMessage] only.  The user
    is the events of [PopupEvent]: typing into a field, clicking a button.
    [crypto.randomUUID] and the active tab of [chrome.tabs.query] come with
    the click that needs them.

    The theorems: every event is a run of the worker and returns; once the
    page is loaded exactly one view is shown; the view, the error and the
    list after an unlock; what is saved is listed; what the dialog sends
    back when nothing is edited; and what the page still holds after the
    vault is locked. *)

From Stdlib Require Import ZArith Lia Ascii String.
From stdpp Require Import base tactics option list strings gmap.
From S2P Require Import Prelude Text Crypto Storage Vault Generator Background Handlers Session Machine Refinement.

#[local] Open Scope Z_scope.

(** An item of the list: [left.innerHTML], and the credential [c] of the
    listeners. *)
Record Item := {
  item_html : string;
  item_cred : Credential;
}.

Record PopupPage := {
  values : gmap string string;
  hidden : gset string;
  open_elements : gset string;
  unlockBtn_disabled : bool;
  unlockError : string;
  items : list Item;
  popup_alerts : list string;
  clipboard : option string;
}.

Definition set_values (x : gmap string string) (p : PopupPage) : PopupPage :=
  {| values := x; hidden := hidden p; open_elements := open_elements p;
     unlockBtn_disabled := unlockBtn_disabled p; unlockError := unlockError p;
     items := items p; popup_alerts := popup_alerts p; clipboard := clipboard p |}.

Definition set_hidden (x : gset string) (p : PopupPage) : PopupPage :=
  {| values := values p; hidden := x; open_elements := open_elements p;
     unlockBtn_disabled := unlockBtn_disabled p; unlockError := unlockError p;
     items := items p; popup_alerts := popup_alerts p; clipboard := clipboard p |}.

Definition set_open_elements (x : gset string) (p : PopupPage) : PopupPage :=
  {| values := values p; hidden := hidden p; open_elements := x;
     unlockBtn_disabled := unlockBtn_disabled p; unlockError := unlockError p;
     items := items p; popup_alerts := popup_alerts p; clipboard := clipboard p |}.

Definition set_unlockBtn_disabled (x : bool) (p : PopupPage) : PopupPage :=
  {| values := values p; hidden := hidden p; open_elements := open_elements p;
     unlockBtn_disabled := x; unlockError := unlockError p;
     items := items p; popup_alerts := popup_alerts p; clipboard := clipboard p |}.

Definition set_unlockError (x : string) (p : PopupPage) : PopupPage :=
  {| values := values p; hidden := hidden p; open_elements := open_elements p;
     unlockBtn_disabled := unlockBtn_disabled p; unlockError := x;
     items := items p; popup_alerts := popup_alerts p; clipboard := clipboard p |}.

Definition set_items (x : list Item) (p : PopupPage) : PopupPage :=
  {| values := values p; hidden := hidden p; open_elements := open_elements p;
     unlockBtn_disabled := unlockBtn_disabled p; unlockError := unlockError p;
     items := x; popup_alerts := popup_alerts p; clipboard := clipboard p |}.

Definition set_clipboard (x : option string) (p : PopupPage) : PopupPage :=
  {| values := values p; hidden := hidden p; open_elements := open_elements p;
     unlockBtn_disabled := unlockBtn_disabled p; unlockError := unlockError p;
     items := items p; popup_alerts := popup_alerts p; clipboard := x |}.

(** [alert(text)] *)
Definition popup_alert (text : string) (p : PopupPage) : PopupPage :=
  {| values := values p; hidden := hidden p; open_elements := open_elements p;
     unlockBtn_disabled := unlockBtn_disabled p; unlockError := unlockError p;
     items := items p; popup_alerts := popup_alerts p ++ [text];
     clipboard := clipboard p |}.

(** [el(id).value], and its assignment *)
Definition field (id : string) (p : PopupPage) : string := default "" (values p !! id).

Definition set_field (id value : string) (p : PopupPage) : PopupPage :=
  set_values (<[id := value]> (values p)) p.

(** [classList.add('hidden')], [classList.remove('hidden')] *)
Definition hide (id : string) (p : PopupPage) : PopupPage :=
  set_hidden ({[id]} ∪ hidden p) p.

Definition unhide (id : string) (p : PopupPage) : PopupPage :=
  set_hidden (hidden p ∖ {[id]}) p.

Definition showLocked (p : PopupPage) : PopupPage :=
  hide "vaultView" (unhide "lockedView" p).

(** [showVault] before it calls [refreshList]. *)
Definition showVault_views (p : PopupPage) : PopupPage :=
  unhide "vaultView" (hide "lockedView" p).

(** [r && r.unlocked] *)
Definition resp_unlocked (r : Response) : bool :=
  match r with RespStatus unlocked => unlocked | _ => false end.

(** The test of the loop of [refreshList] on a credential, for the query
    [q]: the credential is skipped when it is false. *)
Definition matches_query (q : string) (c : Credential) : bool :=
  negb (truthy q)
  || str_includes (toLowerCase (username c)) q
  || str_includes (toLowerCase (join "," (default [] (origins c)))) q.

(** The markup of an item. *)
Definition render_item (c : Credential) : Item :=
  {| item_html :=
       "<div>" ++ escapeHtml (str_or (username c) "(no username)")
       ++ " <span class=" ++ String dquote ("small" ++ String dquote ">")
       ++ escapeHtml (str_or (default "" (head (default [] (origins c)))) "")
       ++ "</span></div>";
     item_cred := c |}.

(** [value.split(',').map(s => s.trim()).filter(Boolean)] *)
Definition form_origins (value : string) : list string :=
  filterb truthy (trim <$> split "," value).

(** The active tab as [saveCredential] reads it: [tabs[0].url], and
    [new URL(url).origin]. *)
Record ActiveTab := {
  active_url : option string;
  active_origin : outcome string;
}.

(** The origins [saveCredential] falls back to when the form names none. *)
Definition tab_origins (tab : ActiveTab) : list string :=
  match or_null (active_url tab), active_origin tab with
  | Some url, Ret origin => if is_http url then [origin] else []
  | _, _ => []
  end.

(** The credential [saveCredential] builds from the form, the active tab
    and a fresh id. *)
Definition new_credential (tab : ActiveTab) (uuid : string) (p : PopupPage) : Credential :=
  let origins := form_origins (field "inOrigins" p) in
  {| cred_id := uuid;
     origins := Some (if bool_decide (origins = []) then tab_origins tab else origins);
     origin := None;
     username := field "inUser" p; password := field "inPass" p;
     notes := field "inNotes" p |}.

(** The credential the listener of [editSave] builds from the dialog. *)
Definition edited_credential (p : PopupPage) : Credential :=
  {| cred_id := field "editId" p;
     origins := Some (form_origins (field "editOrigins" p));
     origin := None;
     username := field "editUser" p; password := field "editPass" p;
     notes := field "editNotes" p |}.

(** The form that adds a credential, emptied. *)
Definition clear_form (p : PopupPage) : PopupPage :=
  set_field "inNotes" "" (set_field "inPass" ""
    (set_field "inUser" "" (set_field "inOrigins" "" p))).

(** [dlg.close()] *)
Definition close_dialog (p : PopupPage) : PopupPage :=
  set_open_elements (open_elements p ∖ {["editDialog"]}) p.

(** Exactly one of the two views is shown. *)
Definition one_view (p : PopupPage) : Prop :=
  "lockedView" ∈ hidden p <-> "vaultView" ∉ hidden p.

(** An origin that the form of the dialog reads back as it is: not empty,
    nothing to trim, no comma. *)
Definition plain (o : string) : Prop := o <> "" /\ trim o = o /\ has_char "," o = false.

(** [{ length: 20 }] *)
Definition length_20 : Options :=
  {| opt_length := Some 20; opt_lower := None; opt_upper := None;
     opt_digits := None; opt_symbols := None |}.

(** The fields of the dialog that [openEditDialog] fills. *)
Definition openEditDialog (cred : Credential) (p : PopupPage) : PopupPage :=
  set_open_elements ({["editDialog"]} ∪ open_elements p)
    (set_field "editNotes" (str_or (notes cred) "")
    (set_field "editPass" (str_or (password cred) "")
    (set_field "editUser" (str_or (username cred) "")
    (set_field "editOrigins" (join ", " (default [] (origins cred)))
    (set_field "editId" (cred_id cred) p))))).

(** What the user does. *)
Inductive PopupEvent :=
| PopupLoaded
| TypeInto (id text : string)
| ClickUnlock
| KeyDown (key : string)
| InputSearch (text : string)
| ClickSave (tab : ActiveTab) (uuid : string)
| ClickGen
| ClickAddToggle
| ClickLock
| ClickEditGen
| ClickEditCancel
| ClickEditSave
| ClickEdit (i : nat)
| ClickCopy (i : nat)
| ClickDelete (i : nat).

Section popup.
Context `{WebCrypto} `{JSON VaultDoc}.

(** [chrome.runtime.sendMessage(msg)], and a change of the page *)
Definition send (msg : Request) : M (World * PopupPage) Response := zoom (onMessage msg).

Definition page (f : PopupPage -> PopupPage) : M (World * PopupPage) unit := zoom (modify f).

Definition refreshList : M (World * PopupPage) unit :=
  attempt (
    p ← gets snd;
    let q := toLowerCase (str_or (field "search" p) "") in
    r ← send LIST_CREDENTIALS;
    _ ← page (set_items []);
    if negb (ok r) then mret tt
    else
      match r with
      | RespCreds creds =>
          page (set_items (render_item <$> filterb (matches_query q) creds))
      | _ => throw "r.creds is not iterable"
      end).

Definition showVault : M (World * PopupPage) unit :=
  _ ← page showVault_views;
  refreshList.

Definition status : M (World * PopupPage) unit :=
  try_catch
    (r ← send STATUS;
     if resp_unlocked r then showVault else page showLocked)
    (fun _ => page showLocked).

Definition unlock : M (World * PopupPage) unit :=
  p ← gets snd;
  let password := field "masterInput" p in
  _ ← page (set_unlockBtn_disabled true);
  r ← send (UNLOCK password);
  _ ← page (set_unlockBtn_disabled false);
  if negb (ok r)
  then page (set_unlockError (str_or (resp_error r) "Failed to unlock"))
  else
    _ ← page (set_unlockError "");
    _ ← page (set_field "masterInput" "");
    showVault.

Definition saveCredential (tab : ActiveTab) (uuid : string) : M (World * PopupPage) unit :=
  p ← gets snd;
  if negb (truthy (field "inPass" p)) then page (popup_alert "Password is required")
  else
    r ← send (SAVE_CREDENTIAL (new_credential tab uuid p));
    if ok r then
      _ ← page clear_form;
      refreshList
    else page (popup_alert ("Failed to save: " ++ str_or (resp_error r) "")).

(** [genPassword], and the listener of [editGen], which differ in the
    field they fill. *)
Definition generate_into (id : string) : M (World * PopupPage) unit :=
  r ← send (GENERATE_PASSWORD (Some length_20));
  if negb (ok r) then mret tt
  else
    match r with
    | RespPassword password => page (set_field id password)
    | _ => page (set_field id "undefined")
    end.

Definition genPassword : M (World * PopupPage) unit := generate_into "inPass".

(** The listener of [editSave]. *)
Definition editSave : M (World * PopupPage) unit :=
  p ← gets snd;
  if negb (truthy (field "editId" p)) then mret tt
  else
    r ← send (SAVE_CREDENTIAL (edited_credential p));
    if ok r then
      _ ← page close_dialog;
      refreshList
    else mret tt.

(** The listeners of the three buttons of the item [i]. *)
Definition on_item (i : nat) (f : Credential -> M (World * PopupPage) unit) : M (World * PopupPage) unit :=
  p ← gets snd;
  match items p !! i with
  | Some item => f (item_cred item)
  | None => mret tt
  end.

Definition copy_click (c : Credential) : M (World * PopupPage) unit :=
  page (set_clipboard (Some (str_or (password c) ""))).

Definition delete_click (c : Credential) : M (World * PopupPage) unit :=
  _ ← send (DELETE_CREDENTIAL (cred_id c));
  refreshList.

(** The listeners that [wire] adds, and the ones of the items. *)
Definition popup_event (e : PopupEvent) : M (World * PopupPage) unit :=
  match e with
  | PopupLoaded => status
  | TypeInto id text => page (set_field id text)
  | ClickUnlock => unlock
  | KeyDown key => when (String.eqb key "Enter") unlock
  | InputSearch text =>
      _ ← page (set_field "search" text);
      refreshList
  | ClickSave tab uuid => saveCredential tab uuid
  | ClickGen => genPassword
  | ClickAddToggle =>
      page (fun p =>
        set_open_elements (if bool_decide ("addPanel" ∈ open_elements p)
                    then open_elements p ∖ {["addPanel"]}
                    else {["addPanel"]} ∪ open_elements p) p)
  | ClickLock =>
      _ ← send LOCK;
      page showLocked
  | ClickEditGen => generate_into "editPass"
  | ClickEditCancel => page close_dialog
  | ClickEditSave => editSave
  | ClickEdit i => on_item i (fun c => page (openEditDialog c))
  | ClickCopy i => on_item i copy_click
  | ClickDelete i => on_item i delete_click
  end.

(** ** The states the listeners leave *)

(** The items [refreshList] shows for the answer [r]. *)
Definition listed (q : string) (r : Response) : list Item :=
  match r with
  | RespCreds creds => render_item <$> filterb (matches_query q) creds
  | _ => []
  end.

Definition refreshed (s : World * PopupPage) : World * PopupPage :=
  (served LIST_CREDENTIALS s.1,
   set_items (listed (toLowerCase (field "search" s.2)) (response LIST_CREDENTIALS s.1))
     s.2).

Definition after_status (s : World * PopupPage) : World * PopupPage :=
  if resp_unlocked (response STATUS s.1)
  then refreshed (served STATUS s.1, showVault_views s.2)
  else (served STATUS s.1, showLocked s.2).

Definition after_unlock (s : World * PopupPage) : World * PopupPage :=
  let msg := UNLOCK (field "masterInput" s.2) in
  let p := set_unlockBtn_disabled false s.2 in
  if ok (response msg s.1)
  then refreshed (served msg s.1,
         showVault_views (set_field "masterInput" "" (set_unlockError "" p)))
  else (served msg s.1,
        set_unlockError (str_or (resp_error (response msg s.1)) "Failed to unlock") p).

Definition after_save (tab : ActiveTab) (uuid : string) (s : World * PopupPage) :
    World * PopupPage :=
  let msg := SAVE_CREDENTIAL (new_credential tab uuid s.2) in
  if negb (truthy (field "inPass" s.2)) then (s.1, popup_alert "Password is required" s.2)
  else if ok (response msg s.1) then refreshed (served msg s.1, clear_form s.2)
  else (served msg s.1,
        popup_alert ("Failed to save: " ++ resp_error (response msg s.1)) s.2).

Definition after_editSave (s : World * PopupPage) : World * PopupPage :=
  let msg := SAVE_CREDENTIAL (edited_credential s.2) in
  if negb (truthy (field "editId" s.2)) then s
  else if ok (response msg s.1) then refreshed (served msg s.1, close_dialog s.2)
  else (served msg s.1, s.2).

Definition after_lock (s : World * PopupPage) : World * PopupPage :=
  (served LOCK s.1, showLocked s.2).

End popup.

(** * Theorems *)

Section popup_facts.
Context `{WebCrypto} `{JSON VaultDoc}.
Implicit Types (s : World * PopupPage) (p : PopupPage) (w : World) (c : Credential).

(** ** Messages, and changes of the page *)

Lemma run_send msg s : send msg s = (Ret (response msg s.1), (served msg s.1, s.2)).
Proof. unfold send. by rewrite run_zoom, onMessage_response. Qed.

Lemma run_page f s : page f s = (Ret tt, (s.1, f s.2)).
Proof. by destruct s. Qed.

Lemma str_or_empty (a : string) : str_or a "" = a.
Proof. unfold str_or. by destruct a. Qed.

(** ** Every listener returns, and is a run of the worker *)

Lemma send_ran msg : respects ran (send msg).
Proof. intros s. apply ran_message. Qed.

Lemma page_ran f : respects ran (page f).
Proof. intros s. rewrite run_page. exists []. constructor. Qed.

Lemma send_total msg : total (send msg).
Proof. intros s. rewrite run_send. by eexists. Qed.

Lemma page_total f : total (page f).
Proof. intros s. by eexists. Qed.

End popup_facts.

(** [prun] runs the messages and the changes of the page in the goal. *)
Ltac prun :=
  repeat first [rewrite run_bind | rewrite run_send | rewrite run_page | progress mrun].

#[export] Hint Resolve send_ran page_ran send_total page_total : js.

Section popup_runs.
Context `{WebCrypto} `{JSON VaultDoc}.
Implicit Types (s : World * PopupPage) (p : PopupPage) (w : World) (c : Credential).

Lemma refreshList_ran : respects ran refreshList.
Proof. unfold refreshList. by_cases. Qed.

Lemma popup_event_ran e : respects ran (popup_event e).
Proof.
  pose proof refreshList_ran.
  destruct e; cbn [popup_event]; unfold status, unlock, saveCredential, genPassword,
    generate_into, editSave, on_item, copy_click, delete_click, showVault; by_cases.
Qed.

Lemma popup_event_total e : total (popup_event e).
Proof.
  assert (total refreshList) by apply total_attempt.
  destruct e; cbn [popup_event]; unfold status, unlock, saveCredential, genPassword,
    generate_into, editSave, on_item, copy_click, delete_click, showVault; by_cases.
Qed.

End popup_runs.

(** ** The views *)

Lemma one_view_showLocked (p : PopupPage) : one_view (showLocked p).
Proof.
  unfold one_view, showLocked, hide, unhide. cbn.
  rewrite !elem_of_union, !elem_of_difference, !elem_of_singleton. intuition congruence.
Qed.

Lemma one_view_showVault (p : PopupPage) : one_view (showVault_views p).
Proof.
  unfold one_view, showVault_views, hide, unhide. cbn.
  rewrite !elem_of_difference, !elem_of_union, !elem_of_singleton. intuition congruence.
Qed.

Section popup_states.
Context `{WebCrypto} `{JSON VaultDoc}.
Implicit Types (s : World * PopupPage) (p : PopupPage) (w : World) (c : Credential).

(** ** What the listeners do *)

Lemma run_refreshList s : refreshList s = (Ret tt, refreshed s).
Proof.
  unfold refreshList, refreshed. rewrite run_attempt. f_equal. prun.
  rewrite str_or_empty. destruct (response LIST_CREDENTIALS s.1); by prun.
Qed.

Lemma run_showVault s : showVault s = (Ret tt, refreshed (s.1, showVault_views s.2)).
Proof. unfold showVault. prun. by rewrite run_refreshList. Qed.

Lemma run_status s : status s = (Ret tt, after_status s).
Proof.
  unfold status, after_status. prun.
  destruct (resp_unlocked _); [by rewrite run_showVault|by prun].
Qed.

Lemma run_unlock s : unlock s = (Ret tt, after_unlock s).
Proof.
  unfold unlock, after_unlock. prun. cbn [fst snd].
  destruct (ok _); cbn [negb]; prun; [|done]. by rewrite run_showVault.
Qed.

Lemma run_saveCredential tab uuid s :
  saveCredential tab uuid s = (Ret tt, after_save tab uuid s).
Proof.
  unfold saveCredential, after_save. prun.
  destruct (truthy (field "inPass" s.2)); cbn [negb]; prun; [|done].
  destruct (ok _); prun; [by rewrite run_refreshList|by rewrite str_or_empty].
Qed.

Lemma run_editSave s : editSave s = (Ret tt, after_editSave s).
Proof.
  unfold editSave, after_editSave. prun.
  destruct (truthy (field "editId" s.2)); cbn [negb]; prun; [|by destruct s].
  destruct (ok _); prun; [|done]. by rewrite run_refreshList.
Qed.

Lemma run_lock s : popup_event ClickLock s = (Ret tt, after_lock s).
Proof. cbn [popup_event]. by prun. Qed.

Lemma run_on_item i f s :
  on_item i f s = match items s.2 !! i with
                  | Some item => f (item_cred item) s
                  | None => (Ret tt, s)
                  end.
Proof. unfold on_item. mrun. by destruct (items s.2 !! i). Qed.

(** ** The views *)

(** The relation of the states of the page that keep one view shown. *)
Definition keeps_view : relation (World * PopupPage) := keeping (fun s => one_view s.2).

Lemma send_keeps_view msg : respects keeps_view (send msg).
Proof. intros s Hs. by rewrite run_send. Qed.

Lemma page_keeps_view f : (forall p, hidden (f p) = hidden p) -> respects keeps_view (page f).
Proof.
  intros Hf s. rewrite run_page. unfold keeps_view, keeping, one_view. cbn.
  by rewrite Hf.
Qed.

Lemma refreshList_keeps_view : respects keeps_view refreshList.
Proof. intros s Hs. by rewrite run_refreshList. Qed.

Lemma showLocked_keeps_view : respects keeps_view (page showLocked).
Proof. intros s _. rewrite run_page. apply one_view_showLocked. Qed.

Lemma showVault_keeps_view : respects keeps_view (page showVault_views).
Proof. intros s _. rewrite run_page. apply one_view_showVault. Qed.

#[local] Hint Resolve send_keeps_view page_keeps_view refreshList_keeps_view
  showLocked_keeps_view showVault_keeps_view : js.

(** Every listener keeps one view shown. *)
Lemma popup_event_keeps_view e : respects keeps_view (popup_event e).
Proof.
  destruct e; cbn [popup_event]; unfold status, unlock, saveCredential, genPassword,
    generate_into, editSave, on_item, copy_click, delete_click; by_cases.
Qed.

(** ** The dialog *)

Lemma field_set_field id id' v p :
  field id (set_field id' v p) = if decide (id' = id) then v else field id p.
Proof.
  unfold field, set_field. cbn. case_decide as E; [subst; by rewrite lookup_insert_eq|].
  by rewrite lookup_insert_ne.
Qed.

Lemma field_set_open id x p : field id (set_open_elements x p) = field id p.
Proof. done. Qed.

Lemma field_refreshed id s : field id (refreshed s).2 = field id s.2.
Proof. done. Qed.

Lemma field_showVault_views id p : field id (showVault_views p) = field id p.
Proof. done. Qed.

(** The fields of the form once it is emptied. *)
Lemma field_clear_form id p :
  field id (clear_form p) =
  if bool_decide (id ∈ ["inOrigins"; "inUser"; "inPass"; "inNotes"]) then "" else field id p.
Proof.
  unfold clear_form. rewrite !field_set_field. case_bool_decide as Hin.
  - rewrite !elem_of_cons, elem_of_nil in Hin.
    destruct Hin as [->|[->|[->|[->|[]]]]]; by vm_compute.
  - rewrite !not_elem_of_cons in Hin. destruct Hin as (? & ? & ? & ? & _).
    by rewrite !decide_False.
Qed.

(** What the form reads of origins that [openEditDialog] has joined. *)
Lemma form_origins_join os : Forall plain os -> form_origins (join ", " os) = os.
Proof.
  unfold form_origins. destruct os as [|o os]; [done|]. intros Hos.
  rewrite (split_join "," " ").
  - cbn [fmap list_fmap]. rewrite <- list_fmap_compose.
    rewrite filterb_all.
    + apply Forall_cons in Hos as [(_ & -> & _) Hos]. f_equal.
      rewrite <- (list_fmap_id os) at 2. apply Forall_fmap_ext_1.
      eapply Forall_impl; [done|]. intros o' (_ & Ho' & _). cbn.
      by rewrite (trim_spaces " ") by by repeat constructor.
    + rewrite Forall_cons, Forall_fmap. apply Forall_cons in Hos as [(Ho & Et & _) Hos].
      split; [by rewrite Et; apply truthy_string|].
      eapply Forall_impl; [done|]. intros o' (Ho' & Et' & _). cbn.
      rewrite (trim_spaces " ") by by repeat constructor. by rewrite Et'; apply truthy_string.
  - constructor; [done|]. eapply Forall_impl; [done|]. by intros o' (_ & _ & ?).
Qed.

(** What the form reads is plain. *)
Lemma form_origins_plain value : Forall plain (form_origins value).
Proof.
  unfold form_origins. apply Forall_forall. intros o [Ho Ht]%elem_of_filterb.
  apply list_elem_of_fmap in Ho as (part & -> & Hpart).
  split_and!; [by apply truthy_string|apply trim_idemp|].
  apply trim_has_char. by apply (proj1 (Forall_forall _ _) (split_has_char "," value)).
Qed.

(** The credential the dialog holds once [openEditDialog] has filled it. *)
Lemma edited_credential_opened c p :
  edited_credential (openEditDialog c p) =
  {| cred_id := cred_id c; origins := Some (form_origins (join ", " (default [] (origins c))));
     origin := None; username := username c; password := password c; notes := notes c |}.
Proof.
  unfold edited_credential, openEditDialog.
  rewrite !field_set_open, !field_set_field, !str_or_empty. by cbn.
Qed.

End popup_states.

(** * The claims on the popup *)

Section popup_claims.
Context `{WebCrypto} `{JSON VaultDoc} `{!IdealAEAD}.
Implicit Types (s : World * PopupPage) (p : PopupPage) (w : World) (c : Credential).

(** The list in a state the worker has reached with the vault unlocked:
    the credentials of the stored document that match the query, in the
    order of the document. *)
Lemma refreshed_unlocked s key :
  reachable s.1 -> effective_key s.1 = Some key ->
  exists doc, vault_doc key s.1 = Ret doc /\
    effective_key (refreshed s).1 = Some key /\ vault_doc key (refreshed s).1 = Ret doc /\
    item_cred <$> items (refreshed s).2 =
      filterb (matches_query (toLowerCase (field "search" s.2))) (creds doc).
Proof.
  intros Hr Hk. pose proof (reachable_credentials LIST_CREDENTIALS s.1 Hr eq_refl) as Hl.
  rewrite Hk in Hl. destruct Hl as (doc & Hd & Ha & _ & Hk' & Hd').
  exists doc. unfold refreshed, response, served. rewrite Ha. cbn.
  split_and!; [done..|]. rewrite <- list_fmap_compose. apply list_fmap_id.
Qed.

(** Once the page is loaded, exactly one of the two views is shown,
    whatever the user does and whatever the worker answers. *)
Theorem one_view_is_shown e s :
  e = PopupLoaded \/ one_view s.2 -> one_view (popup_event e s).2.2.
Proof.
  intros [->|Hv]; [|by apply popup_event_keeps_view].
  cbn [popup_event]. rewrite run_status. unfold after_status.
  destruct (resp_unlocked _); [apply one_view_showVault|apply one_view_showLocked].
Qed.

(** Every listener of the popup returns, and what it does to the
    worker is a run of the worker: the state it leaves is one the worker
    reaches, where the invariants of the refinement hold. *)
Theorem popup_runs_the_worker e s :
  reachable s.1 -> exists s', popup_event e s = (Ret tt, s') /\ reachable s'.1.
Proof.
  intros Hr. destruct (popup_event_total e s) as [[] Hret].
  exists (popup_event e s).2. split; [by destruct (popup_event e s); cbn in *; subst|].
  by eapply reachable_ran; [|apply popup_event_ran].
Qed.

(** C22: a click on the button that unlocks.  When the worker accepts the
    password, the vault is unlocked, the view of the vault is shown with the
    credentials of the vault that match the search, and the field of the
    password and the error are emptied.  When it refuses, the page shows the
    error of the response and changes nothing else: the view, the list and
    the password in its field stay. *)
Theorem unlock_shows_vault s :
  reachable s.1 ->
  let r := response (UNLOCK (field "masterInput" s.2)) s.1 in
  let s' := (popup_event ClickUnlock s).2 in
  if ok r then
    exists key doc, effective_key s'.1 = Some key /\ vault_doc key s'.1 = Ret doc /\
      (item_cred <$> items s'.2) =
        filterb (matches_query (toLowerCase (field "search" s.2))) (creds doc) /\
      ("vaultView" ∉ hidden s'.2) /\ ("lockedView" ∈ hidden s'.2) /\
      field "masterInput" s'.2 = "" /\ unlockError s'.2 = ""
  else
    unlockError s'.2 = str_or (resp_error r) "Failed to unlock" /\
    hidden s'.2 = hidden s.2 /\ items s'.2 = items s.2 /\
    field "masterInput" s'.2 = field "masterInput" s.2.
Proof.
  intros Hr. cbn [popup_event]. rewrite run_unlock. unfold after_unlock. cbn [snd].
  destruct (ok _) eqn:Hok; [|done].
  destruct (reachable_unlocked _ _ Hr Hok) as [key Hk].
  match goal with |- context [refreshed ?s1] =>
    destruct (refreshed_unlocked s1 key) as (doc & _ & Hk' & Hd & Hi);
      [by apply reachable_served|done|]
  end.
  exists key, doc. split_and!; [done|done| | | | |done].
  - rewrite Hi. unfold field. cbn. by rewrite lookup_insert_ne.
  - cbn. rewrite elem_of_difference, elem_of_singleton. tauto.
  - cbn. rewrite elem_of_difference, elem_of_union, !elem_of_singleton.
    split; [by left|done].
  - unfold field. cbn. by rewrite lookup_insert_eq.
Qed.

(** What the buttons that save and delete do to an unlocked vault: the
    document is edited, the key stays, and the list is the one of the new
    document. *)
Lemma edit_unlocked msg w p key :
  reachable w -> effective_key w = Some key -> needs_key msg = true ->
  let s' := refreshed (served msg w, p) in
  exists doc, vault_doc key w = Ret doc /\ response msg w = answer msg doc /\
    effective_key s'.1 = Some key /\
    vault_doc key s'.1 = Ret (default doc (edit msg doc)) /\
    (item_cred <$> items s'.2) =
      filterb (matches_query (toLowerCase (field "search" p)))
        (creds (default doc (edit msg doc))).
Proof.
  intros Hr Hk Hm. pose proof (reachable_credentials msg w Hr Hm) as Hs.
  rewrite Hk in Hs. destruct Hs as (doc & Hd & Ha & _ & Hk' & Hd').
  destruct (refreshed_unlocked (served msg w, p) key) as (doc' & Hd1 & Hk2 & Hd2 & Hi);
    [by apply reachable_served|done|].
  cbn [fst snd] in Hd1. unfold served in Hd1 at 1. rewrite Hd' in Hd1.
  injection Hd1 as <-. exists doc. split_and!; [done| |done..].
  unfold response. by rewrite Ha.
Qed.

(** C23: a credential that is saved is listed.  With the vault unlocked
    and a password in the form, a click on the button that saves stores the
    credential of the form under the fresh id, by [upsert]; the list then
    shows the credentials of the new document that match the search, and the
    form is emptied.  The origins are the ones typed, or else the origin of
    the active tab. *)
Theorem saved_credential_is_listed tab uuid s key :
  reachable s.1 -> effective_key s.1 = Some key -> field "inPass" s.2 <> "" ->
  let c := new_credential tab uuid s.2 in
  let s' := (popup_event (ClickSave tab uuid) s).2 in
  exists doc, vault_doc key s.1 = Ret doc /\ vault_doc key s'.1 = Ret (upsert c doc) /\
    (item_cred <$> items s'.2) =
      filterb (matches_query (toLowerCase (field "search" s.2))) (creds (upsert c doc)) /\
    field "inOrigins" s'.2 = "" /\ field "inUser" s'.2 = "" /\
    field "inPass" s'.2 = "" /\ field "inNotes" s'.2 = "" /\
    popup_alerts s'.2 = popup_alerts s.2.
Proof.
  intros Hr Hk Hp. cbn [popup_event]. rewrite run_saveCredential. unfold after_save.
  cbn [snd]. rewrite (proj2 (truthy_string _) Hp). cbn [negb].
  destruct (edit_unlocked (SAVE_CREDENTIAL (new_credential tab uuid s.2)) s.1
              (clear_form s.2) key Hr Hk eq_refl) as (doc & Hd & -> & _ & Hd' & Hi).
  cbn [answer ok]. exists doc. split_and!; [done|exact Hd'| |..|done].
  - rewrite field_clear_form in Hi. exact Hi.
  - rewrite field_refreshed. cbn [snd]. by rewrite field_clear_form.
  - rewrite field_refreshed. cbn [snd]. by rewrite field_clear_form.
  - rewrite field_refreshed. cbn [snd]. by rewrite field_clear_form.
  - rewrite field_refreshed. cbn [snd]. by rewrite field_clear_form.
Qed.

(** C25: the dialog gives back what it was open_elements with.  For a credential
    of the list whose origins are plain and that has no field [origin],
    [openEditDialog] followed by the button that saves sends that very
    credential to the worker, unless its id is empty. *)
Theorem edit_dialog_roundtrip i item os s :
  items s.2 !! i = Some item -> origins (item_cred item) = Some os ->
  Forall plain os -> origin (item_cred item) = None -> cred_id (item_cred item) <> "" ->
  let c := item_cred item in
  let s1 := (popup_event (ClickEdit i) s).2 in
  edited_credential s1.2 = c /\
  (popup_event ClickEditSave s1).2.1 =
    if ok (response (SAVE_CREDENTIAL c) s.1)
    then served LIST_CREDENTIALS (served (SAVE_CREDENTIAL c) s.1)
    else served (SAVE_CREDENTIAL c) s.1.
Proof.
  intros Hi Ho Hos Hn Hid. cbn [popup_event]. rewrite run_on_item, Hi, run_page.
  cbn [fst snd].
  assert (edited_credential (openEditDialog (item_cred item) s.2) = item_cred item) as Ec.
  { rewrite edited_credential_opened, Ho. cbn [default]. rewrite form_origins_join by done.
    destruct (item_cred item). cbn in *. by subst. }
  split; [done|]. rewrite run_editSave. unfold after_editSave. cbn [fst snd].
  rewrite Ec. replace (field "editId" (openEditDialog (item_cred item) s.2))
    with (cred_id (item_cred item)) by by rewrite <- Ec at 1.
  rewrite (proj2 (truthy_string _) Hid). cbn [negb]. by destruct (ok _).
Qed.

(** C24: the button that locks hides the list and keeps it.  After the
    click the worker holds no key and the view of the vault is hidden, but
    the items of the list are the ones of before: the listener of the button
    [Copy] of an item still writes its password to the clipboard. *)
Theorem lock_keeps_items i s :
  let s' := (popup_event ClickLock s).2 in
  effective_key s'.1 = None /\ "vaultView" ∈ hidden s'.2 /\ items s'.2 = items s.2 /\
  clipboard (popup_event (ClickCopy i) s').2.2 =
    match items s.2 !! i with
    | Some item => Some (password (item_cred item))
    | None => clipboard s.2
    end.
Proof.
  rewrite run_lock. unfold after_lock, served. rewrite lock_answers. cbn [fst snd].
  split_and!; [apply effective_key_cleared| |done|].
  - cbn. rewrite elem_of_union, elem_of_singleton. by left.
  - cbn [popup_event]. rewrite run_on_item. cbn [snd items showLocked hide unhide set_hidden].
    destruct (items s.2 !! i) as [item|]; [|done].
    unfold copy_click. rewrite run_page. cbn. by rewrite str_or_empty.
Qed.

(** C19: the popup on a locked vault.  When the worker holds no key, in
    memory or in the session, the operations of the vault view fail without
    a word: a search and a click on [Delete] empty the list, the dialog
    stays open on a save, and only the form that adds a credential shows the
    error.  The worker is left as it was, and so are the views: the popup
    does not go back to the form that unlocks. *)
Theorem locked_vault_in_popup s q tab uuid :
  effective_key s.1 = None ->
  (popup_event (InputSearch q) s).2 = (s.1, set_items [] (set_field "search" q s.2)) /\
  (field "inPass" s.2 <> "" ->
   (popup_event (ClickSave tab uuid) s).2 =
     (s.1, popup_alert "Failed to save: Locked" s.2)) /\
  (field "editId" s.2 <> "" -> (popup_event ClickEditSave s).2 = s) /\
  (forall i, is_Some (items s.2 !! i) ->
   (popup_event (ClickDelete i) s).2 = (s.1, set_items [] s.2)).
Proof.
  intros Hk.
  assert (forall msg p, needs_key msg = true ->
            response msg s.1 = RespError "Locked" /\ served msg s.1 = s.1) as Hl.
  { intros msg p Hm. unfold response, served. by rewrite credentials_locked. }
  assert (forall p, refreshed (s.1, p) = (s.1, set_items [] p)) as Hrefresh.
  { intros p. unfold refreshed. cbn [fst snd].
    by destruct (Hl LIST_CREDENTIALS p eq_refl) as [-> ->]. }
  split_and!.
  - cbn [popup_event]. prun. by rewrite run_refreshList, Hrefresh.
  - intros Hp. cbn [popup_event]. rewrite run_saveCredential. unfold after_save.
    rewrite (proj2 (truthy_string _) Hp). cbn [negb snd].
    by destruct (Hl (SAVE_CREDENTIAL (new_credential tab uuid s.2)) s.2 eq_refl) as [-> ->].
  - intros Hid. cbn [popup_event]. rewrite run_editSave. unfold after_editSave.
    rewrite (proj2 (truthy_string _) Hid). cbn [negb snd].
    destruct (Hl (SAVE_CREDENTIAL (edited_credential s.2)) s.2 eq_refl) as [-> ->].
    by destruct s.
  - intros i [item Hi]. cbn [popup_event]. rewrite run_on_item, Hi.
    unfold delete_click. prun.
    destruct (Hl (DELETE_CREDENTIAL (cred_id (item_cred item))) s.2 eq_refl) as [_ ->].
    by rewrite run_refreshList, Hrefresh.
Qed.

End popup_claims.
