(* ===== verification/Content.v ===== *)
(** * Content: the content script [content.js]

    The script runs in a page and talks to the worker by messages.  What it
    reads of the page is the list of its [input] elements, in document
    order, and the forms around them; an element is its index in that list.
    A [Tab] is the origin of the page, the elements, the forms and the
    credential pickers that are open; a [Browser] is a tab and the [World]
    of the worker, so that [fetchCreds] and the save hook are calls of
    [onMessage].

    An [Element] has the properties the script reads: [el_type] is the
    property [type] (the attribute in lower case, so that the selector
    [input[type="password" i]] is [el_type = "password"]), [rect_width] and
    [rect_height] the size of [getBoundingClientRect], [style_display] and
    [style_visibility] the computed style, [el_form] the form of
    [closest('form')], and [passvaultEdited], [passvaultApplied] the two
    flags of [dataset] (set means equal to ['1']).  A [Form] says whether it
    holds a button that submits, and which elements its submit listener has
    captured.

    The script changes values and flags only: the elements and the forms of
    a tab stay the ones it was loaded with.  The listeners of the page itself
    are not part of the model, and neither is the drawing of the picker: a
    picker is the list of credentials it shows.  The functions on strings
    are in [Text].  Every listener runs to completion before the next
    event. *)

From Stdlib Require Import ZArith Lia Ascii String.
From stdpp Require Import base tactics option list strings.
From S2P Require Import Prelude Text Crypto Storage Vault Background Handlers.

#[local] Open Scope Z_scope.

(** ** The page *)

Record Element := {
  el_type : string;
  el_name : string;
  el_id : string;
  el_placeholder : string;
  el_autocomplete : string;
  el_value : string;
  el_disabled : bool;
  el_readOnly : bool;
  rect_width : Z;
  rect_height : Z;
  style_display : string;
  style_visibility : string;
  el_form : option nat;
  passvaultEdited : bool;
  passvaultApplied : bool;
}.

#[export] Instance Element_eq_dec : EqDecision Element.
Proof. solve_decision. Defined.

Record Form := {
  submit_button : bool;
  passvault_hooked : option (option nat * nat);
}.

#[export] Instance Form_eq_dec : EqDecision Form.
Proof. solve_decision. Defined.

Record Tab := {
  tab_origin : string;
  inputs : list Element;
  forms : list Form;
  pickers : list (list Credential);
}.

#[export] Instance Tab_eq_dec : EqDecision Tab.
Proof. solve_decision. Defined.

Definition set_inputs (x : list Element) (t : Tab) : Tab :=
  {| tab_origin := tab_origin t; inputs := x; forms := forms t; pickers := pickers t |}.

Definition set_forms (x : list Form) (t : Tab) : Tab :=
  {| tab_origin := tab_origin t; inputs := inputs t; forms := x; pickers := pickers t |}.

Definition set_pickers (x : list (list Credential)) (t : Tab) : Tab :=
  {| tab_origin := tab_origin t; inputs := inputs t; forms := forms t; pickers := x |}.

Definition set_value (v : string) (el : Element) : Element :=
  {| el_type := el_type el; el_name := el_name el; el_id := el_id el;
     el_placeholder := el_placeholder el; el_autocomplete := el_autocomplete el;
     el_value := v; el_disabled := el_disabled el; el_readOnly := el_readOnly el;
     rect_width := rect_width el; rect_height := rect_height el;
     style_display := style_display el; style_visibility := style_visibility el;
     el_form := el_form el; passvaultEdited := passvaultEdited el;
     passvaultApplied := passvaultApplied el |}.

(** [el.dataset.passvaultEdited = '1'] *)
Definition mark_edited (el : Element) : Element :=
  {| el_type := el_type el; el_name := el_name el; el_id := el_id el;
     el_placeholder := el_placeholder el; el_autocomplete := el_autocomplete el;
     el_value := el_value el; el_disabled := el_disabled el;
     el_readOnly := el_readOnly el;
     rect_width := rect_width el; rect_height := rect_height el;
     style_display := style_display el; style_visibility := style_visibility el;
     el_form := el_form el; passvaultEdited := true;
     passvaultApplied := passvaultApplied el |}.

(** [el.dataset.passvaultApplied = '1'] *)
Definition mark_applied (el : Element) : Element :=
  {| el_type := el_type el; el_name := el_name el; el_id := el_id el;
     el_placeholder := el_placeholder el; el_autocomplete := el_autocomplete el;
     el_value := el_value el; el_disabled := el_disabled el;
     el_readOnly := el_readOnly el;
     rect_width := rect_width el; rect_height := rect_height el;
     style_display := style_display el; style_visibility := style_visibility el;
     el_form := el_form el; passvaultEdited := passvaultEdited el;
     passvaultApplied := true |}.

(** What [findFields] reads of an element: everything but the value and the
    two flags. *)
Definition shape (el : Element) : Element :=
  {| el_type := el_type el; el_name := el_name el; el_id := el_id el;
     el_placeholder := el_placeholder el; el_autocomplete := el_autocomplete el;
     el_value := ""; el_disabled := el_disabled el; el_readOnly := el_readOnly el;
     rect_width := rect_width el; rect_height := rect_height el;
     style_display := style_display el; style_visibility := style_visibility el;
     el_form := el_form el; passvaultEdited := false; passvaultApplied := false |}.

(** A change of the element [i] of the page. *)
Definition on_el (i : nat) (f : Element -> Element) (t : Tab) : Tab :=
  set_inputs (alter f i (inputs t)) t.

(** The elements with their indices. *)
Definition numbered {A} (l : list A) : list (nat * A) := imap pair l.

(** ** [isVisible] and [findFields] *)

Definition isVisible (el : Element) : bool :=
  let hidden := String.eqb (style_display el) "none"
                || String.eqb (style_visibility el) "hidden" in
  (0 <? rect_width el) && (0 <? rect_height el) && negb hidden.

(** The elements of [pwAll]. *)
Definition candidate (el : Element) : bool :=
  String.eqb (el_type el) "password" && isVisible el
  && negb (el_disabled el) && negb (el_readOnly el).

(** What the spec asks of a password field: a password input of non-zero
    size, with no style that hides it, enabled and writable. *)
Definition usable_password (el : Element) : Prop :=
  el_type el = "password" /\ 0 < rect_width el /\ 0 < rect_height el /\
  style_display el <> "none" /\ style_visibility el <> "hidden" /\
  el_disabled el = false /\ el_readOnly el = false.

(** [form.querySelector('button[type="submit"], input[type="submit"],
    button:not([type])')] finds something. *)
Definition has_submit (t : Tab) (f : nat) : bool :=
  default false (submit_button <$> forms t !! f)
  || existsb (fun el => bool_decide (el_form el = Some f)
                        && String.eqb (el_type el) "submit") (inputs t).

(** [form && form.querySelector(...)] of the first loop *)
Definition in_submit_form (t : Tab) (p : nat * Element) : bool :=
  match el_form p.2 with
  | Some f => has_submit t f
  | None => false
  end.

Definition userHints : list string :=
  ["user"; "email"; "login"; "id"; "mail"; "account"; "phone"].

(** The three tests of the second loop on one element. *)
Definition by_type (el : Element) : bool :=
  includes ["text"; "email"; "username"] (toLowerCase (str_or (el_type el) "text")).

Definition by_autocomplete (el : Element) : bool :=
  includes ["username"; "email"] (toLowerCase (el_autocomplete el)).

Definition by_hint (el : Element) : bool :=
  existsb (fun h => str_includes (toLowerCase (el_name el)) h
                    || str_includes (toLowerCase (el_id el)) h
                    || str_includes (toLowerCase (el_placeholder el)) h) userHints.

(** An element that passes one of them. *)
Definition user_like (el : Element) : bool :=
  by_type el || by_autocomplete el || by_hint el.

(** [user = user || el] *)
Definition or_el (user : option nat) (i : nat) : option nat :=
  match user with
  | Some u => Some u
  | None => Some i
  end.

(** The body of the second loop. *)
Definition user_step (pw : nat) (user : option nat) (p : nat * Element) : option nat :=
  if bool_decide (p.1 = pw) then user
  else
    let user := if by_type p.2 then or_el user p.1 else user in
    let user := if by_autocomplete p.2 then or_el user p.1 else user in
    if by_hint p.2 then or_el user p.1 else user.

(** [scope.querySelectorAll('input')] *)
Definition in_scope (scope : option nat) (p : nat * Element) : bool :=
  match scope with
  | Some f => bool_decide (el_form p.2 = Some f)
  | None => true
  end.

Record Fields := {
  f_form : option nat;
  f_user : option nat;
  f_pw : nat;
}.

#[export] Instance Fields_eq_dec : EqDecision Fields.
Proof. solve_decision. Defined.

(** An element that can be the companion of the password field of
    [fields]: in its scope, another element, and [user_like]. *)
Definition eligible (fields : Fields) (p : nat * Element) : bool :=
  in_scope (f_form fields) p && negb (bool_decide (p.1 = f_pw fields)) && user_like p.2.

(** [pwAll]: the password fields that are visible and can be written. *)
Definition pwAll (t : Tab) : list (nat * Element) :=
  filterb (fun p => candidate p.2) (numbered (inputs t)).

(** The first loop, and [pw = pw || pwAll[0]]. *)
Definition choose_pw (t : Tab) : option (nat * Element) :=
  match pwAll t with
  | [] => None
  | first :: _ => Some (default first (find (in_submit_form t) (pwAll t)))
  end.

(** The second loop, over the inputs of the form of [pw], or of the
    document when it has none. *)
Definition find_user (t : Tab) (pw : nat * Element) : option nat :=
  fold_left (user_step pw.1)
    (filterb (in_scope (el_form pw.2)) (numbered (inputs t))) None.

Definition findFields (t : Tab) : option Fields :=
  match choose_pw t with
  | None => None
  | Some pw =>
      Some {| f_form := el_form pw.2; f_user := find_user t pw; f_pw := pw.1 |}
  end.

(** ** [setValue], the [input] listener and [applyCred] *)

(** The listener of [input] on the document: [target] is the element the
    event is for, when it is an [input]. *)
Definition input_listener (target : option nat) (t : Tab) : Tab :=
  match target with
  | Some i => on_el i mark_edited t
  | None => t
  end.

(** The setter of [value], then the events [input] and [change]; the script
    listens to the first itself. *)
Definition setValue (el : option nat) (value : string) (t : Tab) : Tab :=
  match el with
  | None => t
  | Some i => input_listener (Some i) (on_el i (set_value value) t)
  end.

Definition applyCred (cred : Credential) (t : Tab) : Tab :=
  match findFields t with
  | None => t
  | Some fields =>
      let t :=
        match f_user fields with
        | Some user =>
            if truthy (username cred)
            then on_el user mark_applied (setValue (Some user) (username cred) t)
            else t
        | None => t
        end in
      on_el (f_pw fields) mark_applied (setValue (Some (f_pw fields)) (password cred) t)
  end.

(** An element after [setValue] and the mark of [applyCred]: the listener of
    [input] has seen the event that [setValue] sends. *)
Definition filled (v : string) (el : Element) : Element :=
  mark_applied (mark_edited (set_value v el)).

(** The page after [applyCred] has written to [fields]. *)
Definition fill (cred : Credential) (fields : Fields) (t : Tab) : Tab :=
  let t :=
    match f_user fields with
    | Some user =>
        if truthy (username cred) then on_el user (filled (username cred)) t else t
    | None => t
    end in
  on_el (f_pw fields) (filled (password cred)) t.

(** An element that the script has written to counts as edited. *)
Definition marked (el : Element) : Prop :=
  passvaultApplied el = true -> passvaultEdited el = true.

Definition well_marked (t : Tab) : Prop := Forall marked (inputs t).

(** ** The picker *)

(** The markup of a row. *)
Definition row_html (c : Credential) : string :=
  "<span>" ++ escapeHtml (str_or (username c) "(no username)") ++ "</span> <span class="
  ++ String dquote "small" ++ String dquote ">"
  ++ escapeHtml (default "" (head (default [] (origins c)))) ++ "</span>".

(** [renderPicker]: what the picker holds, one row for each of the first six
    credentials. *)
Definition renderPicker (creds : list Credential) (t : Tab) : Tab :=
  set_pickers (pickers t ++ [take 6 creds]) t.

(** A click on the row [k] of the picker [j]: the listener of the row
    applies the credential and removes the picker; the listeners [onDoc] of
    the other pickers remove them. *)
Definition click_row (j k : nat) (t : Tab) : Tab :=
  match pickers t !! j ≫= (.!! k) with
  | Some c => set_pickers [] (applyCred c t)
  | None => t
  end.

(** A click elsewhere: every [onDoc] removes its picker. *)
Definition click_outside (t : Tab) : Tab := set_pickers [] t.

(** ** The save hook *)

Definition value_of (i : nat) (t : Tab) : string :=
  default "" (el_value <$> inputs t !! i).

Definition set_hook (h : option nat * nat) (fm : Form) : Form :=
  {| submit_button := submit_button fm; passvault_hooked := Some h |}.

Definition ensureSaveHook (t : Tab) : Tab :=
  match findFields t with
  | None => t
  | Some lf =>
      match f_form lf with
      | None => t
      | Some form =>
          if bool_decide (is_Some (forms t !! form ≫= passvault_hooked)) then t
          else set_forms (alter (set_hook (f_user lf, f_pw lf)) form (forms t)) t
      end
  end.

(** [{ id, origins: [origin], origin, username, password, notes: '' }] *)
Definition captured (id origin username password : string) : Credential :=
  {| cred_id := id; origins := Some [origin]; Vault.origin := Some origin;
     Vault.username := username; Vault.password := password; notes := "" |}.

(** A change of an element that [findFields] does not see, that keeps the
    mark of an edit and keeps the element [marked]. *)
Record gentle (f : Element -> Element) : Prop := {
  gentle_shape : forall el, shape (f el) = shape el;
  gentle_edited : forall el, passvaultEdited el = true -> passvaultEdited (f el) = true;
  gentle_marked : forall el, marked el -> marked (f el);
}.

(** The changes the script makes to a page, one after the other: to an
    element, to the pickers, to the hook of a form. *)
Inductive evolves : Tab -> Tab -> Prop :=
| evolves_refl t : evolves t t
| evolves_el i f t t' :
    gentle f -> evolves (on_el i f t) t' -> evolves t t'
| evolves_pickers x t t' :
    evolves (set_pickers x t) t' -> evolves t t'
| evolves_hook h form t t' :
    evolves (set_forms (alter (set_hook h) form (forms t)) t) t' -> evolves t t'.

(** ** The browser: the tab and the worker *)

Record Browser := {
  worker : World;
  tab : Tab;
}.

Definition set_worker (x : World) (b : Browser) : Browser :=
  {| worker := x; tab := tab b |}.

Definition set_tab (x : Tab) (b : Browser) : Browser :=
  {| worker := worker b; tab := x |}.

#[export] Instance Browser_worker : Lens Browser World.
Proof. by refine {| view := worker; update := set_worker |}; [..|intros []|]. Defined.

#[export] Instance Browser_tab : Lens Browser Tab.
Proof. by refine {| view := tab; update := set_tab |}; [..|intros []|]. Defined.

(** The messages the content script listens to. *)
Inductive PageRequest :=
| APPLY_CREDENTIAL (cred : option Credential)
| TRIGGER_AUTOFILL
| PAGE_OTHER (type : string).

(** [resp.creds || []] *)
Definition resp_creds (resp : Response) : list Credential :=
  match resp with
  | RespCreds creds => creds
  | _ => []
  end.

(** The two guards of [maybeAutofill] before it asks the worker. *)
Definition edited_at (i : nat) (t : Tab) : bool :=
  default false (passvaultEdited <$> inputs t !! i).

Definition applied_at (i : nat) (t : Tab) : bool :=
  default false (passvaultApplied <$> inputs t !! i).

Definition skips (fields : Fields) (t : Tab) : bool :=
  from_option (fun user => edited_at user t) false (f_user fields)
  || edited_at (f_pw fields) t
  || applied_at (f_pw fields) t && truthy (value_of (f_pw fields) t).

Section content.
Context `{WebCrypto} `{JSON VaultDoc}.

Definition fetchCreds : M Browser (option Response) :=
  try_catch
    (b ← get;
     resp ← zoom (onMessage (GET_CREDENTIALS_FOR_ORIGIN (tab_origin (tab b))));
     mret (Some resp))
    (fun _ => mret None).

Definition maybeAutofill (showPicker : bool) : M Browser unit :=
  b ← get;
  match findFields (tab b) with
  | None => mret tt
  | Some fields =>
      if skips fields (tab b) then mret tt
      else
        resp ← fetchCreds;
        match resp with
        | None => mret tt
        | Some resp =>
            if negb (ok resp) then mret tt
            else
              match resp_creds resp with
              | [] => mret tt
              | [cred] => zoom (modify (applyCred cred))
              | creds => when showPicker (zoom (modify (renderPicker creds)))
              end
        end
  end.

(** The listener of [submit] that [ensureSaveHook] adds to the form [form];
    [confirmed] is the answer to [window.confirm] and [id] the result of
    [crypto.randomUUID]. *)
Definition on_submit (form : nat) (confirmed : bool) (id : string) : M Browser unit :=
  b ← get;
  match forms (tab b) !! form ≫= passvault_hooked with
  | None => mret tt
  | Some (user, pw) =>
      attempt (
        let username := from_option (fun user => value_of user (tab b)) "" user in
        let password := value_of pw (tab b) in
        if negb (truthy password) then mret tt
        else if negb confirmed then mret tt
        else
          _ ← zoom (onMessage (SAVE_CREDENTIAL
                 (captured id (tab_origin (tab b)) username password)));
          mret tt)
  end.

(** The triggers. *)
(** [maybeAutofill] has one [await], of [fetchCreds].  Up to it the script
    finds the fields and tests the two guards; from it on it works with
    the response, on the page as it is when the response arrives. *)
Definition autofill_asks (t : Tab) : bool :=
  match findFields t with
  | None => false
  | Some fields => negb (skips fields t)
  end.

Definition autofill_goes_on (showPicker : bool) (resp : option Response) : M Browser unit :=
  match resp with
  | None => mret tt
  | Some resp =>
      if negb (ok resp) then mret tt
      else
        match resp_creds resp with
        | [] => mret tt
        | [cred] => zoom (modify (applyCred cred))
        | creds => when showPicker (zoom (modify (renderPicker creds)))
        end
  end.

Definition on_start : M Browser unit :=
  _ ← maybeAutofill true;
  zoom (modify ensureSaveHook).

Definition on_focus : M Browser unit := maybeAutofill false.

(** [e.target && e.target.matches('input[type="password"]')] *)
Definition on_focusin (target : option nat) : M Browser unit :=
  b ← get;
  match target ≫= (inputs (tab b) !!.) with
  | Some el => when (String.eqb (el_type el) "password") (maybeAutofill false)
  | None => mret tt
  end.

Definition on_mutation : M Browser unit :=
  _ ← maybeAutofill false;
  zoom (modify ensureSaveHook).

(** The listener of [chrome.runtime.onMessage] of the page: [true] when it
    sends [{ ok: true }]. *)
Definition content_onMessage (msg : PageRequest) : M Browser bool :=
  match msg with
  | APPLY_CREDENTIAL (Some cred) =>
      _ ← zoom (modify (applyCred cred));
      mret true
  | TRIGGER_AUTOFILL =>
      _ ← maybeAutofill true;
      mret true
  | _ => mret false
  end.

(** The user types [v] into the element [i]: the browser sets the value and
    sends [input]. *)
Definition typed (i : nat) (v : string) (t : Tab) : Tab :=
  input_listener (Some i) (on_el i (set_value v) t).

(** ** The states the listeners leave *)

(** What the worker does with the request of [fetchCreds], and its answer. *)
Definition asked (b : Browser) : outcome Response * World :=
  onMessage (GET_CREDENTIALS_FOR_ORIGIN (tab_origin (tab b))) (worker b).

Definition reply (b : Browser) : Response :=
  match (asked b).1 with
  | Ret resp => resp
  | Throw message => RespError message
  end.

(** What [maybeAutofill] does to the page with the answer. *)
Definition autofilled (showPicker : bool) (resp : Response) (t : Tab) : Tab :=
  if negb (ok resp) then t
  else
    match resp_creds resp with
    | [] => t
    | [cred] => applyCred cred t
    | creds => if showPicker then renderPicker creds t else t
    end.

Definition after_autofill (showPicker : bool) (b : Browser) : Browser :=
  match findFields (tab b) with
  | None => b
  | Some fields =>
      if skips fields (tab b) then b
      else {| worker := (asked b).2; tab := autofilled showPicker (reply b) (tab b) |}
  end.

(** The credential that a submit of [form] sends to the worker, when it
    sends one. *)
Definition submitted (form : nat) (confirmed : bool) (id : string) (t : Tab) :
    option Credential :=
  match forms t !! form ≫= passvault_hooked with
  | None => None
  | Some (user, pw) =>
      if truthy (value_of pw t) && confirmed
      then Some (captured id (tab_origin t)
                   (from_option (fun user => value_of user t) "" user) (value_of pw t))
      else None
  end.

Definition after_submit (form : nat) (confirmed : bool) (id : string) (b : Browser) :
    Browser :=
  match submitted form confirmed id (tab b) with
  | None => b
  | Some credential => set_worker (onMessage (SAVE_CREDENTIAL credential) (worker b)).2 b
  end.

End content.

(** * Theorems *)

(** ** Lists with indices *)

Lemma numbered_lookup {A} (l : list A) i : numbered l !! i = pair i <$> l !! i.
Proof. apply list_lookup_imap. Qed.

Lemma elem_of_numbered {A} (l : list A) i x : (i, x) ∈ numbered l <-> l !! i = Some x.
Proof.
  unfold numbered. rewrite elem_of_lookup_imap. split.
  - by intros (j & y & [= -> ->] & Hy).
  - intros Hx. by exists i, x.
Qed.

(** A change of one element, seen on the numbered list. *)
Definition at_index {A} (i : nat) (f : A -> A) (p : nat * A) : nat * A :=
  if decide (p.1 = i) then (p.1, f p.2) else p.

Lemma numbered_alter {A} (f : A -> A) i (l : list A) :
  numbered (alter f i l) = at_index i f <$> numbered l.
Proof.
  apply list_eq. intros j. rewrite list_lookup_fmap, !numbered_lookup. unfold at_index.
  destruct (decide (j = i)) as [->|Hj].
  - rewrite list_lookup_alter_eq. destruct (l !! i); [|done]. cbn. by rewrite decide_True.
  - rewrite list_lookup_alter_ne by done. destruct (l !! j); [|done]. cbn.
    by rewrite decide_False.
Qed.

Lemma filterb_fmap {A} (P : A -> bool) (g : A -> A) (l : list A) :
  (forall x, P (g x) = P x) -> filterb P (g <$> l) = g <$> filterb P l.
Proof.
  intros Hg. unfold filterb. induction l as [|x l IH]; [done|]. cbn.
  rewrite Hg, IH. by destruct (P x).
Qed.

Lemma find_fmap {A} (P Q : A -> bool) (g : A -> A) (l : list A) :
  (forall x, P (g x) = Q x) -> find P (g <$> l) = g <$> find Q l.
Proof.
  intros Hg. induction l as [|x l IH]; [done|]. cbn. rewrite Hg, IH. by destruct (Q x).
Qed.

Lemma find_pointwise {A} (P Q : A -> bool) (l : list A) :
  (forall x, P x = Q x) -> find P l = find Q l.
Proof. intros E. induction l as [|x l IH]; [done|]. cbn. by rewrite E, IH. Qed.

(** [find] on a numbered list finds the least index. *)
Lemma find_list_find {A} (P : A -> bool) (l : list A) :
  find P l = snd <$> list_find (fun x => P x = true) l.
Proof.
  induction l as [|x l IH]; [done|]. cbn. rewrite IH. destruct (P x); cbn; [done|].
  by destruct (list_find _ l) as [[]|].
Qed.

Lemma find_numbered_Some {A} (P : nat * A -> bool) (l : list A) i x :
  find P (numbered l) = Some (i, x) <->
  l !! i = Some x /\ P (i, x) = true /\
  forall j y, l !! j = Some y -> (j < i)%nat -> P (j, y) = false.
Proof.
  rewrite find_list_find. split.
  - destruct (list_find _ _) as [[n p]|] eqn:E; [|done]. intros [= ->].
    apply list_find_Some in E as (Hn & HP & Hmin). rewrite numbered_lookup in Hn.
    destruct (l !! n) as [x'|] eqn:El; [|done]. injection Hn as [= <- <-].
    split_and!; [done..|]. intros j y Hj Hlt. apply not_true_is_false.
    apply (Hmin j (j, y)); [|done]. by rewrite numbered_lookup, Hj.
  - intros (Hi & HP & Hmin).
    assert (list_find (fun p => P p = true) (numbered l) = Some (i, (i, x))) as ->; [|done].
    apply list_find_Some. split_and!; [by rewrite numbered_lookup, Hi|done|].
    intros j [j' y] Hj Hlt. rewrite numbered_lookup in Hj.
    destruct (l !! j) as [y'|] eqn:El; [|done]. injection Hj as [= <- <-].
    by rewrite (Hmin j y').
Qed.

Lemma find_numbered_None {A} (P : nat * A -> bool) (l : list A) :
  find P (numbered l) = None <-> forall j y, l !! j = Some y -> P (j, y) = false.
Proof.
  rewrite find_list_find, fmap_None, list_find_None, Forall_forall. split.
  - intros Hn j y Hj. apply not_true_is_false, Hn. by apply elem_of_numbered.
  - intros Hn [j y] Hj%elem_of_numbered. by rewrite (Hn j y).
Qed.

Lemma find_filterb {A} (P Q : A -> bool) (l : list A) :
  find P (filterb Q l) = find (fun x => Q x && P x) l.
Proof.
  unfold filterb. induction l as [|x l IH]; [done|]. cbn.
  destruct (Q x); cbn; [by rewrite IH|done].
Qed.

Lemma head_filterb {A} (Q : A -> bool) (l : list A) : head (filterb Q l) = find Q l.
Proof.
  unfold filterb. induction l as [|x l IH]; [done|]. cbn. by destruct (Q x).
Qed.

Lemma fold_left_fmap {A B} (step : B -> A -> B) (g : A -> A) (l : list A) b :
  (forall b x, step b (g x) = step b x) ->
  fold_left step (g <$> l) b = fold_left step l b.
Proof.
  intros Hg. revert b. induction l as [|x l IH]; [done|]. intros b. cbn.
  by rewrite Hg, IH.
Qed.

Lemma existsb_alter {A} (P : A -> bool) (f : A -> A) i (l : list A) :
  (forall x, P (f x) = P x) -> existsb P (alter f i l) = existsb P l.
Proof.
  intros Hf. revert i. induction l as [|x l IH]; [done|]. intros [|i]; cbn.
  - by rewrite Hf.
  - by rewrite IH.
Qed.

(** ** What [findFields] reads *)

(** A change of an element that [findFields] does not see. *)
Definition keeps (f : Element -> Element) : Prop := forall el, shape (f el) = shape el.

Lemma keeps_set_value v : keeps (set_value v).
Proof. by intros []. Qed.

Lemma keeps_mark_edited : keeps mark_edited.
Proof. by intros []. Qed.

Lemma keeps_mark_applied : keeps mark_applied.
Proof. by intros []. Qed.

Lemma keeps_compose f g : keeps f -> keeps g -> keeps (f ∘ g).
Proof. intros Hf Hg el. cbn. by rewrite Hf, Hg. Qed.

#[export] Hint Resolve keeps_set_value keeps_mark_edited keeps_mark_applied
  keeps_compose : js.

Section reads_shape.
Context (f : Element -> Element) (Hf : keeps f).

Lemma keeps_candidate el : candidate (f el) = candidate el.
Proof. by change (candidate (shape (f el)) = candidate (shape el)); rewrite Hf. Qed.

Lemma keeps_el_form el : el_form (f el) = el_form el.
Proof. by change (el_form (shape (f el)) = el_form (shape el)); rewrite Hf. Qed.

Lemma keeps_el_type el : el_type (f el) = el_type el.
Proof. by change (el_type (shape (f el)) = el_type (shape el)); rewrite Hf. Qed.

Lemma keeps_user_step pw user p i : user_step pw user (at_index i f p) = user_step pw user p.
Proof.
  unfold at_index. destruct (decide (p.1 = i)); [|done].
  change (user_step pw user (p.1, shape (f p.2)) = user_step pw user (p.1, shape p.2)).
  by rewrite Hf.
Qed.

Lemma keeps_in_scope scope p i : in_scope scope (at_index i f p) = in_scope scope p.
Proof.
  unfold at_index, in_scope. destruct (decide (p.1 = i)); [|done]. cbn.
  by rewrite keeps_el_form.
Qed.

Lemma keeps_has_submit t i form : has_submit (on_el i f t) form = has_submit t form.
Proof.
  unfold has_submit. cbn. f_equal. apply existsb_alter. intros el.
  by rewrite keeps_el_form, keeps_el_type.
Qed.

Lemma keeps_in_submit_form t i p :
  in_submit_form (on_el i f t) (at_index i f p) = in_submit_form t p.
Proof.
  unfold in_submit_form. replace (el_form (at_index i f p).2) with (el_form p.2).
  - destruct (el_form p.2); [apply keeps_has_submit|done].
  - unfold at_index. destruct (decide (p.1 = i)); [|done]. cbn. by rewrite keeps_el_form.
Qed.

Lemma at_index_fst {A} i (g : A -> A) p : (at_index i g p).1 = p.1.
Proof. unfold at_index. by destruct (decide _). Qed.

Lemma at_index_el_form i p : el_form (at_index i f p).2 = el_form p.2.
Proof. unfold at_index. destruct (decide _); cbn; [apply keeps_el_form|done]. Qed.

Lemma pwAll_on_el t i : pwAll (on_el i f t) = at_index i f <$> pwAll t.
Proof.
  unfold pwAll. cbn [inputs on_el set_inputs]. rewrite numbered_alter.
  apply filterb_fmap. intros p. unfold at_index. destruct (decide _); cbn; [|done].
  apply keeps_candidate.
Qed.

Lemma choose_pw_on_el t i : choose_pw (on_el i f t) = at_index i f <$> choose_pw t.
Proof.
  unfold choose_pw. rewrite pwAll_on_el.
  rewrite (find_fmap _ (in_submit_form t)) by (intros p; apply keeps_in_submit_form).
  destruct (pwAll t) as [|first l]; [done|]. rewrite fmap_cons. cbn [fmap option_fmap option_map].
  by destruct (find _ _).
Qed.

Lemma find_user_on_el t i pw : find_user (on_el i f t) (at_index i f pw) = find_user t pw.
Proof.
  unfold find_user. cbn [inputs on_el set_inputs].
  rewrite numbered_alter, at_index_fst, at_index_el_form.
  rewrite filterb_fmap by (intros p; apply keeps_in_scope).
  by rewrite fold_left_fmap by (intros u p; apply keeps_user_step).
Qed.

(** [findFields] finds the same fields after such a change. *)
Lemma findFields_on_el t i : findFields (on_el i f t) = findFields t.
Proof.
  unfold findFields. rewrite choose_pw_on_el. destruct (choose_pw t) as [pw|]; [|done].
  cbn [fmap option_fmap option_map]. by rewrite find_user_on_el, at_index_fst, at_index_el_form.
Qed.

End reads_shape.

(** ** What [findFields] finds *)

Section find_fields.
Implicit Types (t : Tab) (pw : nat * Element) (fields : Fields).

(** [findFields] reads the elements and which forms can be submitted. *)
Lemma findFields_ext t t' :
  inputs t = inputs t' -> (forall form, has_submit t form = has_submit t' form) ->
  findFields t = findFields t'.
Proof.
  intros Hi Hs. unfold findFields, choose_pw, find_user, pwAll. rewrite Hi.
  by rewrite (find_pointwise (in_submit_form t) (in_submit_form t'))
    by (intros p; unfold in_submit_form; destruct (el_form p.2); auto).
Qed.

Lemma findFields_set_pickers x t : findFields (set_pickers x t) = findFields t.
Proof. by apply findFields_ext. Qed.

Lemma findFields_set_hook h form t :
  findFields (set_forms (alter (set_hook h) form (forms t)) t) = findFields t.
Proof.
  apply findFields_ext; [done|]. intros f0. unfold has_submit. cbn. f_equal.
  destruct (decide (f0 = form)) as [->|].
  - rewrite list_lookup_alter_eq. by destruct (forms t !! form).
  - by rewrite list_lookup_alter_ne.
Qed.

(** The body of the second loop: the three tests are one. *)
Lemma user_step_like (i : nat) user p :
  user_step i user p =
  if negb (bool_decide (p.1 = i)) && user_like p.2 then or_el user p.1 else user.
Proof.
  unfold user_step, user_like.
  by destruct (bool_decide _), (by_type _), (by_autocomplete _), (by_hint _), user.
Qed.

(** The second loop keeps the first element it accepts. *)
Lemma fold_user_step_Some (i : nat) l u : fold_left (user_step i) l (Some u) = Some u.
Proof.
  induction l as [|p l IH]; [done|]. cbn [fold_left]. rewrite user_step_like.
  by destruct (_ && _).
Qed.

(** The second loop in closed form: the first element of the scope, in
    document order, that is not the password field and passes one of the
    three tests. *)
Lemma find_user_first t pw :
  find_user t pw =
  fst <$> find (fun p => negb (bool_decide (p.1 = pw.1)) && user_like p.2)
               (filterb (in_scope (el_form pw.2)) (numbered (inputs t))).
Proof.
  unfold find_user. induction (filterb _ _) as [|p l IH]; [done|].
  cbn [fold_left find]. rewrite user_step_like.
  destruct (_ && _); [apply fold_user_step_Some|done].
Qed.

Lemma find_elem_of {A} (P : A -> bool) (l : list A) x :
  find P l = Some x -> x ∈ l /\ P x = true.
Proof. intros Hx. apply find_some in Hx. by rewrite list_elem_of_In. Qed.

(** The password field is an element of the page that passes the filters
    of [pwAll]. *)
Lemma choose_pw_candidate t pw :
  choose_pw t = Some pw -> inputs t !! pw.1 = Some pw.2 /\ candidate pw.2 = true.
Proof.
  unfold choose_pw. destruct (pwAll t) as [|first l] eqn:E; [done|]. intros [= <-].
  assert (default first (find (in_submit_form t) (first :: l)) ∈ pwAll t) as Hin.
  { rewrite E. destruct (find _ _) as [p|] eqn:Ef; [by apply find_elem_of in Ef as [? _]|].
    apply list_elem_of_here. }
  apply elem_of_filterb in Hin as [Hin ?]. split; [|done].
  apply elem_of_numbered. by destruct (default _ _).
Qed.

(** The companion is another element, of the same scope, that passes one
    of the three tests. *)
Lemma find_user_other t pw user :
  find_user t pw = Some user ->
  user <> pw.1 /\
  exists el, inputs t !! user = Some el /\ in_scope (el_form pw.2) (user, el) = true /\
    user_like el = true.
Proof.
  rewrite find_user_first. destruct (find _ _) as [[u el]|] eqn:Ef; [|done].
  intros [= <-]. apply find_elem_of in Ef as [Hin Hp].
  apply elem_of_filterb in Hin as [Hin Hs]. apply elem_of_numbered in Hin.
  apply andb_prop in Hp as [Hne Hl]. apply negb_true_iff, bool_decide_eq_false in Hne.
  eauto.
Qed.

Lemma findFields_Some t fields :
  findFields t = Some fields ->
  exists pw, choose_pw t = Some pw /\
    fields = {| f_form := el_form pw.2; f_user := find_user t pw; f_pw := pw.1 |}.
Proof.
  unfold findFields. destruct (choose_pw t) as [pw|]; [|done]. intros [= <-]. eauto.
Qed.

(** The two fields are different elements. *)
Lemma findFields_user_pw t fields :
  findFields t = Some fields -> f_user fields <> Some (f_pw fields).
Proof.
  intros (pw & _ & ->)%findFields_Some. cbn. intros Hu.
  by apply find_user_other in Hu as [? _].
Qed.

End find_fields.

(** ** [setValue] and [applyCred] *)

Section apply_cred.
Implicit Types (t : Tab) (fields : Fields) (cred : Credential) (f g : Element -> Element).

Lemma on_el_compose i f g t : on_el i f (on_el i g t) = on_el i (f ∘ g) t.
Proof. unfold on_el, set_inputs. cbn. by rewrite list_alter_alter_eq. Qed.

Lemma lookup_on_el i j f t :
  inputs (on_el i f t) !! j = if decide (i = j) then f <$> inputs t !! i else inputs t !! j.
Proof. apply list_lookup_alter. Qed.

Lemma setValue_Some i v t : setValue (Some i) v t = on_el i (mark_edited ∘ set_value v) t.
Proof. unfold setValue, input_listener. apply on_el_compose. Qed.

Lemma typed_on_el i v t : typed i v t = on_el i (mark_edited ∘ set_value v) t.
Proof. apply setValue_Some. Qed.

(** [applyCred] writes the password, and the user name when there is a
    field for it and a name to write, and marks what it writes. *)
Lemma applyCred_fill cred t fields :
  findFields t = Some fields -> applyCred cred t = fill cred fields t.
Proof.
  intros E. unfold applyCred, fill. rewrite E.
  destruct (f_user fields) as [user|]; [destruct (truthy (username cred))|];
    by rewrite !setValue_Some, !on_el_compose.
Qed.

Lemma applyCred_none cred t : findFields t = None -> applyCred cred t = t.
Proof. intros E. unfold applyCred. by rewrite E. Qed.

Lemma findFields_fill cred fields t : findFields (fill cred fields t) = findFields t.
Proof.
  unfold fill, filled.
  destruct (f_user fields) as [user|]; [destruct (truthy (username cred))|];
    by rewrite !findFields_on_el by (intros []; done).
Qed.

Lemma findFields_applyCred cred t : findFields (applyCred cred t) = findFields t.
Proof.
  destruct (findFields t) as [fields|] eqn:E.
  - by rewrite (applyCred_fill _ _ fields), findFields_fill.
  - by rewrite applyCred_none.
Qed.

Lemma fill_pw cred fields t :
  f_user fields <> Some (f_pw fields) ->
  inputs (fill cred fields t) !! f_pw fields =
  filled (password cred) <$> inputs t !! f_pw fields.
Proof.
  intros Hne. unfold fill. rewrite lookup_on_el, decide_True by done.
  destruct (f_user fields) as [user|]; [destruct (truthy (username cred))|]; try done.
  rewrite lookup_on_el, decide_False; [done|congruence].
Qed.

Lemma fill_user cred fields t user :
  f_user fields = Some user -> user <> f_pw fields -> truthy (username cred) = true ->
  inputs (fill cred fields t) !! user = filled (username cred) <$> inputs t !! user.
Proof.
  intros Hu Hne Hn. unfold fill. rewrite Hu, Hn, lookup_on_el, decide_False by done.
  by rewrite lookup_on_el, decide_True.
Qed.

(** Nothing else is written. *)
Lemma fill_other cred fields t i :
  i <> f_pw fields -> f_user fields <> Some i ->
  inputs (fill cred fields t) !! i = inputs t !! i.
Proof.
  intros Hp Hu. unfold fill. rewrite lookup_on_el, decide_False by done.
  destruct (f_user fields) as [user|]; [destruct (truthy (username cred))|]; try done.
  rewrite lookup_on_el, decide_False; [done|congruence].
Qed.

Lemma applyCred_other cred t i :
  (forall fields, findFields t = Some fields ->
     i <> f_pw fields /\ f_user fields <> Some i) ->
  inputs (applyCred cred t) !! i = inputs t !! i.
Proof.
  intros Hi. destruct (findFields t) as [fields|] eqn:E.
  - rewrite (applyCred_fill _ _ fields) by done. by apply fill_other; apply Hi.
  - by rewrite applyCred_none.
Qed.

(** What [fill] leaves in an element: what was there, or the user name or
    the password of the credential, marked. *)
Lemma fill_lookup cred fields t i :
  f_user fields <> Some (f_pw fields) ->
  inputs (fill cred fields t) !! i = inputs t !! i \/
  inputs (fill cred fields t) !! i = filled (username cred) <$> inputs t !! i \/
  inputs (fill cred fields t) !! i = filled (password cred) <$> inputs t !! i.
Proof.
  intros Hne. destruct (decide (i = f_pw fields)) as [->|Hp]; [by right; right; apply fill_pw|].
  destruct (decide (f_user fields = Some i)) as [Hu|Hu]; [|by left; apply fill_other].
  destruct (truthy (username cred)) eqn:Hn; [by right; left; apply fill_user|].
  left. unfold fill. rewrite Hu, Hn. by rewrite lookup_on_el, decide_False.
Qed.

(** The values of the two fields after [fill]. *)
Lemma fill_values cred fields t :
  findFields t = Some fields ->
  value_of (f_pw fields) (fill cred fields t) = password cred /\
  forall user, f_user fields = Some user -> username cred <> "" ->
    value_of user (fill cred fields t) = username cred.
Proof.
  intros Ef. pose proof (findFields_user_pw _ _ Ef) as Hne.
  destruct (findFields_Some _ _ Ef) as (pw & Hpw & Efields). unfold value_of. split.
  - rewrite fill_pw by done. apply choose_pw_candidate in Hpw as [Hpw _].
    replace (f_pw fields) with pw.1 by by rewrite Efields. by rewrite Hpw.
  - intros user Eu Hn. rewrite (fill_user _ _ _ user);
      [|done|congruence|by apply truthy_string].
    rewrite Efields in Eu. by apply find_user_other in Eu as (_ & el & -> & _).
Qed.

(** ** Written means edited *)

Lemma well_marked_on_el i f t :
  (forall el, marked el -> marked (f el)) -> well_marked t -> well_marked (on_el i f t).
Proof. intros Hf Ht. apply Forall_alter; [done|]. auto. Qed.

Lemma marked_filled v el : marked (filled v el).
Proof. done. Qed.

Lemma marked_typed v el : marked ((mark_edited ∘ set_value v) el).
Proof. done. Qed.

Lemma well_marked_fill cred fields t : well_marked t -> well_marked (fill cred fields t).
Proof.
  intros Ht. unfold fill.
  destruct (f_user fields) as [user|]; [destruct (truthy (username cred))|];
    repeat apply well_marked_on_el; auto using marked_filled.
Qed.

Lemma well_marked_applyCred cred t : well_marked t -> well_marked (applyCred cred t).
Proof.
  intros Ht. destruct (findFields t) as [fields|] eqn:E.
  - rewrite (applyCred_fill _ _ fields) by done. by apply well_marked_fill.
  - by rewrite applyCred_none.
Qed.

Lemma well_marked_typed i v t : well_marked t -> well_marked (typed i v t).
Proof. rewrite typed_on_el. apply well_marked_on_el. auto using marked_typed. Qed.

End apply_cred.

(** ** How a page evolves *)

Section evolves.
Implicit Types (t : Tab) (cred : Credential).

Lemma gentle_typed v : gentle (mark_edited ∘ set_value v).
Proof. by split; intros []. Qed.

Lemma gentle_filled v : gentle (filled v).
Proof. by split; intros []. Qed.

#[local] Hint Resolve gentle_typed gentle_filled : core.
#[local] Hint Constructors evolves : core.

Lemma evolves_trans t1 t2 t3 : evolves t1 t2 -> evolves t2 t3 -> evolves t1 t3.
Proof. induction 1; eauto. Qed.

Lemma evolves_on_el i f t : gentle f -> evolves t (on_el i f t).
Proof. eauto. Qed.

Lemma evolves_setValue el v t : evolves t (setValue el v t).
Proof. destruct el as [i|]; [|done]. rewrite setValue_Some. eauto. Qed.

Lemma evolves_typed i v t : evolves t (typed i v t).
Proof. apply (evolves_setValue (Some i)). Qed.

Lemma evolves_fill cred fields t : evolves t (fill cred fields t).
Proof.
  unfold fill. destruct (f_user fields) as [user|]; [destruct (truthy (username cred))|];
    eauto.
Qed.

Lemma evolves_applyCred cred t : evolves t (applyCred cred t).
Proof.
  destruct (findFields t) as [fields|] eqn:E.
  - rewrite (applyCred_fill _ _ fields) by done. apply evolves_fill.
  - by rewrite applyCred_none.
Qed.

Lemma evolves_renderPicker creds t : evolves t (renderPicker creds t).
Proof. unfold renderPicker. eauto. Qed.

Lemma evolves_click_row j k t : evolves t (click_row j k t).
Proof.
  unfold click_row. destruct (_ ≫= _) as [c|]; [|done].
  eapply evolves_trans; [apply evolves_applyCred|eauto].
Qed.

Lemma evolves_click_outside t : evolves t (click_outside t).
Proof. unfold click_outside. eauto. Qed.

Lemma evolves_ensureSaveHook t : evolves t (ensureSaveHook t).
Proof.
  unfold ensureSaveHook. destruct (findFields t) as [lf|]; [|done].
  destruct (f_form lf) as [form|]; [|done]. case_bool_decide; eauto.
Qed.

Lemma evolves_autofilled showPicker resp t : evolves t (autofilled showPicker resp t).
Proof.
  unfold autofilled. destruct (negb (ok resp)); [done|].
  destruct (resp_creds resp) as [|cred [|cred' creds]]; [done|apply evolves_applyCred|].
  destruct showPicker; [apply evolves_renderPicker|done].
Qed.

(** What does not change, and what only grows. *)
Lemma evolves_findFields t t' : evolves t t' -> findFields t' = findFields t.
Proof.
  induction 1 as [|i f t t' [Hf _ _] _ IH|x t t' _ IH|h form t t' _ IH]; [done|..];
    rewrite IH.
  - by apply findFields_on_el.
  - apply findFields_set_pickers.
  - apply findFields_set_hook.
Qed.

Lemma evolves_origin t t' : evolves t t' -> tab_origin t' = tab_origin t.
Proof. induction 1; [done|by rewrite IHevolves..]. Qed.

Lemma edited_at_on_el i j f t :
  gentle f -> edited_at j t = true -> edited_at j (on_el i f t) = true.
Proof.
  intros [_ Hf _]. unfold edited_at. rewrite lookup_on_el.
  destruct (decide (i = j)) as [->|]; [|done].
  destruct (inputs t !! j) as [el|]; [|done]. cbn. apply Hf.
Qed.

(** A field that counts as edited does so for the life of the page. *)
Lemma evolves_edited t t' j : evolves t t' -> edited_at j t = true -> edited_at j t' = true.
Proof. induction 1; auto using edited_at_on_el. Qed.

Lemma evolves_well_marked t t' : evolves t t' -> well_marked t -> well_marked t'.
Proof.
  induction 1 as [|i f t t' [_ _ Hf] _ IH| |]; auto.
  intros Ht. apply IH. by apply well_marked_on_el.
Qed.

End evolves.

(** ** The listeners *)

Section listeners.
Context `{WebCrypto} `{JSON VaultDoc}.
Implicit Types (b : Browser) (t : Tab).

Lemma Browser_eta b : {| worker := worker b; tab := tab b |} = b.
Proof. by destruct b. Qed.

Lemma run_on_tab (f : Tab -> Tab) b : zoom (modify f) b = (Ret tt, set_tab (f (tab b)) b).
Proof. reflexivity. Qed.

Lemma run_on_worker {A} (m : M World A) b :
  zoom m b = ((m (worker b)).1, set_worker (m (worker b)).2 b).
Proof. by rewrite run_zoom. Qed.

(** The worker answers, so [fetchCreds] returns its answer. *)
Lemma asked_reply b : (asked b).1 = Ret (reply b).
Proof.
  unfold reply, asked.
  by destruct (onMessage_answers (GET_CREDENTIALS_FOR_ORIGIN (tab_origin (tab b)))
                 (worker b)) as [r ->].
Qed.

Lemma run_fetchCreds b : fetchCreds b = (Ret (Some (reply b)), set_worker (asked b).2 b).
Proof.
  unfold fetchCreds. mrun. rewrite run_on_worker. fold (asked b).
  by rewrite asked_reply.
Qed.

Lemma run_maybeAutofill showPicker b :
  maybeAutofill showPicker b = (Ret tt, after_autofill showPicker b).
Proof.
  unfold maybeAutofill, after_autofill. mrun.
  destruct (findFields (tab b)) as [fields|]; [|done].
  destruct (skips fields (tab b)); [done|]. mrun. rewrite run_fetchCreds.
  unfold autofilled. destruct (ok (reply b)); cbn [negb]; mrun;
    [|by destruct b].
  destruct (resp_creds (reply b)) as [|cred [|cred' creds]]; mrun;
    [by destruct b|done| destruct showPicker; mrun; [done|by destruct b]].
Qed.

(** [maybeAutofill] is its two halves when nothing happens in between. *)
Lemma maybeAutofill_split showPicker b :
  maybeAutofill showPicker b =
  (if autofill_asks (tab b) then resp ← fetchCreds; autofill_goes_on showPicker resp
   else mret tt) b.
Proof.
  unfold maybeAutofill, autofill_asks. mrun.
  destruct (findFields (tab b)) as [fields|]; [|done]. by destruct (skips fields (tab b)).
Qed.

Lemma run_autofill_goes_on showPicker resp b :
  autofill_goes_on showPicker (Some resp) b =
  (Ret tt, set_tab (autofilled showPicker resp (tab b)) b).
Proof.
  unfold autofill_goes_on, autofilled. destruct (ok resp); cbn [negb]; [|by destruct b].
  destruct (resp_creds resp) as [|cred [|cred' creds]]; mrun;
    rewrite ?run_on_tab; try by destruct b.
  destruct showPicker; [rewrite run_when_true, run_on_tab|rewrite run_when_false];
    by destruct b.
Qed.

Lemma run_on_submit form confirmed id b :
  on_submit form confirmed id b = (Ret tt, after_submit form confirmed id b).
Proof.
  unfold on_submit, after_submit, submitted. mrun.
  destruct (forms (tab b) !! form ≫= passvault_hooked) as [[user pw]|]; [|done].
  rewrite run_attempt.
  destruct (truthy (value_of pw (tab b))), confirmed; cbn [negb andb]; try by mrun.
  rewrite run_bind, run_on_worker. by destruct (onMessage _ (worker b)).1.
Qed.

(** What a submit sends carries the origin of the page, the identifier
    drawn and a password that is not empty. *)
Lemma submitted_captured form confirmed id t credential :
  submitted form confirmed id t = Some credential ->
  confirmed = true /\ cred_id credential = id /\
  origins credential = Some [tab_origin t] /\ password credential <> "".
Proof.
  unfold submitted. destruct (_ ≫= _) as [[user pw]|]; [|done].
  destruct (truthy (value_of pw t)) eqn:Hp, confirmed; try done.
  intros [= <-]. by apply truthy_string in Hp.
Qed.

Lemma run_on_start b :
  on_start b = (Ret tt, set_tab (ensureSaveHook (tab (after_autofill true b)))
                          (after_autofill true b)).
Proof. unfold on_start. mrun. by rewrite run_maybeAutofill. Qed.

Lemma run_on_mutation b :
  on_mutation b = (Ret tt, set_tab (ensureSaveHook (tab (after_autofill false b)))
                             (after_autofill false b)).
Proof. unfold on_mutation. mrun. by rewrite run_maybeAutofill. Qed.

End listeners.

(** * The claims on the page *)

Section page_claims.
Implicit Types (t : Tab) (fields : Fields).

(** The filters of [pwAll], spelled out. *)
Lemma candidate_usable el : candidate el = true <-> usable_password el.
Proof.
  unfold candidate, isVisible, usable_password.
  rewrite !andb_true_iff, !negb_true_iff, orb_false_iff, String.eqb_eq, !String.eqb_neq.
  rewrite !Z.ltb_lt. tauto.
Qed.

Lemma candidate_not_usable el : candidate el = false <-> ~ usable_password el.
Proof. rewrite <- candidate_usable. by destruct (candidate el). Qed.

(** C32: the password field that [findFields] returns is a password input
    that is visible, enabled and writable, and [form] is its form.  It is
    the first such input of the page that is inside a form with a submit
    control, and the first such input of the page when there is none;
    [findFields] returns nothing exactly when the page has no such input. *)
Theorem password_field_choice t :
  match findFields t with
  | None => forall j el, inputs t !! j = Some el -> ~ usable_password el
  | Some fields =>
      exists el, inputs t !! f_pw fields = Some el /\ usable_password el /\
        f_form fields = el_form el /\
        forall j el', inputs t !! j = Some el' -> usable_password el' ->
          if in_submit_form t (f_pw fields, el)
          then (j < f_pw fields)%nat -> in_submit_form t (j, el') = false
          else in_submit_form t (j, el') = false /\ (f_pw fields <= j)%nat
  end.
Proof.
  unfold findFields, choose_pw, pwAll.
  pose proof (head_filterb (fun p => candidate p.2) (numbered (inputs t))) as Hh.
  destruct (filterb _ _) as [|[i0 el0] l] eqn:E; cbn in Hh; symmetry in Hh.
  { intros j el Hj. by apply candidate_not_usable, (proj1 (find_numbered_None _ _) Hh j el). }
  apply find_numbered_Some in Hh as (H0 & Hc0 & Hmin0). cbn in Hc0, Hmin0.
  rewrite <- E, find_filterb.
  destruct (find _ _) as [[i el]|] eqn:Ef; cbn.
  - apply find_numbered_Some in Ef as (Hi & [Hc Hs]%andb_prop & Hmin).
    exists el. split_and!; [done|by apply candidate_usable|done|]. cbn in Hs. rewrite Hs.
    intros j el' Hj Hc'%candidate_usable Hlt.
    specialize (Hmin j el' Hj Hlt). cbn in Hmin. by rewrite Hc' in Hmin.
  - exists el0. split_and!; [done|by apply candidate_usable|done|].
    intros j el' Hj Hc'%candidate_usable.
    pose proof (proj1 (find_numbered_None _ _) Ef) as Hn.
    specialize (Hn i0 el0 H0) as Hn0. cbn in Hn0. rewrite Hc0 in Hn0. cbn in Hn0.
    rewrite Hn0. specialize (Hn j el' Hj). cbn in Hn. rewrite Hc' in Hn. split; [done|].
    destruct (decide (j < i0)%nat) as [Hlt|]; [|lia].
    specialize (Hmin0 j el' Hj Hlt). congruence.
Qed.

(** C33: the companion field that [findFields] returns is the first input in
    document order, among the inputs of the form of the password field (of
    the whole page when it has no form), that is not the password field
    and passes one of the three tests: its type, its [autocomplete], or a
    hint in its name, id or placeholder.  Which test it passes plays no
    part; there is no companion exactly when no input passes any. *)
Theorem companion_is_first_match t fields :
  findFields t = Some fields ->
  match f_user fields with
  | Some user =>
      (exists el, inputs t !! user = Some el /\ eligible fields (user, el) = true) /\
      forall j el, inputs t !! j = Some el -> (j < user)%nat ->
        eligible fields (j, el) = false
  | None => forall j el, inputs t !! j = Some el -> eligible fields (j, el) = false
  end.
Proof.
  intros (pw & _ & ->)%findFields_Some. cbn [f_user]. rewrite find_user_first, find_filterb.
  rewrite (find_pointwise _ (eligible {| f_form := el_form pw.2;
    f_user := find_user t pw; f_pw := pw.1 |}))
    by (intros p; unfold eligible; cbn; by rewrite andb_assoc).
  destruct (find _ _) as [[i el]|] eqn:Ef; cbn.
  - apply find_numbered_Some in Ef as (Hi & He & Hmin). split; [by exists el|done].
  - by apply find_numbered_None.
Qed.

End page_claims.
