(* ===== verification/Browser.v ===== *)
(** * Browser: the page and the worker together

    The listener of [chrome.contextMenus.onClicked] of [background.js] is
    the one function of the worker that writes to a page, so it is defined
    here, on a [Browser].  A [Click] is what the listener reads of its
    arguments: the item, the URL [info.pageUrl || tab.url], the result of
    [new URL(url).origin] for it, and the element that has the focus in the
    frame of the click, when it is an [input].  The tab of a [Browser] is
    that frame; its origin is the one its content script works with.

    [bstep] is the transition system of the whole: an event of the page
    ([PageEvent]: a trigger of the content script, a message to it, the user
    typing, submitting or clicking), a click in the context menu, or a step
    of the worker on its own ([Session.step]: a message of the popup, the
    alarm, a restart).  A page starts [loaded]: no flag, no picker, no hook.

    The theorems are the ones that need both sides: what reaches a field of
    the page is a credential of the vault for the origin of the page; a
    locked vault changes nothing on the page; a field the user has typed
    into is never written by an automatic fill; what the save hook captures
    is what the next page of the origin is filled with. *)

From Stdlib Require Import ZArith Lia Ascii String.
From stdpp Require Import base tactics option list strings gmap.
From S2P Require Import Prelude Text Crypto Storage Vault Background Handlers Session Machine Refinement Content.

#[local] Open Scope Z_scope.

Record Click := {
  menuItemId : string;
  url : option string;
  url_origin : outcome string;
  activeElement : option nat;
}.

(** The events of a page that the content script reacts to. *)
Inductive PageEvent :=
| Start
| Focus
| FocusIn (target : option nat)
| Mutation
| Message (msg : PageRequest)
| Typed (i : nat) (v : string)
| Submit (form : nat) (confirmed : bool) (id : string)
| ClickRow (j k : nat)
| ClickOutside.

Inductive Event :=
| Page (e : PageEvent)
| Menu (info : Click)
| Worker (l : Label).

(** The events behind which there is no decision of the user to write to
    the page. *)
Definition automatic (e : Event) : bool :=
  match e with
  | Page (Start | Focus | FocusIn _ | Mutation | Message TRIGGER_AUTOFILL
         | Message (PAGE_OTHER _) | Message (APPLY_CREDENTIAL None)
         | Submit _ _ _ | ClickOutside) => true
  | Page _ => false
  | Menu info => String.eqb (menuItemId info) "passvault_autofill"
  | Worker _ => true
  end.

(** A page that has just been loaded. *)
Definition loaded (t : Tab) : Prop :=
  Forall (fun el => passvaultEdited el = false /\ passvaultApplied el = false) (inputs t)
  /\ Forall (fun fm => passvault_hooked fm = None) (forms t)
  /\ pickers t = [].

Section browser.
Context `{WebCrypto} `{JSON VaultDoc}.

(** The listener of [chrome.contextMenus.onClicked].  The function it
    injects for the two paste items is the body of [setValue] on
    [document.activeElement]. *)
Definition onClicked (info : Click) : M Browser unit :=
  attempt (
    match or_null (url info) with
    | None => mret tt
    | Some url =>
        if negb (is_http url) then mret tt
        else
          origin ← lift (url_origin info);
          if String.eqb (menuItemId info) "passvault_autofill" then
            _ ← content_onMessage TRIGGER_AUTOFILL;
            mret tt
          else if String.eqb (menuItemId info) "passvault_paste_username"
                  || String.eqb (menuItemId info) "passvault_paste_password" then
            creds ← zoom (getCredsForOrigin origin);
            match last creds with
            | None => mret tt
            | Some cred =>
                if String.eqb (menuItemId info) "passvault_paste_username" then
                  zoom (modify (setValue (activeElement info) (username cred)))
                else if String.eqb (menuItemId info) "passvault_paste_password" then
                  zoom (modify (setValue (activeElement info) (password cred)))
                else mret tt
            end
          else mret tt
    end).

(** The state a click leaves. *)
Definition pasted (info : Click) (cred : Credential) : option string :=
  if String.eqb (menuItemId info) "passvault_paste_username" then Some (username cred)
  else if String.eqb (menuItemId info) "passvault_paste_password" then Some (password cred)
  else None.

Definition after_paste (info : Click) (origin : string) (b : Browser) : Browser :=
  let looked := getCredsForOrigin origin (worker b) in
  let b' := set_worker looked.2 b in
  match looked.1 with
  | Throw _ => b'
  | Ret creds =>
      match last creds ≫= pasted info with
      | None => b'
      | Some value => set_tab (setValue (activeElement info) value (tab b)) b'
      end
  end.

Definition after_click (info : Click) (b : Browser) : Browser :=
  match or_null (url info), url_origin info with
  | Some url, Ret origin =>
      if negb (is_http url) then b
      else if String.eqb (menuItemId info) "passvault_autofill" then after_autofill true b
      else if String.eqb (menuItemId info) "passvault_paste_username"
              || String.eqb (menuItemId info) "passvault_paste_password"
      then after_paste info origin b
      else b
  | _, _ => b
  end.

(** The state after an event of the page. *)
Definition after_event (e : PageEvent) (b : Browser) : Browser :=
  match e with
  | Start => set_tab (ensureSaveHook (tab (after_autofill true b))) (after_autofill true b)
  | Focus => after_autofill false b
  | FocusIn target =>
      match target ≫= (inputs (tab b) !!.) with
      | Some el => if String.eqb (el_type el) "password" then after_autofill false b else b
      | None => b
      end
  | Mutation =>
      set_tab (ensureSaveHook (tab (after_autofill false b))) (after_autofill false b)
  | Message (APPLY_CREDENTIAL (Some cred)) => set_tab (applyCred cred (tab b)) b
  | Message TRIGGER_AUTOFILL => after_autofill true b
  | Message _ => b
  | Typed i v => set_tab (typed i v (tab b)) b
  | Submit form confirmed id => after_submit form confirmed id b
  | ClickRow j k => set_tab (click_row j k (tab b)) b
  | ClickOutside => set_tab (click_outside (tab b)) b
  end.

(** The reaction of the content script to an event of the page. *)
Definition page_event (e : PageEvent) : M Browser unit :=
  match e with
  | Start => on_start
  | Focus => on_focus
  | FocusIn target => on_focusin target
  | Mutation => on_mutation
  | Message msg => _ ← content_onMessage msg; mret tt
  | Typed i v => zoom (modify (typed i v))
  | Submit form confirmed id => on_submit form confirmed id
  | ClickRow j k => zoom (modify (click_row j k))
  | ClickOutside => zoom (modify click_outside)
  end.

(** What an event that fills writes: the elements [l] are the ones of the
    page after [applyCred] of the one credential the worker has answered. *)
Definition writes (b : Browser) (l : list Element) : Prop :=
  l = inputs (tab b) \/
  exists fields cred,
    findFields (tab b) = Some fields /\ skips fields (tab b) = false /\
    reply b = RespCreds [cred] /\ l = inputs (fill cred fields (tab b)).

Inductive bstep : Browser -> Event -> Browser -> Prop :=
| bstep_page e b :
    bstep b (Page e) (page_event e b).2
| bstep_menu info b :
    bstep b (Menu info) (onClicked info b).2
| bstep_worker l b w' :
    step (worker b) l w' -> bstep b (Worker l) (set_worker w' b).

Inductive bsteps : Browser -> list Event -> Browser -> Prop :=
| bsteps_nil b : bsteps b [] b
| bsteps_cons b e b1 es b2 : bstep b e b1 -> bsteps b1 es b2 -> bsteps b (e :: es) b2.

(** A run of events of the page, as a function. *)
Definition play (es : list PageEvent) (b : Browser) : Browser :=
  foldl (fun b e => (page_event e b).2) b es.

(** The states of a browser in which the extension has run, on a page it
    has seen from its load. *)
Definition breachable (b : Browser) : Prop :=
  exists b0 es, reachable (worker b0) /\ loaded (tab b0) /\ bsteps b0 es b.

End browser.

(** * Theorems *)

Section browser_facts.
Context `{WebCrypto} `{JSON VaultDoc}.
Implicit Types (b : Browser) (t : Tab) (e : Event) (w : World).

(** ** The states the listeners leave *)

Lemma run_onClicked info b : onClicked info b = (Ret tt, after_click info b).
Proof.
  unfold onClicked, after_click. rewrite run_attempt. f_equal.
  destruct (or_null (url info)) as [url|]; [|done].
  destruct (is_http url); cbn [negb]; [|by destruct (url_origin info)].
  mrun. destruct (url_origin info) as [origin|]; [|done]. cbn.
  destruct (String.eqb (menuItemId info) "passvault_autofill").
  { unfold content_onMessage. mrun. by rewrite run_maybeAutofill. }
  destruct (_ || _) eqn:Ei; [|done]. unfold after_paste, pasted.
  mrun. rewrite run_on_worker. cbn.
  destruct (getCredsForOrigin origin (worker b)) as [[creds|e] w']; [|done]. cbn.
  destruct (last creds) as [cred|]; [|done]. cbn.
  by repeat destruct (String.eqb (menuItemId info) _).
Qed.

Lemma run_page_event (e : PageEvent) b : page_event e b = (Ret tt, after_event e b).
Proof.
  destruct e as [| |target| |[[cred|]| |type]|i v|form confirmed id|j k|]; cbn;
    try reflexivity.
  - apply run_on_start.
  - apply run_maybeAutofill.
  - unfold on_focusin. mrun. destruct (target ≫= _) as [el|]; [|done].
    destruct (String.eqb _ _); [apply run_maybeAutofill|done].
  - apply run_on_mutation.
  - mrun. by rewrite run_maybeAutofill.
  - apply run_on_submit.
Qed.

Lemma bsteps_play es b : bsteps b (Page <$> es) (play es b).
Proof.
  revert b. induction es as [|e es IH]; intros b; [constructor|].
  econstructor; [constructor|apply IH].
Qed.

(** ** The page under the events *)

Lemma evolves_after_autofill showPicker b : evolves (tab b) (tab (after_autofill showPicker b)).
Proof.
  unfold after_autofill. destruct (findFields (tab b)) as [fields|]; [|constructor].
  destruct (skips fields (tab b)); [constructor|apply evolves_autofilled].
Qed.

Lemma evolves_hooked b showPicker :
  evolves (tab b) (ensureSaveHook (tab (after_autofill showPicker b))).
Proof.
  eapply evolves_trans; [apply evolves_after_autofill|apply evolves_ensureSaveHook].
Qed.

Lemma tab_after_submit form confirmed id b : tab (after_submit form confirmed id b) = tab b.
Proof. unfold after_submit. by destruct (submitted _ _ _ _). Qed.

Lemma evolves_after_event (e : PageEvent) b : evolves (tab b) (tab (after_event e b)).
Proof.
  destruct e as [| |target| |[[cred|]| |type]|i v|form confirmed id|j k|];
    cbn [after_event tab set_tab];
    auto using evolves_hooked, evolves_after_autofill, evolves_applyCred, evolves_typed,
      evolves_click_row, evolves_click_outside, evolves_refl.
  - destruct (target ≫= _) as [el|]; [|constructor].
    destruct (String.eqb _ _); [apply evolves_after_autofill|constructor].
  - rewrite tab_after_submit. constructor.
Qed.

Lemma evolves_after_click info b : evolves (tab b) (tab (after_click info b)).
Proof.
  unfold after_click. destruct (or_null (url info)) as [url|]; [|constructor].
  destruct (url_origin info) as [origin|]; [|constructor].
  destruct (negb _); [constructor|].
  destruct (String.eqb _ _); [apply evolves_after_autofill|].
  destruct (_ || _); [|constructor]. unfold after_paste.
  destruct (getCredsForOrigin origin (worker b)).1 as [creds|]; [|constructor].
  destruct (last creds ≫= pasted info); [apply evolves_setValue|constructor].
Qed.

(** Every step changes the page by the changes of [evolves] only. *)
Lemma bstep_evolves b e b' : bstep b e b' -> evolves (tab b) (tab b').
Proof.
  destruct 1 as [e b|info b|l b w' _].
  - rewrite run_page_event. apply evolves_after_event.
  - rewrite run_onClicked. apply evolves_after_click.
  - constructor.
Qed.

Lemma bsteps_evolves b es b' : bsteps b es b' -> evolves (tab b) (tab b').
Proof.
  induction 1; [constructor|]. eapply evolves_trans; [by eapply bstep_evolves|done].
Qed.

(** ** The worker under the events *)

Lemma steps_one w l w' : step w l w' -> steps w [l] w'.
Proof. intros Hs. econstructor; [done|constructor]. Qed.

Lemma steps_after_autofill showPicker b :
  exists ls, steps (worker b) ls (worker (after_autofill showPicker b)).
Proof.
  unfold after_autofill. destruct (findFields (tab b)) as [fields|];
    [|exists []; constructor].
  destruct (skips fields (tab b)); [exists []; constructor|].
  eexists. apply steps_one, step_message. cbn [worker].
  rewrite (surjective_pairing (onMessage _ _)). f_equal. apply asked_reply.
Qed.

Lemma steps_after_submit form confirmed id b :
  exists ls, steps (worker b) ls (worker (after_submit form confirmed id b)).
Proof.
  unfold after_submit. destruct (submitted _ _ _ _) as [credential|];
    [|exists []; constructor].
  destruct (onMessage_answers (SAVE_CREDENTIAL credential) (worker b)) as [r Hr].
  eexists. apply steps_one, step_message. cbn [worker set_worker].
  rewrite (surjective_pairing (onMessage _ _)). by f_equal.
Qed.

Lemma steps_after_event (e : PageEvent) b :
  exists ls, steps (worker b) ls (worker (after_event e b)).
Proof.
  destruct e as [| |target| |[[cred|]| |type]|i v|form confirmed id|j k|];
    cbn [after_event worker set_tab];
    auto using steps_after_autofill, steps_after_submit;
    try (exists []; constructor).
  destruct (target ≫= _) as [el|]; [|exists []; constructor].
  destruct (String.eqb _ _); [apply steps_after_autofill|exists []; constructor].
Qed.

Lemma steps_after_click info b :
  exists ls, steps (worker b) ls (worker (after_click info b)).
Proof.
  unfold after_click. destruct (or_null (url info)) as [url|]; [|exists []; constructor].
  destruct (url_origin info) as [origin|]; [|exists []; constructor].
  destruct (negb _); [exists []; constructor|].
  destruct (String.eqb _ _); [apply steps_after_autofill|].
  destruct (_ || _); [|exists []; constructor]. unfold after_paste.
  exists [Lookup origin (getCredsForOrigin origin (worker b)).1].
  apply steps_one, step_lookup.
  destruct (getCredsForOrigin origin (worker b)) as [[creds|message] w']; cbn; [|done].
  by destruct (last creds ≫= pasted info).
Qed.

(** What a step of the browser does to the worker is a run of the worker. *)
Lemma bstep_steps b e b' : bstep b e b' -> exists ls, steps (worker b) ls (worker b').
Proof.
  destruct 1 as [e b|info b|l b w' Hs].
  - rewrite run_page_event. apply steps_after_event.
  - rewrite run_onClicked. apply steps_after_click.
  - exists [l]. by apply steps_one.
Qed.

Lemma bsteps_reachable b es b' :
  bsteps b es b' -> reachable (worker b) -> reachable (worker b').
Proof.
  induction 1 as [|b e b1 es b2 Hs _ IH]; [done|]. intros Hr. apply IH.
  destruct (bstep_steps _ _ _ Hs) as [ls Hls]. by eapply reachable_steps.
Qed.

Lemma loaded_well_marked t : loaded t -> well_marked t.
Proof.
  intros (Hl & _). eapply Forall_impl; [exact Hl|]. intros el [_ Ha] Ha'. congruence.
Qed.

Lemma breachable_worker b : breachable b -> reachable (worker b).
Proof. intros (b0 & es & Hr & _ & Hs). by eapply bsteps_reachable. Qed.

(** ** What an automatic event writes *)

Lemma inputs_ensureSaveHook t : inputs (ensureSaveHook t) = inputs t.
Proof.
  unfold ensureSaveHook. destruct (findFields t) as [lf|]; [|done].
  destruct (f_form lf); [|done]. by case_bool_decide.
Qed.

Lemma writes_refl b : writes b (inputs (tab b)).
Proof. by left. Qed.

Lemma writes_after_autofill showPicker b :
  writes b (inputs (tab (after_autofill showPicker b))).
Proof.
  unfold after_autofill. destruct (findFields (tab b)) as [fields|] eqn:Ef; [|by left].
  destruct (skips fields (tab b)) eqn:Es; [by left|]. cbn [tab]. unfold autofilled.
  destruct (reply b) as [| |creds| |] eqn:Er; cbn; try by left.
  destruct creds as [|cred [|cred' creds]]; [by left| |by destruct showPicker; left].
  right. exists fields, cred. by rewrite (applyCred_fill _ _ fields).
Qed.

Lemma writes_after_event (e : PageEvent) b :
  automatic (Page e) = true -> writes b (inputs (tab (after_event e b))).
Proof.
  destruct e as [| |target| |[[cred|]| |type]|i v|form confirmed id|j k|];
    intros He; try discriminate He; cbn [after_event tab set_tab];
    rewrite ?inputs_ensureSaveHook, ?tab_after_submit;
    auto using writes_after_autofill, writes_refl.
  destruct (target ≫= _) as [el|]; [|apply writes_refl].
  destruct (String.eqb _ _); [apply writes_after_autofill|apply writes_refl].
Qed.

Lemma writes_after_click info b :
  automatic (Menu info) = true -> writes b (inputs (tab (after_click info b))).
Proof.
  cbn. intros Hi. unfold after_click. rewrite Hi.
  destruct (or_null (url info)) as [url|]; [|apply writes_refl].
  destruct (url_origin info) as [origin|]; [|apply writes_refl].
  destruct (negb _); [apply writes_refl|apply writes_after_autofill].
Qed.

(** An automatic event writes nothing, or one credential that the worker
    has answered with, to the fields that [findFields] finds. *)
Lemma automatic_writes b e b' :
  automatic e = true -> bstep b e b' -> writes b (inputs (tab b')).
Proof.
  intros He Hs. destruct Hs as [e b|info b|l b w' _].
  - rewrite run_page_event. by apply writes_after_event.
  - rewrite run_onClicked. by apply writes_after_click.
  - by left.
Qed.

Lemma skips_false fields t :
  skips fields t = false ->
  edited_at (f_pw fields) t = false /\
  forall user, f_user fields = Some user -> edited_at user t = false.
Proof.
  unfold skips. intros (Hs & _)%orb_false_elim. apply orb_false_elim in Hs as [Hu Hp].
  split; [done|]. by intros user Eu; rewrite Eu in Hu.
Qed.

(** A field that counts as edited is not among them. *)
Lemma writes_edited b l i :
  writes b l -> edited_at i (tab b) = true -> l !! i = inputs (tab b) !! i.
Proof.
  intros [->|(fields & cred & Ef & Es & _ & ->)] Hi; [done|].
  apply skips_false in Es as [Hp Hu]. apply fill_other.
  - intros ->. congruence.
  - intros Eu. apply Hu in Eu. congruence.
Qed.

End browser_facts.

(** * The claims on the page and the worker *)

Section page_claims.
Context `{WebCrypto} `{JSON VaultDoc}.
Implicit Types (b : Browser) (t : Tab).

(** C11: a field that the user has typed into is never written by an
    automatic fill.  Whatever the worker answers and however often the
    page loads, gains the focus or changes, as long as the user does not
    choose a credential or a paste, the element keeps its value and stays
    marked as edited. *)
Theorem edited_field_is_kept b es b' i :
  bsteps b es b' -> Forall (fun e => automatic e = true) es ->
  edited_at i (tab b) = true ->
  inputs (tab b') !! i = inputs (tab b) !! i /\ edited_at i (tab b') = true.
Proof.
  induction 1 as [|b e b1 es b2 Hs _ IH]; [done|].
  intros [He Hes]%Forall_cons Hi.
  pose proof (evolves_edited _ _ i (bstep_evolves _ _ _ Hs) Hi) as Hi1.
  destruct (IH Hes Hi1) as [-> ?]. split; [|done].
  apply (writes_edited b); [by apply automatic_writes with e|done].
Qed.

(** Once [maybeAutofill] has written to the page, another call, with or
    without the picker, writes nothing and asks the worker nothing: the
    observer of mutations cannot start a cycle of fills. *)
Theorem fill_is_not_repeated showPicker showPicker' b :
  inputs (tab (maybeAutofill showPicker b).2) <> inputs (tab b) ->
  maybeAutofill showPicker' (maybeAutofill showPicker b).2 =
  (Ret tt, (maybeAutofill showPicker b).2).
Proof.
  rewrite !run_maybeAutofill. cbn [snd]. intros Hne. f_equal.
  destruct (writes_after_autofill showPicker b) as [E|(fields & cred & Ef & _ & _ & E)];
    [done|].
  unfold after_autofill at 1.
  rewrite (evolves_findFields _ _ (evolves_after_autofill showPicker b)), Ef.
  destruct (findFields_Some _ _ Ef) as (pw & [Hpw _]%choose_pw_candidate & Efields).
  assert (edited_at (f_pw fields) (tab (after_autofill showPicker b)) = true) as Hed.
  { unfold edited_at. rewrite E, fill_pw by by eapply findFields_user_pw.
    replace (f_pw fields) with pw.1 by by rewrite Efields. by rewrite Hpw. }
  unfold skips. rewrite Hed. by rewrite orb_true_r.
Qed.

(** C35: on a page that the script has seen from its load, an element that
    carries the mark of a fill carries the mark of an edit: the listener of
    [input] cannot tell the events that [setValue] sends from the typing of
    the user.  So the second guard of [maybeAutofill], on a field already
    filled that still has a value, never decides: the first one has
    returned before. *)
Theorem written_means_edited b :
  breachable b ->
  well_marked (tab b) /\
  forall fields,
    skips fields (tab b) =
    from_option (fun user => edited_at user (tab b)) false (f_user fields)
    || edited_at (f_pw fields) (tab b).
Proof.
  intros (b0 & es & _ & Hl%loaded_well_marked & Hs%bsteps_evolves).
  pose proof (evolves_well_marked _ _ Hs Hl) as Hm. split; [done|].
  intros fields. unfold skips, applied_at, edited_at.
  destruct (inputs (tab b) !! f_pw fields) as [el|] eqn:El; cbn; [|by rewrite !orb_false_r].
  eapply Forall_lookup_1 in Hm; [|done]. unfold marked in Hm.
  destruct (passvaultApplied el); [rewrite Hm by done|]; cbn;
    by rewrite ?orb_true_r, ?orb_false_r.
Qed.

End page_claims.

Section browser_claims.
Context `{WebCrypto} `{JSON VaultDoc} `{!IdealAEAD}.
Implicit Types (b : Browser) (t : Tab).

(** The answer to [fetchCreds] in a state the worker reaches. *)
Lemma reply_reachable b :
  reachable (worker b) ->
  match effective_key (worker b) with
  | None => asked b = (Ret (RespError "Locked"), worker b)
  | Some key =>
      exists doc, vault_doc key (worker b) = Ret doc /\
        reply b = RespCreds (credsForOrigin (tab_origin (tab b)) doc) /\
        (asked b).2 = touched (worker b)
  end.
Proof.
  intros Hr.
  pose proof (reachable_credentials (GET_CREDENTIALS_FOR_ORIGIN (tab_origin (tab b)))
                (worker b) Hr eq_refl) as Hc.
  destruct (effective_key (worker b)) as [key|]; [|done].
  destruct Hc as (doc & Hd & Ha & Hw & _). exists doc. split_and!; [done| |by apply Hw].
  unfold reply, asked. by rewrite Ha.
Qed.

Lemma after_autofill_locked showPicker b :
  effective_key (worker b) = None -> after_autofill showPicker b = b.
Proof.
  intros Hk. unfold after_autofill. destruct (findFields (tab b)) as [fields|]; [|done].
  destruct (skips fields (tab b)); [done|]. unfold reply, asked.
  rewrite credentials_locked by done. by destruct b.
Qed.

Lemma reachable_onMessage msg w : reachable w -> reachable (onMessage msg w).2.
Proof.
  intros Hr. destruct (onMessage_answers msg w) as [r Er].
  apply (reachable_step w (Msg msg r)); [done|]. constructor.
  by rewrite (surjective_pairing (onMessage msg w)), Er.
Qed.

(** [maybeAutofill] when the vault holds one credential for the origin. *)
Lemma after_autofill_single showPicker b key doc cred fields :
  reachable (worker b) -> effective_key (worker b) = Some key ->
  vault_doc key (worker b) = Ret doc ->
  credsForOrigin (tab_origin (tab b)) doc = [cred] ->
  findFields (tab b) = Some fields -> skips fields (tab b) = false ->
  after_autofill showPicker b =
  {| worker := touched (worker b); tab := fill cred fields (tab b) |}.
Proof.
  intros Hr Hk Hd Hc Ef Es. pose proof (reply_reachable b Hr) as Ha. rewrite Hk in Ha.
  destruct Ha as (doc' & Hd' & Er & Ew). assert (doc' = doc) as -> by congruence.
  unfold after_autofill. rewrite Ef, Es, Er, Ew, Hc. unfold autofilled. cbn.
  by rewrite (applyCred_fill _ _ fields).
Qed.

(** C18: while the vault is locked the extension does nothing to a page and
    nothing to itself: [maybeAutofill] writes no field and opens no picker,
    a click in the context menu pastes nothing, and a submit that the user
    has confirmed saves nothing, all without a sign to the page. *)
Theorem locked_vault_fills_nothing b :
  reachable (worker b) -> effective_key (worker b) = None ->
  (forall showPicker, maybeAutofill showPicker b = (Ret tt, b)) /\
  (forall info, onClicked info b = (Ret tt, b)) /\
  (forall form confirmed id, on_submit form confirmed id b = (Ret tt, b)).
Proof.
  intros (a & HR)%reachable_R Hk. split_and!.
  - intros sp. by rewrite run_maybeAutofill, after_autofill_locked.
  - intros info. rewrite run_onClicked. f_equal. unfold after_click, after_paste.
    destruct (or_null (url info)); [|done]. destruct (url_origin info) as [origin|]; [|done].
    rewrite after_autofill_locked by done.
    rewrite (getCredsForOrigin_answers origin) by apply (R_db a _ HR). rewrite Hk.
    cbn [fst snd]. rewrite (Browser_eta b : set_worker (worker b) b = b).
    destruct (negb _); [done|]. destruct (String.eqb _ _); [done|]. by destruct (_ || _).
  - intros form confirmed id. rewrite run_on_submit. f_equal. unfold after_submit.
    destruct (submitted _ _ _ _); [|done]. rewrite credentials_locked by done. by destruct b.
Qed.

(** C5: what an automatic event leaves in an element of the page is what
    was there, or the user name or the password of a credential of the
    vault whose origins hold the origin of the page.  No credential of
    another origin reaches the page without a choice of the user. *)
Theorem fills_are_scoped b e b' i el :
  reachable (worker b) -> automatic e = true -> bstep b e b' ->
  inputs (tab b') !! i = Some el ->
  inputs (tab b) !! i = Some el \/
  exists key doc cred,
    effective_key (worker b) = Some key /\ vault_doc key (worker b) = Ret doc /\
    cred ∈ creds doc /\ matches_origin (tab_origin (tab b)) cred = true /\
    (el_value el = username cred \/ el_value el = password cred).
Proof.
  intros Hr He Hs Hi.
  destruct (automatic_writes b e b' He Hs) as [E|(fields & cred & Ef & _ & Er & E)];
    rewrite E in Hi; [by left|].
  pose proof (reply_reachable b Hr) as Hc.
  destruct (effective_key (worker b)) as [key|];
    [|unfold reply in Er; by rewrite Hc in Er].
  destruct Hc as (doc & Hd & Er' & _). rewrite Er in Er'. injection Er' as Ec.
  assert (cred ∈ credsForOrigin (tab_origin (tab b)) doc) as Hin by (rewrite <- Ec; by left).
  apply elem_of_filterb in Hin as [Hin Hm].
  destruct (fill_lookup cred fields (tab b) i) as [Ei|[Ei|Ei]];
    [by eapply findFields_user_pw|rewrite Ei in Hi..]; [by left| |];
    right; exists key, doc, cred; split_and!; try done;
    destruct (inputs (tab b) !! i); simplify_eq/=; auto.
Qed.

(** When the vault is unlocked and holds exactly one credential for the
    origin of the page, and the user has not typed into the fields,
    [maybeAutofill] re-arms the timer of the worker and fills the page: the
    password field holds the password, the companion field the user name
    when there is one, and both are marked, so that the next call skips. *)
Theorem single_credential_is_filled showPicker b key doc cred fields :
  reachable (worker b) -> effective_key (worker b) = Some key ->
  vault_doc key (worker b) = Ret doc ->
  credsForOrigin (tab_origin (tab b)) doc = [cred] ->
  findFields (tab b) = Some fields -> skips fields (tab b) = false ->
  maybeAutofill showPicker b =
    (Ret tt, {| worker := touched (worker b); tab := fill cred fields (tab b) |}) /\
  value_of (f_pw fields) (fill cred fields (tab b)) = password cred /\
  (forall user, f_user fields = Some user -> username cred <> "" ->
     value_of user (fill cred fields (tab b)) = username cred) /\
  skips fields (fill cred fields (tab b)) = true.
Proof.
  intros Hr Hk Hd Hc Ef Es. rewrite run_maybeAutofill.
  rewrite (after_autofill_single _ b key doc cred fields) by done.
  destruct (fill_values cred fields (tab b) Ef) as [Hp Hu]. split_and!; [done..|].
  destruct (findFields_Some _ _ Ef) as (pw & [Hpw _]%choose_pw_candidate & Efields).
  unfold skips, edited_at. rewrite fill_pw by by eapply findFields_user_pw.
  replace (f_pw fields) with pw.1 by by rewrite Efields. rewrite Hpw. cbn.
  by rewrite orb_true_r.
Qed.

(** C20: what the save hook captures is what the next page is filled with.
    When the user confirms the prompt on a submit and the vault is unlocked
    and holds nothing for the origin, the worker stores the captured
    credential, and [maybeAutofill] on a page of the same origin writes its
    password and its user name to the fields of that page. *)
Theorem captured_is_filled showPicker b form id credential key doc t' fields :
  reachable (worker b) -> effective_key (worker b) = Some key ->
  vault_doc key (worker b) = Ret doc ->
  credsForOrigin (tab_origin (tab b)) doc = [] ->
  submitted form true id (tab b) = Some credential ->
  tab_origin t' = tab_origin (tab b) ->
  findFields t' = Some fields -> skips fields t' = false ->
  tab (maybeAutofill showPicker (set_tab t' (on_submit form true id b).2)).2 =
  fill credential fields t'.
Proof.
  intros Hr Hk Hd Hc Hsub Ho Ef Es. rewrite run_on_submit, run_maybeAutofill. cbn [snd].
  unfold after_submit. rewrite Hsub.
  set (msg := SAVE_CREDENTIAL credential).
  pose proof (reachable_credentials msg (worker b) Hr eq_refl) as Hsave.
  rewrite Hk in Hsave. destruct Hsave as (doc' & Hd' & _ & _ & Hk1 & Hd1).
  assert (doc' = doc) as -> by congruence. cbn [edit msg default] in Hd1.
  apply submitted_captured in Hsub as (_ & _ & Hor & _).
  rewrite (after_autofill_single _ _ key (upsert credential doc) credential fields);
    try done; cbn [worker tab set_tab set_worker]; [by apply reachable_onMessage|].
  rewrite Ho. apply credsForOrigin_first; [done|].
  apply matches_origin_true. exists [tab_origin (tab b)]. split; [done|by left].
Qed.

(** C12: the two paste items of the context menu look the credentials up
    for the origin of [info.pageUrl], and write the user name or the
    password of the last one to the element that has the focus in the
    frame of the click.  The origin of that frame plays no part: in a frame
    of another origin than its page, the password of the page goes to the
    frame. *)
Theorem paste_uses_page_origin b info address origin key doc cred i el :
  reachable (worker b) -> effective_key (worker b) = Some key ->
  vault_doc key (worker b) = Ret doc ->
  url info = Some address -> is_http address = true -> url_origin info = Ret origin ->
  menuItemId info = "passvault_paste_password" ->
  last (credsForOrigin origin doc) = Some cred ->
  activeElement info = Some i -> inputs (tab b) !! i = Some el ->
  inputs (tab (onClicked info b).2) !! i =
  Some (mark_edited (set_value (password cred) el)).
Proof.
  intros (a & HR)%reachable_R Hk Hd Hu Hh Ho Hm Hl Hi Hel.
  rewrite run_onClicked. cbn [snd]. unfold after_click, after_paste, pasted.
  assert (or_null (url info) = Some address) as ->.
  { rewrite Hu. unfold or_null. destruct address; [done|by cbn]. }
  rewrite Ho, Hh, Hm. cbn [negb String.eqb Ascii.eqb Bool.eqb orb].
  rewrite (getCredsForOrigin_answers origin) by apply (R_db a _ HR).
  rewrite Hk, Hd. cbn. rewrite Hl, Hi. cbn.
  rewrite list_lookup_alter_eq, list_lookup_alter_eq, Hel. done.
Qed.

(** What the user types while the request is on its way is overwritten.
    [maybeAutofill] tests the marks of the fields before it awaits
    [fetchCreds] and writes after it without testing them again: when the
    vault holds one credential for the origin and the user types into the
    password field between the two, the field is marked as edited and
    the script writes the stored password over what was typed. *)
Theorem typing_during_fetch_is_overwritten showPicker b key doc cred fields v :
  reachable (worker b) -> effective_key (worker b) = Some key ->
  vault_doc key (worker b) = Ret doc ->
  credsForOrigin (tab_origin (tab b)) doc = [cred] ->
  findFields (tab b) = Some fields -> skips fields (tab b) = false ->
  let b' := (fetchCreds b).2 in
  let b1 := set_tab (typed (f_pw fields) v (tab b')) b' in
  autofill_asks (tab b) = true /\
  (fetchCreds b).1 = Ret (Some (RespCreds [cred])) /\
  edited_at (f_pw fields) (tab b1) = true /\
  value_of (f_pw fields)
    (tab (autofill_goes_on showPicker (Some (RespCreds [cred])) b1).2) = password cred.
Proof.
  intros Hr Hk Hd Hc Ef Es. cbn zeta. rewrite run_fetchCreds, run_autofill_goes_on.
  cbn [fst snd tab set_worker set_tab].
  pose proof (reply_reachable b Hr) as Ha. rewrite Hk in Ha.
  destruct Ha as (doc' & Hd' & -> & _). assert (doc' = doc) as -> by congruence.
  rewrite Hc. pose proof (evolves_findFields _ _ (evolves_typed (f_pw fields) v (tab b))) as Ef'.
  rewrite Ef in Ef'. split_and!; [by unfold autofill_asks; rewrite Ef, Es|done| |].
  - destruct (findFields_Some _ _ Ef) as (pw & [Hpw _]%choose_pw_candidate & Efields).
    unfold edited_at. rewrite typed_on_el, lookup_on_el, decide_True by done.
    replace (f_pw fields) with pw.1 by by rewrite Efields. by rewrite Hpw.
  - unfold autofilled. cbn. rewrite (applyCred_fill _ _ fields) by done.
    by apply fill_values.
Qed.

(** C31: every item of the menu has its branch in the click listener.
    In every state the worker reaches, a click on an item that is in the
    context menu, on a page with an http or https address, is acted upon:
    for the item [passvault_autofill] the listener does what the content
    script does on [TRIGGER_AUTOFILL]; for every other item of the menu it
    looks the credentials of the origin up and pastes, the user name for
    [passvault_paste_username] and the password otherwise.  No item that
    [onInstalled] creates falls through the comparisons of the listener. *)
Theorem menu_click_is_handled b info address origin :
  reachable (worker b) ->
  menuItemId info ∈ menu_id <$> menus (worker b) ->
  url info = Some address -> is_http address = true -> url_origin info = Ret origin ->
  if String.eqb (menuItemId info) "passvault_autofill"
  then onClicked info b = (Ret tt, (content_onMessage TRIGGER_AUTOFILL b).2)
  else onClicked info b = (Ret tt, after_paste info origin b) /\
       forall cred, pasted info cred =
         Some (if String.eqb (menuItemId info) "passvault_paste_username"
               then username cred else password cred).
Proof.
  intros Hr Hin Eu Eh Eo. rewrite run_onClicked. unfold after_click, pasted.
  assert (or_null (url info) = Some address) as -> by (rewrite Eu; by destruct address).
  rewrite Eo, Eh. cbn [negb].
  destruct (reachable_menu _ Hr) as [Hm|Hm]; rewrite Hm in Hin;
    [by apply elem_of_nil in Hin|].
  cbn in Hin. repeat (apply elem_of_cons in Hin as [->|Hin]);
    [..|by apply elem_of_nil in Hin]; cbn; try done.
  unfold content_onMessage. mrun. by rewrite run_maybeAutofill.
Qed.

End browser_claims.
