(* ===== verification/System.v ===== *)
(** * System: the popup, the options page, a tab and the worker

    The extension is one service worker ([background.js]) and three kinds
    of pages that talk to it: the popup ([popup.js]), the options page
    ([options.js]) and the content script of a tab ([content.js]).  The
    files before this one model each page beside the worker, on a state
    of its own ([World * PopupPage], [World * OptionsPage], [Browser]).  A
    [System] holds one of each and one worker; a lens for each page lets
    the code of the page run unchanged on the whole, and [sstep] is the
    transition system of the whole: an event of one of the pages, a click
    on an item of the context menu, or a step of the worker on its own.

    The theorems are the ones that need more than one page: the worker
    stays in a state it reaches on its own whatever the pages do, the tab
    only changes by writes that respect the marks of its fields, and the
    popup keeps one view shown; what is saved in the popup for the origin
    of the tab is what the content script fills the tab with; what is
    deleted in the popup is not filled any more; after the button that
    locks, nothing reaches the tab. *)

From Stdlib Require Import ZArith Lia Ascii String.
From stdpp Require Import base tactics option list strings gmap.
From S2P Require Import Prelude Text Crypto Storage Vault Background Handlers Session Machine Refinement Options Popup Content Browser.

#[local] Open Scope Z_scope.

Record System := {
  sys_worker : World;
  sys_tab : Tab;
  sys_popup : PopupPage;
  sys_options : OptionsPage;
}.

Definition set_sys_worker (w : World) (s : System) : System :=
  {| sys_worker := w; sys_tab := sys_tab s; sys_popup := sys_popup s;
     sys_options := sys_options s |}.

(** The three sides of the system: the tab with the worker, the popup with
    the worker, the options page with the worker. *)
Definition browser_of (s : System) : Browser :=
  {| worker := sys_worker s; tab := sys_tab s |}.

Definition with_browser (b : Browser) (s : System) : System :=
  {| sys_worker := worker b; sys_tab := tab b; sys_popup := sys_popup s;
     sys_options := sys_options s |}.

Definition popup_of (s : System) : World * PopupPage := (sys_worker s, sys_popup s).

Definition with_popup (x : World * PopupPage) (s : System) : System :=
  {| sys_worker := x.1; sys_tab := sys_tab s; sys_popup := x.2;
     sys_options := sys_options s |}.

Definition options_of (s : System) : World * OptionsPage := (sys_worker s, sys_options s).

Definition with_options (x : World * OptionsPage) (s : System) : System :=
  {| sys_worker := x.1; sys_tab := sys_tab s; sys_popup := sys_popup s;
     sys_options := x.2 |}.

#[export] Instance System_browser : Lens System Browser.
Proof.
  by refine {| view := browser_of; update := with_browser |}; [intros [] []|intros []|].
Defined.

#[export] Instance System_popup : Lens System (World * PopupPage).
Proof.
  by refine {| view := popup_of; update := with_popup |}; [intros [] []|intros []|].
Defined.

#[export] Instance System_options : Lens System (World * OptionsPage).
Proof.
  by refine {| view := options_of; update := with_options |}; [intros [] []|intros []|].
Defined.

Section system.
Context `{WebCrypto} `{JSON VaultDoc}.

(** What happens in the system, by the page it happens in. *)
Inductive SystemEvent :=
| InTab (e : PageEvent)
| InMenu (info : Click)
| InPopup (e : PopupEvent)
| InOptions (e : OptionsEvent).

Definition system_event (e : SystemEvent) : M System unit :=
  match e with
  | InTab e => zoom (page_event e)
  | InMenu info => zoom (onClicked info)
  | InPopup e => zoom (popup_event e)
  | InOptions e => zoom (options_event e)
  end.

(** The state an event leaves. *)
Definition after_system (e : SystemEvent) (s : System) : System :=
  match e with
  | InTab e => with_browser (after_event e (browser_of s)) s
  | InMenu info => with_browser (after_click info (browser_of s)) s
  | InPopup e => with_popup (popup_event e (popup_of s)).2 s
  | InOptions e => with_options (after_options e (options_of s)) s
  end.

(** An event can happen: a click in the context menu is a click on an
    item of the menu. *)
Definition offered (e : SystemEvent) (s : System) : Prop :=
  match e with
  | InMenu info => menuItemId info ∈ menu_id <$> menus (sys_worker s)
  | _ => True
  end.

Inductive sstep : System -> System -> Prop :=
| sstep_event e s : offered e s -> sstep s (system_event e s).2
| sstep_worker l s w' : step (sys_worker s) l w' -> sstep s (set_sys_worker w' s).

(** The system starts with a worker in a state it reaches on its own, a
    page that has just been loaded and a popup that shows one view. *)
Definition starts (s : System) : Prop :=
  reachable (sys_worker s) /\ loaded (sys_tab s) /\ one_view (sys_popup s).

Definition sreachable (s : System) : Prop := exists s0, starts s0 /\ rtc sstep s0 s.

(** What holds of every state of the system: the worker is in a state of
    its own transition system, the fields of the tab carry the mark of an
    automatic fill only with the mark of an edit, and the popup shows
    one of its two views. *)
Definition sound (s : System) : Prop :=
  reachable (sys_worker s) /\ well_marked (sys_tab s) /\ one_view (sys_popup s).

End system.

(** * Theorems *)

Section system_facts.
Context `{WebCrypto} `{JSON VaultDoc}.

(** ** The events *)

Lemma run_system_event e s : system_event e s = (Ret tt, after_system e s).
Proof.
  destruct e as [e|info|e|e]; cbn [system_event after_system]; rewrite run_zoom;
    cbn [view update System_browser System_popup System_options].
  - by rewrite run_page_event.
  - by rewrite run_onClicked.
  - destruct (popup_event_total e (popup_of s)) as [[] ->]. done.
  - by rewrite run_options_event.
Qed.

Lemma after_system_steps e s :
  exists ls, steps (sys_worker s) ls (sys_worker (after_system e s)).
Proof.
  destruct e as [e|info|e|e]; cbn [after_system].
  - apply (steps_after_event e (browser_of s)).
  - apply (steps_after_click info (browser_of s)).
  - apply (popup_event_ran e (popup_of s)).
  - eexists. apply (options_steps e (options_of s)).
Qed.

Lemma after_system_evolves e s : evolves (sys_tab s) (sys_tab (after_system e s)).
Proof.
  destruct e as [e|info|e|e]; cbn [after_system]; try constructor.
  - apply (evolves_after_event e (browser_of s)).
  - apply (evolves_after_click info (browser_of s)).
Qed.

Lemma after_system_view e s : one_view (sys_popup s) -> one_view (sys_popup (after_system e s)).
Proof.
  destruct e as [e|info|e|e]; cbn [after_system]; try done.
  apply (popup_event_keeps_view e (popup_of s)).
Qed.

(** ** The invariant *)

Lemma sound_starts s : starts s -> sound s.
Proof. intros (Hr & Hl & Hv). split_and!; [done|by apply loaded_well_marked|done]. Qed.

Lemma sound_sstep s s' : sstep s s' -> sound s -> sound s'.
Proof.
  intros Hs (Hr & Hm & Hv). destruct Hs as [e s _|l s w' Hs].
  - rewrite run_system_event. cbn [snd]. split_and!.
    + destruct (after_system_steps e s) as [ls Hls]. by eapply reachable_steps.
    + by eapply evolves_well_marked; [apply after_system_evolves|].
    + by apply after_system_view.
  - split_and!; [by eapply reachable_step|done..].
Qed.

Lemma sound_rtc s s' : rtc sstep s s' -> sound s -> sound s'.
Proof. induction 1; eauto using sound_sstep. Qed.

End system_facts.

Section system_claims.
Context `{WebCrypto} `{JSON VaultDoc} `{!IdealAEAD}.

(** ** The popup, then the tab *)

(** The popup changes the vault by a message that needs the key; the tab
    that takes the focus next asks for the credentials of its origin in
    the vault the message has left. *)
Lemma focus_after_edit msg s p key :
  reachable (sys_worker s) -> effective_key (sys_worker s) = Some key ->
  needs_key msg = true ->
  let s1 := with_popup (refreshed (served msg (sys_worker s), p)) s in
  exists doc, vault_doc key (sys_worker s) = Ret doc /\
    reachable (sys_worker s1) /\ effective_key (sys_worker s1) = Some key /\
    vault_doc key (sys_worker s1) = Ret (default doc (edit msg doc)) /\
    sys_tab s1 = sys_tab s.
Proof.
  intros Hr Hk Hm s1.
  destruct (edit_unlocked msg (sys_worker s) p key Hr Hk Hm) as (doc & Hd & _ & Hk' & Hd' & _).
  exists doc. split_and!; try done.
  pose proof (refreshList_ran (served msg (sys_worker s), p)) as Hran.
  rewrite run_refreshList in Hran.
  apply (reachable_ran (served msg (sys_worker s), p) _); [|exact Hran].
  by apply reachable_served.
Qed.

(** A tab that asks an unlocked worker whose vault holds nothing for its
    origin is left as it is. *)
Lemma after_autofill_none showPicker b key doc :
  reachable (worker b) -> effective_key (worker b) = Some key ->
  vault_doc key (worker b) = Ret doc ->
  credsForOrigin (tab_origin (tab b)) doc = [] ->
  tab (after_autofill showPicker b) = tab b.
Proof.
  intros Hr Hk Hd Hc. unfold after_autofill.
  destruct (findFields (tab b)) as [fields|]; [|done]. destruct (skips _ _); [done|].
  pose proof (reply_reachable b Hr) as Ha. rewrite Hk in Ha.
  destruct Ha as (doc' & Hd1 & -> & _). assert (doc' = doc) as -> by congruence.
  cbn [tab]. unfold autofilled. cbn. by rewrite Hc.
Qed.

(** C13: the invariant of the system.  In every state the system reaches
    from a start, by the events of its pages and the steps of the worker
    in any order, the worker is in a state it reaches on its own (where the
    invariants of the vault hold), every field of the tab that carries the
    mark of an automatic fill carries the mark of an edit, and the popup
    shows one of its two views. *)
Theorem system_is_sound s : sreachable s -> sound s.
Proof. intros (s0 & Hs0%sound_starts & Hs). by eapply sound_rtc. Qed.

(** C10: what is saved in the popup is what the tab is filled with.  When
    the vault is unlocked and holds nothing for the origin of the tab, and
    the form of the popup holds a password and lists that origin, a click
    on the save button followed by the focus of the tab writes the
    credential of the form to the fields of the tab. *)
Theorem popup_saved_is_filled s active uuid key doc fields :
  reachable (sys_worker s) -> effective_key (sys_worker s) = Some key ->
  vault_doc key (sys_worker s) = Ret doc ->
  credsForOrigin (tab_origin (sys_tab s)) doc = [] ->
  field "inPass" (sys_popup s) <> "" ->
  matches_origin (tab_origin (sys_tab s)) (new_credential active uuid (sys_popup s)) = true ->
  findFields (sys_tab s) = Some fields -> skips fields (sys_tab s) = false ->
  let s1 := (system_event (InPopup (ClickSave active uuid)) s).2 in
  sys_tab (system_event (InTab Focus) s1).2 =
  fill (new_credential active uuid (sys_popup s)) fields (sys_tab s).
Proof.
  intros Hr Hk Hd Hc Hp Hm Ef Es s1. subst s1. rewrite !run_system_event.
  cbn [snd after_system popup_event after_event]. rewrite run_saveCredential.
  cbn [snd]. unfold after_save. cbn [popup_of fst snd].
  rewrite (proj2 (truthy_string _) Hp). cbn [negb].
  set (msg := SAVE_CREDENTIAL _).
  destruct (edit_unlocked msg (sys_worker s) (clear_form (sys_popup s)) key Hr Hk eq_refl)
    as (doc' & Hd' & -> & _). cbn [answer ok msg].
  destruct (focus_after_edit msg s (clear_form (sys_popup s)) key Hr Hk eq_refl)
    as (doc2 & Hd2 & Hr1 & Hk1 & Hd1 & Ht).
  assert (doc2 = doc) as -> by congruence.
  set (cred := new_credential active uuid (sys_popup s)) in *.
  change (default doc (edit msg doc)) with (upsert cred doc) in Hd1.
  rewrite (after_autofill_single _ _ key (upsert cred doc) cred fields); try done.
  by apply credsForOrigin_first.
Qed.

(** C21: what is deleted in the popup is not filled any more.  When the
    vault is unlocked and the credentials it holds for the origin of the
    tab all have the identifier of an item of the list of the popup, a
    click on the delete button of that item followed by the focus of the
    tab leaves the tab as it is. *)
Theorem popup_deleted_is_not_filled s i item key doc :
  reachable (sys_worker s) -> effective_key (sys_worker s) = Some key ->
  vault_doc key (sys_worker s) = Ret doc ->
  items (sys_popup s) !! i = Some item ->
  (forall c, c ∈ credsForOrigin (tab_origin (sys_tab s)) doc ->
     cred_id c = cred_id (item_cred item)) ->
  let s1 := (system_event (InPopup (ClickDelete i)) s).2 in
  sys_tab (system_event (InTab Focus) s1).2 = sys_tab s.
Proof.
  intros Hr Hk Hd Hi Hc s1. subst s1. rewrite !run_system_event.
  cbn [snd after_system popup_event after_event]. rewrite run_on_item.
  cbn [popup_of snd]. rewrite Hi. unfold delete_click. prun. rewrite run_refreshList.
  cbn [snd]. set (msg := DELETE_CREDENTIAL _).
  destruct (focus_after_edit msg s (sys_popup s) key Hr Hk eq_refl)
    as (doc2 & Hd2 & Hr1 & Hk1 & Hd1 & Ht).
  assert (doc2 = doc) as -> by congruence.
  change (default doc (edit msg doc)) with (remove (cred_id (item_cred item)) doc) in Hd1.
  cbn [with_browser sys_tab].
  rewrite (after_autofill_none _ _ key (remove (cred_id (item_cred item)) doc)); try done.
  apply elem_of_nil_inv. intros c [[Hin Hid]%elem_of_filterb Ho]%elem_of_filterb.
  cbn in Hin. assert (c ∈ credsForOrigin (tab_origin (sys_tab s)) doc) as Hcin
    by (apply elem_of_filterb; split; [done|exact Ho]).
  apply Hc in Hcin. by rewrite Hcin, bool_decide_eq_true_2 in Hid.
Qed.

(** C16: after the button that locks, nothing reaches the tab.  Whatever
    the state of the worker, a click on the lock button of the popup
    followed by an event of the tab behind which there is no decision of
    the user to write (the start of the script, the focus of the window or
    of a field, a change of the document, a submit, a message that asks
    for a fill) leaves the fields of the tab as they were. *)
Theorem popup_lock_stops_fills s e :
  automatic (Page e) = true ->
  let s1 := (system_event (InPopup ClickLock) s).2 in
  inputs (sys_tab (system_event (InTab e) s1).2) = inputs (sys_tab s).
Proof.
  intros He s1. subst s1. rewrite !run_system_event.
  cbn [snd after_system]. rewrite run_lock. cbn [snd].
  set (b := browser_of _).
  assert (forall showPicker, after_autofill showPicker b = b) as Ha.
  { intros. apply after_autofill_locked. subst b.
    cbn [browser_of with_popup sys_worker after_lock popup_of worker fst snd].
    unfold served. rewrite lock_answers. apply effective_key_cleared. }
  cbn [with_browser sys_tab]. change (sys_tab s) with (tab b).
  destruct e as [| |target| |[[cred|]| |type]|i v|form confirmed id|j k|];
    try discriminate He; cbn [after_event tab set_tab];
    rewrite ?inputs_ensureSaveHook, ?tab_after_submit, ?Ha; try done.
  destruct (target ≫= _) as [el|]; [|done]. destruct (String.eqb _ _); by rewrite ?Ha.
Qed.

End system_claims.
