(* ===== verification/Reference.v ===== *)
(** * Reference: executable instances of the platform interfaces

    The theorems of the development hold for every platform that satisfies
    [WebCrypto] and [JSON].  To run the model on concrete inputs one such
    platform is needed; this file builds the simplest one.  It is not a
    cipher: [ref_seal] prefixes the plaintext with the key and the nonce, and
    [ref_open] checks the prefix.  It satisfies the equations of the
    interfaces, [IdealAEAD] included, which is all the examples need.

    [JSON] for vault documents goes through the [Countable] instance of the
    document type: a document is its code, written in base 256. *)

From Stdlib Require Import ZArith Lia ZifyNat Ascii String.
From stdpp Require Import base tactics option list strings countable gmap.
From S2P Require Import Prelude Base64 Crypto Storage Vault Generator Background.

#[local] Open Scope Z_scope.

(** ** The primitives *)

Definition ref_pbkdf2 (p s : list Z) (c : Z) : list Z :=
  take 32 ((wrap8 <$> p ++ s ++ [c]) ++ replicate 32 0).

Definition ref_seal (key nonce pt : list Z) : list Z :=
  wrap8 <$> key ++ nonce ++ pt.

Definition ref_open (key nonce ct : list Z) : option (list Z) :=
  let tag := wrap8 <$> key ++ nonce in
  if decide (take (length tag) ct = tag) then Some (drop (length tag) ct) else None.

Definition ref_random (n : nat) : Z := (Z.of_nat n * 73 + 41) mod 256.

(** ** Documents as text *)

(** A positive number as the text of its base-256 digits, least significant
    first, and back. *)
Definition text_of_pos (p : positive) : string :=
  string_of_list_ascii
    (ascii_of_Z <$> Z_to_little_endian (Z.pos (Pos.size p) / 8 + 1) 8 (Z.pos p)).

Definition pos_of_text (s : string) : option positive :=
  match little_endian_to_Z 8 (Z_of_ascii <$> list_ascii_of_string s) with
  | Z.pos p => Some p
  | _ => None
  end.

#[export] Instance Credential_countable : Countable Credential.
Proof.
  apply (inj_countable'
    (fun c => (cred_id c, origins c, origin c, username c, password c, notes c))
    (fun t => let '(i, os, o, u, p, n) := t in
              {| cred_id := i; origins := os; origin := o; username := u;
                 password := p; notes := n |})).
  by intros [].
Defined.

#[export] Instance VaultDoc_countable : Countable VaultDoc.
Proof.
  apply (inj_countable' creds (fun l => {| creds := l |})). by intros [].
Defined.

(** ** A first state *)

(** The browser before the extension has run: nothing stored, no alarm. *)
Definition world0 : World :=
  {| derivedKey := None; unlockedAt := 0; autolockMs := 5 * 60 * 1000;
     idb := {| dbPromise := None; database := None; open_fails := false |};
     storage_local := ∅; storage_session := ∅; alarms := ∅;
     clock := 1000; entropy := 0; menus := [] |}.

(** * The laws of the interfaces, and the instances they give *)

Lemma pos_of_text_of_pos p : pos_of_text (text_of_pos p) = Some p.
Proof.
  unfold pos_of_text, text_of_pos.
  rewrite list_ascii_of_string_of_list_ascii, <- list_fmap_compose.
  rewrite (list_fmap_ext _ id (Z_to_little_endian _ 8 (Z.pos p))).
  - rewrite list_fmap_id, little_endian_to_Z_to_little_endian by lia.
    rewrite Z.mod_small; [done|]. split; [lia|].
    apply Z.lt_le_trans with (2 ^ Z.pos (Pos.size p)).
    + pose proof (Pos.size_gt p) as Hp. rewrite <- Pos2Z.inj_pow. lia.
    + apply Z.pow_le_mono_r; lia.
  - intros i b Hb. cbn. apply Z_of_ascii_of_Z.
    pose proof (Z_to_little_endian_bound (Z.pos (Pos.size p) / 8 + 1) 8 (Z.pos p)) as Hbs.
    eapply Forall_lookup_1 in Hbs; [exact Hbs|lia|lia|exact Hb].
Qed.

#[export] Instance ref_json : JSON VaultDoc.
Proof.
  refine {| JSON_stringify := fun x => text_of_pos (encode x);
            JSON_parse := fun s => pos_of_text s ≫= decode |}.
  intros x. rewrite pos_of_text_of_pos. cbn. apply decode_encode.
Defined.

Lemma ref_seal_open key nonce pt :
  bytes pt -> ref_open key nonce (ref_seal key nonce pt) = Some pt.
Proof.
  intros Hpt. unfold ref_open, ref_seal.
  rewrite (app_assoc key), (fmap_app _ (key ++ nonce)), take_app_length.
  rewrite decide_True by done. by rewrite drop_app_length, bytes_wrap8_id.
Qed.

Lemma ref_open_wrong_key key key' nonce pt :
  bytes key -> bytes key' -> length key = length key' -> key <> key' ->
  ref_open key' nonce (ref_seal key nonce pt) = None.
Proof.
  intros Hk Hk' Hlen Hne. unfold ref_open, ref_seal.
  rewrite decide_False; [done|].
  rewrite (app_assoc key), (fmap_app _ (key ++ nonce)).
  rewrite (length_fmap _ (key' ++ nonce)), length_app, <- Hlen, <- length_app.
  rewrite <- (length_fmap wrap8 (key ++ nonce)), take_app_length.
  rewrite !fmap_app, (bytes_wrap8_id key), (bytes_wrap8_id key') by done.
  intros E%app_inj_1; [by destruct E|done].
Qed.

#[export] Instance ref_crypto : WebCrypto.
Proof.
  refine {| pbkdf2_sha256 := ref_pbkdf2; aes_gcm_seal := ref_seal;
            aes_gcm_open := ref_open; random_byte := ref_random |}.
  - intros p s c. unfold ref_pbkdf2. rewrite length_take, length_app, length_replicate. lia.
  - intros p s c. unfold ref_pbkdf2, bytes. apply Forall_take, Forall_app.
    split; [apply bytes_wrap8|]. by apply Forall_replicate.
  - intros. apply bytes_wrap8.
  - apply ref_seal_open.
  - intros n. unfold ref_random, is_byte. lia.
Defined.

#[export] Instance ref_ideal : IdealAEAD.
Proof. constructor. apply ref_open_wrong_key. Qed.
