(* ===== verification/Examples.v ===== *)
(** * Examples: the theorems at concrete inputs

    Every theorem of the development that has a hypothesis is applied here
    to a concrete input on which its hypotheses hold, with the platform of
    [Reference]: a browser that has never run the extension ([world0]), the
    same after a first [UNLOCK "pw"] ([world_open]), later in the day
    ([world_late]), small keys, byte arrays, databases and vaults, and a
    login page with the worker behind it, the popup and the options page
    in some of their states, and a run without end in which the alarm fires.
    The hypotheses are discharged by evaluating the definitions.  The last
    example is a page on which the script writes the user name to a hidden
    field. *)

From Stdlib Require Import ZArith Lia Ascii String.
From stdpp Require Import base tactics option list strings gmap.
From S2P Require Import Prelude Text Base64 Crypto Storage Vault Generator Background Handlers Session Machine Refinement Interleave Liveness Options Popup Content Browser System Reference.

#[local] Open Scope Z_scope.

(** ** The inputs *)

Definition alice : Credential :=
  {| cred_id := "1"; origins := Some ["https://a.example"];
     origin := Some "https://a.example"; username := "alice";
     password := "s3cret"; notes := "" |}.

Definition bob : Credential :=
  {| cred_id := "2"; origins := Some ["https://b.example"];
     origin := Some "https://b.example"; username := "bob";
     password := "hunter2"; notes := "" |}.

Definition vault_ab : VaultDoc := {| creds := [alice; bob] |}.

(** The key of the password "pw" under the first salt of the reference
    random source, and the key of another password. *)
Definition key_pw : CryptoKey :=
  derived_key "pw" (random_byte <$> seq 0 16) 310000.

Definition key_other : CryptoKey :=
  derived_key "other" (random_byte <$> seq 0 16) 310000.

(** The first [UNLOCK], and the same state ten minutes later. *)
Definition world_open : World := (onMessage (UNLOCK "pw") world0).2.

Definition world_late : World := set_clock (clock world_open + 600000) world_open.

(** A run: unlock, save, restart of the worker, ten minutes, the alarm, and
    a [STATUS] that still finds the vault unlocked. *)
Definition a_day : list Label :=
  [Msg (UNLOCK "pw") RespOk; Msg (SAVE_CREDENTIAL alice) RespOk; Restart;
   Tick 600000; Alarm; Msg STATUS (RespStatus true)].

Definition world_evening : World := default world0 (replay a_day world0).

(** A database that has not been opened, and one that cannot be. *)
Definition idb0 : IDB Z := {| dbPromise := None; database := None; open_fails := false |}.

Definition idb_broken : IDB Z :=
  {| dbPromise := None; database := None; open_fails := true |}.

(** The worker after [UNLOCK "pw"] and the save of [alice]. *)
Definition world_saved : World := (onMessage (SAVE_CREDENTIAL alice) world_open).2.

(** A visible input, and a hidden one, of the form 0. *)
Definition input (type name : string) : Element :=
  {| el_type := type; el_name := name; el_id := ""; el_placeholder := "";
     el_autocomplete := ""; el_value := ""; el_disabled := false; el_readOnly := false;
     rect_width := 200; rect_height := 24; style_display := "inline-block";
     style_visibility := "visible"; el_form := Some 0%nat;
     passvaultEdited := false; passvaultApplied := false |}.

Definition hidden_input (name value : string) : Element :=
  {| el_type := "hidden"; el_name := name; el_id := ""; el_placeholder := "";
     el_autocomplete := ""; el_value := value; el_disabled := false;
     el_readOnly := false; rect_width := 0; rect_height := 0;
     style_display := "none"; style_visibility := "visible"; el_form := Some 0%nat;
     passvaultEdited := false; passvaultApplied := false |}.

Definition login_form : Form := {| submit_button := true; passvault_hooked := None |}.

(** A login page of [https://a.example], the same page with a hidden token
    before its fields, and a frame of [https://b.example]. *)
Definition page_a : Tab :=
  {| tab_origin := "https://a.example";
     inputs := [input "text" "login"; input "password" "pass"];
     forms := [login_form]; pickers := [] |}.

Definition page_token : Tab :=
  {| tab_origin := "https://a.example";
     inputs := [hidden_input "form_id" "tok-81"; input "email" "email";
                input "password" "pass"];
     forms := [login_form]; pickers := [] |}.

Definition frame_b : Tab :=
  {| tab_origin := "https://b.example";
     inputs := [input "text" "q"; input "password" "pin"];
     forms := [login_form]; pickers := [] |}.

Definition fields_a : Fields :=
  {| f_form := Some 0%nat; f_user := Some 0%nat; f_pw := 1%nat |}.

Definition browser_a : Browser := {| worker := world_saved; tab := page_a |}.

Definition browser_locked : Browser := {| worker := world0; tab := page_a |}.

(** The user has typed a password of their own. *)
Definition browser_typing : Browser :=
  {| worker := world_saved; tab := typed 1 "mine" page_a |}.

(** The user has filled the form of a page that the script has hooked, and
    the vault is open and empty. *)
Definition browser_signup : Browser :=
  {| worker := world_open;
     tab := typed 1 "s3cret" (typed 0 "alice" (ensureSaveHook page_a)) |}.

(** A click on the paste item in the frame, on a page of [https://a.example]. *)
Definition click_paste : Click :=
  {| menuItemId := "passvault_paste_password";
     url := Some "https://a.example/login";
     url_origin := Ret "https://a.example";
     activeElement := Some 1%nat |}.

(** The worker with a duration of a minute and a half, and locked after
    the save. *)
Definition world_90 : World := served (SET_AUTOLOCK (Some 90000)) world_open.

Definition world_closed : World := served LOCK world_saved.

(** The options page and the popup before they are loaded, the popup with
    the password typed, with the form that adds a credential filled, and
    with a list of one item. *)
Definition options0 : OptionsPage :=
  {| theme_value := ""; minutes_value := ""; alerts := [] |}.

Definition popup0 : PopupPage :=
  {| values := ∅; hidden := ∅; open_elements := ∅; unlockBtn_disabled := false;
     unlockError := ""; items := []; popup_alerts := []; clipboard := None |}.

Definition popup_pw : PopupPage := set_field "masterInput" "pw" popup0.

Definition popup_form : PopupPage :=
  set_field "inPass" "tr0ub4dor" (set_field "inUser" "carol"
    (set_field "inOrigins" "https://c.example, https://d.example" popup0)).

Definition no_tab : ActiveTab := {| active_url := None; active_origin := Throw "TypeError" |}.

Definition carol : Credential := new_credential no_tab "3" popup_form.

Definition popup_list : PopupPage := set_items [render_item carol] popup0.

(** The worker of [world_saved] once the browser has called
    [onInstalled]: the menu has its three items. *)
Definition world_installed : World := (onInstalled world_saved).2.

(** The system: the tab of [page_a] is the active one, the popup shows the
    locked view, or holds a password in its form, or lists [alice]. *)
Definition tab_a : ActiveTab :=
  {| active_url := Some "https://a.example/login"; active_origin := Ret "https://a.example" |}.

Definition popup_shut : PopupPage := showLocked popup0.

Definition system0 : System :=
  {| sys_worker := world0; sys_tab := page_a; sys_popup := popup_shut;
     sys_options := options0 |}.

Definition system_form : System :=
  {| sys_worker := world_open; sys_tab := page_a;
     sys_popup := set_field "inPass" "tr0ub4dor" (set_field "inUser" "dave" popup_shut);
     sys_options := options0 |}.

Definition system_saved : System :=
  {| sys_worker := world_saved; sys_tab := page_a;
     sys_popup := set_items [render_item alice] popup_shut; sys_options := options0 |}.

(** A run without end: five minutes pass, the alarm fires, and then
    nothing happens but the time that passes. *)
Definition idle_labels (n : nat) : Label :=
  if (n =? 1)%nat then Alarm else Tick 300000.

Fixpoint idle_states (n : nat) : World :=
  match n with
  | O => world_open
  | S n => default (idle_states n) (react (idle_labels n) (idle_states n))
  end.

Definition idle_run : Run := {| state_at := idle_states; label_at := idle_labels |}.

(** [by_eval] decides a decidable proposition by evaluation. *)
Ltac by_eval := apply (bool_decide_unpack _); vm_compute; exact I.

(** ** Facts about the inputs *)

Lemma initial_world0 : initial world0.
Proof. by repeat split. Qed.

Lemma reachable_world0 : reachable world0.
Proof. by apply (reachable_replay world0 []); [apply initial_world0|]. Qed.

Lemma reachable_world_open : reachable world_open.
Proof.
  apply (reachable_replay world0 [Msg (UNLOCK "pw") RespOk]);
    [apply initial_world0|by vm_compute].
Qed.

Lemma reachable_world_saved : reachable world_saved.
Proof.
  apply (reachable_replay world0 [Msg (UNLOCK "pw") RespOk; Msg (SAVE_CREDENTIAL alice) RespOk]);
    [apply initial_world0|by vm_compute].
Qed.

Lemma loaded_page_a : loaded page_a.
Proof. unfold loaded. by repeat constructor. Qed.

Lemma usable_world0 : usable_db world0.
Proof. apply (R_db a_init), R_initial, initial_world0. Qed.

Lemma healthy_idb0 : healthy idb0 /\ idb_wf idb0.
Proof. split; [by right|]. by split; [intros ? [=]|intros [=]]. Qed.

Lemma usable_key_pw : usable key_pw.
Proof. apply derived_key_usable. Qed.

(** ** The worker *)

Lemma worker_refines_vault_witness :
  exists a, asteps a_init a_day a /\ R a world_evening.
Proof.
  apply (worker_refines_vault world0 a_day world_evening);
    [apply initial_world0|apply replay_steps; by vm_compute].
Defined.

Lemma unlocked_vault_opens_witness :
  usable key_pw /\
  exists enc doc, vault_record world_open = Some enc /\
    decryptJSON (Some enc) (Some key_pw) = Ret doc.
Proof.
  apply (unlocked_vault_opens world_open key_pw);
    [apply reachable_world_open|by vm_compute].
Defined.

Lemma locked_iff_no_key_witness :
  ((onMessage LIST_CREDENTIALS world0).1 = Ret (RespError "Locked") <->
   effective_key world0 = None) /\
  (effective_key world0 = None -> (onMessage LIST_CREDENTIALS world0).2 = world0).
Proof.
  apply (locked_iff_no_key LIST_CREDENTIALS world0);
    [apply reachable_world0|reflexivity].
Defined.

Lemma password_check_witness :
  exists salt kb, forall password,
    (onMessage (UNLOCK password) world_open).1 =
    Ret (if bool_decide (kdf_bytes password salt = kb) then RespOk
         else RespError "Invalid master password").
Proof.
  apply (password_check world_open); [apply reachable_world_open|].
  vm_compute. by eexists.
Defined.

Lemma edit_then_list_witness :
  exists vault, vault_doc key_pw world_open = Ret vault /\
    forall vault', edit (SAVE_CREDENTIAL alice) vault = Some vault' ->
      (onMessage (SAVE_CREDENTIAL alice) world_open).1 = Ret RespOk /\
      (onMessage LIST_CREDENTIALS (onMessage (SAVE_CREDENTIAL alice) world_open).2).1 =
      Ret (RespCreds (creds vault')).
Proof.
  apply (edit_then_list (SAVE_CREDENTIAL alice) world_open key_pw);
    [apply reachable_world_open|by vm_compute].
Defined.

Lemma settings_in_range_witness :
  60000 <= autolockMs world_open /\
  forall meta, meta_of world_open = Some meta ->
    60000 <= meta_autolockMs meta /\ iterations meta = 310000 /\
    is_Ret (base64ToBytes (saltB64 meta)) = true.
Proof. apply (settings_in_range world_open), reachable_world_open. Defined.

Lemma key_in_memory_is_backed_witness :
  is_Some (alarms world_open !! "autolock") /\
  exists jwk, session_jwk world_open = Some jwk /\ k jwk = key_bytes key_pw.
Proof.
  apply (key_in_memory_is_backed world_open key_pw);
    [apply reachable_world_open|by vm_compute].
Defined.

Lemma salt_never_changes_witness :
  exists meta', meta_of world_evening = Some meta' /\
    base64ToBytes (saltB64 meta') = base64ToBytes (saltB64 (new_meta world0)) /\
    iterations meta' = iterations (new_meta world0).
Proof.
  apply (salt_never_changes world_open (tail a_day) world_evening (new_meta world0));
    [apply reachable_world_open|apply replay_steps; by vm_compute|by vm_compute].
Defined.

Lemma alarm_locks_running_worker_witness :
  effective_key (onAlarm "autolock" (fired world_late)).2 = None /\
  vault_record (onAlarm "autolock" (fired world_late)).2 = vault_record world_late.
Proof.
  apply (alarm_locks_running_worker world_late _ key_pw); [by vm_compute|].
  apply step_alarm. by_eval.
Defined.

Lemma alarm_missed_after_restart_witness :
  effective_key (onAlarm "autolock" (fired (fresh_globals world_late))).2 =
    Some (resumed_key (key_bytes key_pw)) /\
  (onMessage STATUS (onAlarm "autolock" (fired (fresh_globals world_late))).2).1 =
    Ret (RespStatus true).
Proof.
  apply (alarm_missed_after_restart world_late); [by vm_compute|].
  apply step_alarm. by_eval.
Defined.

Lemma resume_uses_default_duration_witness :
  alarms (onMessage STATUS (fresh_globals world_late)).2 !! "autolock" =
  Some (clock world_late + 5 * 60000).
Proof.
  apply (resume_uses_default_duration world_late (resumed_key (key_bytes key_pw))).
  by vm_compute.
Defined.

Lemma timer_rounds_to_minutes_witness :
  exists minutes,
    alarms (resetAutolockTimer (set_autolockMs 90000 world0)).2 !! "autolock" =
      Some (clock (set_autolockMs 90000 world0) + minutes * 60000) /\
    minutes * 60000 - 30000 <= autolockMs (set_autolockMs 90000 world0)
      < minutes * 60000 + 30000.
Proof. apply (timer_rounds_to_minutes (set_autolockMs 90000 world0)). by vm_compute. Defined.

Lemma set_autolock_floor_witness :
  onMessage (SET_AUTOLOCK (Some 59999)) world_open =
  (Ret (RespError "Invalid autolock value; must be >= 1 minute"), world_open).
Proof. apply (set_autolock_floor 59999 world_open). lia. Defined.

Lemma set_autolock_saves_witness :
  (onMessage (SET_AUTOLOCK (Some 60000)) world_open).1 = Ret RespOk /\
  autolockMs (onMessage (SET_AUTOLOCK (Some 60000)) world_open).2 = 60000 /\
  meta_of (onMessage (SET_AUTOLOCK (Some 60000)) world_open).2 =
    Some (with_autolock 60000 (new_meta world0)) /\
  (is_Some (derivedKey world_open) ->
   alarms (onMessage (SET_AUTOLOCK (Some 60000)) world_open).2 !! "autolock" =
     Some (clock world_open + autolock_minutes 60000 * 60000)).
Proof.
  apply (set_autolock_saves 60000 (new_meta world0) world_open); [lia|by vm_compute].
Defined.

Lemma first_unlock_creates_vault_witness :
  (onMessage (UNLOCK "pw") world0).1 = Ret RespOk /\
  derivedKey world_open = Some key_pw /\
  session_jwk world_open = Some (jwk_of key_pw) /\
  vault_doc key_pw world_open = Ret empty_vault /\
  is_Some (alarms world_open !! "autolock").
Proof.
  apply (first_unlock_creates_vault "pw" world0);
    [apply usable_world0|reflexivity..].
Defined.

(** ** The cipher *)

Lemma decrypt_iff_same_key_witness :
  decryptJSON (T := VaultDoc) (Some (sealed vault_ab key_pw 7)) (Some key_other) =
  if decide (key_bytes key_other = key_bytes key_pw) then Ret vault_ab
  else Throw "OperationError".
Proof.
  apply (decrypt_iff_same_key vault_ab key_pw key_other 7);
    [apply derived_key_usable|by_eval|by_eval|reflexivity].
Defined.

Lemma import_export_jwk_witness :
  subtle_importKey_jwk (jwk_of key_pw) false [UEncrypt; UDecrypt] =
  Ret {| algorithm := "AES-GCM"; key_bytes := key_bytes key_pw;
         extractable := false; usages := [UEncrypt; UDecrypt] |}.
Proof.
  apply (import_export_jwk key_pw (jwk_of key_pw));
    [apply usable_key_pw|reflexivity..].
Defined.

Lemma deriveKeyPBKDF2_throws_witness :
  is_Ret (deriveKeyPBKDF2 "pw" [1; 2; 3] (Some 0)) = false.
Proof. apply (deriveKeyPBKDF2_throws "pw" [1; 2; 3] 0). lia. Defined.

(** ** Base64 *)

Lemma base64_roundtrip_witness : base64ToBytes "TWFu/w==" = Ret [77; 97; 110; 255].
Proof. apply (base64_roundtrip [77; 97; 110; 255] "TWFu/w=="); [by_eval|reflexivity]. Defined.

Lemma base64ToBytes_bad_length_witness :
  base64ToBytes "TWFuT" = Throw "InvalidCharacterError".
Proof. apply (base64ToBytes_bad_length "TWFuT"). reflexivity. Defined.

Lemma bytesToBase64_length_witness :
  String.length "TWFu/w==" = (4 * ((length [77; 97; 110; 255] + 2) / 3))%nat.
Proof. apply (bytesToBase64_length [77; 97; 110; 255] "TWFu/w=="). reflexivity. Defined.

(** ** The database *)

Lemma idbSet_idbGet_witness :
  stored STORE_VAULT "default" (idbSet STORE_VAULT "default" 5 idb0).2 = Some 5 /\
  (forall key', key' <> "default" ->
     stored STORE_VAULT key' (idbSet STORE_VAULT "default" 5 idb0).2 =
     stored STORE_VAULT key' idb0) /\
  (idbGet STORE_VAULT "default" (idbSet STORE_VAULT "default" 5 idb0).2).1 =
    Ret (or_null (Some 5)).
Proof. apply (idbSet_idbGet "default" 5 idb0); apply healthy_idb0. Defined.

Lemma ensureDB_failure_is_cached_witness :
  open_fails (set_open_fails false (ensureDB idb_broken).2) = false /\
  ensureDB (set_open_fails false (ensureDB idb_broken).2) =
  (Throw "UnknownError", set_open_fails false (ensureDB idb_broken).2).
Proof. apply (ensureDB_failure_is_cached idb_broken); reflexivity. Defined.

Lemma put_readonly_witness :
  (withStore STORE_VAULT readonly (fun mode => store_put mode 5 "default") idb0).1 =
    Throw "ReadOnlyError" /\
  stored STORE_VAULT "default"
    (withStore STORE_VAULT readonly (fun mode => store_put mode 5 "default") idb0).2 =
  stored STORE_VAULT "default" idb0.
Proof. apply (put_readonly "default" 5 STORE_VAULT "default" idb0); apply healthy_idb0. Defined.

Lemma ensureDB_stored_witness :
  stored STORE_VAULT "default" (ensureDB idb0).2 = stored STORE_VAULT "default" idb0.
Proof. apply (ensureDB_stored STORE_VAULT "default" idb0), healthy_idb0. Defined.

(** ** The document *)

Lemma upsert_unique_ids_witness : unique_ids (upsert alice vault_ab).
Proof. apply (upsert_unique_ids alice vault_ab). by_eval. Defined.

Lemma upsert_lookup_other_witness :
  as_map (upsert alice vault_ab) !! "2" = as_map vault_ab !! "2".
Proof. by apply (upsert_lookup_other alice vault_ab "2"). Defined.

Lemma remove_unique_ids_witness : unique_ids (remove "1" vault_ab).
Proof. apply (remove_unique_ids "1" vault_ab). by_eval. Defined.

Lemma credsForOrigin_other_witness : bob ∉ credsForOrigin "https://a.example" vault_ab.
Proof.
  by apply (credsForOrigin_other "https://a.example" "https://b.example" vault_ab bob).
Defined.

(** ** More of the worker *)

Lemma resume_after_restart_witness :
  exists doc, vault_doc key_pw world_open = Ret doc /\
    (onMessage LIST_CREDENTIALS (fresh_globals world_open)).1 =
      Ret (RespCreds (creds doc)) /\
    is_Some (derivedKey (onMessage LIST_CREDENTIALS (fresh_globals world_open)).2) /\
    is_Some (alarms (onMessage LIST_CREDENTIALS (fresh_globals world_open)).2
               !! "autolock").
Proof.
  apply (resume_after_restart world_open key_pw);
    [apply reachable_world_open|by vm_compute].
Defined.

Lemma stored_vault_is_sealed_witness :
  exists doc kb e, sealed empty_vault key_pw 16 = sealed doc (master_key kb) e /\
    bytes kb /\ length kb = 32%nat /\
    forall key, effective_key world_open = Some key -> key_bytes key = kb.
Proof.
  apply (stored_vault_is_sealed world_open (sealed empty_vault key_pw 16));
    [apply reachable_world_open|by vm_compute].
Defined.

Lemma set_autolock_before_init_witness :
  onMessage (SET_AUTOLOCK (Some 60000)) world0 =
  (Ret (RespError "Cannot set properties of null (setting 'autolockMs')"), world0).
Proof. apply (set_autolock_before_init 60000 world0); [lia|reflexivity]. Defined.

Lemma remove_absent_witness : remove "3" vault_ab = vault_ab.
Proof. apply (remove_absent "3" vault_ab). by_eval. Defined.

(** ** The page *)

Lemma companion_is_first_match_witness :
  (exists el, inputs page_a !! 0%nat = Some el /\ eligible fields_a (0%nat, el) = true) /\
  forall j el, inputs page_a !! j = Some el -> (j < 0)%nat ->
    eligible fields_a (j, el) = false.
Proof. apply (companion_is_first_match page_a fields_a). by vm_compute. Defined.

Lemma edited_field_is_kept_witness :
  inputs (tab (play [Start; Focus; Mutation] browser_typing)) !! 1%nat =
    inputs (tab browser_typing) !! 1%nat /\
  edited_at 1 (tab (play [Start; Focus; Mutation] browser_typing)) = true.
Proof.
  apply (edited_field_is_kept browser_typing (Page <$> [Start; Focus; Mutation]));
    [apply bsteps_play|by repeat constructor|by vm_compute].
Defined.

Lemma written_means_edited_witness :
  well_marked (tab (play [Start] browser_a)) /\
  forall fields,
    skips fields (tab (play [Start] browser_a)) =
    from_option (fun user => edited_at user (tab (play [Start] browser_a))) false
      (f_user fields)
    || edited_at (f_pw fields) (tab (play [Start] browser_a)).
Proof.
  apply (written_means_edited (play [Start] browser_a)).
  exists browser_a, (Page <$> [Start]).
  split_and!; [apply reachable_world_saved|apply loaded_page_a|apply bsteps_play].
Defined.

Lemma locked_vault_fills_nothing_witness :
  (forall showPicker, maybeAutofill showPicker browser_locked = (Ret tt, browser_locked)) /\
  (forall info, onClicked info browser_locked = (Ret tt, browser_locked)) /\
  (forall form confirmed id,
     on_submit form confirmed id browser_locked = (Ret tt, browser_locked)).
Proof.
  apply (locked_vault_fills_nothing browser_locked); [apply reachable_world0|reflexivity].
Defined.

Lemma fills_are_scoped_witness :
  inputs (tab browser_a) !! 1%nat = Some (filled "s3cret" (input "password" "pass")) \/
  exists key doc cred,
    effective_key (worker browser_a) = Some key /\
    vault_doc key (worker browser_a) = Ret doc /\
    cred ∈ creds doc /\ matches_origin (tab_origin (tab browser_a)) cred = true /\
    (el_value (filled "s3cret" (input "password" "pass")) = username cred \/
     el_value (filled "s3cret" (input "password" "pass")) = password cred).
Proof.
  apply (fills_are_scoped browser_a (Page Start) (page_event Start browser_a).2 1);
    [apply reachable_world_saved|reflexivity|apply (bstep_page Start)|by vm_compute].
Defined.

Lemma captured_is_filled_witness :
  tab (maybeAutofill true (set_tab page_a (on_submit 0 true "id-1" browser_signup).2)).2 =
  fill (captured "id-1" "https://a.example" "alice" "s3cret") fields_a page_a.
Proof.
  apply (captured_is_filled true browser_signup 0 "id-1" _ key_pw empty_vault page_a
           fields_a);
    [apply reachable_world_open|by vm_compute..].
Defined.

Lemma paste_uses_page_origin_witness :
  tab_origin frame_b <> "https://a.example" /\
  inputs (tab (onClicked click_paste {| worker := world_saved; tab := frame_b |}).2) !! 1%nat =
  Some (mark_edited (set_value "s3cret" (input "password" "pin"))).
Proof.
  split; [done|].
  apply (paste_uses_page_origin {| worker := world_saved; tab := frame_b |} click_paste
           "https://a.example/login" "https://a.example" key_pw {| creds := [alice] |} alice);
    [apply reachable_world_saved|by vm_compute..].
Defined.

(** ** The pages of the extension *)

Lemma reachable_world_closed : reachable world_closed.
Proof. apply reachable_served, reachable_world_saved. Qed.

Lemma plain_origins_carol : Forall plain ["https://c.example"; "https://d.example"].
Proof. repeat constructor; by vm_compute. Qed.

Lemma saveSecurity_floor_witness :
  let msg := SET_AUTOLOCK (Some (5 * 60000)) in
  saveSecurity (world_90, options0) =
    (Ret tt, (served msg (world_90, options0).1,
              alert (security_text (response msg (world_90, options0).1))
                (world_90, options0).2)) /\
  response msg (world_90, options0).1 <>
    RespError "Invalid autolock value; must be >= 1 minute".
Proof. refine (proj1 (saveSecurity_floor (world_90, options0)) 5 eq_refl _). lia. Defined.

Lemma shown_duration_is_rounded_witness :
  let s := (world_90, options0) in
  let meta := current_meta world_90 in
  let ms := Math_round_div (meta_autolockMs meta) 60000 * 60000 in
  let s' := (saveSecurity (load s).2).2 in
  meta_of s'.1 = Some (with_autolock ms meta) /\ autolockMs s'.1 = ms /\
  last (alerts s'.2) = Some "Security settings saved" /\
  (ms = meta_autolockMs meta <-> (60000 | meta_autolockMs meta)).
Proof.
  refine (shown_duration_is_rounded (world_90, options0) (current_meta world_90) _ _);
    by vm_compute.
Defined.

Lemma one_view_is_shown_witness : one_view (popup_event PopupLoaded (world0, popup0)).2.2.
Proof. apply (one_view_is_shown PopupLoaded (world0, popup0)). by left. Defined.

Lemma popup_runs_the_worker_witness :
  exists s', popup_event ClickLock (world_saved, popup0) = (Ret tt, s') /\ reachable s'.1.
Proof.
  apply (popup_runs_the_worker ClickLock (world_saved, popup0)), reachable_world_saved.
Defined.

Lemma unlock_shows_vault_witness :
  let s := (world_closed, popup_pw) in
  let r := response (UNLOCK (field "masterInput" s.2)) s.1 in
  let s' := (popup_event ClickUnlock s).2 in
  if ok r then
    exists key doc, effective_key s'.1 = Some key /\ vault_doc key s'.1 = Ret doc /\
      (item_cred <$> items s'.2) =
        filterb (matches_query (toLowerCase (field "search" s.2))) (creds doc) /\
      ("vaultView" ∉ hidden s'.2) /\ ("lockedView" ∈ hidden s'.2) /\
      field "masterInput" s'.2 = "" /\ unlockError s'.2 = ""
  else
    unlockError s'.2 = str_or (resp_error r) "Failed to unlock" /\
    hidden s'.2 = hidden s.2 /\ items s'.2 = items s.2 /\
    field "masterInput" s'.2 = field "masterInput" s.2.
Proof. exact (unlock_shows_vault (world_closed, popup_pw) reachable_world_closed). Defined.

Lemma saved_credential_is_listed_witness :
  let s := (world_open, popup_form) in
  let c := new_credential no_tab "3" s.2 in
  let s' := (popup_event (ClickSave no_tab "3") s).2 in
  exists doc, vault_doc key_pw s.1 = Ret doc /\ vault_doc key_pw s'.1 = Ret (upsert c doc) /\
    (item_cred <$> items s'.2) =
      filterb (matches_query (toLowerCase (field "search" s.2))) (creds (upsert c doc)) /\
    field "inOrigins" s'.2 = "" /\ field "inUser" s'.2 = "" /\
    field "inPass" s'.2 = "" /\ field "inNotes" s'.2 = "" /\
    popup_alerts s'.2 = popup_alerts s.2.
Proof.
  refine (saved_credential_is_listed no_tab "3" (world_open, popup_form) key_pw
            reachable_world_open _ _); by vm_compute.
Defined.

Lemma edit_dialog_roundtrip_witness :
  let s := (world_saved, popup_list) in
  let c := item_cred (render_item carol) in
  let s1 := (popup_event (ClickEdit 0) s).2 in
  edited_credential s1.2 = c /\
  (popup_event ClickEditSave s1).2.1 =
    if ok (response (SAVE_CREDENTIAL c) s.1)
    then served LIST_CREDENTIALS (served (SAVE_CREDENTIAL c) s.1)
    else served (SAVE_CREDENTIAL c) s.1.
Proof.
  refine (edit_dialog_roundtrip 0 (render_item carol)
            ["https://c.example"; "https://d.example"] (world_saved, popup_list)
            eq_refl _ plain_origins_carol eq_refl _); [by vm_compute|done].
Defined.

Lemma locked_vault_in_popup_witness :
  let s := (world_closed, popup_list) in
  (popup_event (InputSearch "carol") s).2 =
    (s.1, set_items [] (set_field "search" "carol" s.2)) /\
  (field "inPass" s.2 <> "" ->
   (popup_event (ClickSave no_tab "4") s).2 =
     (s.1, popup_alert "Failed to save: Locked" s.2)) /\
  (field "editId" s.2 <> "" -> (popup_event ClickEditSave s).2 = s) /\
  (forall i, is_Some (items s.2 !! i) ->
   (popup_event (ClickDelete i) s).2 = (s.1, set_items [] s.2)).
Proof.
  refine (locked_vault_in_popup (world_closed, popup_list) "carol" no_tab "4" _).
  by vm_compute.
Defined.

Lemma menu_click_is_handled_witness :
  if String.eqb (menuItemId click_paste) "passvault_autofill"
  then onClicked click_paste {| worker := world_installed; tab := frame_b |} =
       (Ret tt, (content_onMessage TRIGGER_AUTOFILL
                   {| worker := world_installed; tab := frame_b |}).2)
  else onClicked click_paste {| worker := world_installed; tab := frame_b |} =
       (Ret tt, after_paste click_paste "https://a.example"
                  {| worker := world_installed; tab := frame_b |}) /\
       forall cred, pasted click_paste cred =
         Some (if String.eqb (menuItemId click_paste) "passvault_paste_username"
               then username cred else password cred).
Proof.
  refine (menu_click_is_handled {| worker := world_installed; tab := frame_b |} click_paste
            "https://a.example/login" "https://a.example" _ _ eq_refl eq_refl eq_refl).
  - apply (reachable_step world_saved Installed); [apply reachable_world_saved|constructor].
  - vm_compute. by right; left.
Defined.

(** ** Handlers that interleave *)

Lemma uninterrupted_handler_witness :
  let s1 := await_vault (SAVE_CREDENTIAL bob) (world_saved, []) in
  match s1.1 with
  | Ret (Some r) =>
      r = response (SAVE_CREDENTIAL bob) world_saved /\
      s1.2 = (served (SAVE_CREDENTIAL bob) world_saved, [])
  | Ret None =>
      continue (length (@nil Waiting)) s1.2 =
      (Ret (Some (response (SAVE_CREDENTIAL bob) world_saved)),
       (served (SAVE_CREDENTIAL bob) world_saved, []))
  | Throw _ => False
  end.
Proof. exact (uninterrupted_handler (SAVE_CREDENTIAL bob) world_saved [] eq_refl). Defined.

Lemma last_writer_wins_witness :
  let s2 := (await_vault (SAVE_CREDENTIAL bob)
               (await_vault (SAVE_CREDENTIAL alice) (world_open, [])).2).2 in
  let r1 := continue 0 s2 in
  let r2 := continue 0 r1.2 in
  r1.1 = Ret (Some RespOk) /\ r2.1 = Ret (Some RespOk) /\ r2.2.2 = [] /\
  vault_doc key_pw r2.2.1 = Ret (upsert bob empty_vault) /\
  vault_doc key_pw (served (SAVE_CREDENTIAL bob) (served (SAVE_CREDENTIAL alice) world_open)) =
    Ret (default (upsert alice empty_vault)
           (edit (SAVE_CREDENTIAL bob) (upsert alice empty_vault))).
Proof.
  refine (last_writer_wins (SAVE_CREDENTIAL alice) (SAVE_CREDENTIAL bob) world_open key_pw
            empty_vault (upsert alice empty_vault) (upsert bob empty_vault)
            reachable_world_open _ _ eq_refl eq_refl); by vm_compute.
Defined.

(** ** The system *)

Lemma system_is_sound_witness : sound (system_event (InPopup PopupLoaded) system0).2.
Proof.
  apply (system_is_sound (system_event (InPopup PopupLoaded) system0).2).
  exists system0. split; [|by apply rtc_once, sstep_event].
  split_and!; [apply reachable_world0|apply loaded_page_a|by vm_compute].
Defined.

Lemma popup_saved_is_filled_witness :
  let s1 := (system_event (InPopup (ClickSave tab_a "5")) system_form).2 in
  sys_tab (system_event (InTab Focus) s1).2 =
  fill (new_credential tab_a "5" (sys_popup system_form)) fields_a (sys_tab system_form).
Proof.
  refine (popup_saved_is_filled system_form tab_a "5" key_pw empty_vault fields_a
            reachable_world_open _ _ _ _ _ _ _); by vm_compute.
Defined.

Lemma popup_deleted_is_not_filled_witness :
  let s1 := (system_event (InPopup (ClickDelete 0)) system_saved).2 in
  sys_tab (system_event (InTab Focus) s1).2 = sys_tab system_saved.
Proof.
  refine (popup_deleted_is_not_filled system_saved 0 (render_item alice) key_pw
            {| creds := [alice] |} reachable_world_saved _ _ _ _); try by vm_compute.
  intros c Hc. replace (credsForOrigin _ _) with [alice] in Hc by by vm_compute.
  by apply list_elem_of_singleton in Hc as ->.
Defined.

Lemma popup_lock_stops_fills_witness :
  let s1 := (system_event (InPopup ClickLock) system_saved).2 in
  inputs (sys_tab (system_event (InTab Focus) s1).2) = inputs (sys_tab system_saved).
Proof. exact (popup_lock_stops_fills system_saved Focus eq_refl). Defined.

(** ** The run without end *)

Lemma idle_react n : (n <> 1)%nat -> forall w,
  react (idle_labels n) w = Some (set_clock (clock w + 300000) w).
Proof.
  intros Hn w. unfold idle_labels. by rewrite (proj2 (Nat.eqb_neq n 1) Hn).
Qed.

Lemma idle_states_tick n :
  idle_states (S (2 + n)) =
  set_clock (clock (idle_states (2 + n)) + 300000) (idle_states (2 + n)).
Proof. cbn [idle_states]. by rewrite idle_react. Qed.

Lemma idle_states_late n :
  clock (idle_states (2 + n)) = 301000 + 300000 * Z.of_nat n /\
  alarms (idle_states (2 + n)) !! "autolock" = None.
Proof.
  induction n as [|n [IHc IHa]]; [by vm_compute|].
  replace (2 + S n)%nat with (S (2 + n)) by lia. rewrite idle_states_tick.
  cbn [clock alarms set_clock]. split; [lia|done].
Qed.

Lemma is_run_idle_run : is_run idle_run.
Proof.
  intros n. apply react_step. cbn [idle_run state_at label_at idle_states].
  destruct (decide (n = 1%nat)) as [->|Hn]; [by vm_compute|]. by rewrite idle_react.
Qed.

Lemma time_passes_idle_run : time_passes idle_run.
Proof.
  intros T n. exists (2 + (n + Z.to_nat T))%nat. split; [lia|].
  cbn [idle_run state_at]. destruct (idle_states_late (n + Z.to_nat T)) as [-> _]. lia.
Qed.

Lemma alarm_fair_idle_run : alarm_fair idle_run.
Proof.
  intros n. destruct (decide (n <= 1)%nat).
  - exists 1%nat. split; [done|by left].
  - exists (2 + (n - 2))%nat. split; [lia|right]. cbn [idle_run state_at].
    intros (t & Ht & _). destruct (idle_states_late (n - 2)) as [_ Ha]. congruence.
Qed.

Lemma idle_worker_locks_witness :
  exists m, (0 <= m)%nat /\
    (busy (label_at idle_run m) = true \/
     label_at idle_run m = Alarm /\ effective_key (state_at idle_run (S m)) = None).
Proof.
  apply (idle_worker_locks idle_run 0);
    [apply is_run_idle_run|apply reachable_world_open|apply time_passes_idle_run
    |apply alarm_fair_idle_run|by eexists].
Defined.

(** ** Strings *)

(** [parseInt] on what a user types: white space and a sign are read, what
    follows the digits is dropped, and no digit is no number. *)
Example parseInt_examples :
  parseInt " 12 minutes" = Some 12 /\ parseInt "-3" = Some (-3) /\
  parseInt "1.9" = Some 1 /\ parseInt "ten" = None /\ parseInt "" = None.
Proof. by vm_compute. Qed.

(** The companion field need not be one the user sees.  On a login page
    whose form starts with a hidden input named [form_id], [findFields]
    takes that input for the companion, because its name holds the hint
    [id]; a fill then writes the user name over the token and leaves the
    visible field for the e-mail address empty. *)
Example companion_can_be_hidden :
  findFields page_token = Some {| f_form := Some 0%nat; f_user := Some 0%nat; f_pw := 2%nat |} /\
  isVisible (hidden_input "form_id" "tok-81") = false /\
  value_of 0 (applyCred alice page_token) = "alice" /\
  value_of 1 (applyCred alice page_token) = "" /\
  value_of 2 (applyCred alice page_token) = "s3cret".
Proof. by vm_compute. Qed.
